(* ===== verification/_CoqProject ===== *)
-Q . S2P
Prelude.v
GoStd.v
OS.v
Flag.v
Json.v
JsonCodec.v
MessageCodec.v
Ptyutil.v
ResourcePool.v
UIDPool.v
PortPool.v
Net.v
NetParse.v
Network.v
NetworkPool.v
Warden.v
MemoryStat.v
Snapshot.v
Url.v
UrlQuery.v
SysConfig.v
RootFSProvider.v
Paths.v
Patricia.v
TruncIndex.v
GraphDriver.v
Aufs.v
DockerGraph.v
DockerHttp.v
RepositoryFetcher.v
DockerRegistry.v
DockerStore.v
Regexp.v
BandwidthManager.v
CgroupsManager.v
QuotaManager.v
Process.v
ProcessTracker.v
Iodaemon.v
LinuxContainer.v
ContainerPool.v
LinuxBackend.v
SnapshotJson.v
Typed.v
Protocol.v
Bomberman.v
GardenServer.v
Router.v
Connection.v
ClientServer.v
Client.v
ClientProcess.v
Concurrent.v
Restart.v
Main.v
