(* ===== verification/Prelude.v ===== *)
(** * Verification of warden-linux

    warden-linux (src/, in Go) is a daemon that runs containers. A program talks to it
    through the garden client (vendored), which makes HTTP requests; the router and the
    handlers of the garden server (vendored) turn a request into a call of the backend, and
    the server destroys containers that nobody has used for their grace time; the backend keeps the containers by handle and
    asks the container pool to make and destroy them; the pool hands out what a container
    owns, a uid, a network and host ports, and runs the shell scripts that do the work; a
    container runs processes through its process tracker, which starts an iodaemon (a
    program of its own) for each, and sets its limits through the cgroups, quota and
    bandwidth managers. On shutdown the backend writes snapshots as JSON, from which the
    next daemon restores the containers. The root file system of a container can be an image of
    docker: the repository fetcher fetches its layers from a registry into docker's graph
    (both vendored), whose driver makes directories of them. This library models these parts
    as functions, and the goroutines as step relations, and proves what makes them correct.

    ** How the model is built

    - A call is [M S A := S -> Result A * S] (this file): state passing, with Go's
      error as [Err], and panics and waits that nothing ends as [Crash]. The state
      reached before an error stays, as it does in Go. An operation of a component
      runs on the state of a larger one through a [Lens] ([zoom]).
    - The outside (commands, files, pipes, environment) is OS.v: every call is appended
      to a trace, and what it answers is a function of the trace, the class [Kernel].
      A theorem with a [Kernel] in its context holds for all outsides: any call may
      fail at any moment with any error. Theorems that need more say what: plain
      files read back what was written ([PlainFile], [FileStore]), a memory cgroup
      follows the rules of the Linux controller ([MemoryController]), no call fails
      ([reliable]). [wp] is total correctness up to failures of the outside; [returns]
      says that a call neither panics nor blocks; [steps R] that whatever the call
      does, it moves the state along [R], also when it fails.
    - A critical section under a mutex is one step. Goroutines are inductive step
      relations: [Process.pstep], [ProcessTracker.tracker_step],
      [LinuxContainer.c_step], [LinuxBackend.b_step], [RepositoryFetcher.any_step],
      [Bomberman.bomb_step], [GardenServer.server_step], [GardenServer.stream_step]; what holds at all times is proved by induction on their closure.
    - uint8, uint32, uint64 and int64 are [Z] with the wrap-around written out ([u8],
      [u32], [u64]); addresses are lists of bytes; strings are byte strings.
    - Sorting out who owns a resource is the job of ResourcePool.v: a class
      [ResourcePool] (acquire, remove, release on a free list) with laws, and the
      [Ledger], the invariant that what is free and what is held partition what the
      pool was made with. The three pools are instances, and the container, the
      container pool and the backend are verified against the class.

    ** The files, and what they model (under src/linux_backend unless said otherwise)

    - Prelude.v: results, the monad, lenses, machine integers, slices; the calculi
      [steps] (tactic [mstep]) and [returns] (tactic [rstep], hint database [warden]).
    - GoStd.v, Net.v, NetParse.v, Url.v, UrlQuery.v, Regexp.v, Flag.v: what the program uses
      of Go's standard library: strconv, fmt verbs, strings, bufio.ScanWords, path; net, its
      parsers; net/url, and its queries; regexp; flag.
    - Json.v, JsonCodec.v: encoding/json. Json.v prints and parses text (UTF-8, escapes,
      numbers; the parser's fuel is twice the length of the text, and [parse_json_print]
      shows it is enough for all that is printed); JsonCodec.v maps Go types to trees, with a
      class of codecs that round-trip ([CodecLaws]) whose instances follow the type;
      MessageCodec.v builds the codec of a message from the list of its fields.
    - OS.v: the outside. Warden.v: the data types of the vendored garden/warden package.
    - ResourcePool.v: the interface above, an abstract specification (a set of free and
      a set of held keys) and the refinement that every pool satisfies.
    - UIDPool.v (uid_pool/), PortPool.v (port_pool/), NetworkPool.v (network_pool/),
      Network.v (network/): the pools. [NetworkPool.subnets] takes fuel, one unit for each
      subnet; [NetworkPool.New_enumerates] shows that more than [2^(30-n)] units are enough for an
      IPv4 pool, [NetworkPool.New_v6_unusable] that an IPv6 pool is empty, or no fuel is enough.
    - CgroupsManager.v, QuotaManager.v, BandwidthManager.v (the directories of these names),
      MemoryStat.v ([parseMemoryStat], [parseCPUStat] of linux_container.go).
    - Iodaemon.v (src/iodaemon) and Ptyutil.v (src/ptyutil): the program that holds a
      process's pipes or its terminal; what happens to it is a list of events.
    - Process.v (process_tracker/process.go, fanin_writer.go, fanout_writer.go) and
      ProcessTracker.v (process_tracker/process_tracker.go).
    - Snapshot.v (resources.go, snapshot.go) and LinuxContainer.v (linux_container.go):
      the container; [do_op] is any request to it.
    - SysConfig.v (src/sysconfig): names made from the tag; the command runner that adds
      them to the environment, a [Kernel] built from another.
    - RootFSProvider.v (container_pool/rootfs_provider) and RepositoryFetcher.v
      (container_pool/repository_fetcher): where root file systems come from. The fetcher is
      verified against the interfaces [Registry] and [Graph] and their laws ([StoreLaws]).
    - Docker's packages, vendored: Patricia.v (tchap/go-patricia), a trie, and TruncIndex.v
      (docker/pkg/truncindex), the index of ids made of it; GraphDriver.v (docker/daemon/graphdriver
      and its driver vfs) and Aufs.v (its driver aufs, docker/pkg/mount); DockerGraph.v
      (docker/graph, docker/image), the store of images; DockerHttp.v (docker/utils: http.go,
      resumablerequestreader.go) and DockerRegistry.v (docker/registry/registry.go), the client
      of registries. DockerStore.v: the graph and the registry as the fetcher's interfaces.
      Paths.v: names, directories and the files in a tree.
    - ContainerPool.v (container_pool/container_pool.go), LinuxBackend.v (linux_backend.go),
      Restart.v (stopping and starting the daemon), Main.v (src/main.go, from the command
      line on, and src/system_info): the daemon.
    - SnapshotJson.v: the JSON of snapshots and networks, the instance of the backend's
      codec; Typed.v: containers whose values are of their Go types.
    - Concurrent.v: [Create] and [Destroy] as programs whose calls interleave.
    - Bomberman.v (garden/server/bomberman, garden/server/timebomb, vendored): the bombs that
      destroy idle containers, on an explicit clock; Protocol.v (garden/protocol): the
      messages; GardenServer.v (garden/server): the handlers, the streams, the connections.
    - Router.v (garden/routes, tedsuo/rata, bmizerany/pat, vendored): how a request is made
      for a route and how the server finds the handler of it.
    - Connection.v (garden/client/connection, vendored): an operation of the API as a
      request, over any transport [Do]. ClientServer.v: the transport that runs the server's
      handler on the server's state. Client.v (garden/client), ClientProcess.v (process.go,
      process_stream.go, stdin_writer.go of the connection): containers and processes at the
      client's end.

    A definition has the name of the Go function it models; where Rocq needs another, it is
    close ([RestoreSnapshot] for the pool's [Restore], which is after decoding; [Set_],
    [Network_], [String_]).

    ** What the theorems show

    - Isolation. [Main.main_isolates_containers]: from the command line on, whatever
      requests come, one at a time, and whatever fails, panics or blocks (a provider of root
      file systems, too: docker's does, [failed_layer_request_panics]), no two containers
      share a uid, a network or a port of the port pool (ports that clients choose are not
      the pool's).
      It rests on [LinuxBackend.containers_stay_isolated], which holds for any pools that
      satisfy the interface, on what each operation of the container pool does to the
      accounts ([ContainerPool.Create_accounts], [Destroy_accounts], [Restore_accounts]),
      on [LinuxContainer.container_keeps_ports], and on the pools themselves
      ([port_pool_refines], [network_pool_partition], [uid_pool_partition],
      [port_pool_never_duplicates]). [GardenServer.server_isolates_containers] is the same
      for the server's requests, [Concurrent.overlapping_requests_isolated] for creations and
      destructions that overlap, and [Concurrent.uninterrupted_requests] says that the two
      views agree.
    - The server. [GardenServer.server_refines_bombs]: its bombs behave as the system of
      bombs, for which [Bomberman.reaped_when_idle] says that the idle containers are
      destroyed, and no others, among those whose handles are used in order: the parameter
      [orderly] of both step relations; what happens to others are the failures named below.
      [requests_rejected]; [Start_straps_all]; [stream_faithful] and
      [payload_roundtrip]: what a client gets of a process's output;
      [new_connection_blocks_stop]: what stopping waits for.
    - The client. [Router.request_reaches_handler]: a request gets to the handler of its
      route with its parameters. [ClientServer.client_transparent]: an operation called at the
      client is the call of the backend with the same arguments and the same result, for
      arguments that survive the wire.
      [ClientProcess.client_sees_process], [input_reaches_process]: the same for the streams of
      a process, which carry UTF-8 text. [Client.lookup_exact]: which handles are found.
    - iodaemon. [Iodaemon.Run_starts_child], [stdin_relayed], [exit_status_relayed],
      [resize_reaches_process]: the tracker's side and the program's side of a process fit.
    - Snapshots. [SnapshotJson.snapshot_json_roundtrip]: the text is read back as it was
      written; [Typed.snapshots_readable]: that of every container that can come about.
    - Restarting. [Restart.restart_keeps_containers]: when no call fails, the containers
      after a restart are those before it, up to three of the four limits;
      [LinuxContainer.restore_snapshot] is the same for one container, when calls fail.
      [ProcessTracker.Restore_reserves_id]: restored processes keep their ids.
    - Containers. [lifecycle] (the states), [container_evolves] (what no operation changes),
      [LimitMemory_applies] (the two files of the memory controller are written in an
      order that works for raising and for lowering a limit), [oom_stops_container].
    - Processes. [Process.exit_status_reported], [wait_result_stable], [exit_completes],
      [unlink_never_completes]: a waiter gets the exit status of the process, once it has
      exited, and never because the daemon let go of it; [fanout_delivers];
      [ProcessTracker.Run_fresh_id].
    - Images. [DockerStore.fetched_images_indexed]: fetching, from the HTTP requests to the
      index of the graph, keeps no layer without its ancestors, and what was fetched is found;
      it is [RepositoryFetcher.fetch_keeps_ancestry], proved of any registry and graph that obey
      the laws, with docker's in their places. [layers_fetched_once] (mutual exclusion without
      deadlock). [TruncIndex.index_refines_set]: the index answers as a set of ids would;
      [Patricia.trie_is_map]: its trie is a map. [DockerGraph.Register_all_or_nothing],
      [registered_image_found] (the round trip of an image through the graph's files),
      [Delete_forgets] (the index keeps naming what is there, less the image deleted).
      [DockerHttp.download_resumes]: a layer is complete however often its download breaks, and
      comes to its end if every connection brings a byte. [DockerRegistry.credentials_stay_trusted]:
      where redirections may take credentials. [Aufs.users_find_mounted]: an image is mounted,
      with all its layers, as long as it has users.
    - Reports. [QuotaManager.SetLimits_blocks], [bandwidth_roundtrip], [quota_reads_line], [memory_stat_reads]: what is
      parsed from a command's output is what was set or printed.
    - The id generator, the size of the pool, providers: [container_ids_distinct],
      [MaxContainers_suffices], [destroy_uses_creating_provider].
    - Failures of the code, proved of the model: [duplicate_handle_loses_container],
      [unknown_providers_exhaust_pool], [restore_conflict_frees_taken_port],
      [oom_notifier_lost], [failed_spawn_hangs_UnlinkAll], [two_stdins_hang_wait],
      [silent_repquota_blocks], [New_v6_unusable], [failed_greeting_kills],
      [overlapping_destroys_share_uid], [strapped_twice_reaps_anyway],
      [early_request_unbalances], [failed_reap_forgets_container], [exit_can_drop_output],
      and as lemmas [uid_double_release], [handle_not_escaped], [env_entry_panics],
      [uid_New_overflow], [convertUnits_mega_giga], [blocks_of_overflow],
      [GetLimits_fails_above_4GiB], [default_ports_out_of_range]; of docker's packages
      [registering_again_removes_layer], [empty_id_removes_all_layers], [id_removes_any_directory],
      [blank_id_not_indexed], [own_parent_no_history], [Delete_takes_ancestor],
      [DeleteSubtree_keeps_item], [failed_layer_request_panics], [private_registry_panics],
      [null_image_panics], [error_page_read_as_layer], [counted_not_mounted],
      [half_mounted_image_used].

    ** What is not modelled

    - Tar archives, the size of trees and all fields of an image's JSON but its id, its parent and
      its size: parameters of DockerGraph.v ([Archiver]). The drivers btrfs and devicemapper,
      which the daemon does not link; the requests of the registry's client that push and
      search, and the accounts of auth.go, which it does not make. gosigar: arguments.
    - The state of docker's graph is not part of that of the container pool: the daemon
      of Main.v takes the docker provider as an argument, and DockerStore.v is about the fetcher
      that is one of its parts ([setup], [daemon_fetch]).
    - HTTP itself: a message is its method, URL, headers and body; servers, proxies and
      cookies are the outside ([client_Do]).
    - Raw mode of terminals, and the bytes of gob between iodaemon and its links: Iodaemon.v
      takes the values they carry.
    - Interleavings inside a request other than [Create] and [Destroy]: a request is one
      step, and goroutines step between requests. (The theorems on the pools hold for any
      interleaving of their clients' calls.) Logging.

    ** What comes next

    The state of docker's graph as part of the container pool's; archives; the remaining
    requests at the grain of their calls. *)
From Stdlib Require Export ZArith Lia.
From stdpp Require Export base option list strings gmap fin_maps pretty numbers relations.

Local Open Scope string_scope.
Local Open Scope list_scope.
Local Open Scope Z_scope.

(** * Errors, results and the state-and-error monad *)

(** A Go [error] value: the name of its dynamic type and what [Error()] returns. *)
Record error := mkError { err_type : string; err_msg : string }.

#[export] Instance error_eq_dec : EqDecision error.
Proof. solve_decision. Defined.

(** The ways a Go call fails to return: a run-time panic, or a wait that
    nothing in the state it starts from ends. *)
Inductive fault :=
  | NilDereference
  | Blocked
  | Panic (msg : string).

(** What a call produces: [Ok a] for [(a, nil)], [Err e] for [(_, e)]. *)
Inductive Result (A : Type) :=
  | Ok (a : A)
  | Err (e : error)
  | Crash (f : fault).

Arguments Ok {A} a.
Arguments Err {A} e.
Arguments Crash {A} f.

#[export] Instance Result_ret : MRet Result := λ A a, Ok a.
#[export] Instance Result_bind : MBind Result := λ A B f r,
  match r with Ok a => f a | Err e => Err e | Crash c => Crash c end.

(** Stateful calls. The state reached before an error is kept, as in the code. *)
Definition M (S A : Type) : Type := S → Result A * S.

#[export] Instance M_ret S : MRet (M S) := λ A a s, (Ok a, s).

#[export] Instance M_bind S : MBind (M S) := λ A B f m s,
  match m s with
  | (Ok a, s') => f a s'
  | (Err e, s') => (Err e, s')
  | (Crash c, s') => (Crash c, s')
  end.

Definition raise {S A} (e : error) : M S A := λ s, (Err e, s).
Definition crash {S A} (c : fault) : M S A := λ s, (Crash c, s).
Definition gets {S A} (f : S → A) : M S A := λ s, (Ok (f s), s).
Definition modify {S} (f : S → S) : M S unit := λ s, (Ok tt, f s).

(** [x, err := m] where the code inspects [err] itself. *)
Definition attempt {S A} (m : M S A) : M S (A + error) := λ s,
  match m s with
  | (Ok a, s') => (Ok (inl a), s')
  | (Err e, s') => (Ok (inr e), s')
  | (Crash c, s') => (Crash c, s')
  end.

(** A call whose error the code drops. *)
Definition ignore_err {S A} (m : M S A) : M S unit := attempt m ≫= λ _, mret tt.

(** [defer c()]: whatever [m] returns, after [c]. *)
Definition deferred {S A} (c : M S unit) (m : M S A) : M S A :=
  r ← attempt m;
  ignore_err c ≫= λ _, match r with inl a => mret a | inr e => raise e end.

(** [defer func() { if err != nil { c() } }()] *)
Definition deferred_on_error {S A} (c : M S unit) (m : M S A) : M S A :=
  r ← attempt m;
  match r with inl a => mret a | inr e => ignore_err c ≫= λ _, raise e end.

(** [for _, x := range l { err := f(x); if err != nil { return err } }] *)
Fixpoint for_each {S A} (f : A → M S unit) (l : list A) : M S unit :=
  match l with
  | [] => mret tt
  | x :: l' => f x ≫= λ _, for_each f l'
  end.

(** Lift a value of type [Result] into the monad. *)
Definition of_result {S A} (r : Result A) : M S A := λ s, (r, s).

(** * Lenses: running an operation of a component on a larger state *)

Record Lens (S T : Type) := mkLens { view : S → T; over : T → S → S }.
Arguments mkLens {S T} view over.
Arguments view {S T} l s.
Arguments over {S T} l t s.

Class LensLaws {S T} (L : Lens S T) := {
  view_over t s : view L (over L t s) = t;
  over_view s : over L (view L s) s = s;
  over_over t t' s : over L t (over L t' s) = over L t s
}.

Definition zoom {S T A} (L : Lens S T) (m : M T A) : M S A := λ s,
  let '(r, t) := m (view L s) in (r, over L t s).

(** * Relational specifications *)

(** [steps R m]: whatever [m] returns, the state moves along [R]. With [R] the
    relation [λ s s', I s → I s'] this is preservation of the invariant [I]. *)
Definition steps {S A} (R : relation S) (m : M S A) : Prop := ∀ s, R s (m s).2.

(** [m] returns, with a value or an error: it neither panics nor blocks. *)
Definition returns {S A} (m : M S A) : Prop := ∀ s f, (m s).1 ≠ Crash f.

Definition inv_rel {S} (I : S → Prop) : relation S := λ s s', I s → I s'.

(** * Machine integers *)

Definition u8 (z : Z) : Z := z mod 2 ^ 8.
Definition u16 (z : Z) : Z := z mod 2 ^ 16.
Definition u32 (z : Z) : Z := z mod 2 ^ 32.
Definition u64 (z : Z) : Z := z mod 2 ^ 64.
Definition is_u8 (z : Z) : Prop := 0 ≤ z < 2 ^ 8.
Definition is_u32 (z : Z) : Prop := 0 ≤ z < 2 ^ 32.
Definition is_u64 (z : Z) : Prop := 0 ≤ z < 2 ^ 64.

(** * Slices *)

(** [append(l[:i], l[i+1:]...)] *)
Definition remove_at {A} (i : nat) (l : list A) : list A := take i l ++ drop (S i) l.

(** [for i := start; i < bound; i++ { l = append(l, i) }] on [uint32] values,
    with at most [fuel] iterations. *)
Fixpoint count_up (fuel : nat) (i bound : Z) : list Z :=
  match fuel with
  | O => []
  | S fuel' => if i <? bound then i :: count_up fuel' (u32 (i + 1)) bound else []
  end.

(** * Lemmas *)

Section monad_laws.
Context {S : Type}.

Lemma bind_Ok {A B} (m : M S A) (f : A → M S B) s a s' :
  m s = (Ok a, s') → (m ≫= f) s = f a s'.
Proof. intros H. unfold mbind, M_bind. by rewrite H. Qed.

Lemma bind_Err {A B} (m : M S A) (f : A → M S B) s e s' :
  m s = (Err e, s') → (m ≫= f) s = (Err e, s').
Proof. intros H. unfold mbind, M_bind. by rewrite H. Qed.

Lemma bind_Crash {A B} (m : M S A) (f : A → M S B) s c s' :
  m s = (Crash c, s') → (m ≫= f) s = (Crash c, s').
Proof. intros H. unfold mbind, M_bind. by rewrite H. Qed.

Lemma bind_Ok_inv {A B} (m : M S A) (f : A → M S B) s b s'' :
  (m ≫= f) s = (Ok b, s'') → ∃ a s', m s = (Ok a, s') ∧ f a s' = (Ok b, s'').
Proof.
  unfold mbind, M_bind. destruct (m s) as [[a|e|c] s'] eqn:E; intros H; [eauto|done..].
Qed.

Lemma attempt_Ok {A} (m : M S A) s a s' :
  m s = (Ok a, s') → attempt m s = (Ok (inl a), s').
Proof. intros H. unfold attempt. by rewrite H. Qed.

Lemma attempt_Err {A} (m : M S A) s e s' :
  m s = (Err e, s') → attempt m s = (Ok (inr e), s').
Proof. intros H. unfold attempt. by rewrite H. Qed.

(** What it takes to return *)
Lemma deferred_Ok {A} c (m : M S A) s a s' : deferred c m s = (Ok a, s') → ∃ s1, m s = (Ok a, s1) ∧ s' = (c s1).2.
Proof.
  unfold deferred, ignore_err, mbind, M_bind, attempt. destruct (m s) as [[b|e|f] s1]; [| |done].
  - destruct (c s1) as [[?|?|?] s2] eqn:E; cbn; intros [= <- <-]; exists s1; by rewrite E.
  - by destruct (c s1) as [[?|?|?] s2].
Qed.

Lemma on_error_Ok {A} c (m : M S A) s a s' : deferred_on_error c m s = (Ok a, s') → m s = (Ok a, s').
Proof.
  unfold deferred_on_error, ignore_err, mbind, M_bind, attempt. destruct (m s) as [[b|e|f] s1]; [by intros [= <- <-]| |done].
  by destruct (c s1) as [[?|?|?] s2].
Qed.

Lemma attempt_inl {A} (m : M S A) s a s' : attempt m s = (Ok (inl a), s') → m s = (Ok a, s').
Proof. unfold attempt. destruct (m s) as [[b|e|f] s1]; [by intros [= <- <-]|done..]. Qed.

Lemma zoom_Ok {T A} (L : Lens S T) (m : M T A) s a s' : zoom L m s = (Ok a, s') → ∃ t, m (view L s) = (Ok a, t) ∧ s' = over L t s.
Proof. unfold zoom. destruct (m (view L s)) as [r t]. intros [= -> <-]. by exists t. Qed.

Lemma of_result_Ok {A} (r : Result A) (s s' : S) a : of_result r s = (Ok a, s') → r = Ok a ∧ s' = s.
Proof. by intros [= -> ->]. Qed.

Lemma for_each_app {A} (f : A → M S unit) l1 l2 s :
  for_each f (l1 ++ l2) s = (for_each f l1 ≫= λ _, for_each f l2) s.
Proof.
  revert s. induction l1 as [|x l1 IH]; intros s; [done|]. simpl.
  unfold mbind, M_bind in *. destruct (f x s) as [[[]|e|c] s']; [|done..]. apply IH.
Qed.

(** ** The calculus of [steps] *)

Context (R : relation S) `{!PreOrder R}.

Lemma steps_ret {A} (a : A) : steps R (mret a).
Proof. intros s. done. Qed.
Lemma steps_raise {A} e : steps R (@raise S A e).
Proof. intros s. done. Qed.
Lemma steps_crash {A} c : steps R (@crash S A c).
Proof. intros s. done. Qed.
Lemma steps_gets {A} (f : S → A) : steps R (gets f).
Proof. intros s. done. Qed.
Lemma steps_of_result {A} (r : Result A) : steps R (of_result r).
Proof. intros s. done. Qed.
Lemma steps_modify f : (∀ s, R s (f s)) → steps R (modify f).
Proof. intros H s. apply H. Qed.

Lemma steps_bind {A B} (m : M S A) (f : A → M S B) :
  steps R m → (∀ a, steps R (f a)) → steps R (m ≫= f).
Proof.
  intros Hm Hf s. specialize (Hm s). unfold mbind, M_bind.
  destruct (m s) as [[a|e|c] s']; simpl in *; [|done..]. etrans; [exact Hm|apply Hf].
Qed.

Lemma steps_attempt {A} (m : M S A) : steps R m → steps R (attempt m).
Proof. intros Hm s. specialize (Hm s). unfold attempt. by destruct (m s) as [[] ?]. Qed.

Lemma steps_ignore_err {A} (m : M S A) : steps R m → steps R (ignore_err m).
Proof. intros Hm. apply steps_bind; [by apply steps_attempt|intros; apply steps_ret]. Qed.

Lemma steps_deferred {A} c (m : M S A) : steps R c → steps R m → steps R (deferred c m).
Proof.
  intros Hc Hm. apply steps_bind; [by apply steps_attempt|]. intros r.
  apply steps_bind; [by apply steps_ignore_err|]. intros _. destruct r; [apply steps_ret|apply steps_raise].
Qed.

Lemma steps_deferred_on_error {A} c (m : M S A) : steps R c → steps R m → steps R (deferred_on_error c m).
Proof.
  intros Hc Hm. apply steps_bind; [by apply steps_attempt|]. intros [a|e]; [apply steps_ret|].
  apply steps_bind; [by apply steps_ignore_err|]. intros _. apply steps_raise.
Qed.

Lemma steps_for_each {A} (f : A → M S unit) l :
  (∀ x, x ∈ l → steps R (f x)) → steps R (for_each f l).
Proof.
  induction l as [|x l IH]; intros H; simpl; [apply steps_ret|].
  apply steps_bind; [apply H; left|intros _; apply IH; intros y Hy; apply H; by right].
Qed.
End monad_laws.

(** Take one step into a monadic program whose states move along a preorder. *)
Ltac mstep :=
  match goal with
  | |- steps _ (mret _) => apply steps_ret; try apply _
  | |- steps _ (raise _) => apply steps_raise; try apply _
  | |- steps _ (crash _) => apply steps_crash; try apply _
  | |- steps _ (of_result _) => apply steps_of_result; try apply _
  | |- steps _ (gets _) => apply steps_gets; try apply _
  | |- steps _ (mbind _ _) => apply steps_bind; [try apply _| |intros ?]
  | |- steps _ (attempt _) => apply steps_attempt
  | |- steps _ (ignore_err _) => apply steps_ignore_err; [try apply _|]
  | |- steps _ (for_each _ _) => apply steps_for_each; [try apply _|intros ? ?]
  | |- steps _ (deferred _ _) => apply steps_deferred; [try apply _| |]
  | |- steps _ (deferred_on_error _ _) => apply steps_deferred_on_error; [try apply _| |]
  | |- steps _ (match ?x with _ => _ end) => destruct x
  end.

#[export] Instance inv_rel_preorder {S} (I : S → Prop) : PreOrder (inv_rel I).
Proof. split; unfold inv_rel; [intros s Hs|intros s1 s2 s3 H1 H2 Hs]; auto. Qed.

Lemma steps_inv {S A} (I : S → Prop) (m : M S A) s :
  steps (inv_rel I) m → I s → I (m s).2.
Proof. intros H. apply H. Qed.

Lemma steps_zoom {S T A} (L : Lens S T) (R : relation S) (Q : relation T) (m : M T A) :
  (∀ s t, Q (view L s) t → R s (over L t s)) → steps Q m → steps R (zoom L m).
Proof.
  intros HR Hm s. specialize (Hm (view L s)). unfold zoom.
  destruct (m (view L s)) as [r t]. by apply HR.
Qed.

(** ** Calls that return *)

Create HintDb warden.

Lemma returns_ret {S A} (a : A) : returns (S := S) (mret a).
Proof. done. Qed.
Lemma returns_raise {S A} e : returns (@raise S A e).
Proof. done. Qed.
Lemma returns_gets {S A} (f : S → A) : returns (gets f).
Proof. done. Qed.
Lemma returns_modify {S} (f : S → S) : returns (modify f).
Proof. done. Qed.

Lemma returns_bind {S A B} (m : M S A) (f : A → M S B) :
  returns m → (∀ a, returns (f a)) → returns (m ≫= f).
Proof.
  intros Hm Hf s c. specialize (Hm s). unfold mbind, M_bind.
  destruct (m s) as [[a|e|c'] s']; [apply Hf|done|by destruct (Hm c')].
Qed.

Lemma returns_attempt {S A} (m : M S A) : returns m → returns (attempt m).
Proof.
  intros Hm s c. specialize (Hm s). unfold attempt.
  destruct (m s) as [[a|e|c'] s']; [done..|by destruct (Hm c')].
Qed.

Lemma returns_ignore_err {S A} (m : M S A) : returns m → returns (ignore_err m).
Proof. intros Hm. apply returns_bind; [by apply returns_attempt|intros; apply returns_ret]. Qed.

Lemma returns_for_each {S A} (f : A → M S unit) l : (∀ x, returns (f x)) → returns (for_each f l).
Proof.
  intros Hf. induction l as [|x l IH]; cbn; [apply returns_ret|by apply returns_bind].
Qed.

Lemma returns_zoom {S T A} (L : Lens S T) (m : M T A) : returns m → returns (zoom L m).
Proof.
  intros Hm s c. specialize (Hm (view L s) c). unfold zoom. by destruct (m (view L s)).
Qed.

Lemma returns_of_result {S A} (r : Result A) : (∀ f, r ≠ Crash f) → returns (S := S) (of_result r).
Proof. intros Hr s c. apply Hr. Qed.

#[export] Hint Resolve returns_ret returns_raise returns_gets returns_modify returns_attempt
  returns_ignore_err returns_zoom : warden.

(** Take one step into a program that returns. *)
Ltac rstep :=
  match goal with
  | |- returns (mbind _ _) => apply returns_bind; [|intros ?]
  | |- returns (for_each _ _) => apply returns_for_each; intros ?
  | |- returns (match ?x with _ => _ end) => destruct x
  | |- returns _ => solve [auto with warden]
  end.

(** ** Integers *)

Lemma u32_small z : is_u32 z → u32 z = z.
Proof. intros H. by apply Z.mod_small. Qed.
Lemma u64_small z : is_u64 z → u64 z = z.
Proof. intros H. by apply Z.mod_small. Qed.
Lemma u8_small z : is_u8 z → u8 z = z.
Proof. intros H. by apply Z.mod_small. Qed.
Lemma u32_range z : is_u32 (u32 z).
Proof. apply Z.mod_pos_bound. lia. Qed.
Lemma u64_range z : is_u64 (u64 z).
Proof. apply Z.mod_pos_bound. lia. Qed.
Lemma u8_range z : is_u8 (u8 z).
Proof. apply Z.mod_pos_bound. lia. Qed.

#[export] Hint Resolve u8_range u32_range u64_range : warden.

(** ** Slices *)

Lemma remove_at_perm {A} (l : list A) i x : l !! i = Some x → l ≡ₚ x :: remove_at i l.
Proof.
  intros H. rewrite <-(take_drop_middle l i x H) at 1. unfold remove_at.
  by rewrite Permutation_middle.
Qed.

Lemma remove_at_delete {A} (l : list A) i : remove_at i l = base.delete i l.
Proof. symmetry. apply delete_take_drop. Qed.

Lemma remove_at_sublist {A} (l : list A) i : remove_at i l `sublist_of` l.
Proof. rewrite remove_at_delete. apply sublist_delete. Qed.

Lemma length_omap_le {A B} (f : A → option B) (l : list A) : (length (omap f l) ≤ length l)%nat.
Proof. induction l as [|x l IH]; [done|]. cbn. destruct (f x); [by apply le_n_S|by apply Nat.le_le_succ_r]. Qed.

(** ** Counting loops *)

(** The loop ends after [bound - i] iterations, whatever further fuel it has. *)
Lemma count_up_seqZ fuel i bound :
  is_u32 i → is_u32 bound → bound - i ≤ Z.of_nat fuel →
  count_up fuel i bound = seqZ i (bound - i).
Proof.
  revert i. induction fuel as [|fuel IH]; intros i Hi Hb Hf.
  - rewrite seqZ_nil by lia. done.
  - simpl. destruct (i <? bound) eqn:E; [|rewrite seqZ_nil by lia; done].
    rewrite (seqZ_cons i (bound - i)) by lia. f_equal.
    unfold is_u32 in *. rewrite u32_small by (unfold is_u32; lia).
    rewrite IH by (unfold is_u32; lia). f_equal; lia.
Qed.

(** ** Maps *)

(** Inserting the entries of a list one after the other. *)
Lemma foldl_insert {V} (m0 : gmap Z V) (l : list (Z * V)) :
  NoDup l.*1 → foldl (λ m kv, <[kv.1 := kv.2]> m) m0 l = list_to_map l ∪ m0.
Proof.
  revert m0. induction l as [|[k v] l IH]; intros m0 Hnd.
  - by rewrite list_to_map_nil, (left_id_L ∅ (∪)).
  - apply NoDup_cons in Hnd as [Hk Hnd]. cbn [foldl fst snd]. rewrite IH by done.
    rewrite list_to_map_cons, <-insert_union_l, <-insert_union_r; [done|].
    by apply not_elem_of_list_to_map_1.
Qed.
