(* ===== verification/GoStd.v ===== *)
(** The functions of Go's standard library that the program uses on numbers
    and strings: [strconv], [fmt] verbs, [strings], [bufio.ScanWords], [path]
    and [path/filepath]. Strings are byte strings ([String.string]). *)
From S2P Require Import Prelude.
From Stdlib Require Import Ascii.

Local Open Scope string_scope.
Local Open Scope list_scope.
Local Open Scope Z_scope.

(** * Errors *)

(** [errors.New], and [fmt.Errorf] on the formatted text *)
Definition errors_New (msg : string) : error := mkError "*errors.errorString" msg.

(** * Characters *)

Definition newline : ascii := "010"%char.
Definition nl : string := String newline EmptyString.
Definition slash : ascii := "/"%char.
Definition dquote : string := String "034"%char EmptyString.

(** ASCII white space, the separators of [bufio.ScanWords] on ASCII input. *)
Definition is_space (c : ascii) : bool :=
  existsb (Ascii.eqb c) ["009"; "010"; "011"; "012"; "013"; " "]%char.

Definition digit_val (c : ascii) : option Z :=
  let n := Z.of_N (N_of_ascii c) in
  if (48 <=? n) && (n <=? 57) then Some (n - 48) else None.

Definition digit_chr (d : Z) : ascii := ascii_of_N (Z.to_N (48 + d)).

(** * Numbers *)

(** The decimal digits of [n >= 0] in front of [acc]; [fuel] bounds their number. *)
Fixpoint dec_digits (fuel : nat) (n : Z) (acc : string) : string :=
  match fuel with
  | O => acc
  | S fuel' =>
      let acc' := String (digit_chr (n mod 10)) acc in
      if n <? 10 then acc' else dec_digits fuel' (n / 10) acc'
  end.

(** [fmt.Sprintf("%d", n)]; [n] has at most [log2 n + 1] decimal digits. *)
Definition fmt_d (n : Z) : string :=
  if n <? 0 then String "-" (dec_digits (S (Z.to_nat (Z.log2 (- n)))) (- n) "")
  else dec_digits (S (Z.to_nat (Z.log2 n))) n "".

(** [fmt.Sprintf("%v", b)] *)
Definition fmt_bool (b : bool) : string := if b then "true" else "false".

Definition ErrSyntax (s : string) : error :=
  mkError "*strconv.NumError" ("strconv.ParseUint: parsing " +:+ dquote +:+ s +:+ dquote +:+ ": invalid syntax").
Definition ErrRange (s : string) : error :=
  mkError "*strconv.NumError" ("strconv.ParseUint: parsing " +:+ dquote +:+ s +:+ dquote +:+ ": value out of range").

(** The loop of [strconv.ParseUint(s0, 10, 64)]. *)
Fixpoint parse_uint_loop (s0 s : string) (n : Z) : Result Z :=
  match s with
  | EmptyString => Ok n
  | String c s' =>
      match digit_val c with
      | None => Err (ErrSyntax s0)
      | Some d =>
          if 2 ^ 64 <=? n * 10 then Err (ErrRange s0)
          else if 2 ^ 64 <=? n * 10 + d then Err (ErrRange s0)
          else parse_uint_loop s0 s' (n * 10 + d)
      end
  end.

(** [strconv.ParseUint(s, 10, 0)] on a 64-bit platform. *)
Definition ParseUint (s : string) : Result Z :=
  match s with
  | EmptyString => Err (ErrSyntax s)
  | _ => parse_uint_loop s s 0
  end.

(** * Strings *)

Fixpoint trim_left (c : ascii) (s : string) : string :=
  match s with
  | String c' s' => if Ascii.eqb c c' then trim_left c s' else s
  | EmptyString => EmptyString
  end.

Fixpoint trim_right (c : ascii) (s : string) : string :=
  match s with
  | EmptyString => EmptyString
  | String c' s' =>
      match trim_right c s' with
      | EmptyString => if Ascii.eqb c c' then EmptyString else String c' EmptyString
      | t => String c' t
      end
  end.

(** [strings.Trim(s, string(c))] for one character *)
Definition Trim (s : string) (c : ascii) : string := trim_right c (trim_left c s).

(** [strings.Split(s, string(sep))] for a one-character separator *)
Fixpoint Split (s : string) (sep : ascii) : list string :=
  match s with
  | EmptyString => [""]
  | String c s' =>
      if Ascii.eqb c sep then "" :: Split s' sep
      else match Split s' sep with
           | w :: ws => String c w :: ws
           | [] => [String c ""]
           end
  end.

(** [strings.Join(l, sep)] *)
Fixpoint Join (l : list string) (sep : string) : string :=
  match l with
  | [] => ""
  | [s] => s
  | s :: l' => s +:+ sep +:+ Join l' sep
  end.

Fixpoint last_char (s : string) : option ascii :=
  match s with
  | EmptyString => None
  | String c EmptyString => Some c
  | String _ s' => last_char s'
  end.

(** [strings.HasSuffix(s, string(c))] for one character *)
Definition HasSuffix (s : string) (c : ascii) : bool :=
  match last_char s with Some c' => Ascii.eqb c c' | None => false end.

(** The words [bufio.ScanWords] yields, in order. *)
Fixpoint words_loop (s : string) (cur : string) : list string :=
  match s with
  | EmptyString => if String.eqb cur "" then [] else [cur]
  | String c s' =>
      if is_space c
      then (if String.eqb cur "" then [] else [cur]) ++ words_loop s' ""
      else words_loop s' (cur +:+ String c "")
  end.

Definition ScanWords (s : string) : list string := words_loop s "".

(** * Paths *)

(** One path component against the stack of components kept so far (last one
    first), as [path.Clean] processes it. *)
Definition clean_component (rooted : bool) (stack : list string) (c : string) : list string :=
  if String.eqb c "" || String.eqb c "." then stack
  else if String.eqb c ".." then
    match stack with
    | top :: rest => if String.eqb top ".." then c :: stack else rest
    | [] => if rooted then [] else [c]
    end
  else c :: stack.

Definition is_rooted (s : string) : bool :=
  match s with String c _ => Ascii.eqb c slash | EmptyString => false end.

(** [path.Clean] *)
Definition Clean (s : string) : string :=
  let rooted := is_rooted s in
  let body := Join (reverse (foldl (clean_component rooted) [] (Split s slash))) "/" in
  let out := if rooted then String slash body else body in
  if String.eqb out "" then "." else out.

(** [path.Join] *)
Fixpoint path_Join (l : list string) : string :=
  match l with
  | [] => ""
  | s :: l' => if String.eqb s "" then path_Join l' else Clean (Join l "/")
  end.

(** The part of [s] up to and including its last slash, and the part after it. *)
Definition split_last_slash (s : string) : string * string :=
  match reverse (Split s slash) with
  | last :: ((_ :: _) as init) => (Join (reverse init) "/" +:+ "/", last)
  | _ => ("", s)
  end.

(** [filepath.Dir] and [path.Dir] on Unix *)
Definition Dir (s : string) : string := Clean (split_last_slash s).1.

(** [filepath.Base] on Unix *)
Definition Base (s : string) : string :=
  if String.eqb s "" then "."
  else let t := trim_right slash s in
       if String.eqb t "" then "/" else (split_last_slash t).2.

(** [strings.Contains] *)
Fixpoint Contains (s sub : string) : bool :=
  String.prefix sub s || match s with String _ rest => Contains rest sub | EmptyString => false end.

(** Every character of the string satisfies the test. *)
Fixpoint all_chars (p : ascii → bool) (s : string) : bool :=
  match s with
  | EmptyString => true
  | String c s' => p c && all_chars p s'
  end.

Definition is_digit (c : ascii) : bool := if digit_val c is Some _ then true else false.

(** The digits at the front of a string, and the rest. *)
Fixpoint span_digits (s : string) : string * string :=
  match s with
  | String c s' =>
      if is_digit c then let '(ds, rest) := span_digits s' in (String c ds, rest) else ("", s)
  | EmptyString => ("", "")
  end.

(** The string has no occurrence of the character. *)
Definition free_of (c : ascii) (s : string) : Prop :=
  all_chars (λ c', negb (Ascii.eqb c' c)) s = true.

(** * Lemmas *)

Lemma digit_val_chr d : 0 ≤ d < 10 → digit_val (digit_chr d) = Some d.
Proof.
  intros Hd. unfold digit_val, digit_chr.
  rewrite N_ascii_embedding by lia. rewrite Z2N.id by lia.
  replace ((48 <=? 48 + d) && (48 + d <=? 57)) with true by lia. f_equal. lia.
Qed.

Lemma is_digit_chr d : 0 ≤ d < 10 → is_digit (digit_chr d) = true.
Proof. intros Hd. unfold is_digit. by rewrite digit_val_chr. Qed.

Lemma dec_digits_parse s0 fuel n acc :
  0 ≤ n < 2 ^ 64 → n < 10 ^ Z.of_nat fuel → fuel ≠ O →
  parse_uint_loop s0 (dec_digits fuel n acc) 0 = parse_uint_loop s0 acc n.
Proof.
  revert n acc. induction fuel as [|fuel IH]; intros n acc Hn Hf Hne; [done|].
  assert (Hmod : 0 ≤ n mod 10 < 10) by (apply Z.mod_pos_bound; lia).
  cbn [dec_digits]. destruct (n <? 10) eqn:E.
  - cbn [parse_uint_loop]. rewrite digit_val_chr by done. rewrite Z.mod_small by lia.
    by replace (2 ^ 64 <=? 0 * 10) with false by lia;
      replace (2 ^ 64 <=? 0 * 10 + n) with false by lia.
  - rewrite Nat2Z.inj_succ, Z.pow_succ_r in Hf by lia.
    assert (Hdiv : n = 10 * (n / 10) + n mod 10) by (apply Z.div_mod; lia).
    rewrite IH; [|lia| |].
    + cbn [parse_uint_loop]. rewrite digit_val_chr by done.
      replace (2 ^ 64 <=? n / 10 * 10) with false by lia.
      replace (n / 10 * 10 + n mod 10) with n by lia.
      by replace (2 ^ 64 <=? n) with false by lia.
    + apply Z.div_lt_upper_bound; lia.
    + intros ->. simpl in Hf. lia.
Qed.

Lemma dec_digits_fuel n : 0 ≤ n → n < 10 ^ Z.of_nat (S (Z.to_nat (Z.log2 n))).
Proof.
  intros Hn. rewrite Nat2Z.inj_succ, Z2Nat.id by apply Z.log2_nonneg.
  destruct (decide (n = 0)) as [->|Hne]; [done|].
  pose proof (Z.log2_spec n ltac:(lia)) as [_ H].
  eapply Z.lt_le_trans; [exact H|]. apply Z.pow_le_mono_l. lia.
Qed.

(** A positive number does not start with a zero. *)
Lemma dec_digits_head fuel n acc :
  0 < n → n < 10 ^ Z.of_nat fuel → fuel ≠ O →
  ∃ d s, 0 < d < 10 ∧ dec_digits fuel n acc = String (digit_chr d) s.
Proof.
  revert n acc. induction fuel as [|fuel IH]; intros n acc Hn Hf Hne; [done|].
  cbn [dec_digits]. destruct (n <? 10) eqn:E.
  - exists n, acc. rewrite Z.mod_small by lia. split; [lia|done].
  - rewrite Nat2Z.inj_succ, Z.pow_succ_r in Hf by lia. apply IH.
    + apply Z.div_str_pos. lia.
    + apply Z.div_lt_upper_bound; lia.
    + intros ->. simpl in Hf. lia.
Qed.

Lemma dec_digits_all_digits fuel n acc :
  all_chars is_digit acc = true → all_chars is_digit (dec_digits fuel n acc) = true.
Proof.
  revert n acc. induction fuel as [|fuel IH]; intros n acc H; [done|].
  assert (Hc : all_chars is_digit (String (digit_chr (n mod 10)) acc) = true).
  { simpl. rewrite H, is_digit_chr; [done|]. apply Z.mod_pos_bound. lia. }
  cbn [dec_digits]. destruct (n <? 10); auto.
Qed.

Lemma dec_digits_nonempty fuel n acc : fuel ≠ O → dec_digits fuel n acc ≠ "".
Proof.
  assert (H : ∀ f m a, a ≠ "" → dec_digits f m a ≠ "").
  { intros f. induction f as [|f IH]; intros m a Ha; [done|].
    cbn [dec_digits]. destruct (m <? 10); auto. }
  destruct fuel; [done|]. intros _. cbn [dec_digits]. destruct (n <? 10); auto.
Qed.

Lemma fmt_d_nonneg n : 0 ≤ n → fmt_d n = dec_digits (S (Z.to_nat (Z.log2 n))) n "".
Proof. intros H. unfold fmt_d. by replace (n <? 0) with false by lia. Qed.

Lemma fmt_d_nonempty n : 0 ≤ n → fmt_d n ≠ "".
Proof. intros H. rewrite fmt_d_nonneg by done. by apply dec_digits_nonempty. Qed.

Lemma fmt_d_digits n : 0 ≤ n → all_chars is_digit (fmt_d n) = true.
Proof. intros H. rewrite fmt_d_nonneg by done. by apply dec_digits_all_digits. Qed.

(** Printing with [%d] and reading back with [ParseUint] is the identity. *)
Lemma ParseUint_fmt_d n : is_u64 n → ParseUint (fmt_d n) = Ok n.
Proof.
  intros Hn. unfold is_u64 in Hn. rewrite fmt_d_nonneg by lia. unfold ParseUint.
  destruct (dec_digits _ _ _) eqn:E; [by apply dec_digits_nonempty in E|].
  rewrite <-E. rewrite dec_digits_parse; [done|lia| |done]. apply dec_digits_fuel. lia.
Qed.

Lemma fmt_d_inj m n : is_u64 m → is_u64 n → fmt_d m = fmt_d n → m = n.
Proof.
  intros Hm Hn H. apply (f_equal ParseUint) in H.
  rewrite !ParseUint_fmt_d in H by done. by injection H.
Qed.

Lemma trim_left_id c p s : all_chars p s = true → p c = false → trim_left c s = s.
Proof.
  destruct s as [|c' s]; [done|]. simpl. intros [H _]%andb_true_iff Hc.
  destruct (Ascii.eqb_spec c c') as [->|]; congruence.
Qed.

Lemma trim_right_id c p s : all_chars p s = true → p c = false → trim_right c s = s.
Proof.
  intros H Hc. revert H. induction s as [|c' s IH]; [done|]. simpl.
  intros [H1 H2]%andb_true_iff. rewrite (IH H2).
  destruct (Ascii.eqb_spec c c') as [->|]; [congruence|]. by destruct s.
Qed.

Lemma Trim_id c p s : all_chars p s = true → p c = false → Trim s c = s.
Proof. intros H Hc. unfold Trim. rewrite (trim_left_id c p) by done. by apply trim_right_id with p. Qed.

Lemma Trim_fmt_d n : 0 ≤ n → Trim (fmt_d n) newline = fmt_d n.
Proof. intros H. apply Trim_id with is_digit; [by apply fmt_d_digits|done]. Qed.

(** A number on a line of its own. *)
Lemma trim_right_line c p s :
  all_chars p s = true → p c = false → trim_right c (s +:+ String c "") = s.
Proof.
  intros H Hc. revert H. induction s as [|c' s IH]; [intros _; change (trim_right c (String c "") = ""); cbn; by rewrite Ascii.eqb_refl|].
  cbn [all_chars]. intros [H1 H2]%andb_true_iff.
  change (String c' s +:+ String c "") with (String c' (s +:+ String c "")). cbn [trim_right].
  rewrite (IH H2). destruct (Ascii.eqb_spec c c') as [->|]; [congruence|]. by destruct s.
Qed.

Lemma Trim_line n : 0 ≤ n → Trim (fmt_d n +:+ nl) newline = fmt_d n.
Proof.
  intros H. pose proof (fmt_d_digits n H) as Hd. pose proof (fmt_d_nonempty n H) as Hne. unfold Trim.
  assert (E : trim_left newline (fmt_d n +:+ nl) = fmt_d n +:+ nl).
  { destruct (fmt_d n) as [|c s]; [done|]. cbn in Hd.
    apply andb_true_iff in Hd as [Hc _].
    change (String c s +:+ nl) with (String c (s +:+ nl)). cbn [trim_left].
    destruct (Ascii.eqb_spec newline c) as [<-|]; done. }
  rewrite E. by apply trim_right_line with is_digit.
Qed.

Lemma all_chars_app p s t : all_chars p (s +:+ t) = all_chars p s && all_chars p t.
Proof. induction s as [|c s IH]; [done|]. simpl. by rewrite IH, andb_assoc. Qed.

Lemma all_chars_impl (p q : ascii → bool) s :
  (∀ c, p c = true → q c = true) → all_chars p s = true → all_chars q s = true.
Proof.
  intros H. induction s as [|c s IH]; [done|]. simpl.
  rewrite !andb_true_iff. intros [? ?]. auto.
Qed.

Lemma digits_free_of c s :
  is_digit c = false → all_chars is_digit s = true → free_of c s.
Proof.
  intros Hc. apply all_chars_impl. intros c' H'.
  destruct (Ascii.eqb_spec c' c) as [->|]; [congruence|done].
Qed.

Lemma fmt_d_free_of c n : is_digit c = false → 0 ≤ n → free_of c (fmt_d n).
Proof. intros Hc Hn. apply digits_free_of; [done|by apply fmt_d_digits]. Qed.

Lemma Split_free c s : free_of c s → Split s c = [s].
Proof.
  unfold free_of. induction s as [|c' s IH]; [done|]. simpl.
  destruct (Ascii.eqb c' c); [done|]. intros H. by rewrite (IH H).
Qed.

Lemma Split_app_sep c s t : free_of c s → Split (s +:+ String c t) c = s :: Split t c.
Proof.
  unfold free_of. induction s as [|c' s IH]; simpl.
  - intros _. by rewrite Ascii.eqb_refl.
  - destruct (Ascii.eqb c' c); [done|]. intros H. by rewrite (IH H).
Qed.

(** Joining with a separator none of the parts contains can be undone. *)
Lemma Split_Join c l :
  l ≠ [] → Forall (free_of c) l → Split (Join l (String c "")) c = l.
Proof.
  induction l as [|s l IH]; [done|]. intros _ [Hs Hl]%Forall_cons_1.
  destruct l as [|s' l]; [by apply Split_free|].
  change (Join (s :: s' :: l) (String c ""))
    with (s +:+ String c (Join (s' :: l) (String c ""))).
  rewrite Split_app_sep by done. by rewrite IH.
Qed.

Lemma Join_cons s s' l sep : Join (s :: s' :: l) sep = s +:+ sep +:+ Join (s' :: l) sep.
Proof. done. Qed.

Lemma Join_inj c l1 l2 :
  l1 ≠ [] → l2 ≠ [] → Forall (free_of c) l1 → Forall (free_of c) l2 →
  Join l1 (String c "") = Join l2 (String c "") → l1 = l2.
Proof.
  intros ???? H. apply (f_equal (λ s, Split s c)) in H. by rewrite !Split_Join in H.
Qed.

Lemma all_chars_Join p l sep :
  all_chars p sep = true → Forall (λ s, all_chars p s = true) l → all_chars p (Join l sep) = true.
Proof.
  intros Hs. induction l as [|s l IH]; [done|]. intros [H1 H2]%Forall_cons_1.
  destruct l as [|s' l]; [done|].
  change (Join (s :: s' :: l) sep) with (s +:+ sep +:+ Join (s' :: l) sep).
  rewrite !all_chars_app, H1, Hs, (IH H2). done.
Qed.

Lemma free_of_Join c l sep : free_of c sep → Forall (free_of c) l → free_of c (Join l sep).
Proof. apply all_chars_Join. Qed.

Lemma string_app_nil s : s +:+ "" = s.
Proof. induction s as [|c s IH]; [done|]. change (String c (s +:+ "") = String c s). by rewrite IH. Qed.

Lemma string_app_assoc (s t u : string) : (s +:+ t) +:+ u = s +:+ (t +:+ u).
Proof. induction s as [|c s IH]; [done|]. exact (f_equal (String c) IH). Qed.

Lemma length_string_app s t : String.length (s +:+ t) = (String.length s + String.length t)%nat.
Proof. induction s as [|c s IH]; [done|]. exact (f_equal S IH). Qed.

Lemma substring_all s n : (String.length s ≤ n)%nat → String.substring 0 n s = s.
Proof. revert n. induction s as [|c s IH]; intros [|n] Hn; cbn in *; [done..|lia|]. by rewrite IH by lia. Qed.

Lemma substring_app_l a b : String.substring 0 (String.length a) (a +:+ b) = a.
Proof. induction a as [|c a IH]; [by destruct b|]. change (String c (String.substring 0 (String.length a) (a +:+ b)) = String c a). by rewrite IH. Qed.

Lemma substring_app_r a b : String.substring (String.length a) (String.length b) (a +:+ b) = b.
Proof. induction a as [|c a IH]; [by apply substring_all|]. exact IH. Qed.


Lemma substring_split s n :
  (n ≤ String.length s)%nat → s = String.substring 0 n s +:+ String.substring n (String.length s - n) s.
Proof.
  revert n. induction s as [|c s IH]; intros [|n] Hn; cbn in Hn; [done|lia| |].
  - change (String c s = "" +:+ String.substring 0 (S (String.length s)) (String c s)). by rewrite substring_all.
  - change (String c s = String c (String.substring 0 n s +:+ String.substring n (String.length s - n) s)).
    by rewrite <-IH by lia.
Qed.
