(* ===== verification/OS.v ===== *)
(** The world outside the program: the command runner
    ([command_runner.CommandRunner]), the file system, the environment.

    The program's effects are recorded in a trace, oldest call first, and what
    the outside answers is a function of that trace: the class [Kernel]. Every
    theorem that has a [Kernel] in its context holds whatever commands and
    files do, including calls that fail at any point. *)
From S2P Require Import Prelude GoStd.

Local Open Scope string_scope.
Local Open Scope list_scope.
Local Open Scope Z_scope.

(** The fields of [exec.Cmd] the program sets and the runner reads. [Stdin] is
    the text fed to the command, when the program feeds one. *)
Record Cmd := mkCmd {
  Path : string;
  Args : list string;
  Env : list string;
  Stdin : option string
}.

#[export] Instance Cmd_eq_dec : EqDecision Cmd.
Proof. solve_decision. Defined.

Definition cmd (path : string) (args env : list string) : Cmd := mkCmd path args env None.

Inductive Syscall :=
  | SRun (c : Cmd)                    (* runner.Run *)
  | SStart (c : Cmd)                  (* runner.Start *)
  | SBackground (c : Cmd)             (* runner.Background *)
  | SWait (c : Cmd)                   (* runner.Wait *)
  | SKill (c : Cmd)                   (* runner.Kill *)
  | SSignal (c : Cmd) (sig : string)  (* runner.Signal *)
  | SReadFile (p : string)            (* ioutil.ReadFile *)
  | SWriteFile (p data : string)      (* ioutil.WriteFile *)
  | SReadDir (p : string)             (* ioutil.ReadDir *)
  | SMkdirAll (p : string)            (* os.MkdirAll *)
  | SRemoveAll (p : string)           (* os.RemoveAll *)
  | SStat (p : string)                (* os.Stat *)
  | SOpen (p : string)                (* os.Open *)
  | SCreate (p : string)              (* os.Create *)
  | SWrite (p data : string)          (* Write on the open file at p *)
  | SClose (p : string)               (* Close of the open file *)
  | SPipe                             (* os.Pipe *)
  | SListen (network p : string)      (* net.Listen *)
  | SRemove (p : string)              (* os.Remove *)
  | SChmod (p : string) (mode : Z)    (* os.Chmod *)
  | SLookPath (p : string)            (* exec.LookPath *)
  | SPtyOpen                          (* pty.Open *)
  | SMkdir (p : string)               (* os.Mkdir *)
  | SRename (p q : string)            (* os.Rename *)
  | SLstat (p : string)               (* os.Lstat *)
  | SMount (source target fs options : string)   (* syscall.Mount *)
  | SUnmount (p : string)             (* syscall.Unmount *)
  | SRandom (n : nat).                (* n bytes of rand.Reader *)

#[export] Instance Syscall_eq_dec : EqDecision Syscall.
Proof. solve_decision. Defined.

Abbreviation Trace := (list Syscall).

Class Kernel := {
  (** the error a call returns, if any, after the calls made so far *)
  sys_error : Trace → Syscall → option error;
  (** the output of a command, the content of a file read, the letter [ls] prints for the
      type of what [os.Stat] finds, random bytes *)
  sys_output : Trace → Syscall → string;
  (** the names [ioutil.ReadDir] lists *)
  sys_entries : Trace → string → list string;
  (** [os.Getenv] and [os.Environ] *)
  getenv : string → string;
  environ : list string
}.

Section os.
Context {K : Kernel}.

Definition sys (c : Syscall) : M Trace string := λ h,
  (match sys_error h c with Some e => Err e | None => Ok (sys_output h c) end, h ++ [c]).

Definition sys_ (c : Syscall) : M Trace unit := sys c ≫= λ _, mret tt.

Definition Run (c : Cmd) : M Trace unit := sys_ (SRun c).
Definition Start (c : Cmd) : M Trace unit := sys_ (SStart c).
Definition Background (c : Cmd) : M Trace unit := sys_ (SBackground c).
Definition Wait (c : Cmd) : M Trace unit := sys_ (SWait c).
Definition Kill (c : Cmd) : M Trace unit := sys_ (SKill c).
Definition Signal (c : Cmd) (sig : string) : M Trace unit := sys_ (SSignal c sig).

(** [cmd.Stdout = buf; runner.Run(cmd)], with what was written to [buf] *)
Definition RunOutput (c : Cmd) : M Trace string := sys (SRun c).

(** [CombinedOutput()], which gives the output of a command that fails, too *)
Definition CombinedOutput (c : Cmd) : M Trace (string * option error) := λ h,
  (Ok (sys_output h (SRun c), sys_error h (SRun c)), h ++ [SRun c]).

Definition Mkdir (p : string) : M Trace unit := sys_ (SMkdir p).
Definition MkdirAll (p : string) : M Trace unit := sys_ (SMkdirAll p).
Definition RemoveAll (p : string) : M Trace unit := sys_ (SRemoveAll p).
Definition Rename (p q : string) : M Trace unit := sys_ (SRename p q).
(** [os.Stat], and [IsDir] of what it returns *)
Definition Stat (p : string) : M Trace unit := sys_ (SStat p).
Definition StatIsDir (p : string) : M Trace bool := sys (SStat p) ≫= λ t, mret (String.eqb t "d").

Definition ReadFile (p : string) : M Trace string := sys (SReadFile p).
Definition WriteFile (p data : string) : M Trace unit := sys_ (SWriteFile p data).
Definition ReadDir (p : string) : M Trace (list string) :=
  h ← gets id; sys_ (SReadDir p) ≫= λ _, mret (sys_entries h p).

(** What a plain file holds after a sequence of calls: its last write. *)
Definition last_write (p : string) (h : Trace) : option string :=
  foldl (λ acc c, match c with
                  | SWriteFile p' d => if decide (p' = p) then Some d else acc
                  | _ => acc
                  end) None h.

(** The file at [p] can be read, and reading returns what was last written. *)
Definition PlainFile (p : string) : Prop := ∀ h d,
  last_write p h = Some d →
  sys_error h (SReadFile p) = None ∧ sys_output h (SReadFile p) = d.

(** [e] is the error of a call to the outside. *)
Definition sys_failure (e : error) : Prop := ∃ h c, sys_error h c = Some e.

(** Total correctness up to failures of the outside: [m] returns a value and a
    state that satisfy [Q], or fails with the error of a call it made; it does
    not crash. *)
Definition wp {S A} (m : M S A) (Q : A → S → Prop) (s : S) : Prop :=
  match m s with
  | (Ok a, s') => Q a s'
  | (Err e, _) => sys_failure e
  | (Crash _, _) => False
  end.

(** ** Lemmas *)

Lemma sys__eq c h :
  sys_ c h = (match sys_error h c with Some e => Err e | None => Ok tt end, h ++ [c]).
Proof. unfold sys_, mbind, M_bind, sys. by destruct (sys_error h c). Qed.

Lemma wp_ret {S A} (a : A) (Q : A → S → Prop) s : Q a s → wp (mret a) Q s.
Proof. done. Qed.

Lemma wp_mono {S A} (m : M S A) (P Q : A → S → Prop) s :
  wp m P s → (∀ a s', P a s' → Q a s') → wp m Q s.
Proof. unfold wp. destruct (m s) as [[] ?]; auto. Qed.

Lemma wp_bind {S A B} (m : M S A) (f : A → M S B) (Q : B → S → Prop) s :
  wp m (λ a s', wp (f a) Q s') s → wp (m ≫= f) Q s.
Proof. unfold wp, mbind, M_bind. by destruct (m s) as [[] ?]. Qed.

(** A loop whose invariant says what the elements done so far have contributed. *)
Lemma wp_for_each {S A} (f : A → M S unit) (I : list A → S → Prop) (l : list A) s :
  I [] s → (∀ done x rest s', l = done ++ x :: rest → I done s' → wp (f x) (λ _, I (done ++ [x])) s') →
  wp (for_each f l) (λ _, I l) s.
Proof.
  intros H0 Hf. assert (Hgen : ∀ rest dn s', l = dn ++ rest → I dn s' → wp (for_each f rest) (λ _, I l) s').
  { induction rest as [|x rest IH]; intros dn s' E HI; cbn.
    - rewrite app_nil_r in E. by subst.
    - apply wp_bind. eapply wp_mono; [by apply (Hf dn x rest)|]. cbn. intros _ s2 H2.
      apply (IH (dn ++ [x])); [by rewrite <-app_assoc|done]. }
  by apply (Hgen l []).
Qed.

Lemma wp_sys_ c h (Q : unit → Trace → Prop) : Q tt (h ++ [c]) → wp (sys_ c) Q h.
Proof.
  intros HQ. unfold wp. rewrite sys__eq. destruct (sys_error h c) as [e|] eqn:E; [|done].
  by exists h, c.
Qed.

Lemma sys_trace c h : (sys c h).2 = h ++ [c].
Proof. done. Qed.

Lemma sys__trace c h : (sys_ c h).2 = h ++ [c].
Proof. unfold sys_, mbind, M_bind, sys. by destruct (sys_error h c). Qed.

Lemma sys__ok c h : sys_error h c = None → sys_ c h = (Ok tt, h ++ [c]).
Proof. intros H. by rewrite sys__eq, H. Qed.

Lemma sys__err c h e : sys_error h c = Some e → sys_ c h = (Err e, h ++ [c]).
Proof. intros H. by rewrite sys__eq, H. Qed.

(** Every call only extends the trace. *)
Lemma steps_sys c : steps (prefix (A := Syscall)) (sys c).
Proof. intros h. rewrite sys_trace. by apply prefix_app_r. Qed.

Lemma steps_sys_ c : steps (prefix (A := Syscall)) (sys_ c).
Proof. intros h. rewrite sys__trace. by apply prefix_app_r. Qed.

Lemma ReadDir_eq p h :
  ReadDir p h =
    (match sys_error h (SReadDir p) with Some e => Err e | None => Ok (sys_entries h p) end,
     h ++ [SReadDir p]).
Proof.
  unfold ReadDir, mbind, M_bind. cbn [gets]. unfold gets. rewrite sys__eq.
  by destruct (sys_error h (SReadDir p)).
Qed.

Lemma returns_sys c : returns (sys c).
Proof. intros h f. unfold sys. by destruct (sys_error h c). Qed.
Lemma returns_sys_ c : returns (sys_ c).
Proof. apply returns_bind; [apply returns_sys|intros; apply returns_ret]. Qed.

Lemma last_write_app p h c :
  last_write p (h ++ [c]) =
    match c with
    | SWriteFile p' d => if decide (p' = p) then Some d else last_write p h
    | _ => last_write p h
    end.
Proof. unfold last_write. by rewrite foldl_app. Qed.
End os.

#[export] Hint Resolve steps_sys steps_sys_ returns_sys returns_sys_ : warden.

(** A kernel on which every call succeeds, commands print nothing and plain
    files read back what was written: used to run the definitions. *)
Definition quiet_kernel : Kernel := {|
  sys_error _ _ := None;
  sys_output h c := match c with
                    | SReadFile p => default "" (last_write p h)
                    | _ => ""
                    end;
  sys_entries _ _ := [];
  getenv _ := "/bin";
  environ := []
|}.

Lemma quiet_plain p : PlainFile (K := quiet_kernel) p.
Proof. intros h d H. simpl. by rewrite H. Qed.
