(* ===== verification/Flag.v ===== *)
(** Go's package [flag], as far as the programs use it: boolean, integer, text and duration
    flags, parsed up to the first argument that is none. *)
From S2P Require Import Prelude GoStd.
From Stdlib Require Import Ascii.

Local Open Scope string_scope.
Local Open Scope list_scope.
Local Open Scope Z_scope.

(** * Numbers in any base *)

(** The value of a digit or letter. *)
Definition alnum_val (c : ascii) : option Z :=
  let n := Z.of_N (N_of_ascii c) in
  if (48 <=? n) && (n <=? 57) then Some (n - 48)
  else if (97 <=? n) && (n <=? 122) then Some (n - 97 + 10)
  else if (65 <=? n) && (n <=? 90) then Some (n - 65 + 10)
  else None.

Fixpoint parse_base_loop (base : Z) (s0 s : string) (n : Z) : Result Z :=
  match s with
  | EmptyString => Ok n
  | String c s' =>
      match alnum_val c with
      | None => Err (ErrSyntax s0)
      | Some d =>
          if base <=? d then Err (ErrSyntax s0)
          else if 2 ^ 64 <=? n * base then Err (ErrRange s0)
          else if 2 ^ 64 <=? n * base + d then Err (ErrRange s0)
          else parse_base_loop base s0 s' (n * base + d)
      end
  end.

(** [strconv.ParseUint(s, 0, 64)]: the prefix tells the base. *)
Definition ParseUint0 (s : string) : Result Z :=
  match s with
  | EmptyString => Err (ErrSyntax s)
  | String "0" (String c s') =>
      if Ascii.eqb c "x" || Ascii.eqb c "X" then
        match s' with EmptyString => Err (ErrSyntax s) | _ => parse_base_loop 16 s s' 0 end
      else parse_base_loop 8 s s 0
  | String "0" EmptyString => parse_base_loop 8 s s 0
  | _ => parse_base_loop 10 s s 0
  end.

(** [strconv.ParseInt(s, 0, 64)] *)
Definition ParseInt0 (s : string) : Result Z :=
  let '(neg, t) := match s with
                   | String "+" t => (false, t)
                   | String "-" t => (true, t)
                   | _ => (false, s)
                   end in
  un ← ParseUint0 t;
  if (negb neg && (2 ^ 63 <=? un)) || (neg && (2 ^ 63 <? un)) then Err (ErrRange s)
  else Ok (if neg then - un else un).

(** [strconv.ParseBool] *)
Definition ParseBool (s : string) : Result bool :=
  if existsb (String.eqb s) ["1"; "t"; "T"; "true"; "TRUE"; "True"] then Ok true
  else if existsb (String.eqb s) ["0"; "f"; "F"; "false"; "FALSE"; "False"] then Ok false
  else Err (ErrSyntax s).

(** * Durations *)

(** [time.leadingInt]: a number and the rest; [None] when it does not fit. *)
Fixpoint leadingInt (s : string) (x : Z) : option (Z * string) :=
  match s with
  | EmptyString => Some (x, s)
  | String c s' =>
      match digit_val c with
      | None => Some (x, s)
      | Some d => if (2 ^ 63 - 10) / 10 <=? x then None else leadingInt s' (x * 10 + d)
      end
  end.

(** The unit: everything up to the next number. *)
Fixpoint span_unit (s : string) : string * string :=
  match s with
  | EmptyString => ("", "")
  | String c s' =>
      if Ascii.eqb c "." || is_digit c then ("", s)
      else let '(u, rest) := span_unit s' in (String c u, rest)
  end.

Definition is_unit (u : string) : bool :=
  existsb (String.eqb u)
    ["ns"; "us"; String "194" (String "181" "s"); String "206" (String "188" "s"); "ms"; "s"; "m"; "h"].

(** The loop of [time.ParseDuration]; every round takes at least one character off. *)
Fixpoint duration_loop (fuel : nat) (s : string) : bool :=
  match s, fuel with
  | EmptyString, _ => true
  | _, O => false
  | String c _, S fuel' =>
      if negb (Ascii.eqb c "." || is_digit c) then false
      else match leadingInt s 0 with
           | None => false
           | Some (_, s1) =>
               let pre := negb (String.length s1 =? String.length s)%nat in
               let '(frac, s2) := match s1 with
                                  | String "." s2 => (Some s2, s2)
                                  | _ => (None, s1)
                                  end in
               match (if frac is Some _ then leadingInt s2 0 else Some (0, s2)) with
               | None => false
               | Some (_, s3) =>
                   let post := negb (String.length s3 =? String.length s2)%nat in
                   let '(u, s4) := span_unit s3 in
                   (pre || post) && is_unit u && duration_loop fuel' s4
               end
           end
  end.

(** [time.ParseDuration] accepts the text. *)
Definition valid_duration (s : string) : bool :=
  let s1 := match s with String "-" t => t | String "+" t => t | _ => s end in
  if String.eqb s1 "0" then true
  else if String.eqb s1 "" then false
  else duration_loop (String.length s1) s1.

(** * Flags *)

Inductive flag_kind := BoolFlag | IntFlag | UintFlag | StringFlag | DurationFlag.
Inductive flag_value := VBool (b : bool) | VInt (z : Z) | VText (s : string) | VDuration (text : string).

Definition flag_error (msg : string) : error := mkError "flag" msg.

(** The part of [s] in front of the first [c], and the part behind it. *)
Fixpoint cut_at (c : ascii) (s : string) : string * option string :=
  match s with
  | EmptyString => ("", None)
  | String c' s' =>
      if Ascii.eqb c' c then ("", Some s')
      else let '(name, value) := cut_at c s' in (String c' name, value)
  end.

Section flags.
(** The flags of the program *)
Context (defs : string → option flag_kind).

(** [Value.Set] *)
Definition set_flag (kind : flag_kind) (text : string) : Result flag_value :=
  match kind with
  | BoolFlag => b ← ParseBool text; Ok (VBool b)
  | IntFlag => z ← ParseInt0 text; Ok (VInt z)
  | UintFlag => z ← ParseUint0 text; Ok (VInt z)
  | StringFlag => Ok (VText text)
  | DurationFlag => if valid_duration text then Ok (VDuration text) else Err (flag_error "invalid duration")
  end.

Inductive flag_arg := NotAFlag | Terminator | BadSyntax | AFlag (name : string) (value : option string).

(** One argument: [-name], [--name], either with [=value], or no flag. *)
Definition read_arg (s : string) : flag_arg :=
  match s with
  | String "-" EmptyString => NotAFlag
  | String "-" rest =>
      let name := match rest with String "-" name => name | _ => rest end in
      if String.eqb rest "-" then Terminator
      else match name with
           | EmptyString => BadSyntax
           | String c name' =>
               if Ascii.eqb c "-" || Ascii.eqb c "=" then BadSyntax
               else let '(n, v) := cut_at "=" name' in AFlag (String c n) v
           end
  | _ => NotAFlag
  end.

(** [FlagSet.Parse]: what is set, in order, and the arguments left. *)
Fixpoint parse_flags (args : list string) : Result (list (string * flag_value) * list string) :=
  match args with
  | [] => Ok ([], [])
  | arg :: rest =>
      match read_arg arg with
      | NotAFlag => Ok ([], args)
      | Terminator => Ok ([], rest)
      | BadSyntax => Err (flag_error ("bad flag syntax: " +:+ arg))
      | AFlag name value =>
          match defs name with
          | None => Err (flag_error ("flag provided but not defined: -" +:+ name))
          | Some BoolFlag =>
              v ← set_flag BoolFlag (default "true" value);
              '(l, remaining) ← parse_flags rest;
              Ok ((name, v) :: l, remaining)
          | Some kind =>
              match value, rest with
              | Some text, _ =>
                  v ← set_flag kind text; '(l, remaining) ← parse_flags rest; Ok ((name, v) :: l, remaining)
              | None, text :: rest' =>
                  v ← set_flag kind text; '(l, remaining) ← parse_flags rest'; Ok ((name, v) :: l, remaining)
              | None, [] => Err (flag_error ("flag needs an argument: -" +:+ name))
              end
          end
      end
  end.
End flags.

Example duration_ok : map valid_duration ["10s"; "1h15m30.918s"; "-0.5us"; "0"; "1"; ".s"; ""; "3x"] =
  [true; true; true; true; false; false; false; false].
Proof. reflexivity. Qed.

(** A flag keeps the last value set. *)
Definition last_set (name : string) (settings : list (string * flag_value)) : option flag_value :=
  foldl (λ acc s, if String.eqb s.1 name then Some s.2 else acc) None settings.

Definition bool_flag (name : string) (dflt : bool) (settings : list (string * flag_value)) : bool :=
  if last_set name settings is Some (VBool b) then b else dflt.
Definition int_flag (name : string) (dflt : Z) (settings : list (string * flag_value)) : Z :=
  if last_set name settings is Some (VInt z) then z else dflt.
Definition string_flag (name : string) (dflt : string) (settings : list (string * flag_value)) : string :=
  if last_set name settings is Some (VText s) then s else dflt.
Definition duration_flag (name : string) (settings : list (string * flag_value)) : option string :=
  if last_set name settings is Some (VDuration text) then Some text else None.

(** * Lemmas *)

Lemma alnum_val_chr d : 0 ≤ d < 10 → alnum_val (digit_chr d) = Some d.
Proof.
  intros Hd. unfold alnum_val, digit_chr. rewrite N_ascii_embedding by lia. rewrite Z2N.id by lia.
  replace ((48 <=? 48 + d) && (48 + d <=? 57)) with true by lia. f_equal. lia.
Qed.

(** Decimal digits read in base ten. *)
Lemma dec_digits_base s0 fuel n acc :
  0 ≤ n < 2 ^ 64 → n < 10 ^ Z.of_nat fuel → fuel ≠ O →
  parse_base_loop 10 s0 (dec_digits fuel n acc) 0 = parse_base_loop 10 s0 acc n.
Proof.
  revert n acc. induction fuel as [|fuel IH]; intros n acc Hn Hf Hne; [done|].
  assert (Hmod : 0 ≤ n mod 10 < 10) by (apply Z.mod_pos_bound; lia).
  cbn [dec_digits]. destruct (n <? 10) eqn:E.
  - cbn [parse_base_loop]. rewrite alnum_val_chr by done. rewrite Z.mod_small by lia.
    replace (10 <=? n) with false by lia.
    by replace (2 ^ 64 <=? 0 * 10) with false by lia;
      replace (2 ^ 64 <=? 0 * 10 + n) with false by lia.
  - rewrite Nat2Z.inj_succ, Z.pow_succ_r in Hf by lia.
    assert (Hdiv : n = 10 * (n / 10) + n mod 10) by (apply Z.div_mod; lia).
    rewrite IH; [|lia| |].
    + cbn [parse_base_loop]. rewrite alnum_val_chr by done.
      replace (10 <=? n mod 10) with false by lia.
      replace (2 ^ 64 <=? n / 10 * 10) with false by lia.
      replace (n / 10 * 10 + n mod 10) with n by lia.
      by replace (2 ^ 64 <=? n) with false by lia.
    + apply Z.div_lt_upper_bound; lia.
    + intros ->. simpl in Hf. lia.
Qed.

Lemma ParseUint0_fmt_d n : is_u64 n → ParseUint0 (fmt_d n) = Ok n.
Proof.
  intros Hn. unfold is_u64 in Hn. destruct (decide (n = 0)) as [->|Hne]; [done|].
  pose proof (dec_digits_base (fmt_d n) (S (Z.to_nat (Z.log2 n))) n "" Hn (dec_digits_fuel n ltac:(lia)) ltac:(done)) as Hb.
  rewrite <-fmt_d_nonneg in Hb by lia. cbn [parse_base_loop] in Hb.
  destruct (dec_digits_head (S (Z.to_nat (Z.log2 n))) n "" ltac:(lia) (dec_digits_fuel n ltac:(lia)) ltac:(done))
    as (d & s & Hd & Es).
  rewrite <-fmt_d_nonneg in Es by lia. rewrite Es in *. unfold ParseUint0.
  assert (d = 1 ∨ d = 2 ∨ d = 3 ∨ d = 4 ∨ d = 5 ∨ d = 6 ∨ d = 7 ∨ d = 8 ∨ d = 9) as Hcase by lia.
  clear Es Hd. by repeat destruct Hcase as [->|Hcase]; subst.
Qed.

(** Every [int] printed with [%d] is read back. *)
Lemma ParseInt0_fmt_d n : - 2 ^ 63 ≤ n < 2 ^ 63 → ParseInt0 (fmt_d n) = Ok n.
Proof.
  intros Hn. unfold ParseInt0. destruct (Z.ltb_spec n 0) as [Hneg|Hpos].
  - assert (E : fmt_d n = String "-" (fmt_d (- n))).
    { unfold fmt_d. replace (n <? 0) with true by lia. by replace (- n <? 0) with false by lia. }
    rewrite E. rewrite ParseUint0_fmt_d by (unfold is_u64; lia). cbn.
    replace (2 ^ 63 <? - n) with false by lia. by rewrite Z.opp_involutive.
  - pose proof (fmt_d_digits n ltac:(lia)) as Hd.
    assert (E : match fmt_d n with
                | String "+" t => (false, t) | String "-" t => (true, t) | _ => (false, fmt_d n)
                end = (false, fmt_d n)).
    { destruct (fmt_d n) as [|c s]; [done|]. cbn in Hd. apply andb_true_iff in Hd as [Hc _].
      by destruct c as [[] [] [] [] [] [] [] []]. }
    rewrite E. rewrite ParseUint0_fmt_d by (unfold is_u64; lia). cbn.
    by replace (2 ^ 63 <=? n) with false by lia.
Qed.

(** A flag with its value in the same argument. *)
Lemma cut_at_app c s t : free_of c s → cut_at c (s +:+ String c t) = (s, Some t).
Proof.
  unfold free_of. induction s as [|c' s IH]; intros H.
  - change (cut_at c (String c t) = ("", Some t)). cbn. by rewrite Ascii.eqb_refl.
  - change (String c' s +:+ String c t) with (String c' (s +:+ String c t)). cbn in *.
    destruct (Ascii.eqb c' c); [done|]. by rewrite IH.
Qed.
