(* ===== verification/Json.v ===== *)
(** Go's package [encoding/json], as far as the snapshots use it: the syntax of JSON
    texts as a tree, printing, parsing, and decoding a tree into a Go value. *)
From S2P Require Import Prelude GoStd.
From Stdlib Require Import Ascii.

Local Open Scope string_scope.
Local Open Scope list_scope.
Local Open Scope Z_scope.

(** * Trees *)

(** A number is its text; the members of an object are in the order of the text. *)
Inductive json :=
  | JNull
  | JBool (b : bool)
  | JNumber (text : string)
  | JString (s : string)
  | JArray (l : list json)
  | JObject (l : list (string * json)).

(** * UTF-8 *)

Definition byte_of (c : ascii) : Z := Z.of_N (N_of_ascii c).
Definition chr (z : Z) : ascii := ascii_of_N (Z.to_N z).

Definition is_cont (c : ascii) : bool := (128 <=? byte_of c) && (byte_of c <? 192).

(** [utf8.DecodeRune] on bytes that are not ASCII: the bytes of the first rune and the rest;
    [None]: not the start of a valid rune. *)
Definition split_rune (s : string) : option (string * string) :=
  match s with
  | String c0 (String c1 s1) =>
      let b0 := byte_of c0 in
      if negb (is_cont c1) then None
      else if (194 <=? b0) && (b0 <? 224) then Some (String c0 (String c1 ""), s1)
      else match s1 with
           | String c2 s2 =>
               if negb (is_cont c2) then None
               else if (224 <=? b0) && (b0 <? 240) then
                 let r := (b0 mod 16) * 4096 + (byte_of c1 mod 64) * 64 + byte_of c2 mod 64 in
                 if (r <=? 2047) || ((55296 <=? r) && (r <=? 57343)) then None
                 else Some (String c0 (String c1 (String c2 "")), s2)
               else match s2 with
                    | String c3 s3 =>
                        if negb (is_cont c3) || negb ((240 <=? b0) && (b0 <? 248)) then None
                        else
                          let r := (b0 mod 8) * 262144 + (byte_of c1 mod 64) * 4096 +
                                   (byte_of c2 mod 64) * 64 + byte_of c3 mod 64 in
                          if (r <=? 65535) || (1114111 <? r) then None
                          else Some (String c0 (String c1 (String c2 (String c3 ""))), s3)
                    | EmptyString => None
                    end
           | EmptyString => None
           end
  | _ => None
  end.

(** [utf8.EncodeRune]; a surrogate or a number that is no rune becomes U+FFFD. *)
Definition encode_rune (r : Z) : string :=
  if r <? 128 then String (chr r) ""
  else if r <? 2048 then String (chr (192 + r / 64)) (String (chr (128 + r mod 64)) "")
  else
    let r := if (1114111 <? r) || ((55296 <=? r) && (r <=? 57343)) then 65533 else r in
    if r <? 65536 then
      String (chr (224 + r / 4096)) (String (chr (128 + r / 64 mod 64)) (String (chr (128 + r mod 64)) ""))
    else
      String (chr (240 + r / 262144)) (String (chr (128 + r / 4096 mod 64))
        (String (chr (128 + r / 64 mod 64)) (String (chr (128 + r mod 64)) ""))).

Definition replacement : string := encode_rune 65533.

(** Every rune takes a byte at least. *)
Fixpoint utf8_loop (fuel : nat) (s : string) : bool :=
  match s, fuel with
  | EmptyString, _ => true
  | _, O => false
  | String c s', S fuel' =>
      if byte_of c <? 128 then utf8_loop fuel' s'
      else match split_rune s with Some (_, rest) => utf8_loop fuel' rest | None => false end
  end.

Definition valid_utf8 (s : string) : bool := utf8_loop (String.length s) s.

(** * Printing *)

Definition hex_digit (d : Z) : ascii := if d <? 10 then chr (48 + d) else chr (87 + d).

Definition backslash : ascii := "092"%char.
Definition quotation : ascii := "034"%char.

(** The [string] method of the encoder, on one ASCII byte *)
Definition escape_ascii (c : ascii) : string :=
  let b := byte_of c in
  if Ascii.eqb c backslash || Ascii.eqb c quotation then String backslash (String c "")
  else if (32 <=? b) && negb (existsb (Ascii.eqb c) ["<"; ">"; "&"]%char) then String c ""
  else if b =? 10 then String backslash "n"
  else if b =? 13 then String backslash "r"
  else String backslash ("u00" +:+ String (hex_digit (b / 16)) (String (hex_digit (b mod 16)) "")).

(** U+2028 and U+2029 are escaped too. *)
Definition escape_rune (bytes : string) : string :=
  if String.eqb bytes (encode_rune 8232) then String backslash "u2028"
  else if String.eqb bytes (encode_rune 8233) then String backslash "u2029"
  else bytes.

Fixpoint escape (fuel : nat) (s : string) : string :=
  match s, fuel with
  | EmptyString, _ | _, O => ""
  | String c s', S fuel' =>
      if byte_of c <? 128 then escape_ascii c +:+ escape fuel' s'
      else match split_rune s with
           | Some (bytes, rest) => escape_rune bytes +:+ escape fuel' rest
           | None => String backslash "ufffd" +:+ escape fuel' s'
           end
  end.

Definition print_string (s : string) : string :=
  String quotation (escape (String.length s) s +:+ String quotation "").

(** [json.Marshal] of a tree *)
Fixpoint print_json (j : json) : string :=
  match j with
  | JNull => "null"
  | JBool b => fmt_bool b
  | JNumber text => text
  | JString s => print_string s
  | JArray l => "[" +:+ Join (map print_json l) "," +:+ "]"
  | JObject l => "{" +:+ Join (map (λ kv, print_string kv.1 +:+ ":" +:+ print_json kv.2) l) "," +:+ "}"
  end.

(** * Parsing *)

Definition is_json_space (c : ascii) : bool := existsb (Ascii.eqb c) [" "; "009"; "010"; "013"]%char.

Fixpoint skip_ws (s : string) : string :=
  match s with
  | String c s' => if is_json_space c then skip_ws s' else s
  | EmptyString => s
  end.

Definition hex_digit_val (c : ascii) : option Z :=
  let n := byte_of c in
  if (48 <=? n) && (n <=? 57) then Some (n - 48)
  else if (97 <=? n) && (n <=? 102) then Some (n - 87)
  else if (65 <=? n) && (n <=? 70) then Some (n - 55)
  else None.

Definition hex4 (s : string) : option (Z * string) :=
  match s with
  | String a (String b (String c (String d rest))) =>
      match hex_digit_val a, hex_digit_val b, hex_digit_val c, hex_digit_val d with
      | Some a, Some b, Some c, Some d => Some (((a * 16 + b) * 16 + c) * 16 + d, rest)
      | _, _, _, _ => None
      end
  | _ => None
  end.

(** [\u] and four digits; two surrogates that form a pair are one rune. *)
Definition unescape_u (s : string) : option (string * string) :=
  match hex4 s with
  | None => None
  | Some (r, rest) =>
      if (55296 <=? r) && (r <=? 57343) then
        match rest with
        | String c (String "u" rest') =>
            match (if Ascii.eqb c backslash then hex4 rest' else None) with
            | Some (r2, rest2) =>
                if (r <? 56320) && (56320 <=? r2) && (r2 <=? 57343)
                then Some (encode_rune (65536 + (r - 55296) * 1024 + (r2 - 56320)), rest2)
                else Some (replacement, rest)
            | None => Some (replacement, rest)
            end
        | _ => Some (replacement, rest)
        end
      else Some (encode_rune r, rest)
  end.

Definition unescape_char (c : ascii) : option ascii :=
  if existsb (Ascii.eqb c) [quotation; backslash; "/"%char] then Some c
  else if Ascii.eqb c "b" then Some "008"%char
  else if Ascii.eqb c "f" then Some "012"%char
  else if Ascii.eqb c "n" then Some "010"%char
  else if Ascii.eqb c "r" then Some "013"%char
  else if Ascii.eqb c "t" then Some "009"%char
  else None.

(** A string literal after its opening quote; every round takes a byte at least. *)
Fixpoint parse_string (fuel : nat) (s : string) : option (string * string) :=
  match s, fuel with
  | EmptyString, _ | _, O => None
  | String c s', S fuel' =>
      let prepend (bytes rest : string) := prod_map (λ t, bytes +:+ t) id <$> parse_string fuel' rest in
      if Ascii.eqb c quotation then Some ("", s')
      else if Ascii.eqb c backslash then
        match s' with
        | String "u" rest => match unescape_u rest with Some (bytes, rest') => prepend bytes rest' | None => None end
        | String e rest => match unescape_char e with Some c' => prepend (String c' "") rest | None => None end
        | EmptyString => None
        end
      else if byte_of c <? 32 then None
      else if byte_of c <? 128 then prepend (String c "") s'
      else match split_rune s with
           | Some (bytes, rest) => prepend bytes rest
           | None => prepend replacement s'
           end
  end.

(** A number: sign, integer without leading zeros, fraction, exponent. *)
Definition scan_digits1 (s : string) : option (string * string) :=
  let '(ds, rest) := span_digits s in if String.eqb ds "" then None else Some (ds, rest).

Definition scan_fraction (s : string) : option (string * string) :=
  match s with
  | String "." s' => match scan_digits1 s' with Some (ds, rest) => Some (String "." ds, rest) | None => None end
  | _ => Some ("", s)
  end.

Definition scan_exponent (s : string) : option (string * string) :=
  match s with
  | String c s' =>
      if Ascii.eqb c "e" || Ascii.eqb c "E" then
        let '(sign, s2) := match s' with
                           | String "+" s2 => ("+", s2)
                           | String "-" s2 => ("-", s2)
                           | _ => ("", s')
                           end in
        match scan_digits1 s2 with Some (ds, rest) => Some (String c (sign +:+ ds), rest) | None => None end
      else Some ("", s)
  | EmptyString => Some ("", s)
  end.

Definition scan_number (s : string) : option (string * string) :=
  let '(sign, s1) := match s with String "-" s1 => ("-", s1) | _ => ("", s) end in
  match (match s1 with String "0" rest => Some ("0", rest) | _ => scan_digits1 s1 end) with
  | None => None
  | Some (int, s2) =>
      match scan_fraction s2 with
      | None => None
      | Some (frac, s3) =>
          match scan_exponent s3 with
          | None => None
          | Some (exp, rest) => Some (sign +:+ int +:+ frac +:+ exp, rest)
          end
      end
  end.

Fixpoint strip_prefix (p s : string) : option string :=
  match p, s with
  | EmptyString, _ => Some s
  | String c p', String c' s' => if Ascii.eqb c c' then strip_prefix p' s' else None
  | _, _ => None
  end.

(** One value from the front of the text, and the rest; every call takes a byte at least. *)
Fixpoint parse_value (fuel : nat) (s : string) : option (json * string) :=
  match fuel with
  | O => None
  | S fuel' =>
      match skip_ws s with
      | EmptyString => None
      | String c s' as t =>
          if Ascii.eqb c "{" then
            match skip_ws s' with
            | String "}" rest => Some (JObject [], rest)
            | _ => prod_map JObject id <$> parse_members fuel' s'
            end
          else if Ascii.eqb c "[" then
            match skip_ws s' with
            | String "]" rest => Some (JArray [], rest)
            | _ => prod_map JArray id <$> parse_elements fuel' s'
            end
          else if Ascii.eqb c quotation then prod_map JString id <$> parse_string (String.length s') s'
          else if Ascii.eqb c "n" then (λ rest, (JNull, rest)) <$> strip_prefix "null" t
          else if Ascii.eqb c "t" then (λ rest, (JBool true, rest)) <$> strip_prefix "true" t
          else if Ascii.eqb c "f" then (λ rest, (JBool false, rest)) <$> strip_prefix "false" t
          else prod_map JNumber id <$> scan_number t
      end
  end
with parse_elements (fuel : nat) (s : string) : option (list json * string) :=
  match fuel with
  | O => None
  | S fuel' =>
      match parse_value fuel' s with
      | None => None
      | Some (j, rest) =>
          match skip_ws rest with
          | String "," rest' => prod_map (λ l, j :: l) id <$> parse_elements fuel' rest'
          | String "]" rest' => Some ([j], rest')
          | _ => None
          end
      end
  end
with parse_members (fuel : nat) (s : string) : option (list (string * json) * string) :=
  match fuel with
  | O => None
  | S fuel' =>
      match skip_ws s with
      | String q s' =>
          match (if Ascii.eqb q quotation then parse_string (String.length s') s' else None) with
          | None => None
          | Some (key, s2) =>
              match skip_ws s2 with
              | String ":" s3 =>
                  match parse_value fuel' s3 with
                  | None => None
                  | Some (j, rest) =>
                      match skip_ws rest with
                      | String "," rest' => prod_map (λ l, (key, j) :: l) id <$> parse_members fuel' rest'
                      | String "}" rest' => Some ([(key, j)], rest')
                      | _ => None
                      end
                  end
              | _ => None
              end
          end
      | EmptyString => None
      end
  end.

Definition SyntaxError : error := mkError "*json.SyntaxError" "invalid character or end of JSON input".

(** [Decoder.Decode] and [Unmarshal] read the syntax of the first value before anything else. *)
Definition parse_json (s : string) : Result (json * string) :=
  match parse_value (S (S (2 * String.length s))) s with Some r => Ok r | None => Err SyntaxError end.

Example print_example :
  print_json (JObject [("a", JArray [JNumber "1"; JNull]); ("b<", JString (String "010" (String "233" "x")))]) =
    "{" +:+ dquote +:+ "a" +:+ dquote +:+ ":[1,null]," +:+ dquote +:+ "b" +:+ String backslash "u003c" +:+ dquote +:+
    ":" +:+ dquote +:+ String backslash "n" +:+ String backslash "ufffd" +:+ "x" +:+ dquote +:+ "}".
Proof. by vm_compute. Qed.

Example parse_example :
  parse_json (" { " +:+ dquote +:+ "k" +:+ dquote +:+ " : [ -1.5e3 , true ,{} ] } rest") =
    Ok (JObject [("k", JArray [JNumber "-1.5e3"; JBool true; JObject []])], " rest") ∧
  map (λ s, match parse_json s with Ok _ => true | _ => false end) ["01"; "-"; "[1,]"; "nul"; "[1 2]"; "{1:2}"] =
    [true; false; false; false; false; false].
Proof. by vm_compute. Qed.

(** * Lemmas *)

(** ** UTF-8 *)

Lemma split_rune_app s bytes rest :
  split_rune s = Some (bytes, rest) →
  s = bytes +:+ rest ∧ (String.length rest < String.length s)%nat ∧
  (∃ c b, bytes = String c b ∧ 128 ≤ byte_of c) ∧ ∀ t, split_rune (bytes +:+ t) = Some (bytes, t).
Proof.
  intros H. unfold split_rune in H.
  repeat (case_match; simplify_eq/=; try done).
  all: split_and!; try done; try lia;
    try (eexists _, _; split; [done|]; lia).
  all: intros t; repeat match goal with |- context [String ?c ?s +:+ t] => change (String c s +:+ t) with (String c (s +:+ t)) end;
    change ("" +:+ t) with t; unfold split_rune;
    repeat match goal with H : _ = _ |- _ => rewrite H; clear H end; done.
Qed.

(** ** String literals *)

Definition cons_bytes (bytes : string) (r : option (string * string)) : option (string * string) :=
  prod_map (λ t, bytes +:+ t) id <$> r.

Lemma parse_escaped_ascii c t f :
  byte_of c < 128 → parse_string (S f) (escape_ascii c +:+ t) = cons_bytes (String c "") (parse_string f t).
Proof. destruct c as [[] [] [] [] [] [] [] []]; intros H; (reflexivity || (exfalso; by vm_compute in H)). Qed.

Lemma parse_escaped_rune bytes rest t f s :
  split_rune s = Some (bytes, rest) →
  parse_string (S f) (escape_rune bytes +:+ t) = cons_bytes bytes (parse_string f t).
Proof.
  intros H. apply split_rune_app in H as (_ & _ & (c & b & -> & Hc) & Hs). unfold escape_rune.
  destruct (String.eqb_spec (String c b) (encode_rune 8232)) as [->|_]; [reflexivity|].
  destruct (String.eqb_spec (String c b) (encode_rune 8233)) as [->|_]; [reflexivity|].
  specialize (Hs t). change (String c b +:+ t) with (String c (b +:+ t)) in *. cbn [parse_string].
  assert (Hq : Ascii.eqb c quotation = false) by (destruct (Ascii.eqb_spec c quotation) as [->|]; [done|done]).
  assert (Hb : Ascii.eqb c backslash = false) by (destruct (Ascii.eqb_spec c backslash) as [->|]; [done|done]).
  rewrite Hq, Hb. replace (byte_of c <? 32) with false by lia. replace (byte_of c <? 128) with false by lia.
  by rewrite Hs.
Qed.

Lemma escape_ascii_length c : (0 < String.length (escape_ascii c))%nat.
Proof. destruct c as [[] [] [] [] [] [] [] []]; by apply Nat.ltb_lt. Qed.

Lemma escape_rune_length s bytes rest :
  split_rune s = Some (bytes, rest) → (0 < String.length (escape_rune bytes))%nat.
Proof.
  intros H. apply split_rune_app in H as (_ & _ & (c & b & -> & _) & _). unfold escape_rune.
  repeat case_match; cbn; lia.
Qed.

Lemma parse_escape f1 s f2 rest :
  utf8_loop f1 s = true → (String.length (escape f1 s) < f2)%nat →
  parse_string f2 (escape f1 s +:+ String quotation rest) = Some (s, rest).
Proof.
  revert s f2. induction f1 as [|f1 IH]; intros s f2 Hu Hf.
  - destruct s; [|done]. destruct f2; [cbn in Hf; lia|]. reflexivity.
  - destruct s as [|c s]; [destruct f2; [cbn in Hf; lia|reflexivity]|].
    cbn [utf8_loop escape] in *. destruct (Z.ltb_spec (byte_of c) 128) as [Hc|Hc].
    + rewrite string_app_assoc. rewrite length_string_app in Hf. pose proof (escape_ascii_length c).
      destruct f2 as [|f2]; [lia|]. rewrite parse_escaped_ascii by done. rewrite IH by (done || lia). done.
    + destruct (split_rune (String c s)) as [[bytes t]|] eqn:E; [|done].
      rewrite string_app_assoc. rewrite length_string_app in Hf. pose proof (escape_rune_length _ _ _ E).
      destruct f2 as [|f2]; [lia|]. rewrite (parse_escaped_rune bytes t _ f2 _ E). rewrite IH by (done || lia).
      cbn. apply split_rune_app in E as (-> & _). done.
Qed.

Lemma parse_print_string s rest :
  valid_utf8 s = true →
  ∃ t, print_string s +:+ rest = String quotation t ∧ parse_string (String.length t) t = Some (s, rest).
Proof.
  intros Hs. exists (escape (String.length s) s +:+ String quotation rest). split.
  - unfold print_string. change (String quotation ?x +:+ rest) with (String quotation (x +:+ rest)).
    by rewrite string_app_assoc.
  - apply parse_escape; [done|]. rewrite length_string_app. cbn. lia.
Qed.

(** ** Numbers *)

(** What may follow a number. *)
Definition ends_number (s : string) : bool :=
  match s with String c _ => negb (is_digit c || existsb (Ascii.eqb c) ["."; "e"; "E"]%char) | EmptyString => true end.

Lemma span_digits_app ds rest :
  all_chars is_digit ds = true → ends_number rest = true → span_digits (ds +:+ rest) = (ds, rest).
Proof.
  intros Hd Hr. induction ds as [|c ds IH].
  - change ("" +:+ rest) with rest. destruct rest as [|c rest]; [done|]. cbn in *.
    by destruct (is_digit c).
  - cbn in Hd. apply andb_true_iff in Hd as [Hc Hd]. change (String c ds +:+ rest) with (String c (ds +:+ rest)). cbn.
    by rewrite Hc, IH.
Qed.

Lemma scan_end rest : ends_number rest = true → scan_fraction rest = Some ("", rest) ∧ scan_exponent rest = Some ("", rest).
Proof.
  destruct rest as [|c rest]; [done|]. destruct c as [[] [] [] [] [] [] [] []]; done.
Qed.

(** The digits of a number have no leading zero. *)
Lemma scan_positive ds rest :
  all_chars is_digit ds = true → ds ≠ "" → ends_number rest = true →
  (match ds with String "0" ds' => ds' = "" | _ => True end) →
  (match ds +:+ rest with String "0" rest => Some ("0", rest) | _ => scan_digits1 (ds +:+ rest) end) = Some (ds, rest).
Proof.
  intros Hd Hne Hr Hz. assert (E : scan_digits1 (ds +:+ rest) = Some (ds, rest)).
  { unfold scan_digits1. rewrite span_digits_app by done. by destruct ds. }
  destruct ds as [|c ds]; [done|]. rewrite E. change (String c ds +:+ rest) with (String c (ds +:+ rest)).
  destruct c as [[] [] [] [] [] [] [] []]; try reflexivity. by subst ds.
Qed.

Lemma scan_fmt_d n rest : ends_number rest = true → scan_number (fmt_d n +:+ rest) = Some (fmt_d n, rest).
Proof.
  intros Hr. assert (Hpos : ∀ m, 0 ≤ m → (match fmt_d m +:+ rest with String "0" rest => Some ("0", rest)
                                          | _ => scan_digits1 (fmt_d m +:+ rest) end) = Some (fmt_d m, rest)).
  { intros m Hm. apply scan_positive; [by apply fmt_d_digits|by apply fmt_d_nonempty|done|].
    destruct (decide (m = 0)) as [->|Hne]; [done|]. rewrite fmt_d_nonneg by done.
    destruct (dec_digits_head (S (Z.to_nat (Z.log2 m))) m "" ltac:(lia) (dec_digits_fuel m Hm) ltac:(done))
      as (d & s & Hd & ->).
    assert (d = 1 ∨ d = 2 ∨ d = 3 ∨ d = 4 ∨ d = 5 ∨ d = 6 ∨ d = 7 ∨ d = 8 ∨ d = 9) as Hc by lia.
    by repeat destruct Hc as [->|Hc]; subst. }
  destruct (scan_end rest Hr) as [Hfr Hex]. unfold scan_number. destruct (Z.ltb_spec n 0) as [Hn|Hn].
  - assert (E : fmt_d n = String "-" (fmt_d (- n))).
    { unfold fmt_d. replace (n <? 0) with true by lia. by replace (- n <? 0) with false by lia. }
    rewrite E. change (String "-" ?s +:+ rest) with (String "-" (s +:+ rest)). cbv beta iota zeta.
    rewrite Hpos by lia. rewrite Hfr, Hex. by rewrite !string_app_nil.
  - specialize (Hpos n Hn). pose proof (fmt_d_digits n Hn) as Hd. pose proof (fmt_d_nonempty n Hn) as Hne.
    assert (E : match fmt_d n +:+ rest with String "-" s1 => ("-", s1) | _ => ("", fmt_d n +:+ rest) end =
                ("", fmt_d n +:+ rest)).
    { destruct (fmt_d n) as [|c s]; [done|]. cbn in Hd. apply andb_true_iff in Hd as [Hc _].
      change (String c s +:+ rest) with (String c (s +:+ rest)). by destruct c as [[] [] [] [] [] [] [] []]. }
    rewrite E. cbv beta iota zeta. rewrite Hpos, Hfr, Hex. by rewrite !string_app_nil.
Qed.

(** ** Trees *)

Section json_ind.
Context (P : json → Prop) (HNull : P JNull) (HBool : ∀ b, P (JBool b)) (HNumber : ∀ t, P (JNumber t))
  (HString : ∀ s, P (JString s)) (HArray : ∀ l, Forall P l → P (JArray l))
  (HObject : ∀ l, Forall (λ kv, P kv.2) l → P (JObject l)).

Fixpoint json_ind' (j : json) : P j.
Proof.
  destruct j as [|b|t|s|l|l]; [done..| |].
  - apply HArray. induction l; constructor; [apply json_ind'|assumption].
  - apply HObject. induction l as [|[k v] l IH]; constructor; [apply json_ind'|assumption].
Qed.
End json_ind.

Lemma ascii_valid_utf8 s : all_chars (λ c, byte_of c <? 128) s = true → valid_utf8 s = true.
Proof.
  unfold valid_utf8. induction s as [|c s IH]; [done|]. cbn. intros [Hc Hs]%andb_true_iff. rewrite Hc. by apply IH.
Qed.

(** The trees the encoder prints: integers, and strings that are UTF-8. *)
Fixpoint wf_json (j : json) : Prop :=
  match j with
  | JNull | JBool _ => True
  | JNumber text => ∃ n, text = fmt_d n
  | JString s => valid_utf8 s = true
  | JArray l => foldr (λ j acc, wf_json j ∧ acc) True l
  | JObject l => foldr (λ kv acc, valid_utf8 kv.1 = true ∧ wf_json kv.2 ∧ acc) True l
  end.

Definition starters : list ascii :=
  ["{"; "["; quotation; "n"; "t"; "f"; "-"; "0"; "1"; "2"; "3"; "4"; "5"; "6"; "7"; "8"; "9"]%char.

Lemma digit_starter c : is_digit c = true → c ∈ starters.
Proof.
  intros H. apply list_elem_of_In.
  destruct c as [[] [] [] [] [] [] [] []]; try (by vm_compute in H); cbn; tauto.
Qed.

Lemma number_starts n : ∃ c t, fmt_d n = String c t ∧ (c = "-"%char ∨ is_digit c = true).
Proof.
  destruct (Z.ltb_spec n 0) as [Hn|Hn].
  - unfold fmt_d. replace (n <? 0) with true by lia. eauto.
  - pose proof (fmt_d_digits n Hn) as Hd. pose proof (fmt_d_nonempty n Hn) as Hne.
    destruct (fmt_d n) as [|c s]; [done|]. cbn in Hd. apply andb_true_iff in Hd as [Hc _]. eauto.
Qed.

Lemma print_starts j : wf_json j → ∃ c t, print_json j = String c t ∧ c ∈ starters.
Proof.
  intros Hj. destruct j as [|[]|text|s|l|l]; cbn [print_json]; try (eexists _, _; split; [reflexivity|set_solver]).
  destruct Hj as [n ->]. destruct (number_starts n) as (c & t & E & Hc). exists c, t. split; [done|].
  destruct Hc as [->|Hc]; [set_solver|by apply digit_starter].
Qed.

(** A value that starts like a number is one. *)
Lemma parse_value_number f c s :
  c = "-"%char ∨ is_digit c = true →
  parse_value (S f) (String c s) = prod_map JNumber id <$> scan_number (String c s).
Proof.
  intros [->|Hc]; [done|]. destruct c as [[] [] [] [] [] [] [] []]; try (by vm_compute in Hc); reflexivity.
Qed.

Definition prints (j : json) : Prop := ∀ f rest,
  wf_json j → ends_number rest = true → (2 * String.length (print_json j) < f)%nat →
  parse_value f (print_json j +:+ rest) = Some (j, rest).

Lemma skip_starter c t : c ∈ starters → skip_ws (String c t) = String c t.
Proof. intros H. repeat (apply elem_of_cons in H as [->|H]; [done|]). by apply elem_of_nil in H. Qed.

Lemma ends_comma rest : ends_number (String "," rest) = true. Proof. done. Qed.

Lemma length_comma s t : String.length (s +:+ "," +:+ t) = S (String.length s + String.length t).
Proof. rewrite !length_string_app. cbn. lia. Qed.

Lemma parse_elements_print x l f rest :
  Forall prints (x :: l) → wf_json (JArray (x :: l)) →
  (2 * String.length (Join (map print_json (x :: l)) ",") + 1 < f)%nat →
  parse_elements f (Join (map print_json (x :: l)) "," +:+ String "]" rest) = Some (x :: l, rest).
Proof.
  revert x f. induction l as [|y l IH]; intros x f Hp Hwf Hf; apply Forall_cons in Hp as [Hx Hp];
    cbn in Hwf; destruct Hwf as [Hwx Hwf]; (destruct f as [|f]; [lia|]); cbn [parse_elements].
  - cbn in Hf |- *. rewrite Hx by (done || lia). reflexivity.
  - change (map print_json (x :: y :: l)) with (print_json x :: print_json y :: map print_json l) in *.
    rewrite Join_cons in *. rewrite length_comma in Hf.
    rewrite !string_app_assoc. change ("," +:+ ?s) with (String "," s). rewrite Hx by (done || lia).
    change (print_json y :: map print_json l) with (map print_json (y :: l)) in *.
    change (skip_ws (String "," ?s)) with (String "," s). cbv iota. rewrite IH by (done || lia). reflexivity.
Qed.

Lemma parse_members_print k x l f rest :
  Forall (λ kv, prints kv.2) ((k, x) :: l) → wf_json (JObject ((k, x) :: l)) →
  (2 * String.length (Join (map (λ kv, print_string kv.1 +:+ ":" +:+ print_json kv.2) ((k, x) :: l)) ",") + 1 < f)%nat →
  parse_members f (Join (map (λ kv, print_string kv.1 +:+ ":" +:+ print_json kv.2) ((k, x) :: l)) "," +:+ String "}" rest) =
    Some ((k, x) :: l, rest).
Proof.
  set (member := λ kv : string * json, print_string kv.1 +:+ ":" +:+ print_json kv.2).
  revert k x f. induction l as [|[k' y] l IH]; intros k x f Hp Hwf Hf; apply Forall_cons in Hp as [Hx Hp];
    cbn in Hwf, Hx; destruct Hwf as (Hk & Hwx & Hwf); (destruct f as [|f]; [lia|]); cbn [parse_members].
  - change (Join (map member [(k, x)]) ",") with (print_string k +:+ ":" +:+ print_json x) in *.
    rewrite !length_string_app in Hf. cbn in Hf. rewrite !string_app_assoc.
    destruct (parse_print_string k (":" +:+ print_json x +:+ String "}" rest) Hk) as (t & -> & Ht).
    change (skip_ws (String quotation t)) with (String quotation t). cbv iota.
    rewrite Ascii.eqb_refl, Ht. change (skip_ws (":" +:+ ?s)) with (String ":" s). cbv iota.
    rewrite Hx by (done || lia). reflexivity.
  - change (map member ((k, x) :: (k', y) :: l)) with (member (k, x) :: map member ((k', y) :: l)) in *.
    cbn [map] in *. rewrite Join_cons in *. rewrite length_comma in Hf.
    change (member (k, x)) with (print_string k +:+ ":" +:+ print_json x) in *.
    rewrite !length_string_app in Hf. cbn [String.length] in Hf. rewrite !string_app_assoc.
    match goal with |- context [print_string k +:+ ":" +:+ ?s] =>
      destruct (parse_print_string k (":" +:+ s) Hk) as (t & -> & Ht) end.
    change (skip_ws (String quotation t)) with (String quotation t). cbv iota.
    rewrite Ascii.eqb_refl, Ht. change (skip_ws (":" +:+ ?s)) with (String ":" s). cbv iota.
    change ("," +:+ ?s) with (String "," s). rewrite Hx by (done || lia).
    change (skip_ws (String "," ?s)) with (String "," s). cbv iota. rewrite IH by (done || lia). reflexivity.
Qed.

(** What stands in brackets is not empty. *)
Lemma parse_array f c s : c ∈ starters →
  parse_value (S f) (String "[" (String c s)) = prod_map JArray id <$> parse_elements f (String c s).
Proof.
  intros Hc. cbn [parse_value]. change (skip_ws (String "[" ?x)) with (String "[" x). cbv iota. cbn [Ascii.eqb].
  change (Ascii.eqb "[" "{") with false. change (Ascii.eqb "[" "[") with true. cbv iota.
  rewrite skip_starter by done. repeat (apply elem_of_cons in Hc as [->|Hc]; [done|]). by apply elem_of_nil in Hc.
Qed.

Lemma print_parse j : prints j.
Proof.
  induction j as [|b|text|s|l IH|l IH] using json_ind'; intros f rest Hwf Hr Hf;
    (destruct f as [|f]; [lia|]); cbn [print_json] in *.
  - reflexivity.
  - by destruct b.
  - destruct Hwf as [n ->]. pose proof (scan_fmt_d n rest Hr) as Hs. destruct (number_starts n) as (c & t & E & Hc).
    rewrite E in *. change (String c t +:+ rest) with (String c (t +:+ rest)) in *.
    by rewrite parse_value_number, Hs.
  - cbn in Hwf. destruct (parse_print_string s rest Hwf) as (t & -> & Ht). cbn [parse_value].
    change (skip_ws (String quotation t)) with (String quotation t). cbv iota.
    change (Ascii.eqb quotation "{") with false. change (Ascii.eqb quotation "[") with false. cbv iota.
    by rewrite Ascii.eqb_refl, Ht.
  - destruct l as [|x l]; [reflexivity|]. rewrite !length_string_app in Hf. cbn [String.length] in Hf.
    assert (Hx : wf_json x) by (by destruct Hwf).
    destruct (print_starts x Hx) as (c & t & E & Hc). rewrite !string_app_assoc.
    change ("[" +:+ ?s) with (String "[" s). change ("]" +:+ rest) with (String "]" rest).
    assert (Hc' : ∃ t', Join (map print_json (x :: l)) "," +:+ String "]" rest = String c t').
    { destruct l as [|y l]; [change (Join _ _) with (print_json x)|cbn [map]; rewrite Join_cons]; rewrite E; eauto. }
    destruct Hc' as [t' E']. pose proof (parse_elements_print x l f rest IH Hwf ltac:(lia)) as Hp.
    rewrite E' in *. rewrite parse_array by done. by rewrite Hp.
  - destruct l as [|[k x] l]; [reflexivity|]. rewrite !length_string_app in Hf. cbn [String.length] in Hf.
    rewrite !string_app_assoc. change ("{" +:+ ?s) with (String "{" s). change ("}" +:+ rest) with (String "}" rest).
    pose proof (parse_members_print k x l f rest IH Hwf ltac:(lia)) as Hp.
    assert (Hc' : ∃ t', Join (map (λ kv, print_string kv.1 +:+ ":" +:+ print_json kv.2) ((k, x) :: l)) "," +:+
                        String "}" rest = String quotation t').
    { unfold print_string at 1. cbn [map]. destruct l as [|y l]; cbn [map]; [cbn [Join]|rewrite Join_cons]; eexists; reflexivity. }
    destruct Hc' as [t' E']. rewrite E' in *. cbn [parse_value].
    change (skip_ws (String "{" ?s)) with (String "{" s). cbv iota. change (Ascii.eqb "{" "{") with true. cbv iota.
    change (skip_ws (String quotation t')) with (String quotation t'). unfold quotation at 1. cbv iota. by rewrite Hp.
Qed.

(** Text the encoder has printed is read back, whatever follows it that does not continue a
    number. *)
Lemma parse_json_print j rest :
  wf_json j → ends_number rest = true → parse_json (print_json j +:+ rest) = Ok (j, rest).
Proof.
  intros Hwf Hr. unfold parse_json. rewrite print_parse; [done|done|done|].
  rewrite length_string_app. lia.
Qed.
