(* ===== verification/JsonCodec.v ===== *)
(** Go values as JSON: what [encoding/json] does by reflection on types, as combinators.
    A [Codec] encodes a value as a tree and decodes a tree into a value that is there
    already: [null] leaves it alone, an object sets the fields it names. *)
From S2P Require Import Prelude GoStd Json.
From stdpp Require Import sorting.
From Stdlib Require Import Ascii.

Local Open Scope string_scope.
Local Open Scope list_scope.
Local Open Scope Z_scope.

(** [c_zero]: the zero value; [c_ok]: the values that survive the round trip. *)
Record Codec (A : Type) := mkCodec {
  c_zero : A;
  c_enc : A → json;
  c_dec : A → json → Result A;
  c_ok : A → Prop
}.
Arguments mkCodec {A} _ _ _ _.
Arguments c_zero {A} _.
Arguments c_enc {A} _ _.
Arguments c_dec {A} _ _ _.
Arguments c_ok {A} _ _.

Class CodecLaws {A} (c : Codec A) : Prop := {
  c_wf a : c_ok c a → wf_json (c_enc c a);
  c_roundtrip a : c_ok c a → c_dec c (c_zero c) (c_enc c a) = Ok a
}.

Definition UnmarshalTypeError : error := mkError "*json.UnmarshalTypeError" "json: cannot unmarshal".

(** * Numbers, booleans and strings *)

Definition ParseInt10 (s : string) : Result Z :=
  let '(neg, t) := match s with
                   | String "+" t => (false, t)
                   | String "-" t => (true, t)
                   | _ => (false, s)
                   end in
  un ← ParseUint t;
  if (negb neg && (2 ^ 63 <=? un)) || (neg && (2 ^ 63 <? un)) then Err (ErrRange s)
  else Ok (if neg then - un else un).

(** [uint32] and [uint64] *)
Definition uint_codec (bits : Z) : Codec Z := {|
  c_zero := 0;
  c_enc n := JNumber (fmt_d n);
  c_dec old j := match j with
                 | JNull => Ok old
                 | JNumber text =>
                     match ParseUint text with
                     | Ok n => if n <? 2 ^ bits then Ok n else Err UnmarshalTypeError
                     | _ => Err UnmarshalTypeError
                     end
                 | _ => Err UnmarshalTypeError
                 end;
  c_ok n := 0 ≤ n < 2 ^ bits
|}.

(** [int64], and with it [time.Duration] *)
Definition int64_codec : Codec Z := {|
  c_zero := 0;
  c_enc n := JNumber (fmt_d n);
  c_dec old j := match j with
                 | JNull => Ok old
                 | JNumber text => match ParseInt10 text with Ok n => Ok n | _ => Err UnmarshalTypeError end
                 | _ => Err UnmarshalTypeError
                 end;
  c_ok n := - 2 ^ 63 ≤ n < 2 ^ 63
|}.

Definition bool_codec : Codec bool := {|
  c_zero := false;
  c_enc := JBool;
  c_dec old j := match j with JNull => Ok old | JBool b => Ok b | _ => Err UnmarshalTypeError end;
  c_ok _ := True
|}.

Definition string_codec : Codec string := {|
  c_zero := "";
  c_enc := JString;
  c_dec old j := match j with JNull => Ok old | JString s => Ok s | _ => Err UnmarshalTypeError end;
  c_ok s := valid_utf8 s = true
|}.

(** * Slices, pointers and maps *)

(** The elements are decoded into fresh values. *)
Fixpoint dec_list {A} (c : Codec A) (l : list json) : Result (list A) :=
  match l with
  | [] => Ok []
  | j :: l' => x ← c_dec c (c_zero c) j; xs ← dec_list c l'; Ok (x :: xs)
  end.

(** An empty slice is printed as [[]], or as [null] where it was never made ([nil_slice]). *)
Definition slice_codec {A} (nil_slice : bool) (c : Codec A) : Codec (list A) := {|
  c_zero := [];
  c_enc l := if nil_slice && bool_decide (length l = O) then JNull else JArray (map (c_enc c) l);
  c_dec old j := match j with
                 | JNull => Ok []
                 | JArray l => dec_list c l
                 | _ => Err UnmarshalTypeError
                 end;
  c_ok l := Forall (c_ok c) l
|}.

(** A pointer that is nil is made to point to a fresh value. *)
Definition pointer_codec {A} (c : Codec A) : Codec (option A) := {|
  c_zero := None;
  c_enc o := match o with Some a => c_enc c a | None => JNull end;
  c_dec old j := match j with
                 | JNull => Ok None
                 | _ => a ← c_dec c (default (c_zero c) old) j; Ok (Some a)
                 end;
  c_ok o := match o with Some a => c_ok c a ∧ c_enc c a ≠ JNull | None => True end
|}.

Definition key_le (kv kv' : string * string) : Prop := String.leb kv.1 kv'.1 = true.
#[local] Instance key_le_dec kv kv' : Decision (key_le kv kv').
Proof. unfold key_le. apply _. Defined.

(** [map[string]string]: the keys are sorted. *)
Definition string_map_codec : Codec (gmap string string) := {|
  c_zero := ∅;
  c_enc m := JObject (map (λ kv, (kv.1, JString kv.2)) (merge_sort key_le (map_to_list m)));
  c_dec old j := match j with
                 | JNull => Ok ∅
                 | JObject l =>
                     foldl (λ acc kv, m ← acc; v ← c_dec string_codec "" kv.2; Ok (<[kv.1 := v]> m)) (Ok old) l
                 | _ => Err UnmarshalTypeError
                 end;
  c_ok m := map_Forall (λ k v, valid_utf8 k = true ∧ valid_utf8 v = true) m
|}.

(** * Structs *)

Definition lower (c : ascii) : ascii :=
  if (65 <=? byte_of c) && (byte_of c <=? 90) then chr (byte_of c + 32) else c.

(** [strings.EqualFold] on ASCII names *)
Fixpoint EqualFold (s t : string) : bool :=
  match s, t with
  | EmptyString, EmptyString => true
  | String c s', String c' t' => Ascii.eqb (lower c) (lower c') && EqualFold s' t'
  | _, _ => false
  end.

(** A field: its name, how it is encoded, and how it is set. *)
Record Field (A : Type) := mkField {
  f_name : string;
  f_enc : A → json;
  f_dec : A → json → Result A
}.
Arguments mkField {A} _ _ _.
Arguments f_name {A} _.
Arguments f_enc {A} _ _.
Arguments f_dec {A} _ _ _.

Definition field {A B} (name : string) (c : Codec B) (get : A → B) (set : B → A → A) : Field A :=
  mkField name (λ a, c_enc c (get a)) (λ a j, b ← c_dec c (get a) j; Ok (set b a)).

(** The field of this very name, or else the first that differs in case only. *)
Definition find_field {A} (key : string) (fields : list (Field A)) : option (Field A) :=
  match find (λ f, String.eqb (f_name f) key) fields with
  | Some f => Some f
  | None => find (λ f, EqualFold (f_name f) key) fields
  end.

(** Members that are no field are skipped. *)
Definition dec_struct {A} (fields : list (Field A)) (old : A) (j : json) : Result A :=
  match j with
  | JNull => Ok old
  | JObject l =>
      foldl (λ acc kv, a ← acc; match find_field kv.1 fields with Some f => f_dec f a kv.2 | None => Ok a end)
        (Ok old) l
  | _ => Err UnmarshalTypeError
  end.

Definition enc_struct {A} (fields : list (Field A)) (a : A) : json :=
  JObject (map (λ f, (f_name f, f_enc f a)) fields).

Definition struct_codec {A} (zero : A) (fields : list (Field A)) (ok : A → Prop) : Codec A :=
  mkCodec zero (enc_struct fields) (dec_struct fields) ok.

(** * Lemmas *)

Lemma ParseInt10_fmt_d n : - 2 ^ 63 ≤ n < 2 ^ 63 → ParseInt10 (fmt_d n) = Ok n.
Proof.
  intros Hn. unfold ParseInt10. destruct (Z.ltb_spec n 0) as [Hneg|Hpos].
  - assert (E : fmt_d n = String "-" (fmt_d (- n))).
    { unfold fmt_d. replace (n <? 0) with true by lia. by replace (- n <? 0) with false by lia. }
    rewrite E. rewrite ParseUint_fmt_d by (unfold is_u64; lia). cbn.
    replace (2 ^ 63 <? - n) with false by lia. by rewrite Z.opp_involutive.
  - pose proof (fmt_d_digits n ltac:(lia)) as Hd.
    assert (E : match fmt_d n with
                | String "+" t => (false, t) | String "-" t => (true, t) | _ => (false, fmt_d n)
                end = (false, fmt_d n)).
    { destruct (fmt_d n) as [|c s]; [done|]. cbn in Hd. apply andb_true_iff in Hd as [Hc _].
      by destruct c as [[] [] [] [] [] [] [] []]. }
    rewrite E. rewrite ParseUint_fmt_d by (unfold is_u64; lia). cbn.
    by replace (2 ^ 63 <=? n) with false by lia.
Qed.

Lemma uint_laws bits : 0 ≤ bits ≤ 64 → CodecLaws (uint_codec bits).
Proof.
  intros Hb. split; cbn; intros n Hn; [by exists n|].
  assert (2 ^ bits ≤ 2 ^ 64) by (apply Z.pow_le_mono_r; lia).
  rewrite ParseUint_fmt_d by (unfold is_u64; lia). by replace (n <? 2 ^ bits) with true by lia.
Qed.

#[export] Instance u32_laws : CodecLaws (uint_codec 32).
Proof. apply uint_laws. lia. Qed.
#[export] Instance u64_laws : CodecLaws (uint_codec 64).
Proof. apply uint_laws. lia. Qed.

#[export] Instance int64_laws : CodecLaws int64_codec.
Proof. split; cbn; intros n Hn; [by exists n|]. by rewrite ParseInt10_fmt_d. Qed.

#[export] Instance bool_laws : CodecLaws bool_codec.
Proof. by split. Qed.

#[export] Instance string_laws : CodecLaws string_codec.
Proof. by split. Qed.

#[export] Instance slice_laws {A} nil_slice (c : Codec A) : CodecLaws c → CodecLaws (slice_codec nil_slice c).
Proof.
  intros Hc. split; cbn; intros l Hl.
  - case_match; [done|]. cbn. clear -Hc Hl. induction Hl as [|x l Hx Hl IH]; [done|]. split; [by apply c_wf|done].
  - destruct (nil_slice && _) eqn:E.
    + apply andb_true_iff in E as [_ E%bool_decide_eq_true]. by destruct l.
    + clear E. induction Hl as [|x l Hx Hl IH]; [done|]. cbn. by rewrite c_roundtrip, IH.
Qed.

#[export] Instance pointer_laws {A} (c : Codec A) : CodecLaws c → CodecLaws (pointer_codec c).
Proof.
  intros Hc. split; cbn; intros [a|] Ha; try done; [by apply c_wf, Ha|].
  destruct Ha as [Ha Hn]. pose proof (c_roundtrip a Ha) as Hr. destruct (c_enc c a); try done; by rewrite Hr.
Qed.

#[export] Instance string_map_laws : CodecLaws string_map_codec.
Proof.
  split; cbn; intros m Hm.
  - assert (Hf : Forall (λ kv, valid_utf8 kv.1 = true ∧ valid_utf8 kv.2 = true) (merge_sort key_le (map_to_list m))).
    { rewrite merge_sort_Permutation. apply Forall_forall. intros [k v] Hin%elem_of_map_to_list. by apply (Hm k v). }
    clear Hm. induction Hf as [|[k v] l [Hk Hv] Hl IH]; [done|]. by split_and!.
  - assert (E : ∀ (l : list (string * string)) (m0 : gmap string string),
      foldl (λ acc kv, m ← acc; v ← c_dec string_codec "" kv.2; Ok (<[kv.1:=v]> m)) (Ok m0)
        (map (λ kv, (kv.1, JString kv.2)) l) = Ok (foldl (λ m kv, <[kv.1 := kv.2]> m) m0 l)).
    { induction l as [|[k v] l IH]; intros m0; [done|]. cbn. apply IH. }
    rewrite E. f_equal. set (l := merge_sort key_le (map_to_list m)).
    assert (Hnd : NoDup l.*1) by (unfold l; rewrite merge_sort_Permutation; apply NoDup_fst_map_to_list).
    assert (Hl : ∀ m0 : gmap string string, foldl (λ m kv, <[kv.1 := kv.2]> m) m0 l = list_to_map l ∪ m0).
    { clearbody l. induction l as [|[k v] l IH]; intros m0; [by rewrite list_to_map_nil, (left_id_L ∅ (∪))|].
      apply NoDup_cons in Hnd as [Hk Hnd]. cbn. rewrite IH by done.
      rewrite <-insert_union_l, <-insert_union_r; [done|]. by apply not_elem_of_list_to_map_1. }
    rewrite Hl, (right_id_L ∅ (∪)). unfold l. rewrite <-(list_to_map_to_list m) at 2.
    apply list_to_map_proper; [done|apply merge_sort_Permutation].
Qed.

(** ** Structs: a field at a time *)

Section structs.
Context {A : Type}.
Implicit Types (fields : list (Field A)) (a : A).

Lemma wf_struct fields a :
  Forall (λ f, valid_utf8 (f_name f) = true ∧ wf_json (f_enc f a)) fields → wf_json (enc_struct fields a).
Proof. induction 1 as [|f fields [Hn Hf] H IH]; [done|]. cbn. by split_and!. Qed.

Lemma wf_field {B} name (c : Codec B) get set a :
  CodecLaws c → valid_utf8 name = true → c_ok c (get a) →
  valid_utf8 (f_name (field (A := A) name c get set)) = true ∧ wf_json (f_enc (field name c get set) a).
Proof. intros Hc Hn Ha. split; [done|]. by apply c_wf. Qed.

Definition dec_members fields (l : list (string * json)) (acc : Result A) : Result A :=
  foldl (λ acc kv, a ← acc; match find_field kv.1 fields with Some f => f_dec f a kv.2 | None => Ok a end) acc l.

Lemma dec_member fields f a a' b l :
  find_field (f_name f) fields = Some f → f_dec f a (f_enc f b) = Ok a' →
  dec_members fields ((f_name f, f_enc f b) :: l) (Ok a) = dec_members fields l (Ok a').
Proof. intros Hf Hd. unfold dec_members. cbn. by rewrite Hf, Hd. Qed.

Lemma dec_field {B} name (c : Codec B) get set a b :
  CodecLaws c → get a = c_zero c → c_ok c (get b) →
  f_dec (field name c get set) a (f_enc (field name c get set) b) = Ok (set (get b) a).
Proof. intros Hc Hz Hb. cbn. rewrite Hz. by rewrite c_roundtrip. Qed.

(** The fields are read one by one into the zero value. *)
Lemma struct_laws zero fields ok :
  (∀ a, ok a → Forall (λ f, valid_utf8 (f_name f) = true ∧ wf_json (f_enc f a)) fields) →
  (∀ a, ok a → dec_members fields (map (λ f, (f_name f, f_enc f a)) fields) (Ok zero) = Ok a) →
  CodecLaws (struct_codec zero fields ok).
Proof. intros Hwf Hd. split; cbn; intros a Ha; [by apply wf_struct, Hwf|by apply Hd]. Qed.
End structs.

(** ** No text makes a decoder panic *)

Definition no_crash {A} (r : Result A) : Prop := ∀ f, r ≠ Crash f.

Lemma no_crash_Ok {A} (a : A) : no_crash (Ok a).
Proof. done. Qed.

Lemma no_crash_Err {A} e : no_crash (Err (A := A) e).
Proof. done. Qed.

Lemma no_crash_bind {A B} (r : Result A) (k : A → Result B) : no_crash r → (∀ a, no_crash (k a)) → no_crash (r ≫= k).
Proof. intros Hr Hk. destruct r as [a|e|f]; [apply Hk|done|by destruct (Hr f)]. Qed.

#[export] Hint Resolve no_crash_Ok no_crash_Err no_crash_bind : returns.

Class Decodes {A} (c : Codec A) : Prop := c_decodes old j : no_crash (c_dec c old j).

Ltac solve_decodes := intros ? j; destruct j; cbn; repeat case_match; eauto with returns.

#[export] Instance uint_decodes bits : Decodes (uint_codec bits).
Proof. solve_decodes. Qed.
#[export] Instance int64_decodes : Decodes int64_codec.
Proof. solve_decodes. Qed.
#[export] Instance bool_decodes : Decodes bool_codec.
Proof. solve_decodes. Qed.
#[export] Instance string_decodes : Decodes string_codec.
Proof. solve_decodes. Qed.

#[export] Instance slice_decodes {A} nil_slice (c : Codec A) : Decodes c → Decodes (slice_codec nil_slice c).
Proof. intros Hc old j. destruct j as [| | | |l|]; try done. cbn. induction l; cbn; eauto with returns. Qed.

#[export] Instance pointer_decodes {A} (c : Codec A) : Decodes c → Decodes (pointer_codec c).
Proof. intros Hc old j. destruct j; try done; apply no_crash_bind; auto with returns. Qed.

Lemma no_crash_foldl {A X} (step : A → X → Result A) l acc :
  no_crash acc → (∀ a x, no_crash (step a x)) → no_crash (foldl (λ acc x, a ← acc; step a x) acc l).
Proof. revert acc. induction l as [|x l IH]; intros acc Ha Hs; cbn; auto with returns. Qed.

#[export] Instance string_map_decodes : Decodes string_map_codec.
Proof.
  intros old j. destruct j as [| | | | |l]; try done. cbn. apply no_crash_foldl; [done|].
  intros m kv. apply no_crash_bind; [apply string_decodes|done].
Qed.

Lemma find_field_in {A} k (fields : list (Field A)) f : find_field k fields = Some f → f ∈ fields.
Proof.
  unfold find_field. destruct (find _ fields) eqn:E; [intros [= <-]|]; [|clear E; intros E];
    apply find_some in E as [E _]; by apply list_elem_of_In.
Qed.

Lemma struct_decodes {A} (fields : list (Field A)) zero ok :
  Forall (λ f, ∀ a j, no_crash (f_dec f a j)) fields → Decodes (struct_codec zero fields ok).
Proof.
  intros Hf old j. destruct j as [| | | | |l]; try done. cbn.
  apply (no_crash_foldl (λ a kv, match find_field kv.1 fields with Some f => f_dec f a kv.2 | None => Ok a end));
    [done|].
  intros a kv. case_match eqn:E; [|done]. apply find_field_in in E. rewrite Forall_forall in Hf. by apply Hf.
Qed.

Lemma field_decodes {A B} name (c : Codec B) get set a j : Decodes c → no_crash (f_dec (field (A := A) name c get set) a j).
Proof. intros Hc. apply no_crash_bind; auto with returns. Qed.

Ltac solve_struct_decodes := apply struct_decodes; repeat (constructor; [intros; apply field_decodes; apply _|]); constructor.

(** ** Automation for structs *)

Ltac solve_fields ok :=
  repeat (constructor; [apply wf_field; [apply _|vm_compute; reflexivity|ok]|]); constructor.

(** [norm] computes the value that a field has just been set in. *)
Ltac solve_members norm ok :=
  cbn [map];
  repeat (erewrite dec_member; [|reflexivity|etrans; [apply dec_field; [apply _|reflexivity|ok]|norm; reflexivity]]);
  reflexivity.

Ltac word_ok := unfold is_u64, is_u32 in *; cbn in *; tauto.

Ltac solve_struct :=
  apply struct_laws; intros a Ha; destruct a; [solve_fields word_ok|solve_members idtac word_ok].
