(* ===== verification/MessageCodec.v ===== *)
(** Messages of the garden protocol as JSON: structs generated from .proto files, all of whose
    fields are tagged [omitempty], so that a field that is nil or an empty slice is not
    written, and what is not there stays nil. *)
From S2P Require Import Prelude GoStd Json JsonCodec.

Local Open Scope string_scope.
Local Open Scope list_scope.
Local Open Scope Z_scope.

(** * Enumerations *)

(** [proto.UnmarshalJSONEnum]: a name of the table, or an [int32]. *)
Definition UnmarshalJSONEnum (values : list (string * Z)) (j : json) : Result Z :=
  match j with
  | JString repr =>
      match find (λ kv, String.eqb kv.1 repr) values with
      | Some kv => Ok kv.2
      | None => Err (errors_New "unrecognized enum value")
      end
  | JNumber text =>
      match ParseInt10 text with
      | Ok n => if (- 2 ^ 31 <=? n) && (n <? 2 ^ 31) then Ok n else Err (errors_New "cannot unmarshal into enum")
      | _ => Err (errors_New "cannot unmarshal into enum")
      end
  | _ => Err (errors_New "cannot unmarshal into enum")
  end.

(** A value is written as its number. *)
Definition enum_codec (values : list (string * Z)) : Codec Z := {|
  c_zero := 0;
  c_enc n := JNumber (fmt_d n);
  c_dec _ j := UnmarshalJSONEnum values j;
  c_ok n := - 2 ^ 31 ≤ n < 2 ^ 31
|}.

(** * Messages *)

Definition members {A} (fields : list (Field A)) (a : A) : list (string * json) :=
  omap (λ f, match f_enc f a with JNull => None | j => Some (f_name f, j) end) fields.

Definition message_codec {A} (zero : A) (fields : list (Field A)) (ok : A → Prop) : Codec A :=
  mkCodec zero (λ a, JObject (members fields a)) (dec_struct fields) ok.

(** A message whose fields are all alike, as the list of their values *)
Definition array_field {A} (c : Codec (option A)) (i : nat) (name : string) : Field (list (option A)) :=
  field name c (λ m, default None (m !! i)) (λ v m, <[i := v]> m).

Definition array_codec {A} (names : list string) (c : Codec (option A)) : Codec (list (option A)) :=
  message_codec (replicate (length names) None) (imap (array_field c) names)
    (λ m, length m = length names ∧ Forall (c_ok c) m).

(** * Lemmas *)

#[export] Instance enum_laws values : CodecLaws (enum_codec values).
Proof.
  split; cbn; intros n Hn; [by exists n|]. rewrite ParseInt10_fmt_d by lia.
  assert ((- 2 ^ 31 <=? n) && (n <? 2 ^ 31) = true) as -> by (apply andb_true_iff; lia). done.
Qed.

#[export] Instance enum_decodes values : Decodes (enum_codec values).
Proof. intros old j. cbn. unfold UnmarshalJSONEnum. by repeat case_match. Qed.

(** A codec that writes [null] for nothing, and one that does so for nil only. *)
Class NeverNull {A} (c : Codec A) : Prop := never_null a : c_enc c a ≠ JNull.
Class Omits {A} (c : Codec A) : Prop := omits a : c_ok c a → c_enc c a = JNull → a = c_zero c.

#[export] Instance uint_never_null bits : NeverNull (uint_codec bits).
Proof. done. Qed.
#[export] Instance bool_never_null : NeverNull bool_codec.
Proof. done. Qed.
#[export] Instance string_never_null : NeverNull string_codec.
Proof. done. Qed.
#[export] Instance enum_never_null values : NeverNull (enum_codec values).
Proof. done. Qed.
#[export] Instance message_never_null {A} (zero : A) fields ok : NeverNull (message_codec zero fields ok).
Proof. done. Qed.

#[export] Instance pointer_omits {A} (c : Codec A) : Omits (pointer_codec c).
Proof. intros [a|]; [|done]. by intros [_ Ha]. Qed.
#[export] Instance slice_omits {A} (c : Codec A) : Omits (slice_codec true c).
Proof. intros [|x l]; [done|]. by intros _ [=]. Qed.

(** What a pointer in a message may point to *)
Lemma pointer_ok {A} (c : Codec A) a : NeverNull c → c_ok c a → c_ok (pointer_codec c) (Some a).
Proof. intros Hn Ha. split; [done|apply Hn]. Qed.

Lemma pointers_ok {A} (c : Codec A) l : NeverNull c → Forall (c_ok c) l → Forall (c_ok (pointer_codec c)) (map Some l).
Proof. intros Hn Hl. apply Forall_fmap. eapply Forall_impl; [exact Hl|]. intros a. by apply pointer_ok. Qed.

Section messages.
Context {A : Type}.
Implicit Types (fields : list (Field A)) (a : A).

Lemma wf_members fields a :
  Forall (λ f, valid_utf8 (f_name f) = true ∧ wf_json (f_enc f a)) fields → wf_json (JObject (members fields a)).
Proof.
  induction 1 as [|f fields [Hn Hf] H IH]; [done|]. unfold members. cbn [omap list_omap]. destruct (f_enc f a); try exact IH;
    cbn; by split_and!.
Qed.

(** A field is read as it was written, and left alone where it was not. *)
Lemma dec_message_field {B} all l name (c : Codec B) get set a b :
  CodecLaws c → Omits c → find_field name all = Some (field name c get set) →
  get a = c_zero c → c_ok c (get b) → set (get a) a = a →
  dec_members all (members (field name c get set :: l) b) (Ok a) = dec_members all (members l b) (Ok (set (get b) a)).
Proof.
  intros Hc Ho Hf Hz Hb Hs. unfold members at 1. cbn [omap list_omap f_enc field f_name].
  destruct (c_enc c (get b)) eqn:E;
    try (rewrite <-E; apply (dec_member all (field name c get set)); [exact Hf|by apply dec_field]).
  assert (get b = get a) as -> by (rewrite Hz; by apply Ho). by rewrite Hs.
Qed.

(** The fields are read one by one into the zero value. *)
Lemma message_laws zero fields ok :
  (∀ a, ok a → Forall (λ f, valid_utf8 (f_name f) = true ∧ wf_json (f_enc f a)) fields) →
  (∀ a, ok a → dec_members fields (members fields a) (Ok zero) = Ok a) →
  CodecLaws (message_codec zero fields ok).
Proof. intros Hwf Hd. split; cbn [c_ok message_codec c_enc c_dec]; intros a Ha; [by apply wf_members, Hwf|by apply Hd]. Qed.

Lemma message_decodes zero fields ok :
  Forall (λ f, ∀ a j, no_crash (f_dec f a j)) fields → Decodes (message_codec zero fields ok).
Proof. intros Hf old j. by apply (struct_decodes fields old ok Hf old j). Qed.
End messages.

(** ** Messages as lists *)

Section arrays.
Context {A : Type} (c : Codec (option A)) `{!CodecLaws c, !Omits c} (names : list string).
Hypotheses (Hzero : c_zero c = None) (Hnodup : NoDup names).

Lemma array_names (f : nat → nat) l : f_name <$> imap (λ i, array_field c (f i)) l = l.
Proof using Type. revert f. induction l as [|x l IH]; intros f; [done|]. cbn. f_equal. apply (IH (f ∘ S)). Qed.

Lemma array_find i name :
  names !! i = Some name → find_field name (imap (array_field c) names) = Some (array_field c i name).
Proof using Hnodup.
  intros Hi. unfold find_field.
  assert (Hf : imap (array_field c) names !! i = Some (array_field c i name)) by (by rewrite list_lookup_imap, Hi).
  assert (Hn : ∀ j, names !! j = f_name <$> (imap (array_field c) names !! j)).
  { intros j. rewrite <-list_lookup_fmap. pose proof (array_names (λ i, i) names) as E. by rewrite <-E at 1. }
  destruct (find _ _) as [f|] eqn:E.
  - apply find_some in E as [Hin%list_elem_of_In Hname%String.eqb_eq].
    apply list_elem_of_lookup in Hin as [j Hj]. f_equal.
    assert (Hj' : names !! j = Some name) by (rewrite Hn, Hj; cbn; by rewrite Hname).
    assert (j = i) as -> by (by eapply NoDup_lookup). congruence.
  - pose proof (find_none _ _ E _ (proj1 (list_elem_of_In _ _) (list_elem_of_lookup_2 _ _ _ Hf))) as H.
    cbn in H. by rewrite String.eqb_refl in H.
Qed.

(** From field [k] on: what has been read so far is a start of the message. *)
Lemma array_dec m k l : drop k names = l → length m = length names → Forall (c_ok c) m →
  dec_members (imap (array_field c) names) (members (imap (λ i, array_field c (k + i)) l) m)
    (Ok (take k m ++ replicate (length names - k) None)) = Ok m.
Proof using All.
  revert k. induction l as [|x l IH]; intros k Hl Hm Hok.
  - assert (length names ≤ k)%nat by (by apply length_zero_iff_nil in Hl; rewrite length_drop in Hl; lia).
    rewrite take_ge by lia. replace (length names - k)%nat with O by lia. by rewrite app_nil_r.
  - assert (Hk : names !! k = Some x) by (by rewrite <-(Nat.add_0_r k), <-lookup_drop, Hl).
    pose proof (lookup_lt_Some _ _ _ Hk) as Hlt.
    destruct (lookup_lt_is_Some_2 m k) as [v Hv]; [lia|].
    assert (Hold : (take k m ++ replicate (length names - k) None) !! k = Some None).
    { rewrite lookup_app_r by (rewrite length_take; lia). apply lookup_replicate. split; [done|]. rewrite length_take. lia. }
    cbn [imap]. rewrite Nat.add_0_r. unfold array_field at 2.
    rewrite dec_message_field; [|done|done|by apply array_find| | |].
    + assert (E : <[k := default None (m !! k)]> (take k m ++ replicate (length names - k) None) =
                  take (S k) m ++ replicate (length names - S k) None).
      { rewrite Hv, (take_S_r _ _ _ Hv), <-app_assoc. cbn.
        replace (length names - k)%nat with (S (length names - S k)) by lia. cbn [replicate].
        rewrite insert_app_r_alt by (rewrite length_take; lia). by replace (k - length (take k m))%nat with O by (rewrite length_take; lia). }
      rewrite E. rewrite <-(IH (S k)) at 1; [|by rewrite (drop_S _ _ _ Hk) in Hl; injection Hl|done|done].
      f_equal. f_equal. apply imap_ext. intros i y _. cbn. by rewrite Nat.add_succ_r.
    + by rewrite Hold, Hzero.
    + rewrite Hv. by eapply Forall_lookup_1 in Hok.
    + rewrite Hold. by apply list_insert_id.
Qed.

Lemma array_laws : Forall (λ n, valid_utf8 n = true) names → CodecLaws (array_codec names c).
Proof using All.
  intros Hutf. apply message_laws; intros m [Hm Hok].
  - apply Forall_forall. intros f Hf. apply list_elem_of_lookup in Hf as [i Hi]. rewrite list_lookup_imap in Hi.
    destruct (names !! i) as [x|] eqn:Hx; [|done]. injection Hi as <-. split.
    + cbn. by eapply Forall_lookup_1 in Hutf.
    + apply c_wf. destruct (lookup_lt_is_Some_2 m i) as [v Hv]; [by rewrite Hm; eapply lookup_lt_Some|].
      rewrite Hv. by eapply Forall_lookup_1 in Hok.
  - rewrite <-(array_dec m 0 names) at 1 by done. by rewrite Nat.sub_0_r.
Qed.

Lemma array_decodes : Decodes c → Decodes (array_codec names c).
Proof using Type.
  intros Hc. apply message_decodes, Forall_forall. intros f Hf a j. apply list_elem_of_lookup in Hf as [i Hi].
  rewrite list_lookup_imap in Hi. destruct (names !! i); [|done]. injection Hi as <-. by apply field_decodes.
Qed.
End arrays.

(** ** Automation for messages *)

Ltac message_ok := assumption.

(** Unfold the list of the fields that are still to be read. *)
Ltac unfold_members :=
  lazymatch goal with
  | |- dec_members ?all (members ?fields ?b) ?acc = ?r =>
      let l := eval hnf in fields in change (dec_members all (members l b) acc = r)
  end.

(** Compute the message read so far. *)
Ltac norm_message :=
  lazymatch goal with
  | |- dec_members ?all ?l (Ok ?x) = ?r => let y := eval cbn in x in change (dec_members all l (Ok y) = r)
  end.

Ltac solve_message :=
  apply message_laws; intros a Ha; cbv beta in Ha; repeat match goal with H : _ ∧ _ |- _ => destruct H end; destruct a;
  [solve_fields message_ok|
   unfold_members;
   repeat (erewrite dec_message_field; [|apply _|apply _|reflexivity|reflexivity|message_ok|reflexivity]; norm_message); reflexivity].

Ltac solve_message_decodes := apply message_decodes; repeat (constructor; [intros; apply field_decodes; apply _|]); constructor.

(** A message is read back from the text it is written as, whatever follows. *)
Lemma message_roundtrip {A} (c : Codec A) a rest :
  CodecLaws c → c_ok c a → ends_number rest = true →
  ('(j, following) ← parse_json (print_json (c_enc c a) +:+ rest); m ← c_dec c (c_zero c) j; Ok (m, following)) = Ok (a, rest).
Proof.
  intros Hc Ha Hr. rewrite parse_json_print by (done || by apply c_wf). cbn [mbind Result_bind].
  by rewrite c_roundtrip.
Qed.
