(* ===== verification/Ptyutil.v ===== *)
(** ptyutil/winsize.go: the size of a terminal. An open file is the master side of a
    pseudo terminal, which has a size, or something else, which has none. *)
From S2P Require Import Prelude.

Local Open Scope string_scope.
Local Open Scope Z_scope.

Record ttySize := mkttySize { ts_Rows : Z; ts_Cols : Z; ts_Xpixel : Z; ts_Ypixel : Z }.

#[export] Instance ttySize_eq_dec : EqDecision ttySize.
Proof. solve_decision. Defined.

Inductive file := ClosedFile | PlainEnd | PtyMaster (size : ttySize).

#[export] Instance file_eq_dec : EqDecision file.
Proof. solve_decision. Defined.

Definition is_open (f : file) : bool := if f is ClosedFile then false else true.

Definition ENOTTY : error := mkError "syscall.Errno" "inappropriate ioctl for device".

(** The conversions to [uint16] drop the high bits of a size. *)
Definition SetWinSize (cols rows : Z) : M file unit := λ f,
  match f with
  | PtyMaster _ => (Ok tt, PtyMaster (mkttySize (u16 rows) (u16 cols) 0 0))
  | _ => (Err ENOTTY, f)
  end.

Lemma u16_u16 z : u16 (u16 z) = u16 z.
Proof. apply Zmod_mod. Qed.

Lemma SetWinSize_open cols rows f : is_open (SetWinSize cols rows f).2 = is_open f.
Proof. by destruct f. Qed.

Lemma SetWinSize_small cols rows size :
  0 ≤ cols < 2 ^ 16 → 0 ≤ rows < 2 ^ 16 →
  SetWinSize cols rows (PtyMaster size) = (Ok tt, PtyMaster (mkttySize rows cols 0 0)).
Proof. intros ??. unfold SetWinSize, u16. by rewrite !Z.mod_small. Qed.
