(* ===== verification/ResourcePool.v ===== *)
(** The interface the three resource pools (uids, networks, host ports) offer to
    their clients, what it promises, and the ownership argument that follows
    from the promises alone: a resource is at any time free or held by exactly
    one client. *)
From S2P Require Import Prelude.

Local Open Scope list_scope.

(** Resources are compared by [rp_key]; [rp_managed p x] is the range test of
    [Release]; [rp_valid] is what a client may pass. *)
Class ResourcePool (P A K : Type) := {
  rp_key : A → K;
  rp_free : P → list A;
  rp_managed : P → A → bool;
  rp_valid : A → Prop;
  rp_acquire : M P A;
  rp_remove : A → M P unit;
  rp_release : A → M P unit
}.

Class ResourcePoolLaws (P A K : Type) `{ResourcePool P A K} := {
  rp_key_managed p x y : rp_valid x → rp_valid y → rp_key x = rp_key y →
    rp_managed p x = rp_managed p y;
  (** [Acquire] hands out the oldest free resource, or fails. *)
  rp_acquire_cons p x l : rp_free p = x :: l → ∃ p',
    rp_acquire p = (Ok x, p') ∧ rp_free p' = l ∧ rp_managed p' = rp_managed p;
  rp_acquire_nil p : rp_free p = [] → ∃ e, rp_acquire p = (Err e, p);
  (** [Remove] takes a given free resource, or fails. *)
  rp_remove_in p x : rp_valid x → rp_key x ∈ rp_key <$> rp_free p → ∃ y p',
    rp_remove x p = (Ok tt, p') ∧ rp_key y = rp_key x ∧
    rp_free p ≡ₚ y :: rp_free p' ∧ rp_managed p' = rp_managed p;
  rp_remove_out p x : rp_key x ∉ rp_key <$> rp_free p → ∃ e, rp_remove x p = (Err e, p);
  (** [Release] puts a resource of the pool's range back at the end. *)
  rp_release_in p x : rp_managed p x = true → rp_key x ∉ rp_key <$> rp_free p → ∃ p',
    rp_release x p = (Ok tt, p') ∧ rp_free p' = rp_free p ++ [x] ∧
    rp_managed p' = rp_managed p;
  rp_release_out p x : rp_managed p x = false → rp_release x p = (Ok tt, p)
}.

Section ledger.
Context {P A K : Type} `{!ResourcePool P A K}.

(** The pool and the resources its clients hold partition [init]. *)
Record Ledger (init : list K) (p : P) (held : list A) : Prop := {
  ledger_nodup : NoDup init;
  ledger_perm : rp_key <$> (rp_free p ++ held) ≡ₚ init;
  ledger_valid : Forall rp_valid (rp_free p ++ held);
  ledger_managed : Forall (λ x, rp_managed p x = true) (rp_free p ++ held)
}.

(** What clients do: take any resource, claim a given one, give one back that
    they hold. A failing call changes nothing. *)
Inductive client_step : P * list A → P * list A → Prop :=
  | client_acquire p held x p' :
      rp_acquire p = (Ok x, p') → client_step (p, held) (p', x :: held)
  | client_acquire_fail p held e p' :
      rp_acquire p = (Err e, p') → client_step (p, held) (p', held)
  | client_remove p held x p' :
      rp_valid x → rp_remove x p = (Ok tt, p') → client_step (p, held) (p', x :: held)
  | client_remove_fail p held x e p' :
      rp_valid x → rp_remove x p = (Err e, p') → client_step (p, held) (p', held)
  | client_release p held x held' r p' :
      held ≡ₚ x :: held' → rp_release x p = (r, p') → client_step (p, held) (p', held').
End ledger.

(** * The abstract specification: a set of free and a set of held keys *)

Section spec.
Context {K : Type} `{Countable K}.

Record Spec := mkSpec { s_free : gset K; s_held : gset K }.

Inductive spec_step : Spec → Spec → Prop :=
  | spec_take k F H : k ∈ F → spec_step (mkSpec F H) (mkSpec (F ∖ {[k]}) ({[k]} ∪ H))
  | spec_give k F H : k ∈ H → spec_step (mkSpec F H) (mkSpec ({[k]} ∪ F) (H ∖ {[k]}))
  | spec_fail s : spec_step s s.
End spec.
Arguments Spec K {_ _}.

(** The abstract state of a pool and what is held from it. *)
Definition abstraction {P A K} `{Countable K, !ResourcePool P A K}
    (p : P) (held : list A) : Spec K :=
  mkSpec (list_to_set (rp_key <$> rp_free p)) (list_to_set (rp_key <$> held)).

(** * Lemmas *)

Section ledger_lemmas.
Context {P A K : Type} `{Countable K, !ResourcePool P A K, !ResourcePoolLaws P A K}.
Implicit Types (p : P) (held : list A) (x : A) (init : list K).

Lemma ledger_keys_nodup init p held :
  Ledger init p held → NoDup (rp_key <$> (rp_free p ++ held)).
Proof. intros [Hn Hp _ _]. by rewrite Hp. Qed.

(** Nobody holds a resource twice. *)
Lemma ledger_held_nodup init p held : Ledger init p held → NoDup held.
Proof.
  intros HL. pose proof (ledger_keys_nodup _ _ _ HL) as Hn. rewrite fmap_app in Hn.
  apply NoDup_app in Hn as (_ & _ & Hn). by apply NoDup_fmap_1 in Hn.
Qed.

(** The ledger does not depend on the order of what is free or held. *)
Lemma ledger_change init p held p' held' :
  rp_managed p' = rp_managed p → rp_free p' ++ held' ≡ₚ rp_free p ++ held →
  Ledger init p held → Ledger init p' held'.
Proof.
  intros Hm Hp [H1 H2 H3 H4]. split; [done|by rewrite Hp|by rewrite Hp|].
  rewrite Hp. by rewrite Hm.
Qed.

Lemma ledger_acquire init p held x p' :
  Ledger init p held → rp_acquire p = (Ok x, p') → Ledger init p' (x :: held).
Proof.
  intros HL Hacq. destruct (rp_free p) as [|y l] eqn:Hf.
  - destruct (rp_acquire_nil p Hf) as [e He]. congruence.
  - destruct (rp_acquire_cons p y l Hf) as (p2 & Ha & Hf' & Hm).
    rewrite Ha in Hacq. injection Hacq as -> ->.
    eapply ledger_change; [exact Hm| |exact HL]. rewrite Hf, Hf'. simpl.
    by rewrite Permutation_middle.
Qed.

(** An acquired resource was held by nobody. *)
Lemma ledger_acquire_fresh init p held x p' :
  Ledger init p held → rp_acquire p = (Ok x, p') → rp_key x ∉ rp_key <$> held.
Proof.
  intros HL Hacq. pose proof (ledger_keys_nodup _ _ _ (ledger_acquire _ _ _ _ _ HL Hacq)) as Hn.
  rewrite fmap_app in Hn. cbn in Hn. apply NoDup_app in Hn as (_ & _ & Hn).
  by apply NoDup_cons in Hn as [? _].
Qed.

Lemma ledger_remove init p held x p' :
  Ledger init p held → rp_valid x → rp_remove x p = (Ok tt, p') → Ledger init p' (x :: held).
Proof.
  intros [H1 H2 H3 H4] Hv Hrem.
  destruct (decide (rp_key x ∈ rp_key <$> rp_free p)) as [Hin|Hout].
  2:{ destruct (rp_remove_out p x Hout) as [e He]. congruence. }
  destruct (rp_remove_in p x Hv Hin) as (y & p2 & Hr & Hk & Hp & Hm).
  rewrite Hr in Hrem. injection Hrem as ->.
  assert (Hall : rp_free p ++ held ≡ₚ y :: rp_free p' ++ held) by (by rewrite Hp).
  rewrite Hall in H2, H3, H4. apply Forall_cons in H3 as [Hy3 H3]. apply Forall_cons in H4 as [Hy4 H4].
  split; [done|..].
  - rewrite <-H2, <-Permutation_middle. cbn. by rewrite Hk.
  - rewrite <-Permutation_middle. by constructor.
  - rewrite <-Permutation_middle, Hm. constructor; [|done].
    by rewrite (rp_key_managed p x y).
Qed.

Lemma ledger_release init p held x held' r p' :
  Ledger init p held → held ≡ₚ x :: held' → rp_release x p = (r, p') →
  r = Ok tt ∧ Ledger init p' held' ∧ rp_free p' = rp_free p ++ [x].
Proof.
  intros HL Hh Hrel. pose proof (ledger_keys_nodup _ _ _ HL) as Hn.
  pose proof (ledger_managed _ _ _ HL) as Hm.
  rewrite Hh, fmap_app in Hn. rewrite Hh in Hm. cbn in Hn.
  apply NoDup_app in Hn as (_ & Hn & _). apply Forall_app in Hm as [_ [Hx _]%Forall_cons].
  destruct (rp_release_in p x Hx) as (p2 & Hr & Hf & Hmg).
  { intros Hin. apply (Hn _ Hin). left. }
  rewrite Hr in Hrel. injection Hrel as <- <-. split; [done|]. split; [|done].
  eapply ledger_change; [done| |exact HL]. rewrite Hf, Hh. by rewrite <-app_assoc.
Qed.

Lemma ledger_step init p held p' held' :
  client_step (p, held) (p', held') → Ledger init p held → Ledger init p' held'.
Proof.
  intros Hst HL. inversion Hst; subst.
  - by eapply ledger_acquire.
  - destruct (rp_free p) as [|y l] eqn:Hf.
    + destruct (rp_acquire_nil p Hf) as [e' He']. congruence.
    + destruct (rp_acquire_cons p y l Hf) as (? & ? & _). congruence.
  - by eapply ledger_remove.
  - destruct (decide (rp_key x ∈ rp_key <$> rp_free p)) as [Hin|Hout].
    + destruct (rp_remove_in p x) as (? & ? & ? & _); [done..|congruence].
    + destruct (rp_remove_out p x Hout) as [e' He']. congruence.
  - by eapply ledger_release.
Qed.

Lemma ledger_rtc init (c c' : P * list A) :
  rtc client_step c c' → Ledger init c.1 c.2 → Ledger init c'.1 c'.2.
Proof.
  induction 1 as [|[q h] [q2 h2] c3 Hs _ IH]; [done|].
  intros HL. apply IH. by eapply ledger_step.
Qed.

(** Whatever its clients do, the pool loses nothing and hands nothing out twice. *)
Lemma ledger_reachable init p p' held' :
  Ledger init p [] → rtc client_step (p, []) (p', held') → Ledger init p' held'.
Proof. intros HL Hst. by apply (ledger_rtc init _ _ Hst). Qed.

(** What is not held is free; what is held is of the pool. *)
Lemma ledger_free_in init p held k :
  Ledger init p held → k ∈ init → k ∉ rp_key <$> held → k ∈ rp_key <$> rp_free p.
Proof.
  intros HL Hk Hh. rewrite <-(ledger_perm _ _ _ HL), fmap_app in Hk.
  by apply elem_of_app in Hk as [Hk|Hk].
Qed.

Lemma ledger_held_in init p held x :
  Ledger init p held → x ∈ held → rp_key x ∈ init ∧ rp_valid x.
Proof.
  intros HL Hx. split.
  - rewrite <-(ledger_perm _ _ _ HL), fmap_app. apply elem_of_app. right.
    by apply list_elem_of_fmap_2.
  - pose proof (ledger_valid _ _ _ HL) as Hv. rewrite Forall_forall in Hv.
    apply Hv, elem_of_app. by right.
Qed.

Lemma ledger_held_keys init p held : Ledger init p held → NoDup (rp_key <$> held).
Proof.
  intros HL. pose proof (ledger_keys_nodup _ _ _ HL) as Hn. rewrite fmap_app in Hn.
  by apply NoDup_app in Hn as (_ & _ & Hn).
Qed.

(** A second pool with the same resources has room for what a first has given out,
    next to part of the rest. *)
Lemma ledger_room init p0 held0 p held xs rest :
  Ledger init p0 held0 → held0 ≡ₚ xs ++ held ++ rest → Ledger init p held →
  Forall rp_valid xs ∧ NoDup (rp_key <$> xs) ∧ ∀ x, x ∈ xs → rp_key x ∈ rp_key <$> rp_free p.
Proof.
  intros H0 Hp HL. pose proof (ledger_held_keys _ _ _ H0) as Hn.
  rewrite Hp, fmap_app in Hn. apply NoDup_app in Hn as (Hn & Hd & _).
  assert (Hin : ∀ x, x ∈ xs → x ∈ held0) by (intros x Hx; rewrite Hp; apply elem_of_app; by left).
  split_and!; [|done|].
  - apply Forall_forall. intros x Hx. by apply (ledger_held_in init p0 held0), Hin.
  - intros x Hx. apply (ledger_free_in init p held); [done| |].
    + by apply (ledger_held_in init p0 held0), Hin.
    + intros Hk. apply (Hd (rp_key x)); [by apply list_elem_of_fmap_2|].
      rewrite fmap_app. apply elem_of_app. by left.
Qed.

(** ** The outcomes of a call *)

Lemma acquire_cases p :
  (∃ x l p', rp_free p = x :: l ∧ rp_acquire p = (Ok x, p') ∧ rp_free p' = l ∧
     rp_managed p' = rp_managed p) ∨
  (rp_free p = [] ∧ ∃ e, rp_acquire p = (Err e, p)).
Proof.
  destruct (rp_free p) as [|x l] eqn:Hf; [right|left].
  - split; [done|]. by apply rp_acquire_nil.
  - destruct (rp_acquire_cons p x l Hf) as (p' & H1 & H2 & H3). by exists x, l, p'.
Qed.

Lemma remove_cases p x :
  rp_valid x → (∃ p', rp_remove x p = (Ok tt, p')) ∨ (∃ e, rp_remove x p = (Err e, p)).
Proof.
  intros Hv. destruct (decide (rp_key x ∈ rp_key <$> rp_free p)) as [Hin|Hout]; [left|right].
  - destruct (rp_remove_in p x Hv Hin) as (y & p' & H1 & _). by exists p'.
  - by apply rp_remove_out.
Qed.

(** [Remove] succeeds just when the resource is free. *)
Lemma remove_free p x :
  rp_valid x → (rp_key x ∈ rp_key <$> rp_free p ∧ ∃ p', rp_remove x p = (Ok tt, p')) ∨
               (rp_key x ∉ rp_key <$> rp_free p ∧ ∃ e, rp_remove x p = (Err e, p)).
Proof.
  intros Hv. destruct (decide (rp_key x ∈ rp_key <$> rp_free p)) as [Hin|Hout]; [left|right].
  - split; [done|]. destruct (rp_remove_in p x Hv Hin) as (y & p' & H1 & _). by exists p'.
  - split; [done|]. by apply rp_remove_out.
Qed.

Lemma returns_acquire : returns (rp_acquire (P := P)).
Proof.
  intros p f. destruct (acquire_cases p) as [(x & l & p' & _ & -> & _)|[_ [e ->]]]; done.
Qed.

Lemma remove_held init p held x :
  Ledger init p held → x ∈ held → ∃ e, rp_remove x p = (Err e, p).
Proof.
  intros HL Hx. apply rp_remove_out. pose proof (ledger_keys_nodup _ _ _ HL) as Hn.
  rewrite fmap_app in Hn. apply NoDup_app in Hn as (_ & Hn & _).
  intros Hin. apply (Hn _ Hin). by apply list_elem_of_fmap_2.
Qed.

(** Giving back a whole list of held resources. *)
Lemma ledger_release_all init p held xs rest :
  Ledger init p held → held ≡ₚ xs ++ rest →
  ∃ p', for_each rp_release xs p = (Ok tt, p') ∧ Ledger init p' rest.
Proof.
  revert p held. induction xs as [|x xs IH]; intros p held HL Hh.
  - exists p. split; [done|]. eapply ledger_change; [done| |exact HL]. by rewrite Hh.
  - destruct (rp_release x p) as [r p1] eqn:E.
    destruct (ledger_release _ _ _ _ (xs ++ rest) _ _ HL Hh E) as (-> & HL1 & _).
    destruct (IH p1 (xs ++ rest) HL1) as (p' & E' & HL'); [done|].
    exists p'. split; [|done]. cbn [for_each]. by rewrite (bind_Ok _ _ _ _ _ E).
Qed.

(** A client gets a resource unless the pool has none left. *)
Lemma ledger_acquire_total init p held :
  Ledger init p held → (length held < length init)%nat → ∃ x p', rp_acquire p = (Ok x, p').
Proof.
  intros HL Hlt. destruct (rp_free p) as [|x l] eqn:Hf.
  - pose proof (ledger_perm _ _ _ HL) as Hp. rewrite Hf in Hp.
    apply Permutation_length in Hp. rewrite length_fmap in Hp. simpl in Hp. lia.
  - destruct (rp_acquire_cons p x l Hf) as (p' & Ha & _). eauto.
Qed.

(** ** Refinement of the specification *)

Lemma abs_take init p held p' held' x y :
  Ledger init p held → rp_key y = rp_key x → rp_free p ≡ₚ y :: rp_free p' → held' = x :: held →
  spec_step (abstraction p held) (abstraction p' held').
Proof.
  intros HL Hk Hp ->. pose proof (ledger_keys_nodup _ _ _ HL) as Hn.
  rewrite Hp, fmap_app in Hn. cbn in Hn. apply NoDup_cons in Hn as [Hy%not_elem_of_app _].
  unfold abstraction. cbn [fmap list_fmap list_to_set]. rewrite <-Hk.
  replace (list_to_set (rp_key <$> rp_free p') : gset K)
    with ((list_to_set (rp_key <$> rp_free p) : gset K) ∖ {[rp_key y]}).
  - apply spec_take. rewrite Hp. cbn. set_solver.
  - rewrite Hp. cbn. set_solver.
Qed.

(** Every client step is a step of the specification, or changes nothing. *)
Lemma abstraction_step init p held p' held' :
  client_step (p, held) (p', held') → Ledger init p held →
  spec_step (abstraction p held) (abstraction p' held').
Proof.
  intros Hst HL. inversion Hst; subst.
  - destruct (rp_free p) as [|y l] eqn:Hf.
    + destruct (rp_acquire_nil p Hf) as [e He]. congruence.
    + destruct (rp_acquire_cons p y l Hf) as (p2 & Ha & Hf' & _).
      assert (y = x ∧ p2 = p') as [-> ->] by (split; congruence).
      apply (abs_take init) with (x := x) (y := x); [done..| |done]. by rewrite Hf, Hf'.
  - destruct (rp_free p) as [|y l] eqn:Hf.
    + destruct (rp_acquire_nil p Hf) as [e' He']. rewrite He' in *. simplify_eq. constructor.
    + destruct (rp_acquire_cons p y l Hf) as (? & ? & _). congruence.
  - destruct (decide (rp_key x ∈ rp_key <$> rp_free p)) as [Hin|Hout].
    + destruct (rp_remove_in p x) as (y & p2 & Hr & Hk & Hp & _); [done..|].
      assert (p2 = p') as -> by congruence.
      by apply (abs_take init) with (x := x) (y := y).
    + destruct (rp_remove_out p x Hout) as [e He]. congruence.
  - destruct (decide (rp_key x ∈ rp_key <$> rp_free p)) as [Hin|Hout].
    + destruct (rp_remove_in p x) as (? & ? & ? & _); [done..|congruence].
    + destruct (rp_remove_out p x Hout) as [e' He']. rewrite He' in *. simplify_eq. constructor.
  - pose proof (ledger_keys_nodup _ _ _ HL) as Hn.
    match goal with H : held ≡ₚ _ |- _ => rename H into Hh end.
    match goal with H : rp_release _ _ = _ |- _ => rename H into Hr end.
    destruct (ledger_release _ _ _ _ _ _ _ HL Hh Hr) as (_ & _ & Hf).
    rewrite Hh, fmap_app in Hn. cbn in Hn.
    apply NoDup_app in Hn as (_ & _ & [Hx _]%NoDup_cons).
    unfold abstraction. rewrite Hf, fmap_app, list_to_set_app_L. cbn [fmap list_fmap list_to_set].
    replace (list_to_set (rp_key <$> held') : gset K)
      with ((list_to_set (rp_key <$> held) : gset K) ∖ {[rp_key x]}).
    + rewrite (union_comm_L _ ({[rp_key x]} ∪ ∅)), (right_id_L ∅ (∪)).
      apply spec_give. rewrite Hh. cbn. set_solver.
    + rewrite Hh. cbn. set_solver.
Qed.
End ledger_lemmas.
