(* ===== verification/UIDPool.v ===== *)
(** linux_backend/uid_pool/unix_uid_pool.go: the pool of per-container user ids. *)
From S2P Require Import Prelude GoStd ResourcePool.

Local Open Scope string_scope.
Local Open Scope list_scope.
Local Open Scope Z_scope.

Record UnixUIDPool := mkUIDPool {
  start : Z;
  size : Z;
  pool : list Z;
  initialPoolSize : nat
}.

Definition set_pool (p : UnixUIDPool) (l : list Z) : UnixUIDPool :=
  mkUIDPool (start p) (size p) l (initialPoolSize p).

Definition PoolExhaustedError : error :=
  mkError "uid_pool.PoolExhaustedError" "UID pool is exhausted".

Definition UIDTakenError (uid : Z) : error :=
  mkError "uid_pool.UIDTakenError" ("uid already acquired: " +:+ fmt_d uid).

(** [start+size] is computed on [uint32] and wraps around. *)
Definition bound (start size : Z) : Z := u32 (start + size).

Definition New (start size : Z) : UnixUIDPool :=
  let l := count_up (Z.to_nat (bound start size - start)) start (bound start size) in
  mkUIDPool start size l (length l).

Definition InitialSize (p : UnixUIDPool) : nat := initialPoolSize p.

Definition Acquire : M UnixUIDPool Z := λ p,
  match pool p with
  | [] => (Err PoolExhaustedError, p)
  | uid :: rest => (Ok uid, set_pool p rest)
  end.

Definition Remove (uid : Z) : M UnixUIDPool unit := λ p,
  match list_find (λ existing, existing = uid) (pool p) with
  | None => (Err (UIDTakenError uid), p)
  | Some (idx, _) => (Ok tt, set_pool p (remove_at idx (pool p)))
  end.

(** The guard of [Release]: [uid < p.start || uid >= p.start+p.size]. *)
Definition out_of_range (p : UnixUIDPool) (uid : Z) : bool :=
  (uid <? start p) || (bound (start p) (size p) <=? uid).

(** Unlike the port pool, a uid that is already free is appended again. *)
Definition Release (uid : Z) : M UnixUIDPool unit := λ p,
  if out_of_range p uid then (Ok tt, p)
  else (Ok tt, set_pool p (pool p ++ [uid])).

(** The pool as a [ResourcePool]. *)
#[export] Instance uid_rp : ResourcePool UnixUIDPool Z Z := {|
  rp_key x := x;
  rp_free := pool;
  rp_managed p x := negb (out_of_range p x);
  rp_valid _ := True;
  rp_acquire := Acquire;
  rp_remove := Remove;
  rp_release := Release
|}.

(** * Lemmas *)

Lemma uid_New_pool s n :
  is_u32 s → pool (New s n) = seqZ s (bound s n - s).
Proof.
  intros Hs. unfold New. simpl. apply count_up_seqZ; [done|apply u32_range|lia].
Qed.

(** Without wrap-around the pool holds exactly the range it was asked for. *)
Lemma uid_New_pool_no_wrap s n :
  is_u32 s → 0 ≤ n → s + n < 2 ^ 32 → pool (New s n) = seqZ s n.
Proof.
  intros Hs Hn Hb. rewrite uid_New_pool by done. unfold bound. unfold is_u32 in Hs.
  rewrite u32_small by (unfold is_u32; lia). f_equal. lia.
Qed.

Lemma uid_New_pool_wrap s n : is_u32 s → is_u32 n → 2 ^ 32 ≤ s + n → pool (New s n) = [].
Proof.
  intros Hs Hn Hb. rewrite uid_New_pool by done. apply seqZ_nil.
  unfold bound, u32, is_u32 in *. rewrite (Z.mod_eq (s + n)) by lia.
  assert ((s + n) / 2 ^ 32 = 1) by (symmetry; apply Z.div_unique with (s + n - 2 ^ 32); lia).
  lia.
Qed.

Lemma uid_out_of_range_false p uid :
  out_of_range p uid = false ↔ start p ≤ uid < bound (start p) (size p).
Proof. unfold out_of_range. lia. Qed.

#[export] Instance uid_laws : ResourcePoolLaws UnixUIDPool Z Z.
Proof.
  split; simpl.
  - by intros p x y _ _ ->.
  - intros p x l H. unfold Acquire. rewrite H. by eexists.
  - intros p H. unfold Acquire. rewrite H. by eexists.
  - intros p x _ H. rewrite list_fmap_id in H. unfold Remove.
    destruct (list_find _ (pool p)) as [[i y]|] eqn:E.
    + apply list_find_Some in E as (Hi & -> & _). exists x. eexists. split; [done|].
      split; [done|]. split; [|done]. by apply remove_at_perm.
    + apply list_find_None in E. rewrite Forall_forall in E. by destruct (E x).
  - intros p x H. rewrite list_fmap_id in H. unfold Remove.
    destruct (list_find _ (pool p)) as [[i y]|] eqn:E; [|by eexists].
    apply list_find_Some in E as (Hi & -> & _). apply list_elem_of_lookup_2 in Hi. done.
  - intros p x H Hx. rewrite list_fmap_id in Hx. apply negb_true_iff in H. unfold Release.
    rewrite H. by eexists.
  - intros p x H. apply negb_false_iff in H. unfold Release. by rewrite H.
Qed.

(** A new pool owns its whole range. *)
Lemma uid_ledger_New s n :
  is_u32 s → Ledger (seqZ s (bound s n - s)) (New s n) [].
Proof.
  intros Hs. split; rewrite ?app_nil_r.
  - apply NoDup_seqZ.
  - change (id <$> pool (New s n) ≡ₚ seqZ s (bound s n - s)).
    by rewrite list_fmap_id, uid_New_pool.
  - by apply Forall_true.
  - change (Forall (λ x, negb (out_of_range (New s n) x) = true) (pool (New s n))).
    rewrite uid_New_pool by done. apply Forall_forall. intros x Hx%elem_of_seqZ.
    apply negb_true_iff, uid_out_of_range_false. simpl. lia.
Qed.

(** ** Properties *)

(** However clients acquire, claim and give back uids, each uid of the pool's
    range is at any time either free or held by exactly one client, and none is
    lost. *)
Theorem uid_pool_partition s n p held :
  is_u32 s → 0 ≤ n → s + n < 2 ^ 32 →
  rtc client_step (New s n, []) (p, held) →
  pool p ++ held ≡ₚ seqZ s n ∧ NoDup (pool p ++ held).
Proof.
  intros Hs Hn Hb Hst. pose proof (uid_ledger_New s n Hs) as HL.
  apply (ledger_reachable _ _ _ _ HL) in Hst as HL'.
  pose proof (ledger_perm _ _ _ HL') as Hp. change (id <$> pool p ++ held ≡ₚ seqZ s (bound s n - s)) in Hp.
  rewrite list_fmap_id in Hp. unfold bound in Hp. unfold is_u32 in Hs.
  rewrite u32_small in Hp by (unfold is_u32; lia). replace (s + n - s) with n in Hp by lia.
  split; [done|]. rewrite Hp. apply NoDup_seqZ.
Qed.

(** A client that gives a uid back twice corrupts the uid pool: the uid is then
    free twice, and after draining what was free before, two acquisitions return
    it to two holders. (The port pool ignores the second release.) *)
Theorem uid_double_release p uid :
  out_of_range p uid = false → pool p = [] →
  ∃ p1 p2 p3 p4, Release uid p = (Ok tt, p1) ∧ Release uid p1 = (Ok tt, p2) ∧
    Acquire p2 = (Ok uid, p3) ∧ Acquire p3 = (Ok uid, p4) ∧ pool p4 = [].
Proof.
  intros Hr Hp.
  exists (set_pool p [uid]), (set_pool p [uid; uid]), (set_pool p [uid]), (set_pool p []).
  assert (Hr' : ∀ l, out_of_range (set_pool p l) uid = false) by done.
  unfold Release. rewrite Hr, Hr'. unfold Acquire. cbn. by rewrite Hp.
Qed.

(** A range that reaches past [2^32] gives an empty pool: [start+size] wraps
    around, so the construction loop does not run and every [Acquire] fails. *)
Theorem uid_New_overflow s n :
  is_u32 s → is_u32 n → 2 ^ 32 ≤ s + n →
  InitialSize (New s n) = O ∧ Acquire (New s n) = (Err PoolExhaustedError, New s n).
Proof.
  intros Hs Hn Hb. pose proof (uid_New_pool_wrap s n Hs Hn Hb) as Hp.
  split; [|unfold Acquire; by rewrite Hp].
  change (length (pool (New s n)) = O). by rewrite Hp.
Qed.

(** ** Witnesses *)

Lemma uid_pool_partition_witness :
  pool (New 10000 3) ++ [] ≡ₚ seqZ 10000 3 ∧ NoDup (pool (New 10000 3) ++ []).
Proof.
  apply (uid_pool_partition 10000 3); [unfold is_u32; lia|lia|lia|apply rtc_refl].
Defined.

Lemma uid_double_release_witness :
  ∃ p1 p2 p3 p4, Release 7 (mkUIDPool 5 5 [] 5) = (Ok tt, p1) ∧ Release 7 p1 = (Ok tt, p2) ∧
    Acquire p2 = (Ok 7, p3) ∧ Acquire p3 = (Ok 7, p4) ∧ pool p4 = [].
Proof. apply (uid_double_release (mkUIDPool 5 5 [] 5) 7); reflexivity. Defined.

Lemma uid_New_overflow_witness :
  InitialSize (New 4294967295 2) = O ∧
  Acquire (New 4294967295 2) = (Err PoolExhaustedError, New 4294967295 2).
Proof. apply uid_New_overflow; unfold is_u32; lia. Defined.
