(* ===== verification/PortPool.v ===== *)
(** linux_backend/port_pool/port_pool.go: the pool of host ports. *)
From S2P Require Import Prelude GoStd ResourcePool.

Local Open Scope string_scope.
Local Open Scope list_scope.
Local Open Scope Z_scope.

Record PortPool := mkPortPool {
  start : Z;
  size : Z;
  pool : list Z
}.

Definition set_pool (p : PortPool) (l : list Z) : PortPool := mkPortPool (start p) (size p) l.

Definition PoolExhaustedError : error :=
  mkError "port_pool.PoolExhaustedError" "port pool is exhausted".

Definition PortTakenError (port : Z) : error :=
  mkError "port_pool.PortTakenError" ("port already acquired: " +:+ fmt_d port).

(** [start+size] is computed on [uint32] and wraps around. *)
Definition bound (start size : Z) : Z := u32 (start + size).

Definition New (start size : Z) : PortPool :=
  mkPortPool start size
    (count_up (Z.to_nat (bound start size - start)) start (bound start size)).

Definition Acquire : M PortPool Z := λ p,
  match pool p with
  | [] => (Err PoolExhaustedError, p)
  | port :: rest => (Ok port, set_pool p rest)
  end.

Definition Remove (port : Z) : M PortPool unit := λ p,
  match list_find (λ existing, existing = port) (pool p) with
  | None => (Err (PortTakenError port), p)
  | Some (idx, _) => (Ok tt, set_pool p (remove_at idx (pool p)))
  end.

(** The guard of [Release]: [port < p.start || port >= p.start+p.size]. *)
Definition out_of_range (p : PortPool) (port : Z) : bool :=
  (port <? start p) || (bound (start p) (size p) <=? port).

Definition Release (port : Z) : M PortPool unit := λ p,
  if out_of_range p port then (Ok tt, p)
  else match list_find (λ existing, existing = port) (pool p) with
       | Some _ => (Ok tt, p)
       | None => (Ok tt, set_pool p (pool p ++ [port]))
       end.

(** The pool as a [ResourcePool]. *)
#[export] Instance port_rp : ResourcePool PortPool Z Z := {|
  rp_key x := x;
  rp_free := pool;
  rp_managed p x := negb (out_of_range p x);
  rp_valid _ := True;
  rp_acquire := Acquire;
  rp_remove := Remove;
  rp_release := Release
|}.

(** * Lemmas *)

Lemma port_New_pool s n :
  is_u32 s → pool (New s n) = seqZ s (bound s n - s).
Proof.
  intros Hs. unfold New. simpl. apply count_up_seqZ; [done|apply u32_range|lia].
Qed.

Lemma port_out_of_range_false p port :
  out_of_range p port = false ↔ start p ≤ port < bound (start p) (size p).
Proof. unfold out_of_range. lia. Qed.

#[export] Instance port_laws : ResourcePoolLaws PortPool Z Z.
Proof.
  split; simpl.
  - by intros p x y _ _ ->.
  - intros p x l H. unfold Acquire. rewrite H. by eexists.
  - intros p H. unfold Acquire. rewrite H. by eexists.
  - intros p x _ H. rewrite list_fmap_id in H. unfold Remove.
    destruct (list_find _ (pool p)) as [[i y]|] eqn:E.
    + apply list_find_Some in E as (Hi & -> & _). exists x. eexists. split; [done|].
      split; [done|]. split; [|done]. by apply remove_at_perm.
    + apply list_find_None in E. rewrite Forall_forall in E. by destruct (E x).
  - intros p x H. rewrite list_fmap_id in H. unfold Remove.
    destruct (list_find _ (pool p)) as [[i y]|] eqn:E; [|by eexists].
    apply list_find_Some in E as (Hi & -> & _). apply list_elem_of_lookup_2 in Hi. done.
  - intros p x H Hx. rewrite list_fmap_id in Hx. apply negb_true_iff in H. unfold Release.
    rewrite H.
    destruct (list_find _ (pool p)) as [[i y]|] eqn:E; [|by eexists].
    apply list_find_Some in E as (Hi & -> & _). apply list_elem_of_lookup_2 in Hi. done.
  - intros p x H. apply negb_false_iff in H. unfold Release. by rewrite H.
Qed.

(** A new pool owns its whole range. *)
Lemma port_ledger_New s n :
  is_u32 s → Ledger (seqZ s (bound s n - s)) (New s n) [].
Proof.
  intros Hs. split; rewrite ?app_nil_r.
  - apply NoDup_seqZ.
  - change (id <$> pool (New s n) ≡ₚ seqZ s (bound s n - s)).
    by rewrite list_fmap_id, port_New_pool.
  - by apply Forall_true.
  - change (Forall (λ x, negb (out_of_range (New s n) x) = true) (pool (New s n))).
    rewrite port_New_pool by done. apply Forall_forall. intros x Hx%elem_of_seqZ.
    apply negb_true_iff, port_out_of_range_false. simpl. lia.
Qed.

(** Any call on the pool, by a well-behaved client or not. *)
Inductive call := CAcquire | CRemove (port : Z) | CRelease (port : Z).

Definition do_call (c : call) (p : PortPool) : PortPool :=
  match c with
  | CAcquire => (Acquire p).2
  | CRemove port => (Remove port p).2
  | CRelease port => (Release port p).2
  end.

(** The free ports are distinct and in the pool's range. *)
Definition pool_ok (p : PortPool) : Prop :=
  NoDup (pool p) ∧ Forall (λ x, start p ≤ x < bound (start p) (size p)) (pool p).

Lemma pool_ok_sublist p l : l `sublist_of` pool p → pool_ok p → pool_ok (set_pool p l).
Proof.
  intros Hl [Hn Hf]. split; cbn; [by eapply sublist_NoDup|].
  rewrite Forall_forall in *. intros x Hx. apply Hf. by eapply elem_of_sublist.
Qed.

Lemma do_call_ok c p : pool_ok p → pool_ok (do_call c p).
Proof.
  intros Hp. destruct c as [|port|port]; cbn.
  - unfold Acquire. destruct (pool p) as [|x l] eqn:E; [done|]. cbn.
    apply pool_ok_sublist; [|done]. rewrite E. by apply sublist_cons.
  - unfold Remove. destruct (list_find _ (pool p)) as [[i y]|]; [|done]. cbn.
    apply pool_ok_sublist; [|done]. apply remove_at_sublist.
  - unfold Release. destruct (out_of_range p port) eqn:Hr; [done|].
    destruct (list_find _ (pool p)) as [[i y]|] eqn:E; [done|]. cbn.
    apply list_find_None in E. destruct Hp as [Hn Hf]. split; cbn.
    + apply NoDup_app. split_and!; [done| |apply NoDup_singleton].
      intros x Hx ->%list_elem_of_singleton. rewrite Forall_forall in E. by apply (E port).
    + apply Forall_app. split; [done|]. apply Forall_singleton.
      by apply port_out_of_range_false in Hr.
Qed.

(** ** Properties *)

(** Each port of the pool's range is at any time either free or held by exactly
    one client, whatever well-behaved clients do, and none is lost. *)
Theorem port_pool_partition s n p held :
  is_u32 s → 0 ≤ n → s + n < 2 ^ 32 →
  rtc client_step (New s n, []) (p, held) →
  pool p ++ held ≡ₚ seqZ s n ∧ NoDup (pool p ++ held).
Proof.
  intros Hs Hn Hb Hst. pose proof (port_ledger_New s n Hs) as HL.
  apply (ledger_reachable _ _ _ _ HL) in Hst as HL'.
  pose proof (ledger_perm _ _ _ HL') as Hp. change (id <$> pool p ++ held ≡ₚ seqZ s (bound s n - s)) in Hp.
  rewrite list_fmap_id in Hp. unfold bound in Hp. unfold is_u32 in Hs.
  rewrite u32_small in Hp by (unfold is_u32; lia). replace (s + n - s) with n in Hp by lia.
  split; [done|]. rewrite Hp. apply NoDup_seqZ.
Qed.

(** The free list of the port pool never holds a port twice nor a port outside
    the range, even for clients that release ports they do not hold or release
    them twice. *)
Theorem port_pool_never_duplicates s n calls :
  is_u32 s → pool_ok (foldl (λ p c, do_call c p) (New s n) calls).
Proof.
  intros Hs. assert (H : ∀ p, pool_ok p → pool_ok (foldl (λ p c, do_call c p) p calls)).
  { induction calls as [|c calls IH]; intros p Hp; [done|]. apply IH. by apply do_call_ok. }
  apply H. pose proof (port_New_pool s n Hs) as Hp. split; rewrite Hp; [apply NoDup_seqZ|].
  apply Forall_forall. intros x Hx%elem_of_seqZ. cbn. lia.
Qed.

(** C22: the pool implements its specification, a set of free and a set of held
    ports: every call of a client that follows the protocol moves one port from
    one set to the other, or fails and changes neither. *)
Theorem port_pool_refines s n p held p' held' :
  is_u32 s → rtc client_step (New s n, []) (p, held) →
  client_step (p, held) (p', held') →
  spec_step (abstraction p held) (abstraction p' held').
Proof.
  intros Hs Hst Hstep. eapply abstraction_step; [exact Hstep|].
  eapply ledger_reachable; [|exact Hst]. by apply port_ledger_New.
Qed.

(** ** Witnesses *)

Lemma port_pool_partition_witness :
  pool (New 61001 3) ++ [] ≡ₚ seqZ 61001 3 ∧ NoDup (pool (New 61001 3) ++ []).
Proof.
  apply (port_pool_partition 61001 3); [unfold is_u32; lia|lia|lia|apply rtc_refl].
Defined.

Lemma port_pool_never_duplicates_witness :
  pool_ok (foldl (λ p c, do_call c p) (New 61001 3) [CAcquire; CRelease 61001; CRelease 61001]).
Proof. apply port_pool_never_duplicates. unfold is_u32. lia. Defined.

Lemma port_pool_refines_witness :
  spec_step (abstraction (New 61001 3) []) (abstraction (set_pool (New 61001 3) [61002; 61003]) [61001]).
Proof.
  apply (port_pool_refines 61001 3 (New 61001 3) [] (set_pool (New 61001 3) [61002; 61003]) [61001]).
  - unfold is_u32. lia.
  - apply rtc_refl.
  - apply (client_acquire (New 61001 3) [] 61001). reflexivity.
Defined.
