(* ===== verification/Net.v ===== *)
(** The parts of Go's [net] package the program uses: addresses, masks, CIDR
    networks. A [net.IP] is its byte slice; the nil slice is the empty list.

    The program only parses addresses it has just printed
    ([net.ParseIP(ip.String())], [net.ParseCIDR(ip.String() + "/30")]); those
    two compositions are modelled by what they return on the bytes. *)
From S2P Require Import Prelude GoStd.
From Stdlib Require Import Ascii.

Local Open Scope string_scope.
Local Open Scope list_scope.
Local Open Scope Z_scope.

Abbreviation IP := (list Z).

Record IPNet := mkIPNet { net_IP : IP; net_Mask : list Z }.

#[export] Instance IPNet_eq_dec : EqDecision IPNet.
Proof. solve_decision. Defined.

Definition v4InV6Prefix : list Z := replicate 10 0 ++ [255; 255].

Definition To4 (ip : IP) : IP :=
  if decide (length ip = 4%nat) then ip
  else if decide (length ip = 16%nat ∧ take 12 ip = v4InV6Prefix) then drop 12 ip
  else [].

Definition To16 (ip : IP) : IP :=
  if decide (length ip = 4%nat) then v4InV6Prefix ++ ip
  else if decide (length ip = 16%nat) then ip
  else [].

(** [net.CIDRMask(ones, 8*len)] *)
Fixpoint CIDRMask (ones : Z) (len : nat) : list Z :=
  match len with
  | O => []
  | S len' =>
      if 8 <=? ones then 255 :: CIDRMask (ones - 8) len'
      else (255 - Z.shiftr 255 ones) :: CIDRMask 0 len'
  end.

(** [ip.Mask(mask)] *)
Definition IP_Mask (ip : IP) (mask : list Z) : IP :=
  let mask' := if decide (length mask = 16%nat ∧ length ip = 4%nat ∧
                          take 12 mask = replicate 12 255)
               then drop 12 mask else mask in
  let ip' := if decide (length mask' = 4%nat ∧ length ip = 16%nat ∧
                        take 12 ip = v4InV6Prefix)
             then drop 12 ip else ip in
  if decide (length ip' = length mask') then zip_with Z.land ip' mask' else [].

(** [networkNumberAndMask] of package net; [None] is its [(nil, nil)]. *)
Definition networkNumberAndMask (n : IPNet) : option (IP * list Z) :=
  let ip := if decide (To4 (net_IP n) = []) then net_IP n else To4 (net_IP n) in
  let m := net_Mask n in
  if decide (To4 (net_IP n) = [] ∧ length (net_IP n) ≠ 16%nat) then None
  else if decide (length m = 4%nat) then
    if decide (length ip = 4%nat) then Some (ip, m) else None
  else if decide (length m = 16%nat) then
    if decide (length ip = 4%nat) then Some (ip, drop 12 m) else Some (ip, m)
  else None.

(** [n.Contains(ip)]; a malformed network has the nil number and mask. *)
Definition Contains (n : IPNet) (ip : IP) : bool :=
  let '(nn, m) := default ([], []) (networkNumberAndMask n) in
  let ip' := if decide (To4 ip = []) then ip else To4 ip in
  bool_decide (length ip' = length nn) &&
  bool_decide (zip_with Z.land nn m = zip_with Z.land ip' m).

(** [net.ParseIP(ip.String())]: the 16-byte form of [ip]. *)
Definition reparse_IP (ip : IP) : IP := To16 ip.

Definition ParseError (text : string) : error :=
  mkError "*net.ParseError" ("invalid CIDR address: " +:+ text).

(** The network that [net.ParseCIDR(ip.String() + "/" + n)] returns. *)
Definition reparse_CIDR (ip : IP) (n : Z) : Result IPNet :=
  let len := if decide (To4 ip = []) then length ip else 4%nat in
  if decide (len = 4%nat ∨ len = 16%nat) then
    if n <=? 8 * Z.of_nat len then
      let m := CIDRMask n len in
      Ok (mkIPNet (IP_Mask (To16 ip) m) m)
    else Err (ParseError "")
  else Err (ParseError "").

(** * Printing *)

Definition hex_chr (d : Z) : ascii :=
  if d <? 10 then digit_chr d else ascii_of_N (Z.to_N (87 + d)).

Definition hexString (l : list Z) : string :=
  foldr (λ b s, String (hex_chr (b / 16)) (String (hex_chr (b mod 16)) s)) "" l.

(** A 16-bit group in hexadecimal without leading zeros. *)
Definition hex_group (n : Z) : string :=
  let s := hexString [n / 256; n mod 256] in
  match trim_left "0" s with EmptyString => "0" | t => t end.

(** The eight groups of a 16-byte address. *)
Fixpoint groups16 (l : list Z) : list Z :=
  match l with
  | a :: b :: l' => (a * 256 + b) :: groups16 l'
  | _ => []
  end.

(** The leftmost longest run of at least two zero groups, as (position, length). *)
Fixpoint zero_run_at (l : list Z) : nat :=
  match l with
  | g :: l' => if g =? 0 then S (zero_run_at l') else O
  | [] => O
  end.
Fixpoint longest_zero_run (i : nat) (l : list Z) (best : nat * nat) : nat * nat :=
  match l with
  | [] => best
  | _ :: l' =>
      let n := zero_run_at l in
      longest_zero_run (S i) l' (if (best.2 <? n)%nat then (i, n) else best)
  end.

Definition ipv6_String (ip : IP) : string :=
  let gs := groups16 ip in
  let '(i, n) := longest_zero_run 0 gs (O, O) in
  if (n <? 2)%nat then Join (map hex_group gs) ":"
  else Join (map hex_group (take i gs)) ":" +:+ "::" +:+ Join (map hex_group (drop (i + n) gs)) ":".

Definition ipv4_String (ip : IP) : string := Join (map fmt_d ip) ".".

(** [ip.String()] *)
Definition IP_String (ip : IP) : string :=
  if decide (ip = []) then "<nil>"
  else if decide (To4 ip = []) then
    if decide (length ip = 16%nat) then ipv6_String ip else "?" +:+ hexString ip
  else ipv4_String (To4 ip).

(** [simpleMaskLength] of package net; [None] is its [-1]. *)
Definition simpleMaskLength (m : list Z) : option Z :=
  let candidates := map Z.of_nat (seq 0 (S (8 * length m))) in
  match list_find (λ n, CIDRMask n (length m) = m) candidates with
  | Some (_, n) => Some n
  | None => None
  end.

(** [n.String()] *)
Definition IPNet_String (n : IPNet) : string :=
  match networkNumberAndMask n with
  | None => "<nil>"
  | Some (nn, m) =>
      match simpleMaskLength m with
      | Some l => IP_String nn +:+ "/" +:+ fmt_d l
      | None => IP_String nn +:+ "/" +:+ hexString m
      end
  end.

(** * Addresses as numbers *)

Definition is_byte_list (l : list Z) : Prop := Forall is_u8 l.

(** The value of a big-endian byte list. *)
Definition be_val (l : list Z) : Z := foldl (λ acc b, acc * 256 + b) 0 l.

(** The four bytes of a 32-bit number, most significant first. *)
Definition ip4 (a : Z) : IP :=
  [a / 2 ^ 24 mod 256; a / 2 ^ 16 mod 256; a / 2 ^ 8 mod 256; a mod 256].

(** The [/n] network of a 32-bit address. *)
Definition net4 (a n : Z) : IPNet := mkIPNet (ip4 a) (CIDRMask n 4).

(** The 16-byte form of a 32-bit address. *)
Definition mapped (a : Z) : IP := v4InV6Prefix ++ ip4 a.

(** * Lemmas *)

Lemma be_val_snoc l b : be_val (l ++ [b]) = be_val l * 256 + b.
Proof. unfold be_val. by rewrite foldl_app. Qed.

Lemma be_val_app l1 l2 :
  be_val (l1 ++ l2) = be_val l1 * 256 ^ Z.of_nat (length l2) + be_val l2.
Proof.
  induction l2 as [|b l2 IH] using rev_ind.
  - rewrite app_nil_r. unfold be_val. simpl. lia.
  - rewrite app_assoc, !be_val_snoc, IH, length_app. simpl.
    rewrite Nat2Z.inj_add, Z.pow_add_r by lia. change (256 ^ Z.of_nat 1) with 256. lia.
Qed.

Lemma be_val_range l : is_byte_list l → 0 ≤ be_val l < 256 ^ Z.of_nat (length l).
Proof.
  induction l as [|b l IH] using rev_ind; [done|].
  intros [Hl Hb]%Forall_app. apply Forall_cons_1 in Hb as [Hb _]. unfold is_u8 in Hb.
  specialize (IH Hl). rewrite be_val_snoc, length_app. cbn [length].
  rewrite Nat2Z.inj_add, Z.pow_add_r by lia. change (256 ^ Z.of_nat 1) with 256.
  change (2 ^ 8) with 256 in Hb. lia.
Qed.

(** A byte list is determined by its length and its value. *)
Lemma be_val_inj l1 l2 :
  is_byte_list l1 → is_byte_list l2 → length l1 = length l2 → be_val l1 = be_val l2 → l1 = l2.
Proof.
  revert l2. induction l1 as [|b1 l1 IH] using rev_ind; intros l2 H1 H2 Hlen Hv.
  - by destruct l2.
  - destruct l2 as [|b2 l2 _] using rev_ind; rewrite !length_app in Hlen; simpl in Hlen; [lia|].
    apply Forall_app in H1 as [H1 [Hb1 _]%Forall_cons_1].
    apply Forall_app in H2 as [H2 [Hb2 _]%Forall_cons_1].
    rewrite !be_val_snoc in Hv. unfold is_u8 in *.
    assert (be_val l1 = be_val l2 ∧ b1 = b2) as [? ->] by lia.
    f_equal. apply IH; auto. lia.
Qed.

Lemma ip4_bytes a : is_byte_list (ip4 a).
Proof. repeat constructor; apply Z.mod_pos_bound; lia. Qed.

Lemma be_val_ip4 a : 0 ≤ a < 2 ^ 32 → be_val (ip4 a) = a.
Proof.
  intros Ha. unfold be_val, ip4. cbn [foldl].
  replace (a / 2 ^ 24) with (a / 2 ^ 8 / 2 ^ 8 / 2 ^ 8) by (rewrite !Z.div_div by lia; done).
  replace (a / 2 ^ 16) with (a / 2 ^ 8 / 2 ^ 8) by (rewrite !Z.div_div by lia; done).
  change (2 ^ 8) with 256.
  pose proof (Z.div_mod a 256 ltac:(lia)).
  pose proof (Z.div_mod (a / 256) 256 ltac:(lia)).
  pose proof (Z.div_mod (a / 256 / 256) 256 ltac:(lia)).
  rewrite (Z.mod_small (a / 256 / 256 / 256)); [lia|].
  rewrite !Z.div_div by lia.
  split; [apply Z.div_pos; lia|apply Z.div_lt_upper_bound; lia].
Qed.

Lemma ip4_inj a b : 0 ≤ a < 2 ^ 32 → 0 ≤ b < 2 ^ 32 → ip4 a = ip4 b → a = b.
Proof. intros Ha Hb H. apply (f_equal be_val) in H. by rewrite !be_val_ip4 in H. Qed.

Lemma mapped_bytes a : is_byte_list (mapped a).
Proof. apply Forall_app. split; [repeat constructor; unfold is_u8; lia|apply ip4_bytes]. Qed.

Lemma be_val_mapped a : 0 ≤ a < 2 ^ 32 → be_val (mapped a) = 65535 * 2 ^ 32 + a.
Proof.
  intros Ha. unfold mapped. rewrite be_val_app, be_val_ip4 by done.
  change (be_val v4InV6Prefix) with 65535. done.
Qed.

Lemma To16_ip4 a : To16 (ip4 a) = mapped a.
Proof. done. Qed.
Lemma To4_ip4 a : To4 (ip4 a) = ip4 a.
Proof. done. Qed.
Lemma To4_mapped a : To4 (mapped a) = ip4 a.
Proof. done. Qed.

Lemma land_byte a b k :
  0 ≤ k → Z.land (a / 2 ^ k mod 256) (b / 2 ^ k mod 256) = Z.land a b / 2 ^ k mod 256.
Proof.
  intros Hk. change 256 with (2 ^ 8). rewrite <-!Z.shiftr_div_pow2 by done.
  rewrite <-!Z.land_ones by lia. rewrite Z.shiftr_land.
  rewrite <-!Z.land_assoc. f_equal. rewrite (Z.land_comm (Z.ones 8)), <-Z.land_assoc.
  by rewrite Z.land_diag.
Qed.

Lemma zip_land_ip4 a b : zip_with Z.land (ip4 a) (ip4 b) = ip4 (Z.land a b).
Proof.
  unfold ip4. simpl. rewrite !land_byte by lia. repeat f_equal.
  pose proof (land_byte a b 0 ltac:(lia)) as H. by rewrite !Z.div_1_r in H.
Qed.

Lemma CIDRMask_4 n : 0 ≤ n ≤ 32 → CIDRMask n 4 = ip4 (2 ^ 32 - 2 ^ (32 - n)).
Proof.
  intros Hn.
  assert (H : ∃ k, (k ≤ 32)%nat ∧ n = Z.of_nat k) by (exists (Z.to_nat n); lia).
  destruct H as (k & Hk & ->). clear Hn. do 33 (destruct k as [|k]; [vm_compute; reflexivity|]).
  lia.
Qed.

Lemma land_mask a n :
  0 ≤ n ≤ 32 → 0 ≤ a < 2 ^ 32 →
  Z.land a (2 ^ 32 - 2 ^ (32 - n)) = a / 2 ^ (32 - n) * 2 ^ (32 - n).
Proof.
  intros Hn Ha.
  replace (2 ^ 32 - 2 ^ (32 - n)) with (Z.shiftl (Z.ones n) (32 - n)).
  2:{ rewrite Z.shiftl_mul_pow2, Z.ones_equiv by lia.
      replace 32 with (n + (32 - n)) at 2 by lia. rewrite Z.pow_add_r by lia. lia. }
  rewrite <-Z.shiftr_div_pow2, <-Z.shiftl_mul_pow2 by lia.
  apply Z.bits_inj'. intros i Hi. rewrite Z.land_spec.
  destruct (decide (i < 32 - n)) as [Hlt|Hge].
  - rewrite !Z.shiftl_spec_low by lia. apply andb_false_r.
  - rewrite !Z.shiftl_spec, Z.shiftr_spec by lia.
    replace (i - (32 - n) + (32 - n)) with i by lia.
    destruct (decide (i < 32)) as [Hi32|Hi32].
    + rewrite Z.ones_spec_low by lia. apply andb_true_r.
    + rewrite (Z.bits_above_log2 a i); [done|lia|].
      destruct (decide (a = 0)) as [->|]; [simpl; lia|].
      apply Z.log2_lt_pow2; [lia|]. eapply Z.lt_le_trans; [apply Ha|].
      apply Z.pow_le_mono_r; lia.
Qed.

Lemma length_CIDRMask ones len : length (CIDRMask ones len) = len.
Proof.
  revert ones. induction len as [|len IH]; intros ones; [done|]. simpl.
  destruct (8 <=? ones); simpl; by rewrite IH.
Qed.

Lemma networkNumberAndMask_v4 a n :
  networkNumberAndMask (net4 a n) = Some (ip4 a, CIDRMask n 4).
Proof.
  unfold networkNumberAndMask. cbn [net4 net_IP net_Mask].
  rewrite To4_ip4, (decide_False (P := ip4 a = [])) by done.
  rewrite decide_False by (by intros [? _]). rewrite length_CIDRMask. done.
Qed.

Lemma pow_32 n : 0 ≤ n ≤ 32 → 0 < 2 ^ (32 - n).
Proof. intros Hn. apply Z.pow_pos_nonneg; lia. Qed.

(** Membership in an IPv4 network is equality of the leading bits. *)
Lemma Contains_v4 a b n :
  0 ≤ n ≤ 32 → 0 ≤ a < 2 ^ 32 → 0 ≤ b < 2 ^ 32 →
  Contains (net4 a n) (ip4 b) = bool_decide (a / 2 ^ (32 - n) = b / 2 ^ (32 - n)).
Proof.
  intros Hn Ha Hb. unfold Contains. rewrite networkNumberAndMask_v4. cbn [from_option id].
  rewrite To4_ip4, decide_False by done. rewrite CIDRMask_4 by done.
  rewrite !zip_land_ip4, !land_mask by done. rewrite bool_decide_true by done. simpl.
  pose proof (pow_32 n Hn) as Hp. apply bool_decide_ext. split; [|congruence].
  assert (Hq : ∀ x, 0 ≤ x < 2 ^ 32 → 0 ≤ x / 2 ^ (32 - n) * 2 ^ (32 - n) < 2 ^ 32).
  { intros x Hx. pose proof (Z.mul_div_le x (2 ^ (32 - n)) Hp).
    pose proof (Z.div_pos x (2 ^ (32 - n))). nia. }
  intros H%ip4_inj; [nia|auto..].
Qed.

(** An address of the other family is in no IPv4 network. *)
Lemma Contains_v4_v6 a n ip : To4 ip = [] → length ip ≠ 4%nat → Contains (net4 a n) ip = false.
Proof.
  intros H4 Hl. unfold Contains. rewrite networkNumberAndMask_v4. cbn [from_option id].
  rewrite decide_True by done. rewrite bool_decide_false; [done|]. done.
Qed.

Lemma IP_Mask_mapped a n :
  0 ≤ n ≤ 32 → 0 ≤ a < 2 ^ 32 →
  IP_Mask (mapped a) (CIDRMask n 4) = ip4 (a / 2 ^ (32 - n) * 2 ^ (32 - n)).
Proof.
  intros Hn Ha. unfold IP_Mask. rewrite length_CIDRMask.
  rewrite (decide_False (P := 4%nat = 16%nat ∧ _)) by (by intros [? _]).
  rewrite length_CIDRMask.
  rewrite (decide_True (P := 4%nat = 4%nat ∧ _)) by done.
  rewrite CIDRMask_4 by done. change (drop 12 (mapped a)) with (ip4 a).
  rewrite decide_True by done. by rewrite zip_land_ip4, land_mask.
Qed.

Lemma reparse_CIDR_v4 ip a n :
  To4 ip = ip4 a → To16 ip = mapped a → 0 ≤ n ≤ 32 → 0 ≤ a < 2 ^ 32 →
  reparse_CIDR ip n = Ok (net4 (a / 2 ^ (32 - n) * 2 ^ (32 - n)) n).
Proof.
  intros H4 H16 Hn Ha. unfold reparse_CIDR. rewrite H4, (decide_False (P := ip4 a = [])) by done.
  rewrite decide_True by auto. change (8 * Z.of_nat 4) with 32. rewrite (proj2 (Z.leb_le n 32)) by lia.
  by rewrite H16, IP_Mask_mapped.
Qed.

Lemma simpleMaskLength_30 : simpleMaskLength (CIDRMask 30 4) = Some 30.
Proof. reflexivity. Qed.

(** The text of an IPv4 address, and of a [/30] network, determines it. *)
Lemma ip4_text_parts a : Forall (free_of ".") (map fmt_d (ip4 a)).
Proof.
  apply Forall_fmap. eapply Forall_impl; [apply ip4_bytes|]. intros b Hb.
  apply fmt_d_free_of; [done|apply Hb].
Qed.

Lemma IP_String_ip4 a : IP_String (ip4 a) = ipv4_String (ip4 a).
Proof. done. Qed.

Lemma ipv4_String_inj a b :
  0 ≤ a < 2 ^ 32 → 0 ≤ b < 2 ^ 32 → ipv4_String (ip4 a) = ipv4_String (ip4 b) → a = b.
Proof.
  intros Ha Hb H. unfold ipv4_String in H.
  apply (Join_inj ".") in H; [|done|done|apply ip4_text_parts|apply ip4_text_parts].
  apply ip4_inj; [done..|].
  assert (Hi : ∀ l1 l2, is_byte_list l1 → is_byte_list l2 → map fmt_d l1 = map fmt_d l2 → l1 = l2).
  { intros l1. induction l1 as [|x l1 IH]; intros [|y l2] H1 H2 Hm; try done.
    apply Forall_cons in H1 as [Hx H1]. apply Forall_cons in H2 as [Hy H2].
    injection Hm as Hxy Hm. unfold is_u8 in *. f_equal; [|by apply IH].
    apply fmt_d_inj; [unfold is_u64; lia..|done]. }
  apply Hi; [apply ip4_bytes..|done].
Qed.

Lemma free_of_slash_ip4 a : free_of slash (ipv4_String (ip4 a)).
Proof.
  apply free_of_Join; [done|]. apply Forall_fmap.
  eapply Forall_impl; [apply ip4_bytes|]. intros b Hb. apply fmt_d_free_of; [done|apply Hb].
Qed.

Lemma IPNet_String_30 a : IPNet_String (net4 a 30) = Join [ipv4_String (ip4 a); "30"] "/".
Proof.
  unfold IPNet_String. rewrite networkNumberAndMask_v4, simpleMaskLength_30.
  by rewrite IP_String_ip4.
Qed.

Lemma IPNet_String_30_inj a b :
  0 ≤ a < 2 ^ 32 → 0 ≤ b < 2 ^ 32 →
  IPNet_String (net4 a 30) = IPNet_String (net4 b 30) → a = b.
Proof.
  intros Ha Hb. rewrite !IPNet_String_30. intros H.
  apply (Join_inj slash) in H; [|done|done|..].
  - injection H as H. by apply ipv4_String_inj.
  - constructor; [apply free_of_slash_ip4|by repeat constructor].
  - constructor; [apply free_of_slash_ip4|by repeat constructor].
Qed.

(** IPv6 addresses and networks. *)
Lemma To4_v6 ip : length ip = 16%nat → take 12 ip ≠ v4InV6Prefix → To4 ip = [].
Proof.
  intros Hl Hp. unfold To4. rewrite decide_False by (rewrite Hl; done).
  by rewrite decide_False by (by intros [_ ?]).
Qed.

Lemma IP_Mask_v6 ip m :
  length ip = 16%nat → length m = 16%nat → IP_Mask ip m = zip_with Z.land ip m.
Proof.
  intros Hl Hm. unfold IP_Mask.
  rewrite (decide_False (P := length m = 16%nat ∧ _)) by (rewrite Hl; by intros (_ & ? & _)).
  rewrite (decide_False (P := length m = 4%nat ∧ _)) by (rewrite Hm; by intros (? & _)).
  by rewrite decide_True by congruence.
Qed.

Lemma reparse_CIDR_v6 ip n :
  length ip = 16%nat → To4 ip = [] → n ≤ 128 →
  reparse_CIDR ip n = Ok (mkIPNet (zip_with Z.land ip (CIDRMask n 16)) (CIDRMask n 16)).
Proof.
  intros Hl H4 Hn. unfold reparse_CIDR. rewrite H4, (decide_True (P := @nil Z = [])) by done.
  rewrite Hl, decide_True by auto. change (8 * Z.of_nat 16) with 128.
  rewrite (proj2 (Z.leb_le n 128)) by done.
  unfold To16. rewrite Hl, decide_False by done. rewrite decide_True by done.
  by rewrite IP_Mask_v6 by (rewrite ?length_CIDRMask; done).
Qed.

Lemma Contains_v6 ip m x :
  length ip = 16%nat → To4 ip = [] → length m = 16%nat → length x = 16%nat → To4 x = [] →
  Contains (mkIPNet ip m) x = bool_decide (zip_with Z.land ip m = zip_with Z.land x m).
Proof.
  intros Hl H4 Hm Hx H4x. unfold Contains, networkNumberAndMask. cbn [net_IP net_Mask].
  rewrite !H4, !H4x, !(decide_True (P := @nil Z = [])) by done.
  rewrite decide_False by (intros [_ H]; by apply H).
  rewrite Hm, Hl, !(decide_False (P := 16%nat = 4%nat)), decide_True by done.
  cbn [from_option id]. by rewrite Hx, Hl, (bool_decide_true (16%nat = 16%nat)).
Qed.

Lemma Contains_base_v6 ip m :
  length ip = 16%nat → To4 ip = [] → length m = 16%nat → Contains (mkIPNet ip m) ip = true.
Proof. intros Hl H4 Hm. rewrite Contains_v6 by done. by apply bool_decide_true. Qed.
