(* ===== verification/NetParse.v ===== *)
(** Parsing addresses and networks: [net.ParseIP] and [net.ParseCIDR] on any text, and
    that they read back what package net prints of IPv4 addresses and networks. *)
From S2P Require Import Prelude GoStd Net.
From Stdlib Require Import Ascii.

Local Open Scope string_scope.
Local Open Scope list_scope.
Local Open Scope Z_scope.

(** * Numbers *)

(** [dtoi] and [xtoi] of package net stop at [0xFFFFFF]. *)
Definition big : Z := 16777215.

Definition hex_val (c : ascii) : option Z :=
  let n := Z.of_N (N_of_ascii c) in
  if (48 <=? n) && (n <=? 57) then Some (n - 48)
  else if (97 <=? n) && (n <=? 102) then Some (n - 97 + 10)
  else if (65 <=? n) && (n <=? 70) then Some (n - 65 + 10)
  else None.

(** The digits at the front of [s]: [None] when the number gets too big. *)
Fixpoint toi_loop (digit : ascii → option Z) (base : Z) (s : string) (n : Z) : option (Z * string) :=
  match s with
  | EmptyString => Some (n, s)
  | String c s' =>
      match digit c with
      | None => Some (n, s)
      | Some d => if big <=? n * base + d then None else toi_loop digit base s' (n * base + d)
      end
  end.

(** At least one digit is needed. *)
Definition toi (digit : ascii → option Z) (base : Z) (s : string) : option (Z * string) :=
  match s with
  | EmptyString => None
  | String c _ => if digit c is Some _ then toi_loop digit base s 0 else None
  end.

Definition dtoi : string → option (Z * string) := toi digit_val 10.
Definition xtoi : string → option (Z * string) := toi hex_val 16.

(** * Addresses *)

(** The [j]-th number of a dotted quad; [k] are still to come. *)
Fixpoint parse_quad (k : nat) (s : string) : option (list Z) :=
  match dtoi s with
  | None => None
  | Some (n, rest) =>
      if 255 <? n then None
      else match k with
           | O => if String.eqb rest "" then Some [n] else None
           | S k' =>
               match rest with
               | String "." rest' => (λ l, n :: l) <$> parse_quad k' rest'
               | _ => None
               end
           end
  end.

Definition parseIPv4 (s : string) : option IP := (λ l, v4InV6Prefix ++ l) <$> parse_quad 3 s.

(** The loop of [parseIPv6]: [acc] are the bytes so far, [ellipsis] where [::] was; every
    round takes two bytes at least, so eight rounds are enough. *)
Fixpoint parse_groups (fuel : nat) (s : string) (acc : list Z) (ellipsis : option nat) :
    option (list Z * option nat) :=
  match fuel with
  | O => if String.eqb s "" then Some (acc, ellipsis) else None
  | S fuel' =>
      match xtoi s with
      | None => None
      | Some (n, rest) =>
          if 65535 <? n then None
          else match rest with
               | String "." _ =>
                   if (bool_decide (ellipsis = None) && negb (length acc =? 12)%nat) || (12 <? length acc)%nat then None
                   else match parse_quad 3 s with
                        | Some l => Some (acc ++ l, ellipsis)
                        | None => None
                        end
               | EmptyString => Some (acc ++ [n / 256; n mod 256], ellipsis)
               | String ":" (String c rest') =>
                   let acc' := acc ++ [n / 256; n mod 256] in
                   if Ascii.eqb c ":" then
                     match ellipsis with
                     | Some _ => None
                     | None => if String.eqb rest' "" then Some (acc', Some (length acc'))
                               else parse_groups fuel' rest' acc' (Some (length acc'))
                     end
                   else parse_groups fuel' (String c rest') acc' ellipsis
               | _ => None
               end
      end
  end.

Definition expand_ellipsis (r : list Z * option nat) : option IP :=
  let '(l, ellipsis) := r in
  if (length l =? 16)%nat then Some l
  else match ellipsis with
       | None => None
       | Some i => Some (take i l ++ replicate (16 - length l) 0 ++ drop i l)
       end.

Definition parseIPv6 (s : string) : option IP :=
  match s with
  | String ":" (String ":" rest) =>
      if String.eqb rest "" then Some (replicate 16 0)
      else parse_groups 8 rest [] (Some O) ≫= expand_ellipsis
  | _ => parse_groups 8 s [] None ≫= expand_ellipsis
  end.

(** [net.ParseIP]; [None] is its [nil]. *)
Definition ParseIP (s : string) : option IP :=
  match parseIPv4 s with Some ip => Some ip | None => parseIPv6 s end.

(** * Networks *)

(** The text before and after the first [/]. *)
Fixpoint cut_slash (s : string) : option (string * string) :=
  match s with
  | EmptyString => None
  | String c s' => if Ascii.eqb c slash then Some ("", s')
                   else match cut_slash s' with Some (a, m) => Some (String c a, m) | None => None end
  end.

Definition ParseCIDR (s : string) : Result (IP * IPNet) :=
  match cut_slash s with
  | None => Err (ParseError s)
  | Some (addr, mask) =>
      let '(ip, iplen) := match parseIPv4 addr with
                          | Some ip => (Some ip, 4%nat)
                          | None => (parseIPv6 addr, 16%nat)
                          end in
      match ip, dtoi mask with
      | Some ip, Some (n, EmptyString) =>
          if 8 * Z.of_nat iplen <? n then Err (ParseError s)
          else let m := CIDRMask n iplen in Ok (ip, mkIPNet (IP_Mask ip m) m)
      | _, _ => Err (ParseError s)
      end
  end.

Example ParseIP_examples :
  map ParseIP ["10.254.0.1"; "256.0.0.1"; "1.2.3"; "::1"; "fe80::1:2"; "1:2:3:4:5:6:7:8"; "::ffff:1.2.3.4"; "1::2::3"; ":1"] =
  [Some (v4InV6Prefix ++ [10; 254; 0; 1]); None; None; Some (replicate 15 0 ++ [1]);
   Some ([254; 128] ++ replicate 11 0 ++ [1; 0; 2]); Some [0; 1; 0; 2; 0; 3; 0; 4; 0; 5; 0; 6; 0; 7; 0; 8];
   Some (v4InV6Prefix ++ [1; 2; 3; 4]); None; None].
Proof. by vm_compute. Qed.

Example ParseCIDR_examples :
  ParseCIDR "10.254.3.7/22" = Ok (v4InV6Prefix ++ [10; 254; 3; 7], mkIPNet [10; 254; 0; 0] [255; 255; 252; 0]) ∧
  ParseCIDR "10.254.0.0/33" = Err (ParseError "10.254.0.0/33") ∧ ParseCIDR "10.254.0.0" = Err (ParseError "10.254.0.0").
Proof. by vm_compute. Qed.

(** * Lemmas *)

(** ** Printed numbers are read back *)

(** The digits of [n] are consumed, whatever follows that is no digit. *)
Definition no_digit (s : string) : Prop := match s with String c _ => is_digit c = false | EmptyString => True end.

Lemma toi_loop_stop s n : no_digit s → toi_loop digit_val 10 s n = Some (n, s).
Proof.
  destruct s as [|c s]; [done|]. cbn. unfold is_digit. by destruct (digit_val c).
Qed.

Lemma dec_digits_toi fuel n acc s :
  0 ≤ n < big → n < 10 ^ Z.of_nat fuel → fuel ≠ O →
  toi_loop digit_val 10 (dec_digits fuel n acc +:+ s) 0 = toi_loop digit_val 10 (acc +:+ s) n.
Proof.
  unfold big. revert n acc. induction fuel as [|fuel IH]; intros n acc Hn Hf Hne; [done|].
  assert (Hmod : 0 ≤ n mod 10 < 10) by (apply Z.mod_pos_bound; lia).
  cbn [dec_digits]. destruct (n <? 10) eqn:E.
  - change (String (digit_chr (n mod 10)) acc +:+ s) with (String (digit_chr (n mod 10)) (acc +:+ s)).
    cbn [toi_loop]. rewrite digit_val_chr by done. rewrite Z.mod_small by lia.
    by replace (big <=? 0 * 10 + n) with false by (unfold big; lia).
  - rewrite Nat2Z.inj_succ, Z.pow_succ_r in Hf by lia.
    assert (Hdiv : n = 10 * (n / 10) + n mod 10) by (apply Z.div_mod; lia).
    rewrite IH; [|lia| |].
    + change (String (digit_chr (n mod 10)) acc +:+ s) with (String (digit_chr (n mod 10)) (acc +:+ s)).
      cbn [toi_loop]. rewrite digit_val_chr by done.
      replace (n / 10 * 10 + n mod 10) with n by lia. by replace (big <=? n) with false by (unfold big; lia).
    + apply Z.div_lt_upper_bound; lia.
    + intros ->. simpl in Hf. lia.
Qed.

Lemma dtoi_fmt_d n s : 0 ≤ n < big → no_digit s → dtoi (fmt_d n +:+ s) = Some (n, s).
Proof.
  intros Hn Hs. pose proof (fmt_d_nonempty n ltac:(lia)) as Hne. pose proof (fmt_d_digits n ltac:(lia)) as Hd.
  assert (E : toi_loop digit_val 10 (fmt_d n +:+ s) 0 = Some (n, s)).
  { rewrite fmt_d_nonneg by lia. rewrite dec_digits_toi; [|lia|apply dec_digits_fuel; lia|done].
    by apply toi_loop_stop. }
  unfold dtoi, toi. destruct (fmt_d n) as [|c t]; [done|]. cbn in Hd. apply andb_true_iff in Hd as [Hc _].
  change (String c t +:+ s) with (String c (t +:+ s)) in *.
  cbn iota. unfold is_digit in Hc. destruct (digit_val c); [exact E|done].
Qed.

(** ** IPv4 addresses *)

Lemma dot_no_digit s : no_digit ("." +:+ s).
Proof. done. Qed.

Lemma parse_quad_print a l s k :
  is_byte_list (a :: l) → length l = k → s = "" →
  parse_quad k (Join (map fmt_d (a :: l)) "." +:+ s) = Some (a :: l).
Proof.
  intros Hb Hl ->. revert a k Hb Hl. induction l as [|a' l IH]; intros a k Hb Hl; apply Forall_cons in Hb as [Ha Hb];
    cbn [length] in Hl; subst k; unfold is_u8 in Ha.
  - change (Join (map fmt_d [a]) ".") with (fmt_d a). cbn [parse_quad].
    rewrite dtoi_fmt_d by (done || unfold big; lia). by replace (255 <? a) with false by lia.
  - change (map fmt_d (a :: a' :: l)) with (fmt_d a :: fmt_d a' :: map fmt_d l).
    rewrite Join_cons, !string_app_assoc. cbn [parse_quad].
    rewrite dtoi_fmt_d by (apply dot_no_digit || unfold big; lia). replace (255 <? a) with false by lia.
    change ("." +:+ ?x) with (String "." x). cbn [app String.append].
    specialize (IH a' (length l) Hb eq_refl). change (fmt_d a' :: map fmt_d l) with (map fmt_d (a' :: l)).
    by rewrite IH.
Qed.

Lemma parseIPv4_print a : is_byte_list a → length a = 4%nat → parseIPv4 (ipv4_String a) = Some (v4InV6Prefix ++ a).
Proof.
  intros Hb Hl. destruct a as [|b l]; [done|]. unfold parseIPv4, ipv4_String.
  rewrite <-(string_app_nil (Join _ _)). rewrite (parse_quad_print b l "" 3); [done|done| |done].
  cbn in Hl. lia.
Qed.

Lemma IP_String_mapped a : IP_String (mapped a) = ipv4_String (ip4 a).
Proof. done. Qed.

(** An IPv4 address that is printed and parsed is the address, in 16 bytes. *)
Lemma ParseIP_print a : ParseIP (IP_String (ip4 a)) = Some (reparse_IP (ip4 a)).
Proof. rewrite IP_String_ip4. unfold ParseIP. rewrite parseIPv4_print; [done|apply ip4_bytes|done]. Qed.

Lemma ParseIP_mapped a : ParseIP (IP_String (mapped a)) = Some (mapped a).
Proof. rewrite IP_String_mapped. unfold ParseIP. rewrite parseIPv4_print; [done|apply ip4_bytes|done]. Qed.

(** ** IPv4 networks *)

Lemma cut_slash_app s t : free_of slash s → cut_slash (s +:+ String slash t) = Some (s, t).
Proof.
  unfold free_of. induction s as [|c s IH]; [done|].
  change (String c s +:+ String slash t) with (String c (s +:+ String slash t)). cbn.
  destruct (Ascii.eqb c slash); [done|]. cbn. intros H. by rewrite IH.
Qed.

Lemma ParseCIDR_print a n :
  0 ≤ a < 2 ^ 32 → 0 ≤ n ≤ 32 →
  ParseCIDR (IP_String (ip4 a) +:+ "/" +:+ fmt_d n) =
    Ok (mapped a, net4 (a / 2 ^ (32 - n) * 2 ^ (32 - n)) n).
Proof.
  intros Ha Hn. unfold ParseCIDR. rewrite IP_String_ip4.
  change ("/" +:+ fmt_d n) with (String slash (fmt_d n)). rewrite cut_slash_app by apply free_of_slash_ip4.
  rewrite parseIPv4_print by (done || apply ip4_bytes).
  rewrite <-(string_app_nil (fmt_d n)), dtoi_fmt_d by (done || unfold big; lia).
  change (8 * Z.of_nat 4) with 32. replace (32 <? n) with false by lia.
  change (v4InV6Prefix ++ ip4 a) with (mapped a). by rewrite IP_Mask_mapped.
Qed.

(** The compositions that Net.v defines by what they return: parsing what was printed. *)
Lemma reparse_CIDR_is_ParseCIDR a n :
  0 ≤ a < 2 ^ 32 → 0 ≤ n ≤ 32 →
  reparse_CIDR (ip4 a) n = ('(_, net) ← ParseCIDR (IP_String (ip4 a) +:+ "/" +:+ fmt_d n); Ok net).
Proof. intros Ha Hn. rewrite ParseCIDR_print by done. by apply reparse_CIDR_v4. Qed.
