(* ===== verification/Network.v ===== *)
(** linux_backend/network/network.go: a container's network, with the address of
    the host's end and the address of the container's end. *)
From S2P Require Import Prelude GoStd Net.

Local Open Scope string_scope.
Local Open Scope list_scope.
Local Open Scope Z_scope.

Record Network := mkNetwork {
  ipNet : IPNet;
  hostIP : IP;
  containerIP : IP
}.

#[export] Instance Network_eq_dec : EqDecision Network.
Proof. solve_decision. Defined.

(** The loop of [inc] from the last byte on: [l] is the rest of the address,
    last byte first. *)
Fixpoint inc_bytes (l : list Z) : list Z :=
  match l with
  | [] => []
  | b :: l' =>
      let b' := u8 (b + 1) in
      if 0 <? b' then b' :: l' else b' :: inc_bytes l'
  end.

Definition inc (ip : IP) : IP := reverse (inc_bytes (reverse ip)).

Definition nextIP (ip : IP) : IP := inc (reparse_IP ip).

Definition New (n : IPNet) : Network :=
  mkNetwork n (nextIP (net_IP n)) (nextIP (nextIP (net_IP n))).

Definition String_ (n : Network) : string := IPNet_String (ipNet n).
Definition IP_ (n : Network) : IP := net_IP (ipNet n).
Definition HostIP (n : Network) : IP := hostIP n.
Definition ContainerIP (n : Network) : IP := containerIP n.

(** * Lemmas *)

Lemma inc_bytes_spec l :
  is_byte_list l →
  be_val (reverse (inc_bytes l)) = (be_val (reverse l) + 1) mod 256 ^ Z.of_nat (length l) ∧
  is_byte_list (inc_bytes l) ∧ length (inc_bytes l) = length l.
Proof.
  induction l as [|b l IH]; [done|]. intros [Hb Hl]%Forall_cons_1.
  destruct (IH Hl) as (Hv & Hby & Hlen). unfold is_u8 in Hb. cbn [inc_bytes].
  assert (Hrl : is_byte_list (reverse l)) by (by apply Forall_reverse).
  pose proof (be_val_range _ Hrl) as Hr. rewrite length_reverse in Hr.
  cbn [length]. rewrite Nat2Z.inj_succ, Z.pow_succ_r by lia.
  destruct (decide (b = 255)) as [->|Hne].
  - change (u8 (255 + 1)) with 0. cbn [Z.ltb Z.compare].
    rewrite !reverse_cons, !be_val_snoc, Hv. split; [|split].
    + rewrite (Z.mul_comm 256 (256 ^ _)).
      replace (be_val (reverse l) * 256 + 255 + 1) with ((be_val (reverse l) + 1) * 256) by lia.
      rewrite Z.mul_mod_distr_r by lia. lia.
    + by constructor; [unfold is_u8; lia|].
    + simpl. by rewrite Hlen.
  - rewrite u8_small by (unfold is_u8; lia). replace (0 <? b + 1) with true by lia.
    rewrite !reverse_cons, !be_val_snoc. split; [|split].
    + rewrite Z.mod_small; lia.
    + by constructor; [unfold is_u8; lia|].
    + done.
Qed.

(** [inc] adds one to the address, modulo the size of the address space. *)
Lemma inc_spec ip :
  is_byte_list ip →
  be_val (inc ip) = (be_val ip + 1) mod 256 ^ Z.of_nat (length ip) ∧
  is_byte_list (inc ip) ∧ length (inc ip) = length ip.
Proof.
  intros H. unfold inc.
  destruct (inc_bytes_spec (reverse ip)) as (Hv & Hb & Hl); [by apply Forall_reverse|].
  rewrite reverse_involutive, length_reverse in *. split; [done|].
  split; [by apply Forall_reverse|done].
Qed.

Lemma inc_mapped a : 0 ≤ a → a + 1 < 2 ^ 32 → inc (mapped a) = mapped (a + 1).
Proof.
  intros H0 H1. destruct (inc_spec (mapped a)) as (Hv & Hb & Hl); [apply mapped_bytes|].
  apply be_val_inj; [done|apply mapped_bytes|done|].
  rewrite Hv, !be_val_mapped by lia. change (Z.of_nat (length (mapped a))) with 16.
  rewrite Z.mod_small by lia. lia.
Qed.

(** The 16 bytes after [255.255.255.255]. *)
Definition v6_wrapped : IP := replicate 9 0 ++ [1] ++ replicate 6 0.

Lemma inc_mapped_last : inc (mapped (2 ^ 32 - 1)) = v6_wrapped.
Proof. reflexivity. Qed.

Lemma nextIP_ip4 a : 0 ≤ a → a + 1 < 2 ^ 32 → nextIP (ip4 a) = mapped (a + 1).
Proof. intros. unfold nextIP, reparse_IP. rewrite To16_ip4. by apply inc_mapped. Qed.

Lemma nextIP_mapped a : 0 ≤ a → a + 1 < 2 ^ 32 → nextIP (mapped a) = mapped (a + 1).
Proof. intros. by apply inc_mapped. Qed.

(** A network's host address is its base address plus one, its container
    address its base address plus two. *)
Lemma New_v4 a n :
  0 ≤ a → a + 2 < 2 ^ 32 →
  New (net4 a n) = mkNetwork (net4 a n) (mapped (a + 1)) (mapped (a + 2)).
Proof.
  intros H0 H2. unfold New. cbn [net4 net_IP]. rewrite nextIP_ip4 by lia.
  rewrite nextIP_mapped by lia. by replace (a + 1 + 1) with (a + 2) by lia.
Qed.
