(* ===== verification/NetworkPool.v ===== *)
(** linux_backend/network_pool/network_pool.go: the pool of [/30] networks. *)
From S2P Require Import Prelude GoStd ResourcePool Net Network.

Local Open Scope string_scope.
Local Open Scope list_scope.
Local Open Scope Z_scope.

Record RealNetworkPool := mkNetworkPool {
  pool_ipNet : IPNet;
  pool : list Network;
  initialPoolSize : nat
}.

Definition set_pool (p : RealNetworkPool) (l : list Network) : RealNetworkPool :=
  mkNetworkPool (pool_ipNet p) l (initialPoolSize p).

Definition PoolExhaustedError : error :=
  mkError "network_pool.PoolExhaustedError" "network pool is exhausted".

(** The error keeps the pointer; printing it with a nil pointer would panic, and
    its message is left empty. *)
Definition NetworkTakenError (n : option Network) : error :=
  mkError "network_pool.NetworkTakenError"
    match n with
    | Some n' => "network already acquired: " +:+ String_ n'
    | None => ""
    end.

(** [inc] of this package, a copy of the one in package network *)
Fixpoint inc_bytes (l : list Z) : list Z :=
  match l with
  | [] => []
  | b :: l' =>
      let b' := u8 (b + 1) in
      if 0 <? b' then b' :: l' else b' :: inc_bytes l'
  end.

Definition inc (ip : IP) : IP := reverse (inc_bytes (reverse ip)).

(** [nextSubnet]; the parse error is a panic in the code. *)
Definition nextSubnet (n : IPNet) : Result IPNet :=
  let next := inc (inc (inc (inc (reparse_IP (net_IP n))))) in
  match reparse_CIDR next 30 with
  | Err e => Crash (Panic (err_msg e))
  | r => r
  end.

(** The loop of [New], with at most [fuel] iterations; [None] when it is still
    running then. *)
Fixpoint subnets (fuel : nat) (ipNet : IPNet) (subnet : IPNet) : option (Result (list Network)) :=
  match fuel with
  | O => None
  | S fuel' =>
      if Contains ipNet (net_IP subnet) then
        match nextSubnet subnet with
        | Ok next =>
            match subnets fuel' ipNet next with
            | Some (Ok l) => Some (Ok (Network.New subnet :: l))
            | r => r
            end
        | Err e => Some (Err e)
        | Crash c => Some (Crash c)
        end
      else Some (Ok [])
  end.

Definition New (fuel : nat) (ipNet : IPNet) : option (Result RealNetworkPool) :=
  match reparse_CIDR (net_IP ipNet) 30 with
  | Err e => Some (Crash (Panic (err_msg e)))
  | Crash c => Some (Crash c)
  | Ok startNet =>
      match subnets fuel ipNet startNet with
      | Some (Ok l) => Some (Ok (mkNetworkPool ipNet l (length l)))
      | Some (Err e) => Some (Err e)
      | Some (Crash c) => Some (Crash c)
      | None => None
      end
  end.

Definition Acquire : M RealNetworkPool Network := λ p,
  match pool p with
  | [] => (Err PoolExhaustedError, p)
  | acquired :: rest => (Ok acquired, set_pool p rest)
  end.

(** [n] is a pointer: comparing the first free network with a nil pointer panics. *)
Definition Remove (n : option Network) : M RealNetworkPool unit := λ p,
  match n with
  | None => if decide (pool p = []) then (Err (NetworkTakenError n), p)
            else (Crash NilDereference, p)
  | Some n' =>
      match list_find (λ existing, String_ existing = String_ n') (pool p) with
      | None => (Err (NetworkTakenError n), p)
      | Some (idx, _) => (Ok tt, set_pool p (remove_at idx (pool p)))
      end
  end.

Definition Release (n : option Network) : M RealNetworkPool unit := λ p,
  match n with
  | None => (Crash NilDereference, p)
  | Some n' =>
      if Contains (pool_ipNet p) (IP_ n') then (Ok tt, set_pool p (pool p ++ [n']))
      else (Ok tt, p)
  end.

Definition InitialSize (p : RealNetworkPool) : nat := initialPoolSize p.
Definition Network_ (p : RealNetworkPool) : IPNet := pool_ipNet p.

(** The [k]-th [/30] network of the pool that starts at address [a]. *)
Definition nth_subnet (a k : Z) : Network := Network.New (net4 (a + 4 * k) 30).

(** An IPv4 [/30] network, as [ParseCIDR] returns it. *)
Definition is_subnet (n : Network) : Prop :=
  ∃ b, 0 ≤ b < 2 ^ 32 ∧ ipNet n = net4 b 30.

(** The pool as a [ResourcePool]; networks are compared by their text. *)
#[export] Instance network_rp : ResourcePool RealNetworkPool Network string := {|
  rp_key := String_;
  rp_free := pool;
  rp_managed p n := Contains (pool_ipNet p) (IP_ n);
  rp_valid := is_subnet;
  rp_acquire := Acquire;
  rp_remove n := Remove (Some n);
  rp_release n := Release (Some n)
|}.

(** * Lemmas *)

Lemma inc_eq ip : inc ip = Network.inc ip.
Proof. reflexivity. Qed.

Lemma reparse_30 a : 0 ≤ a < 2 ^ 32 → a mod 4 = 0 → reparse_CIDR (ip4 a) 30 = Ok (net4 a 30).
Proof.
  intros Ha Hm. rewrite (reparse_CIDR_v4 _ a) by (done || lia).
  change (2 ^ (32 - 30)) with 4. do 2 f_equal. pose proof (Z.div_mod a 4). lia.
Qed.

(** [nextSubnet] moves to the next aligned block of four addresses... *)
Lemma nextSubnet_v4 a :
  0 ≤ a → a + 4 < 2 ^ 32 → a mod 4 = 0 → nextSubnet (net4 a 30) = Ok (net4 (a + 4) 30).
Proof.
  intros H0 H4 Hm. unfold nextSubnet. cbn [net4 net_IP].
  rewrite !inc_eq. unfold reparse_IP. rewrite To16_ip4.
  rewrite !Network.inc_mapped by lia.
  replace (a + 1 + 1 + 1 + 1) with (a + 4) by lia.
  rewrite (reparse_CIDR_v4 _ (a + 4)) by (done || lia).
  change (2 ^ (32 - 30)) with 4. do 2 f_equal.
  pose proof (Z.div_mod (a + 4) 4). assert ((a + 4) mod 4 = 0) by (rewrite <-Z.add_mod_idemp_l, Hm by lia; done).
  lia.
Qed.

(** ... and leaves the IPv4 addresses after the last block. *)
Lemma nextSubnet_v4_last :
  nextSubnet (net4 (2 ^ 32 - 4) 30) = Ok (mkIPNet (replicate 16 0) (CIDRMask 30 16)).
Proof. reflexivity. Qed.

Section v4_pool.
Context (a n : Z) (Hn : 0 ≤ n ≤ 30) (Ha : 0 ≤ a < 2 ^ 32) (Hal : a mod 2 ^ (32 - n) = 0).

Let N := 2 ^ (30 - n).

Lemma pool_pow : 2 ^ (32 - n) = 4 * N.
Proof using Hn. unfold N. replace (32 - n) with (2 + (30 - n)) by lia. rewrite Z.pow_add_r; lia. Qed.

Lemma pool_pos : 0 < N.
Proof using Hn. apply Z.pow_pos_nonneg; lia. Qed.

Lemma pool_aligned : ∃ q, a = q * (4 * N) ∧ 0 ≤ q ∧ (q + 1) * (4 * N) ≤ 2 ^ 32.
Proof using Hn Ha Hal.
  exists (a / (4 * N)). rewrite pool_pow in Hal. pose proof pool_pos as HN.
  pose proof (Z.div_mod a (4 * N) ltac:(lia)) as Hd.
  pose proof (Z.div_pos a (4 * N) ltac:(lia) ltac:(lia)) as Hq.
  split; [lia|]. split; [done|].
  assert (H32 : 2 ^ 32 = 2 ^ n * (4 * N)) by (rewrite <-pool_pow, <-Z.pow_add_r by lia; f_equal; lia).
  assert (a / (4 * N) < 2 ^ n) by (apply Z.div_lt_upper_bound; lia). nia.
Qed.

Lemma pool_contains k :
  0 ≤ k ≤ N → a + 4 * k < 2 ^ 32 →
  Contains (net4 a n) (ip4 (a + 4 * k)) = bool_decide (k < N).
Proof using Hn Ha Hal.
  intros Hk Hb. pose proof pool_pos as HN. destruct pool_aligned as (q & Hq & Hq0 & Hq1).
  rewrite Contains_v4 by lia. rewrite pool_pow. apply bool_decide_ext.
  rewrite Hq at 1. rewrite Z.div_mul by lia.
  assert (Hd : (a + 4 * k) / (4 * N) = q + k / N).
  { rewrite Hq, Z.div_add_l by lia. f_equal. by rewrite Z.div_mul_cancel_l by lia. }
  rewrite Hd. split; intros H.
  - assert (k / N = 0) as H0 by lia. apply Z.div_small_iff in H0; lia.
  - rewrite Z.div_small by lia. lia.
Qed.

(** The loop of [New] lists the remaining blocks and stops. *)
Lemma subnets_v4 fuel k :
  0 ≤ k ≤ N → a + 4 * k < 2 ^ 32 → N - k < Z.of_nat fuel →
  subnets fuel (net4 a n) (net4 (a + 4 * k) 30) =
    Some (Ok (nth_subnet a <$> seqZ k (N - k))).
Proof using Hn Ha Hal.
  revert k. induction fuel as [|fuel IH]; intros k Hk Hb Hf; [lia|].
  cbn [subnets net4 net_IP]. rewrite pool_contains by done.
  destruct pool_aligned as (q & Hq & Hq0 & Hq1). pose proof pool_pos as HN.
  case_bool_decide as Hlt; [|rewrite seqZ_nil by lia; done].
  rewrite (seqZ_cons k) by lia. cbn [fmap list_fmap].
  assert (Hmod : (a + 4 * k) mod 4 = 0).
  { replace (a + 4 * k) with ((q * N + k) * 4) by lia. apply Z.mod_mul. lia. }
  destruct (decide (a + 4 * k + 4 < 2 ^ 32)) as [Hin|Hout].
  - fold (net4 (a + 4 * k) 30). rewrite nextSubnet_v4 by lia.
    replace (a + 4 * k + 4) with (a + 4 * Z.succ k) by lia. rewrite IH by lia.
    by replace (N - Z.succ k) with (Z.pred (N - k)) by lia.
  - assert (a + 4 * k = 2 ^ 32 - 4) as Heq.
    { replace (a + 4 * k) with ((q * N + k) * 4) in * by lia. lia. }
    fold (net4 (a + 4 * k) 30). rewrite Heq, nextSubnet_v4_last.
    rewrite seqZ_nil by nia. destruct fuel as [|fuel]; [lia|].
    cbn [subnets net_IP]. rewrite Contains_v4_v6 by done.
    unfold nth_subnet. by rewrite Heq.
Qed.

Lemma pool_New_v4 fuel :
  N < Z.of_nat fuel →
  New fuel (net4 a n) =
    Some (Ok (mkNetworkPool (net4 a n) (nth_subnet a <$> seqZ 0 N) (Z.to_nat N))).
Proof using Hn Ha Hal.
  intros Hf. pose proof pool_pos as HN. destruct pool_aligned as (q & Hq & Hq0 & Hq1).
  unfold New. cbn [net4 net_IP]. rewrite reparse_30.
  - pose proof (subnets_v4 fuel 0) as H. replace (a + 4 * 0) with a in H by lia.
    replace (N - 0) with N in H by lia. rewrite H by lia.
    by rewrite length_fmap, length_seqZ.
  - done.
  - rewrite Hq. replace (q * (4 * N)) with (q * N * 4) by lia. apply Z.mod_mul. lia.
Qed.
End v4_pool.

(** The text of a block determines it, so the pool has no duplicates. *)
Lemma nth_subnet_text_inj a j k :
  0 ≤ a + 4 * j < 2 ^ 32 → 0 ≤ a + 4 * k < 2 ^ 32 →
  String_ (nth_subnet a j) = String_ (nth_subnet a k) → j = k.
Proof. intros Hj Hk H. apply IPNet_String_30_inj in H; [lia|done..]. Qed.

Lemma New_v4_NoDup a n :
  0 ≤ n ≤ 30 → 0 ≤ a < 2 ^ 32 → a mod 2 ^ (32 - n) = 0 →
  NoDup (String_ <$> (nth_subnet a <$> seqZ 0 (2 ^ (30 - n)))).
Proof.
  intros Hn Ha Hal. destruct (pool_aligned a n Hn Ha Hal) as (q & Hq & Hq0 & Hq1).
  rewrite <-list_fmap_compose. apply NoDup_fmap_2_strong; [|apply NoDup_seqZ].
  intros j k Hj%elem_of_seqZ Hk%elem_of_seqZ. apply nth_subnet_text_inj; lia.
Qed.

#[export] Instance network_laws : ResourcePoolLaws RealNetworkPool Network string.
Proof.
  split; simpl.
  - intros p x y (b & Hb & Hx) (c & Hc & Hy) H. unfold String_, IP_ in *.
    rewrite Hx, Hy in *. apply IPNet_String_30_inj in H as ->; done.
  - intros p x l H. unfold Acquire. rewrite H. by eexists.
  - intros p H. unfold Acquire. rewrite H. by eexists.
  - intros p x _ (y & Hy & Hin)%list_elem_of_fmap. unfold Remove.
    destruct (list_find _ (pool p)) as [[i z]|] eqn:E.
    + apply list_find_Some in E as (Hi & Hz & _). exists z. eexists. split; [done|].
      split; [done|]. split; [|done]. by apply remove_at_perm.
    + apply list_find_None in E. rewrite Forall_forall in E. by destruct (E y).
  - intros p x H. unfold Remove.
    destruct (list_find _ (pool p)) as [[i y]|] eqn:E; [|by eexists].
    apply list_find_Some in E as (Hi & Hy & _). destruct H. apply list_elem_of_fmap.
    exists y. split; [done|]. by apply list_elem_of_lookup_2 in Hi.
  - intros p x H _. unfold Release. rewrite H. by eexists.
  - intros p x H. unfold Release. by rewrite H.
Qed.

(** A new IPv4 pool owns all its [/30] blocks. *)
Lemma network_ledger_New a n :
  0 ≤ n ≤ 30 → 0 ≤ a < 2 ^ 32 → a mod 2 ^ (32 - n) = 0 →
  let nets := nth_subnet a <$> seqZ 0 (2 ^ (30 - n)) in
  Ledger (String_ <$> nets) (mkNetworkPool (net4 a n) nets (Z.to_nat (2 ^ (30 - n)))) [].
Proof.
  intros Hn Ha Hal nets. destruct (pool_aligned a n Hn Ha Hal) as (q & Hq & Hq0 & Hq1).
  assert (Hk : ∀ x, x ∈ nets → ∃ k, x = nth_subnet a k ∧ 0 ≤ k < 2 ^ (30 - n)).
  { intros x (k & -> & Hk%elem_of_seqZ)%list_elem_of_fmap. exists k. split; [done|lia]. }
  split; rewrite ?app_nil_r.
  - by apply New_v4_NoDup.
  - done.
  - apply Forall_forall. intros x (k & -> & Hk')%Hk. exists (a + 4 * k). split; [lia|done].
  - apply Forall_forall. intros x (k & -> & Hk')%Hk.
    change (Contains (net4 a n) (ip4 (a + 4 * k)) = true).
    rewrite pool_contains by (done || lia). apply bool_decide_true. lia.
Qed.

(** ** IPv6 pools *)

Lemma zip_land_swap (l m k : list Z) :
  length l = length m → length m = length k →
  zip_with Z.land (zip_with Z.land l k) m = zip_with Z.land (zip_with Z.land l m) k.
Proof.
  revert m k. induction l as [|x l IH]; intros [|y m] [|z k] H1 H2; try done. cbn in *.
  rewrite <-!Z.land_assoc, (Z.land_comm z). f_equal. apply IH; lia.
Qed.

(** The first [/30] of a 16-byte address: twelve bytes are zero. *)
Lemma v6_start ip :
  length ip = 16%nat →
  ∃ h, length h = 4%nat ∧ zip_with Z.land ip (CIDRMask 30 16) = h ++ replicate 12 0 ∧
    zip_with Z.land h [255; 255; 255; 252] = h.
Proof.
  intros Hl. do 16 (destruct ip as [|? ip]; [done|]). destruct ip; [|done]. clear Hl.
  eexists [_; _; _; _]. split; [done|]. change (CIDRMask 30 16) with ([255; 255; 255; 252] ++ replicate 12 0).
  cbn [app replicate zip_with]. rewrite !Z.land_0_r. split; [reflexivity|]. by rewrite <-!Z.land_assoc.
Qed.

Lemma v6_head h x : length h = 4%nat → To4 (h ++ replicate 11 0 ++ [x]) = [].
Proof. intros Hh. do 4 (destruct h as [|? h]; [done|]). destruct h; [|done]. by apply To4_v6. Qed.

(** The next subnet is the same one, so the loop stays in it. *)
Lemma nextSubnet_v6 h m :
  length h = 4%nat → zip_with Z.land h [255; 255; 255; 252] = h →
  nextSubnet (mkIPNet (h ++ replicate 12 0) m) = Ok (mkIPNet (h ++ replicate 12 0) (CIDRMask 30 16)).
Proof.
  intros Hh Hd. unfold nextSubnet. cbn [net_IP].
  assert (E : inc (inc (inc (inc (reparse_IP (h ++ replicate 12 0))))) = h ++ replicate 11 0 ++ [4]).
  { do 4 (destruct h as [|? h]; [done|]). by destruct h. }
  rewrite E, reparse_CIDR_v6; [|by rewrite length_app, Hh|by apply v6_head|done].
  change (CIDRMask 30 16) with ([255; 255; 255; 252] ++ replicate 12 0).
  rewrite zip_with_app by by rewrite Hh. by rewrite Hd.
Qed.

Lemma subnets_v6_loop fuel ipNet h m :
  length h = 4%nat → zip_with Z.land h [255; 255; 255; 252] = h →
  Contains ipNet (h ++ replicate 12 0) = true → subnets fuel ipNet (mkIPNet (h ++ replicate 12 0) m) = None.
Proof.
  intros Hh Hd Hc. revert m. induction fuel as [|fuel IH]; intros m; [done|].
  cbn [subnets net_IP]. by rewrite Hc, nextSubnet_v6, IH.
Qed.

(** ** Properties *)

(** C23: for an IPv4 pool [a/n] with [n <= 30] the constructor terminates and the
    pool is exactly the [2^(30-n)] consecutive [/30] blocks of [a/n], each with its
    host address (base+1) and its container address (base+2). *)
Theorem New_enumerates fuel a n :
  0 ≤ n ≤ 30 → 0 ≤ a < 2 ^ 32 → a mod 2 ^ (32 - n) = 0 → 2 ^ (30 - n) < Z.of_nat fuel →
  ∃ p, New fuel (net4 a n) = Some (Ok p) ∧
    InitialSize p = Z.to_nat (2 ^ (30 - n)) ∧ Network_ p = net4 a n ∧
    pool p = (λ k, mkNetwork (net4 (a + 4 * k) 30) (mapped (a + 4 * k + 1)) (mapped (a + 4 * k + 2)))
               <$> seqZ 0 (2 ^ (30 - n)).
Proof.
  intros Hn Ha Hal Hf. eexists. split; [by apply pool_New_v4|]. split_and!; [done..|].
  destruct (pool_aligned a n Hn Ha Hal) as (q & Hq & Hq0 & Hq1). cbn.
  apply list_fmap_ext. intros i k Hk. apply list_elem_of_lookup_2, elem_of_seqZ in Hk.
  unfold nth_subnet. rewrite Network.New_v4 by lia. done.
Qed.

(** Each [/30] block of an IPv4 pool is at any time either free or held by
    exactly one client, whatever well-behaved clients do, and none is lost. *)
Theorem network_pool_partition fuel a n p0 p held :
  0 ≤ n ≤ 30 → 0 ≤ a < 2 ^ 32 → a mod 2 ^ (32 - n) = 0 → 2 ^ (30 - n) < Z.of_nat fuel →
  New fuel (net4 a n) = Some (Ok p0) →
  rtc client_step (p0, []) (p, held) →
  (String_ <$> pool p ++ held) ≡ₚ (String_ <$> pool p0) ∧ NoDup (String_ <$> pool p ++ held).
Proof.
  intros Hn Ha Hal Hf Hp0 Hst. rewrite pool_New_v4 in Hp0 by done. injection Hp0 as <-.
  apply (ledger_reachable _ _ _ _ (network_ledger_New a n Hn Ha Hal)) in Hst as HL.
  split; [apply (ledger_perm _ _ _ HL)|apply (ledger_keys_nodup _ _ _ HL)].
Qed.

(** C40: no IPv6 pool can be used. [nextSubnet] adds four to the address and masks it to [/30],
    which for a 128-bit address gives the same subnet again: the constructor never returns
    when the bits of the pool's address after the 30th are zero (as in any pool of 30 bits or
    fewer). For every other pool the [/30] that its address is in starts outside of it: the
    constructor returns a pool without networks. *)
Theorem New_v6_unusable ip m :
  length ip = 16%nat → To4 ip = [] → length m = 16%nat → zip_with Z.land ip m = ip →
  (zip_with Z.land ip (CIDRMask 30 16) = ip → ∀ fuel, New fuel (mkIPNet ip m) = None) ∧
  (zip_with Z.land ip (CIDRMask 30 16) ≠ ip →
   ∀ fuel, (0 < fuel)%nat → New fuel (mkIPNet ip m) = Some (Ok (mkNetworkPool (mkIPNet ip m) [] 0))).
Proof.
  intros Hl H4 Hm Hnum. destruct (v6_start ip Hl) as (h & Hh & Hs & Hd). unfold New. cbn [net_IP].
  rewrite reparse_CIDR_v6 by done. rewrite Hs. split.
  - intros <- fuel. rewrite subnets_v6_loop; [done|done..|]. apply Contains_base_v6; [|by apply v6_head|done].
    by rewrite length_app, Hh.
  - intros Hne fuel Hf. destruct fuel as [|fuel]; [lia|]. cbn [subnets net_IP].
    rewrite Contains_v6 by (done || by apply v6_head || by rewrite length_app, Hh).
    rewrite bool_decide_false; [done|]. rewrite Hnum. intros E. apply Hne. rewrite E.
    rewrite <-Hs, zip_land_swap, Hnum by (by rewrite ?length_CIDRMask; congruence). done.
Qed.

(** ** Witnesses *)

(** The pool [10.254.0.0/22] of the default flags. *)
Definition default_base : Z := 10 * 2 ^ 24 + 254 * 2 ^ 16.

Lemma New_enumerates_witness :
  ∃ p, New 300 (net4 default_base 22) = Some (Ok p) ∧ InitialSize p = 256%nat ∧
    Network_ p = net4 default_base 22 ∧
    pool p = (λ k, mkNetwork (net4 (default_base + 4 * k) 30) (mapped (default_base + 4 * k + 1))
                     (mapped (default_base + 4 * k + 2))) <$> seqZ 0 256.
Proof.
  apply (New_enumerates 300 default_base 22);
    [lia|unfold default_base; lia|reflexivity|reflexivity].
Defined.

Lemma network_pool_partition_witness :
  ∃ p0, New 2 (net4 default_base 30) = Some (Ok p0) ∧
    (String_ <$> pool p0 ++ []) ≡ₚ (String_ <$> pool p0).
Proof.
  eexists. split; [reflexivity|].
  eapply (network_pool_partition 2 default_base 30);
    [lia|unfold default_base; lia|reflexivity|reflexivity|reflexivity|apply rtc_refl].
Defined.

Lemma New_v6_unusable_witness :
  New 1000 (mkIPNet ([32; 1; 13; 184] ++ replicate 12 0) (CIDRMask 64 16)) = None ∧
  New 1 (mkIPNet ([32; 1; 13; 184; 0; 0; 0; 1] ++ replicate 8 0) (CIDRMask 64 16)) =
    Some (Ok (mkNetworkPool (mkIPNet ([32; 1; 13; 184; 0; 0; 0; 1] ++ replicate 8 0) (CIDRMask 64 16)) [] 0)).
Proof.
  split.
  - by apply (New_v6_unusable ([32; 1; 13; 184] ++ replicate 12 0)).
  - apply (New_v6_unusable ([32; 1; 13; 184; 0; 0; 0; 1] ++ replicate 8 0)); [reflexivity..|discriminate|lia].
Defined.
