(* ===== verification/Warden.v ===== *)
(** The data of the garden API the backend implements (package
    garden/warden): limits, statistics, specifications. A Go pointer that may be
    nil is an [option]; unsigned integers are [Z] in their width's range. *)
From S2P Require Import Prelude.

Local Open Scope string_scope.
Local Open Scope Z_scope.

Abbreviation Properties := (gmap string string).

Record BandwidthLimits := mkBandwidthLimits {
  RateInBytesPerSecond : Z;
  BurstRateInBytesPerSecond : Z
}.

Record DiskLimits := mkDiskLimits {
  BlockSoft : Z;
  BlockHard : Z;
  InodeSoft : Z;
  InodeHard : Z;
  ByteSoft : Z;
  ByteHard : Z
}.

Record MemoryLimits := mkMemoryLimits { LimitInBytes : Z }.

Record CPULimits := mkCPULimits { LimitInShares : Z }.

Record ContainerBandwidthStat := mkBandwidthStat {
  InRate : Z;
  InBurst : Z;
  OutRate : Z;
  OutBurst : Z
}.

Record ContainerDiskStat := mkDiskStat { BytesUsed : Z; InodesUsed : Z }.

Record ContainerCPUStat := mkCPUStat { Usage : Z; User : Z; System : Z }.

Record PortMapping := mkPortMapping { HostPort : Z; ContainerPort : Z }.

Record ContainerMemoryStat := mkMemoryStat {
  ms_Cache : Z;
  ms_Rss : Z;
  ms_MappedFile : Z;
  ms_Pgpgin : Z;
  ms_Pgpgout : Z;
  ms_Swap : Z;
  ms_Pgfault : Z;
  ms_Pgmajfault : Z;
  ms_InactiveAnon : Z;
  ms_ActiveAnon : Z;
  ms_InactiveFile : Z;
  ms_ActiveFile : Z;
  ms_Unevictable : Z;
  ms_HierarchicalMemoryLimit : Z;
  ms_HierarchicalMemswLimit : Z;
  ms_TotalCache : Z;
  ms_TotalRss : Z;
  ms_TotalMappedFile : Z;
  ms_TotalPgpgin : Z;
  ms_TotalPgpgout : Z;
  ms_TotalSwap : Z;
  ms_TotalPgfault : Z;
  ms_TotalPgmajfault : Z;
  ms_TotalInactiveAnon : Z;
  ms_TotalActiveAnon : Z;
  ms_TotalInactiveFile : Z;
  ms_TotalActiveFile : Z;
  ms_TotalUnevictable : Z
}.

Record ContainerInfo := mkContainerInfo {
  info_State : string;
  info_Events : list string;
  info_HostIP : string;
  info_ContainerIP : string;
  info_ContainerPath : string;
  info_ProcessIDs : list Z;
  info_MemoryStat : ContainerMemoryStat;
  info_CPUStat : ContainerCPUStat;
  info_DiskStat : ContainerDiskStat;
  info_BandwidthStat : ContainerBandwidthStat;
  info_Properties : Properties;
  info_MappedPorts : list PortMapping
}.

(** [BindMountMode] and [BindMountOrigin] are [uint8] constants 0 and 1. *)
Inductive BindMountMode := BindMountModeRO | BindMountModeRW.
Inductive BindMountOrigin := BindMountOriginHost | BindMountOriginContainer.

Record BindMount := mkBindMount {
  SrcPath : string;
  DstPath : string;
  Mode : BindMountMode;
  Origin : BindMountOrigin
}.

(** [GraceTime] is a [time.Duration] in nanoseconds. *)
Record ContainerSpec := mkContainerSpec {
  spec_Handle : string;
  spec_GraceTime : Z;
  RootFSPath : string;
  BindMounts : list BindMount;
  spec_Network : string;
  spec_Properties : Properties
}.

Record Capacity := mkCapacity {
  MemoryInBytes : Z;
  DiskInBytes : Z;
  MaxContainers : Z
}.

Record WindowSize := mkWindowSize { Columns : Z; Rows : Z }.

Record TTYSpec := mkTTYSpec { tty_WindowSize : option WindowSize }.

Record ResourceLimits := mkResourceLimits {
  As : option Z;
  Core : option Z;
  Cpu : option Z;
  Data : option Z;
  Fsize : option Z;
  Locks : option Z;
  Memlock : option Z;
  Msgqueue : option Z;
  Nice : option Z;
  Nofile : option Z;
  Nproc : option Z;
  Rss : option Z;
  Rtprio : option Z;
  Sigpending : option Z;
  Stack : option Z
}.

Definition no_rlimits : ResourceLimits :=
  mkResourceLimits None None None None None None None None None None None None None None None.

Record ProcessSpec := mkProcessSpec {
  proc_Path : string;
  proc_Args : list string;
  proc_Env : list string;
  proc_Dir : string;
  Privileged : bool;
  proc_Limits : ResourceLimits;
  TTY : option TTYSpec
}.

#[export] Instance BandwidthLimits_eq_dec : EqDecision BandwidthLimits.
Proof. solve_decision. Defined.
#[export] Instance DiskLimits_eq_dec : EqDecision DiskLimits.
Proof. solve_decision. Defined.
#[export] Instance MemoryLimits_eq_dec : EqDecision MemoryLimits.
Proof. solve_decision. Defined.
#[export] Instance CPULimits_eq_dec : EqDecision CPULimits.
Proof. solve_decision. Defined.
