(* ===== verification/MemoryStat.v ===== *)
(** The parsers of linux_backend/linux_container.go for the statistics files of
    a container's cgroups: [parseMemoryStat] and [parseCPUStat]. *)
From S2P Require Import Prelude GoStd Warden.
From Stdlib Require Import Ascii.

Local Open Scope string_scope.
Local Open Scope list_scope.
Local Open Scope Z_scope.

(** * Definitions *)

(** The cases of the switch, in the order of the struct's fields. *)
Definition memory_fields : list string :=
  ["cache"; "rss"; "mapped_file"; "pgpgin"; "pgpgout"; "swap"; "pgfault"; "pgmajfault";
   "inactive_anon"; "active_anon"; "inactive_file"; "active_file"; "unevictable";
   "hierarchical_memory_limit"; "hierarchical_memsw_limit"; "total_cache"; "total_rss";
   "total_mapped_file"; "total_pgpgin"; "total_pgpgout"; "total_swap"; "total_pgfault";
   "total_pgmajfault"; "total_inactive_anon"; "total_active_anon"; "total_inactive_file";
   "total_active_file"; "total_unevictable"].

(** The struct and the list of its fields. *)
Definition stat_list (s : ContainerMemoryStat) : list Z :=
  [ms_Cache s; ms_Rss s; ms_MappedFile s; ms_Pgpgin s; ms_Pgpgout s; ms_Swap s; ms_Pgfault s;
   ms_Pgmajfault s; ms_InactiveAnon s; ms_ActiveAnon s; ms_InactiveFile s; ms_ActiveFile s;
   ms_Unevictable s; ms_HierarchicalMemoryLimit s; ms_HierarchicalMemswLimit s; ms_TotalCache s;
   ms_TotalRss s; ms_TotalMappedFile s; ms_TotalPgpgin s; ms_TotalPgpgout s; ms_TotalSwap s;
   ms_TotalPgfault s; ms_TotalPgmajfault s; ms_TotalInactiveAnon s; ms_TotalActiveAnon s;
   ms_TotalInactiveFile s; ms_TotalActiveFile s; ms_TotalUnevictable s].

Definition list_stat (l : list Z) : ContainerMemoryStat :=
  let f i := default 0 (l !! i) in
  mkMemoryStat (f 0%nat) (f 1%nat) (f 2%nat) (f 3%nat) (f 4%nat) (f 5%nat) (f 6%nat) (f 7%nat)
    (f 8%nat) (f 9%nat) (f 10%nat) (f 11%nat) (f 12%nat) (f 13%nat) (f 14%nat) (f 15%nat)
    (f 16%nat) (f 17%nat) (f 18%nat) (f 19%nat) (f 20%nat) (f 21%nat) (f 22%nat) (f 23%nat)
    (f 24%nat) (f 25%nat) (f 26%nat) (f 27%nat).

(** The switch: an unknown field changes nothing. *)
Definition set_field (names : list string) (field : string) (v : Z) (l : list Z) : list Z :=
  match list_find (λ n, n = field) names with
  | Some (i, _) => <[i := v]> l
  | None => l
  end.

(** The scanner's loop: words in pairs; a value that is no number is skipped
    together with its field. *)
Fixpoint scan_pairs {S} (f : string → Z → S → S) (words : list string) (s : S) : S :=
  match words with
  | field :: value :: words' =>
      scan_pairs f words' (match ParseUint value with Ok v => f field v s | _ => s end)
  | _ => s
  end.

Definition parseMemoryStat (contents : string) : ContainerMemoryStat :=
  list_stat (scan_pairs (set_field memory_fields) (ScanWords contents) (replicate 28 0)).

Definition set_cpu_field (field : string) (v : Z) (s : ContainerCPUStat) : ContainerCPUStat :=
  if String.eqb field "user" then mkCPUStat (Usage s) v (System s)
  else if String.eqb field "system" then mkCPUStat (Usage s) (User s) v
  else s.

Definition parseCPUStat (usage statContents : string) : ContainerCPUStat :=
  match ParseUint (Trim usage newline) with
  | Ok cpuUsage => scan_pairs set_cpu_field (ScanWords statContents) (mkCPUStat cpuUsage 0 0)
  | _ => mkCPUStat 0 0 0
  end.

(** What the kernel prints: a field and its value on each line. *)
Definition stat_text (lines : list (string * Z)) : string :=
  foldr (λ l t, l.1 +:+ " " +:+ fmt_d l.2 +:+ nl +:+ t) "" lines.

(** A word: not empty, no white space. *)
Definition is_word (s : string) : bool :=
  negb (String.eqb s "") && all_chars (λ c, negb (is_space c)) s.

Definition line_ok (l : string * Z) : Prop := is_word l.1 = true ∧ is_u64 l.2.

(** * Lemmas *)

Lemma words_loop_word w cur c t :
  all_chars (λ c, negb (is_space c)) w = true → is_space c = true → cur +:+ w ≠ "" →
  words_loop (w +:+ String c t) cur = (cur +:+ w) :: words_loop t "".
Proof.
  revert cur. induction w as [|c' w IH]; intros cur Hw Hc Hne; simpl in *.
  - rewrite Hc. rewrite string_app_nil in *. by destruct (String.eqb_spec cur "").
  - apply andb_true_iff in Hw as [Hc' Hw]. apply negb_true_iff in Hc'. rewrite Hc'.
    rewrite IH; [|done..|].
    + by rewrite string_app_assoc.
    + rewrite string_app_assoc. by destruct cur.
Qed.

Lemma digits_no_space s : all_chars is_digit s = true → all_chars (λ c, negb (is_space c)) s = true.
Proof.
  apply all_chars_impl. intros c H. unfold is_space. cbn.
  repeat match goal with
    |- context [Ascii.eqb c ?d] => destruct (Ascii.eqb_spec c d) as [->|]; [done|]
  end. done.
Qed.

Lemma ScanWords_stat_text lines :
  Forall line_ok lines →
  ScanWords (stat_text lines) = flat_map (λ l, [l.1; fmt_d l.2]) lines.
Proof.
  unfold ScanWords. induction 1 as [|[n v] lines [Hn Hv] _ IH]; [done|].
  apply andb_true_iff in Hn as [Hne Hn]. apply negb_true_iff in Hne.
  unfold is_u64 in Hv. cbn [stat_text foldr flat_map app fst snd] in *.
  change (" " +:+ fmt_d v +:+ nl +:+ foldr (λ l t, l.1 +:+ " " +:+ fmt_d l.2 +:+ nl +:+ t) "" lines)
    with (String " " (fmt_d v +:+ String newline (stat_text lines))).
  rewrite words_loop_word; [|done|done|by destruct n].
  rewrite words_loop_word; [|apply digits_no_space, fmt_d_digits; lia|done|].
  - f_equal. f_equal. exact IH.
  - rewrite fmt_d_nonneg by lia. by apply dec_digits_nonempty.
Qed.

Lemma scan_pairs_lines {S} (f : string → Z → S → S) lines s :
  Forall line_ok lines →
  scan_pairs f (flat_map (λ l, [l.1; fmt_d l.2]) lines) s = foldl (λ s l, f l.1 l.2 s) s lines.
Proof.
  intros H. revert s. induction H as [|[n v] lines [_ Hv] _ IH]; intros s; [done|].
  cbn [flat_map app scan_pairs foldl fst snd] in *. by rewrite ParseUint_fmt_d.
Qed.

Lemma set_field_lookup names n v l i name :
  NoDup names → length l = length names → names !! i = Some name →
  set_field names n v l !! i = if decide (n = name) then Some v else l !! i.
Proof.
  intros Hnd Hl Hi. unfold set_field.
  destruct (list_find (λ m, m = n) names) as [[j m]|] eqn:E.
  - apply list_find_Some in E as (Hj & -> & _). destruct (decide (n = name)) as [->|Hne].
    + assert (j = i) as -> by (by eapply NoDup_lookup).
      apply list_lookup_insert_eq. apply lookup_lt_Some in Hi. lia.
    + apply list_lookup_insert_ne. congruence.
  - destruct (decide (n = name)) as [->|]; [|done].
    apply list_find_None in E. rewrite Forall_forall in E. exfalso.
    apply (E name); [by eapply list_elem_of_lookup_2|done].
Qed.

Lemma set_field_length names n v l : length (set_field names n v l) = length l.
Proof. unfold set_field. destruct (list_find _ _) as [[]|]; [apply length_insert|done]. Qed.

Lemma fold_fields_lookup names lines l i name :
  NoDup names → NoDup lines.*1 → length l = length names → names !! i = Some name →
  foldl (λ s p, set_field names p.1 p.2 s) l lines !! i =
    match (list_to_map lines : gmap string Z) !! name with Some v => Some v | None => l !! i end.
Proof.
  intros Hnd Hl. revert l. induction lines as [|[n v] lines IH]; intros l Hlen Hi; [done|].
  apply NoDup_cons in Hl as [Hn Hl]. cbn [foldl fst snd]. rewrite list_to_map_cons.
  rewrite IH; [|done|by rewrite set_field_length|done].
  rewrite (set_field_lookup _ _ _ _ _ _ Hnd Hlen Hi).
  destruct (decide (n = name)) as [->|Hne].
  - rewrite lookup_insert_eq. by rewrite not_elem_of_list_to_map_1.
  - by rewrite lookup_insert_ne.
Qed.

Lemma memory_fields_nodup : NoDup memory_fields.
Proof. apply (bool_decide_eq_true_1 _). vm_compute. reflexivity. Qed.

Lemma stat_list_list_stat l : length l = 28%nat → stat_list (list_stat l) = l.
Proof.
  intros H. do 28 (destruct l as [|? l]; [done|]). by destruct l.
Qed.

Lemma fold_fields_length names lines l :
  length (foldl (λ s p, set_field names p.1 p.2 s) l lines) = length l.
Proof.
  revert l. induction lines as [|p lines IH]; intros l; [done|]. cbn. by rewrite IH, set_field_length.
Qed.

(** ** Properties *)

(** The memory statistics are what the kernel's file says: whatever lines
    [memory.stat] has, in any order and with any unknown fields between them, each
    field of the struct holds the value of the line that has its name, or zero when
    no line has. *)
Theorem memory_stat_reads lines i name :
  Forall line_ok lines → NoDup lines.*1 → memory_fields !! i = Some name →
  stat_list (parseMemoryStat (stat_text lines)) !! i =
    Some (default 0 ((list_to_map lines : gmap string Z) !! name)).
Proof.
  intros Hok Hnd Hi. unfold parseMemoryStat.
  rewrite ScanWords_stat_text, scan_pairs_lines by done.
  rewrite stat_list_list_stat by (by rewrite fold_fields_length).
  rewrite (fold_fields_lookup memory_fields lines (replicate 28 0) i name
             memory_fields_nodup Hnd (eq_refl 28%nat) Hi).
  destruct (list_to_map lines !! name); [done|]. apply lookup_lt_Some in Hi.
  by rewrite lookup_replicate_2.
Qed.

(** ** Witnesses *)

Lemma memory_stat_reads_witness :
  stat_list (parseMemoryStat (stat_text [("rss", 4096); ("novel", 7); ("cache", 12)])) !! 0%nat =
    Some 12.
Proof.
  rewrite (memory_stat_reads [("rss", 4096); ("novel", 7); ("cache", 12)] 0 "cache").
  - reflexivity.
  - repeat constructor; discriminate.
  - apply (bool_decide_eq_true_1 _). reflexivity.
  - reflexivity.
Defined.
