(* ===== verification/Snapshot.v ===== *)
(** linux_backend/resources.go and linux_backend/snapshot.go: what a container
    owns and what is saved of it. *)
From S2P Require Import Prelude GoStd Net Network Warden.

Local Open Scope list_scope.
Local Open Scope Z_scope.

(** The network pointer is nil when a snapshot has none. *)
Record Resources := mkResources {
  UID : Z;
  res_Network : option Network;
  Ports : list Z
}.

Definition NewResources (uid : Z) (network : option Network) (ports : list Z) : Resources :=
  mkResources uid network ports.

Definition AddPort (port : Z) (r : Resources) : Resources :=
  mkResources (UID r) (res_Network r) (Ports r ++ [port]).

Record NetInSpec := mkNetIn { in_HostPort : Z; in_ContainerPort : Z }.
Record NetOutSpec := mkNetOut { out_Network : string; out_Port : Z }.

Record LimitsSnapshot := mkLimitsSnapshot {
  lim_Memory : option MemoryLimits;
  lim_Disk : option DiskLimits;
  lim_Bandwidth : option BandwidthLimits;
  lim_CPU : option CPULimits
}.

(** The same fields as [Resources]. *)
Definition ResourcesSnapshot : Type := Resources.

Record ProcessSnapshot := mkProcessSnapshot { ps_ID : Z; ps_TTY : bool }.

(** [State] is a string: a snapshot may hold any. *)
Record ContainerSnapshot := mkContainerSnapshot {
  snap_ID : string;
  snap_Handle : string;
  snap_GraceTime : Z;
  snap_State : string;
  snap_Events : list string;
  snap_Limits : LimitsSnapshot;
  snap_Resources : ResourcesSnapshot;
  snap_Processes : list ProcessSnapshot;
  snap_NetIns : list NetInSpec;
  snap_NetOuts : list NetOutSpec;
  snap_Properties : Properties
}.

#[export] Instance NetInSpec_eq_dec : EqDecision NetInSpec.
Proof. solve_decision. Defined.
#[export] Instance NetOutSpec_eq_dec : EqDecision NetOutSpec.
Proof. solve_decision. Defined.
#[export] Instance LimitsSnapshot_eq_dec : EqDecision LimitsSnapshot.
Proof. solve_decision. Defined.
#[export] Instance Resources_eq_dec : EqDecision Resources.
Proof. solve_decision. Defined.
#[export] Instance ResourcesSnapshot_eq_dec : EqDecision ResourcesSnapshot := Resources_eq_dec.
#[export] Instance ProcessSnapshot_eq_dec : EqDecision ProcessSnapshot.
Proof. solve_decision. Defined.
#[export] Instance ContainerSnapshot_eq_dec : EqDecision ContainerSnapshot.
Proof. solve_decision. Defined.
