(* ===== verification/Url.v ===== *)
(** Go's [net/url] package as the program uses it: [url.Parse], and of the result
    the scheme, the path, the fragment and the query. *)
From S2P Require Import Prelude GoStd.
From Stdlib Require Import Ascii.

Local Open Scope string_scope.
Local Open Scope list_scope.
Local Open Scope Z_scope.

(** * Definitions *)

Record URL := mkURL { Scheme : string; url_Path : string; Fragment : string; RawQuery : string }.

#[export] Instance URL_eq_dec : EqDecision URL.
Proof. solve_decision. Defined.

(** The text before and after the first [c]; [None] when there is none. *)
Fixpoint cut (c : ascii) (s : string) : option (string * string) :=
  match s with
  | EmptyString => None
  | String c' s' =>
      if Ascii.eqb c' c then Some ("", s')
      else match cut c s' with
           | Some (a, b) => Some (String c' a, b)
           | None => None
           end
  end.

(** [split(s, c, true)] and [split(s, c, false)] *)
Definition split_cut (c : ascii) (s : string) : string * string :=
  default (s, "") (cut c s).
Definition split_keep (c : ascii) (s : string) : string * string :=
  match cut c s with Some (a, b) => (a, String c b) | None => (s, "") end.

Definition HasPrefix (s p : string) : bool := String.prefix p s.

Definition between (lo hi c : ascii) : bool := (lo <=? c)%char && (c <=? hi)%char.
Definition is_alpha (c : ascii) : bool := between "a" "z" c || between "A" "Z" c.

Definition to_lower (c : ascii) : ascii :=
  if between "A" "Z" c then ascii_of_nat (nat_of_ascii c + 32) else c.
Fixpoint ToLower (s : string) : string :=
  match s with
  | EmptyString => ""
  | String c s' => String (to_lower c) (ToLower s')
  end.

(** The value of a hexadecimal digit *)
Definition unhex (c : ascii) : option nat :=
  let n := nat_of_ascii c in
  if between "0" "9" c then Some (n - 48)%nat
  else if between "a" "f" c then Some (n - 87)%nat
  else if between "A" "F" c then Some (n - 55)%nat
  else None.

Definition EscapeError (s : string) : error :=
  mkError "url.EscapeError" ("invalid URL escape " +:+ dquote +:+ String.substring 0 3 s +:+ dquote).

(** [unescape], in the modes that leave [+] alone *)
Fixpoint unescape (s : string) : Result string :=
  match s with
  | EmptyString => Ok ""
  | String "%" s' =>
      match s' with
      | String a (String b s'') =>
          match unhex a, unhex b with
          | Some x, Some y => t ← unescape s''; Ok (String (ascii_of_nat (16 * x + y)) t)
          | _, _ => Err (EscapeError s)
          end
      | _ => Err (EscapeError s)
      end
  | String c s' => t ← unescape s'; Ok (String c t)
  end.

(** [getscheme]; [seen] is the text before the position, last character first. *)
Fixpoint getscheme_loop (raw rest : string) (seen : string) : Result (string * string) :=
  match rest with
  | EmptyString => Ok ("", raw)
  | String c rest' =>
      if is_alpha c then getscheme_loop raw rest' (seen +:+ String c "")
      else if between "0" "9" c || existsb (Ascii.eqb c) ["+"; "-"; "."]%char then
        if String.eqb seen "" then Ok ("", raw)
        else getscheme_loop raw rest' (seen +:+ String c "")
      else if Ascii.eqb c ":" then
        if String.eqb seen "" then Err (mkError "*errors.errorString" "missing protocol scheme")
        else Ok (seen, rest')
      else Ok ("", raw)
  end.
Definition getscheme (raw : string) : Result (string * string) := getscheme_loop raw raw "".

(** The text before and after the last [c] *)
Fixpoint cut_last (c : ascii) (s : string) : option (string * string) :=
  match s with
  | EmptyString => None
  | String c' s' =>
      match cut_last c s' with
      | Some (a, b) => Some (String c' a, b)
      | None => if Ascii.eqb c' c then Some ("", s') else None
      end
  end.

Fixpoint contains_char (c : ascii) (s : string) : bool :=
  match s with EmptyString => false | String c' s' => Ascii.eqb c' c || contains_char c s' end.

(** [parseAuthority] and the check of the host: what is kept is that they succeed. *)
Definition parseAuthority (authority : string) : Result unit :=
  let check_host host :=
    if contains_char "%" host
    then Err (mkError "*errors.errorString" "hexadecimal escape in host") else Ok tt in
  match cut_last "@" authority with
  | None => check_host authority
  | Some (userinfo, host) =>
      let '(username, password) := split_cut ":" userinfo in
      _ ← unescape username; _ ← unescape password; check_host host
  end.

Definition parse (raw : string) : Result URL :=
  if String.eqb raw "*" then Ok (mkURL "" "*" "" "")
  else
    '(scheme, rest0) ← getscheme raw;
    let scheme := ToLower scheme in
    let '(rest, query) := split_cut "?" rest0 in
    if negb (HasPrefix rest "/") && negb (String.eqb scheme "") then Ok (mkURL scheme "" "" query)
    else if (negb (String.eqb scheme "") || negb (HasPrefix rest "///")) && HasPrefix rest "//" then
      let '(authority, path) := split_keep "/" (String.substring 2 (String.length rest) rest) in
      _ ← parseAuthority authority;
      p ← unescape path; Ok (mkURL scheme p "" query)
    else p ← unescape rest; Ok (mkURL scheme p "" query).

Definition url_Error (raw : string) (e : error) : error :=
  mkError "*url.Error" ("parse " +:+ raw +:+ ": " +:+ err_msg e).

Definition Parse (raw : string) : Result URL :=
  let '(u, frag) := split_cut "#" raw in
  match parse u with
  | Err e => Err (url_Error u e)
  | Crash f => Crash f
  | Ok url =>
      if String.eqb frag "" then Ok url
      else match unescape frag with
           | Ok f => Ok (mkURL (Scheme url) (url_Path url) f (RawQuery url))
           | Err e => Err (url_Error raw e)
           | Crash f => Crash f
           end
  end.

(** * Examples *)

Example Parse_docker : Parse "docker:///some-repo#some-tag" = Ok (mkURL "docker" "/some-repo" "some-tag" "").
Proof. reflexivity. Qed.
Example Parse_path : Parse "/path/to/rootfs" = Ok (mkURL "" "/path/to/rootfs" "" "").
Proof. reflexivity. Qed.
Example Parse_empty : Parse "" = Ok (mkURL "" "" "" "").
Proof. reflexivity. Qed.
Example Parse_bad : Parse "::" = Err (mkError "*url.Error" "parse ::: missing protocol scheme").
Proof. reflexivity. Qed.
Example Parse_opaque : Parse "Docker:some-repo" = Ok (mkURL "docker" "" "" "").
Proof. reflexivity. Qed.

(** * Lemmas *)

Lemma cut_app c s t : free_of c s → cut c (s +:+ String c t) = Some (s, t).
Proof.
  unfold free_of. induction s as [|c' s IH]; cbn [all_chars].
  - intros _. change ("" +:+ String c t) with (String c t). cbn. by rewrite Ascii.eqb_refl.
  - intros [Hc Hs]%andb_true_iff. apply negb_true_iff in Hc.
    change (String c' s +:+ String c t) with (String c' (s +:+ String c t)). cbn [cut]. by rewrite Hc, IH.
Qed.

Lemma cut_free c s : free_of c s → cut c s = None.
Proof.
  unfold free_of. induction s as [|c' s IH]; [done|]. cbn. intros [Hc Hs]%andb_true_iff. apply negb_true_iff in Hc.
  by rewrite Hc, IH.
Qed.

Lemma cut_Some c s a b : cut c s = Some (a, b) → free_of c a ∧ s = a +:+ String c b.
Proof.
  unfold free_of. revert a. induction s as [|c' s IH]; intros a; [done|]. cbn. destruct (Ascii.eqb_spec c' c) as [->|Hne].
  - intros [= <- <-]. done.
  - destruct (cut c s) as [[a' b']|]; [|done]. intros [= <- <-]. destruct (IH a' eq_refl) as [Hf ->]. cbn.
    by rewrite (proj2 (Ascii.eqb_neq _ _) Hne).
Qed.

Lemma cut_None c s : cut c s = None → free_of c s.
Proof.
  unfold free_of. induction s as [|c' s IH]; [done|]. cbn. destruct (Ascii.eqb_spec c' c) as [->|Hne]; [done|].
  destruct (cut c s) as [[]|]; [done|]. intros _. by rewrite IH.
Qed.

Lemma unescape_returns s f : unescape s ≠ Crash f.
Proof.
  assert (H : ∀ n s, (String.length s < n)%nat → unescape s ≠ Crash f).
  { induction n as [|n IH]; intros t Ht; [lia|]. destruct t as [|c t]; [done|]. cbn in Ht.
    assert (Hrest : ∀ t' g, (String.length t' < n)%nat →
      (t ← unescape t'; Ok (String g t)) ≠ Crash f).
    { intros t' g Hl Hc. apply (IH t' Hl). unfold mbind, Result_bind in Hc.
      destruct (unescape t'); congruence. }
    destruct (Ascii.eqb_spec c "%") as [->|Hne].
    - cbn [unescape]. destruct t as [|a [|b t]]; [done..|]. destruct (unhex a), (unhex b); try done.
      apply Hrest. cbn in Ht. lia.
    - assert (E : unescape (String c t) = (t' ← unescape t; Ok (String c t'))).
      { destruct c as [[] [] [] [] [] [] [] []]; solve [done | by destruct Hne]. }
      rewrite E. apply Hrest. lia. }
  by apply (H (S (String.length s))), Nat.lt_succ_diag_r.
Qed.

Lemma getscheme_returns raw rest seen f : getscheme_loop raw rest seen ≠ Crash f.
Proof.
  revert seen. induction rest as [|c rest IH]; intros seen; [done|]. cbn [getscheme_loop].
  repeat case_match; try done; apply IH.
Qed.

Lemma parseAuthority_returns a f : parseAuthority a ≠ Crash f.
Proof.
  unfold parseAuthority. destruct (cut_last "@" a) as [[userinfo host]|]; [|by destruct (contains_char "%" a)].
  destruct (split_cut ":" userinfo) as [u w]. unfold mbind, Result_bind.
  pose proof (unescape_returns u f). pose proof (unescape_returns w f).
  destruct (unescape u); [|done|congruence]. destruct (unescape w); [|done|congruence].
  by destruct (contains_char "%" host).
Qed.

Lemma parse_returns raw f : parse raw ≠ Crash f.
Proof.
  unfold parse. destruct (String.eqb raw "*"); [done|]. unfold mbind, Result_bind.
  pose proof (getscheme_returns raw raw "" f) as Hg. unfold getscheme.
  destruct (getscheme_loop raw raw "") as [[scheme rest0]|e|f0]; [|done|congruence].
  destruct (split_cut "?" rest0) as [rest q].
  destruct (negb (HasPrefix rest "/") && negb (String.eqb (ToLower scheme) "")); [done|].
  destruct (_ && HasPrefix rest "//").
  - destruct (split_keep "/" _) as [authority path].
    pose proof (parseAuthority_returns authority f) as Ha.
    destruct (parseAuthority authority); [|done|congruence].
    pose proof (unescape_returns path f) as Hp. destruct (unescape path); [done|done|congruence].
  - pose proof (unescape_returns rest f) as Hp. destruct (unescape rest); [done|done|congruence].
Qed.

Lemma Parse_returns raw f : Parse raw ≠ Crash f.
Proof.
  unfold Parse. destruct (split_cut "#" raw) as [u frag].
  pose proof (parse_returns u f) as Hp. destruct (parse u); [|done|congruence].
  destruct (String.eqb frag ""); [done|].
  pose proof (unescape_returns frag f) as Hf. destruct (unescape frag); [done|done|congruence].
Qed.
