(* ===== verification/UrlQuery.v ===== *)
(** Go's [net/url] package, continued: escaping, and query strings. [url.Values] is a map
    from keys to the lists of their values. *)
From stdpp Require Import sorting.
From Stdlib Require Import Ascii.
From S2P Require Import Prelude GoStd Url.

Local Open Scope string_scope.
Local Open Scope list_scope.
Local Open Scope Z_scope.

(** * Escaping *)

Inductive encoding := encodePath | encodeQueryComponent | encodeFragment.

Definition shouldEscape (mode : encoding) (c : ascii) : bool :=
  if is_alpha c || between "0" "9" c || existsb (Ascii.eqb c) ["-"; "_"; "."; "~"]%char then false
  else if existsb (Ascii.eqb c) ["$"; "&"; "+"; ","; "/"; ":"; ";"; "="; "?"; "@"]%char then
    match mode with
    | encodePath => Ascii.eqb c "?"
    | encodeQueryComponent => true
    | encodeFragment => false
    end
  else true.

Definition upper_hex (d : nat) : ascii :=
  if (d <? 10)%nat then ascii_of_nat (48 + d) else ascii_of_nat (55 + d).

Definition escape_char (mode : encoding) (c : ascii) : string :=
  if Ascii.eqb c " " && (if mode is encodeQueryComponent then true else false) then "+"
  else if shouldEscape mode c then
    String "%" (String (upper_hex (nat_of_ascii c / 16)) (String (upper_hex (nat_of_ascii c mod 16)) ""))
  else String c "".

Fixpoint escape (mode : encoding) (s : string) : string :=
  match s with EmptyString => "" | String c s' => escape_char mode c +:+ escape mode s' end.

Definition QueryEscape : string → string := escape encodeQueryComponent.

(** [unescape] of a query component: a plus stands for a blank. *)
Fixpoint plus_to_blank (s : string) : string :=
  match s with
  | EmptyString => ""
  | String c s' => String (if Ascii.eqb c "+" then " "%char else c) (plus_to_blank s')
  end.
Definition QueryUnescape (s : string) : Result string := unescape (plus_to_blank s).

(** * URLs as text *)

(** [URL.String], of a URL without scheme and host *)
Definition URL_String (u : URL) : string :=
  escape encodePath (url_Path u) +:+
  (if String.eqb (RawQuery u) "" then "" else "?" +:+ RawQuery u) +:+
  (if String.eqb (Fragment u) "" then "" else "#" +:+ escape encodeFragment (Fragment u)).

(** [URL.RequestURI] *)
Definition RequestURI (u : URL) : string :=
  (if String.eqb (url_Path u) "" then "/" else escape encodePath (url_Path u)) +:+
  (if String.eqb (RawQuery u) "" then "" else "?" +:+ RawQuery u).

(** [url.ParseRequestURI], of what starts with a slash: the path and the query *)
Definition ParseRequestURI (uri : string) : Result URL :=
  if negb (HasPrefix uri "/") then Err (url_Error uri (errors_New "invalid URI for request"))
  else
    let '(rest, query) := split_cut "?" uri in
    p ← unescape rest; Ok (mkURL "" p "" query).

(** * Query strings *)

Abbreviation Values := (gmap string (list string)).

(** [Values.Add] *)
Definition Add (key value : string) (m : Values) : Values := <[key := default [] (m !! key) ++ [value]]> m.

(** [Values.Get] *)
Definition Get (key : string) (m : Values) : string := default "" (m !! key ≫= head).

Definition by_key (kv kv' : string * list string) : Prop := String.leb kv.1 kv'.1 = true.
#[local] Instance by_key_dec kv kv' : Decision (by_key kv kv').
Proof. unfold by_key. apply _. Defined.

Definition pairs_of (m : Values) : list (string * string) :=
  concat (map (λ kvs, map (pair kvs.1) kvs.2) (merge_sort by_key (map_to_list m))).

Definition encode_pair (kv : string * string) : string := QueryEscape kv.1 +:+ "=" +:+ QueryEscape kv.2.

(** [Values.Encode] *)
Definition Encode (m : Values) : string := Join (map encode_pair (pairs_of m)) "&".

(** The pieces of [s] between the characters that [p] selects *)
Fixpoint split_any (p : ascii → bool) (s : string) : list string :=
  match s with
  | EmptyString => [""]
  | String c s' =>
      if p c then "" :: split_any p s'
      else match split_any p s' with
           | piece :: l => String c piece :: l
           | [] => [String c ""]
           end
  end.

Definition is_separator (c : ascii) : bool := Ascii.eqb c "&" || Ascii.eqb c ";".

(** What does not unescape is left out; the error that goes with it is ignored by the
    callers. *)
Definition parse_pair (s : string) : option (string * string) :=
  if String.eqb s "" then None
  else
    let '(key, value) := split_cut "=" s in
    match QueryUnescape key, QueryUnescape value with
    | Ok k, Ok v => Some (k, v)
    | _, _ => None
    end.

Definition add_pairs (l : list (string * string)) (m : Values) : Values :=
  foldl (λ m kv, Add kv.1 kv.2 m) m l.

(** [URL.Query] *)
Definition ParseQuery (q : string) : Values := add_pairs (omap parse_pair (split_any is_separator q)) ∅.

Example ParseQuery_example :
  ParseQuery "%3Ahandle=a+b&source=%2Ftmp&&x;source=2" =
    {[":handle" := ["a b"]; "source" := ["/tmp"; "2"]; "x" := [""]]}.
Proof. vm_compute. reflexivity. Qed.

(** * Lemmas *)

Lemma unescape_escape_char mode c t :
  mode ≠ encodeQueryComponent → unescape (escape_char mode c +:+ t) = (t' ← unescape t; Ok (String c t')).
Proof. intros Hm. destruct mode; [|done|]; destruct c as [[] [] [] [] [] [] [] []]; reflexivity. Qed.

Lemma unescape_escape mode s : mode ≠ encodeQueryComponent → unescape (escape mode s) = Ok s.
Proof.
  intros Hm. induction s as [|c s IH]; [done|]. cbn [escape]. by rewrite unescape_escape_char, IH by done.
Qed.

Lemma plus_to_blank_app s t : plus_to_blank (s +:+ t) = plus_to_blank s +:+ plus_to_blank t.
Proof.
  induction s as [|c s IH]; [done|]. change (String c s +:+ t) with (String c (s +:+ t)). cbn [plus_to_blank].
  by rewrite IH.
Qed.

Lemma QueryUnescape_char c t :
  QueryUnescape (escape_char encodeQueryComponent c +:+ t) = (t' ← QueryUnescape t; Ok (String c t')).
Proof.
  unfold QueryUnescape. rewrite plus_to_blank_app. generalize (plus_to_blank t) as u. intros u.
  destruct c as [[] [] [] [] [] [] [] []]; reflexivity.
Qed.

Lemma QueryUnescape_escape s : QueryUnescape (QueryEscape s) = Ok s.
Proof. induction s as [|c s IH]; [done|]. unfold QueryEscape in *. cbn [escape]. by rewrite QueryUnescape_char, IH. Qed.

(** No character that means something in a query is left by escaping. *)
Lemma escape_free c s : existsb (Ascii.eqb c) ["&"; ";"; "="; "?"; "#"]%char = true → free_of c (QueryEscape s).
Proof.
  intros Hc. unfold free_of, QueryEscape. induction s as [|c' s IH]; [done|]. cbn [escape]. rewrite all_chars_app, IH, andb_true_r.
  cbn in Hc. assert (H : c = "&"%char ∨ c = ";"%char ∨ c = "="%char ∨ c = "?"%char ∨ c = "#"%char).
  { repeat (apply orb_true_iff in Hc as [?%Ascii.eqb_eq|Hc]; [tauto|]). done. }
  destruct H as [-> | [-> | [-> | [-> | ->]]]]; destruct c' as [[] [] [] [] [] [] [] []]; reflexivity.
Qed.

(** ** Queries *)

Lemma split_any_free p s : all_chars (λ c, negb (p c)) s = true → split_any p s = [s].
Proof.
  induction s as [|c s IH]; [done|]. cbn. intros [Hc Hs]%andb_true_iff. apply negb_true_iff in Hc.
  by rewrite Hc, IH.
Qed.

Lemma split_any_app p s c t :
  all_chars (λ c, negb (p c)) s = true → p c = true → split_any p (s +:+ String c t) = s :: split_any p t.
Proof.
  intros Hs Hc. induction s as [|c' s IH]; cbn in Hs.
  - change ("" +:+ String c t) with (String c t). cbn. by rewrite Hc.
  - apply andb_true_iff in Hs as [Hc' Hs]. apply negb_true_iff in Hc'.
    change (String c' s +:+ String c t) with (String c' (s +:+ String c t)). cbn [split_any]. by rewrite Hc', IH.
Qed.

Definition no_separator (s : string) : Prop := all_chars (λ c, negb (is_separator c)) s = true.

Lemma free_no_separator s : free_of "&" s → free_of ";" s → no_separator s.
Proof.
  unfold free_of, no_separator, is_separator. induction s as [|c s IH]; [done|]. cbn.
  intros [H1 H2]%andb_true_iff [H3 H4]%andb_true_iff. rewrite IH, andb_true_r by done.
  apply negb_true_iff in H1, H3. by rewrite H1, H3.
Qed.

Lemma encode_pair_separator kv : no_separator (encode_pair kv).
Proof.
  unfold no_separator, encode_pair. rewrite !all_chars_app. cbn [all_chars].
  pose proof (λ s, free_no_separator _ (escape_free "&" s eq_refl) (escape_free ";" s eq_refl)) as H.
  unfold no_separator in H. by rewrite !H.
Qed.

Lemma parse_encode_pair kv : parse_pair (encode_pair kv) = Some kv.
Proof.
  unfold parse_pair, encode_pair. change ("=" +:+ QueryEscape kv.2) with (String "=" (QueryEscape kv.2)).
  assert (E : String.eqb (QueryEscape kv.1 +:+ String "=" (QueryEscape kv.2)) "" = false) by (by destruct (QueryEscape kv.1)).
  rewrite E. unfold split_cut. rewrite cut_app by (by apply escape_free). cbn.
  rewrite !QueryUnescape_escape. by destruct kv.
Qed.

(** Pairs, printed in front of another query *)
Lemma parse_pairs_app l q :
  omap parse_pair (split_any is_separator (Join (map encode_pair l) "&" +:+ "&" +:+ q)) =
  l ++ omap parse_pair (split_any is_separator q).
Proof.
  induction l as [|kv l IH]; [done|]. destruct l as [|kv' l].
  - change (Join (map encode_pair [kv]) "&") with (encode_pair kv). change ("&" +:+ q) with (String "&" q).
    rewrite split_any_app by (done || apply encode_pair_separator). cbn [omap list_omap]. by rewrite parse_encode_pair.
  - cbn [map]. rewrite Join_cons, !string_app_assoc.
    change ("&" +:+ (Join (encode_pair kv' :: map encode_pair l) "&" +:+ "&" +:+ q))
      with (String "&" (Join (encode_pair kv' :: map encode_pair l) "&" +:+ "&" +:+ q)).
    rewrite split_any_app by (done || apply encode_pair_separator). cbn [omap list_omap]. rewrite parse_encode_pair.
    cbn [app]. f_equal. exact IH.
Qed.

Lemma parse_pairs l : omap parse_pair (split_any is_separator (Join (map encode_pair l) "&")) = l.
Proof.
  induction l as [|kv l IH]; [done|]. destruct l as [|kv' l].
  - change (Join (map encode_pair [kv]) "&") with (encode_pair kv).
    rewrite split_any_free by apply encode_pair_separator. cbn. by rewrite parse_encode_pair.
  - cbn [map]. rewrite Join_cons.
    change ("&" +:+ Join (encode_pair kv' :: map encode_pair l) "&")
      with (String "&" (Join (encode_pair kv' :: map encode_pair l) "&")).
    rewrite split_any_app by (done || apply encode_pair_separator). cbn [omap list_omap]. rewrite parse_encode_pair.
    f_equal. exact IH.
Qed.

(** The values of a key, in order *)
Definition values_of (k : string) (l : list (string * string)) : list string :=
  omap (λ kv, if String.eqb kv.1 k then Some kv.2 else None) l.

Lemma add_pairs_lookup l m k :
  default [] (add_pairs l m !! k) = default [] (m !! k) ++ values_of k l ∧
  (add_pairs l m !! k = None ↔ m !! k = None ∧ values_of k l = []).
Proof.
  revert m. induction l as [|[k' v] l IH]; intros m; cbn [add_pairs foldl].
  { rewrite app_nil_r. split; [done|]. naive_solver. }
  destruct (IH (Add k' v m)) as [H1 H2]. unfold add_pairs in *. cbn [fst snd] in *. rewrite H1, H2. unfold Add, values_of. cbn.
  destruct (String.eqb_spec k' k) as [->|Hne].
  - rewrite lookup_insert_eq. cbn. rewrite <-app_assoc. split; [done|]. naive_solver.
  - by rewrite lookup_insert_ne.
Qed.

(** No key has an empty list of values. *)
Definition proper (m : Values) : Prop := map_Forall (λ _ vs, vs ≠ []) m.

Lemma values_of_app k l1 l2 : values_of k (l1 ++ l2) = values_of k l1 ++ values_of k l2.
Proof. apply omap_app. Qed.

Lemma values_of_key k k' vs : values_of k (map (pair k') vs) = if String.eqb k' k then vs else [].
Proof.
  induction vs as [|v vs IH]; cbn; [by destruct (String.eqb k' k)|]. unfold values_of in IH.
  destruct (String.eqb k' k); [by rewrite IH|exact IH].
Qed.

Lemma values_of_pairs m k : values_of k (pairs_of m) = default [] (m !! k).
Proof.
  unfold pairs_of. assert (Hp : merge_sort by_key (map_to_list m) ≡ₚ map_to_list m) by apply merge_sort_Permutation.
  assert (Hnd : NoDup (merge_sort by_key (map_to_list m)).*1) by (rewrite Hp; apply NoDup_fst_map_to_list).
  assert (Hin : ∀ vs, (k, vs) ∈ merge_sort by_key (map_to_list m) ↔ m !! k = Some vs)
    by (intros vs; rewrite Hp; apply elem_of_map_to_list).
  generalize dependent (merge_sort by_key (map_to_list m)). intros l _ Hnd Hin.
  assert (H : values_of k (concat (map (λ kvs, map (pair kvs.1) kvs.2) l)) =
              match find (λ kvs, String.eqb kvs.1 k) l with Some kvs => kvs.2 | None => [] end).
  { clear Hin. induction l as [|[k' vs] l IH]; [done|]. cbn [map concat find fst snd].
    rewrite values_of_app, values_of_key. cbn in Hnd. apply NoDup_cons in Hnd as [Hk Hnd]. rewrite IH by done.
    destruct (String.eqb_spec k' k) as [->|Hne]; [|done].
    destruct (find (λ kvs, String.eqb kvs.1 k) l) as [kvs|] eqn:E; [|by rewrite app_nil_r].
    apply find_some in E as [Hkvs%list_elem_of_In Ek%String.eqb_eq]. destruct Hk. rewrite <-Ek. by apply list_elem_of_fmap_2. }
  rewrite H. destruct (find _ l) as [kvs|] eqn:E.
  - apply find_some in E as [Hkvs%list_elem_of_In Ek%String.eqb_eq]. rewrite (proj1 (Hin kvs.2)); [done|].
    rewrite <-Ek. by destruct kvs.
  - destruct (m !! k) as [vs|] eqn:Em; [|done].
    pose proof (find_none _ _ E _ (proj1 (list_elem_of_In _ _) (proj2 (Hin vs) eq_refl))) as Hk. cbn in Hk. by rewrite String.eqb_refl in Hk.
Qed.

Lemma lookup_default (m m' : Values) k :
  proper m → default [] (m' !! k) = default [] (m !! k) → (m' !! k = None ↔ default [] (m !! k) = []) → m' !! k = m !! k.
Proof.
  intros Hm E Hn. destruct (m !! k) as [vs|] eqn:Ek; cbn in *.
  - destruct (m' !! k) as [vs'|] eqn:Ek'; cbn in *; [by subst|]. by destruct (Hm _ _ Ek), Hn.
  - by apply Hn.
Qed.

(** A query is read back as it was printed, also in front of another one with other keys. *)
Lemma ParseQuery_Encode m : proper m → ParseQuery (Encode m) = m.
Proof.
  intros Hm. apply map_eq. intros k. unfold ParseQuery, Encode. rewrite parse_pairs.
  destruct (add_pairs_lookup (pairs_of m) ∅ k) as [H1 H2]. rewrite values_of_pairs, lookup_empty in H1, H2.
  apply lookup_default; [done|done|]. rewrite H2. naive_solver.
Qed.

Lemma ParseQuery_Encode_app m q k :
  proper m → default [] (ParseQuery (Encode m +:+ "&" +:+ q) !! k) = default [] (m !! k) ++ default [] (ParseQuery q !! k).
Proof.
  intros Hm. unfold ParseQuery, Encode. rewrite parse_pairs_app.
  rewrite (proj1 (add_pairs_lookup _ ∅ k)), values_of_app, values_of_pairs, lookup_empty. cbn.
  by rewrite (proj1 (add_pairs_lookup _ ∅ k)), lookup_empty.
Qed.
