(* ===== verification/SysConfig.v ===== *)
(** sysconfig/config.go and sysconfig/runner.go: the names warden uses on the
    host, made from a tag, and the command runner that passes them to scripts. *)
From S2P Require Import Prelude GoStd OS.

Local Open Scope string_scope.
Local Open Scope list_scope.

(** * Definitions *)

Record IPTablesFilterConfig := mkFilterConfig {
  ForwardChain : string;
  DefaultChain : string;
  filter_InstancePrefix : string
}.

Record IPTablesNATConfig := mkNATConfig {
  PreroutingChain : string;
  PostroutingChain : string;
  nat_InstancePrefix : string
}.

Record IPTablesConfig := mkIPTables { Filter : IPTablesFilterConfig; NAT : IPTablesNATConfig }.

Record Config := mkConfig {
  CgroupPath : string;
  NetworkInterfacePrefix : string;
  IPTables : IPTablesConfig
}.

Definition NewConfig (tag : string) : Config :=
  mkConfig ("/tmp/warden-" +:+ tag +:+ "/cgroup") ("w" +:+ tag)
    (mkIPTables
       (mkFilterConfig ("w-" +:+ tag +:+ "-forward") ("w-" +:+ tag +:+ "-default")
          ("w-" +:+ tag +:+ "-instance-"))
       (mkNATConfig ("w-" +:+ tag +:+ "-prerouting") ("w-" +:+ tag +:+ "-postrouting")
          ("w-" +:+ tag +:+ "-instance-"))).

Definition Environ (config : Config) : list string :=
  let f := Filter (IPTables config) in
  let n := NAT (IPTables config) in
  ["WARDEN_CGROUP_PATH=" +:+ CgroupPath config;
   "WARDEN_NETWORK_INTERFACE_PREFIX=" +:+ NetworkInterfacePrefix config;
   "WARDEN_IPTABLES_FILTER_FORWARD_CHAIN=" +:+ ForwardChain f;
   "WARDEN_IPTABLES_FILTER_DEFAULT_CHAIN=" +:+ DefaultChain f;
   "WARDEN_IPTABLES_FILTER_INSTANCE_PREFIX=" +:+ filter_InstancePrefix f;
   "WARDEN_IPTABLES_NAT_PREROUTING_CHAIN=" +:+ PreroutingChain n;
   "WARDEN_IPTABLES_NAT_POSTROUTING_CHAIN=" +:+ PostroutingChain n;
   "WARDEN_IPTABLES_NAT_INSTANCE_PREFIX=" +:+ nat_InstancePrefix n].

Section runner.
Context {K : Kernel}.

(** A command that names no environment gets the daemon's. *)
Definition withEnv (env : list string) (c : Cmd) : Cmd :=
  mkCmd (Path c) (Args c) (match Env c with [] => environ ++ env | _ => Env c ++ env end) (Stdin c).

(** The commands the wrapped runner sees: [withEnv] changes the command itself, so
    a later wait or signal concerns the changed command. *)
Definition runner_call (env : list string) (sc : Syscall) : Syscall :=
  match sc with
  | SRun c => SRun (withEnv env c)
  | SStart c => SStart (withEnv env c)
  | SBackground c => SBackground (withEnv env c)
  | SWait c => SWait (withEnv env c)
  | SKill c => SKill (withEnv env c)
  | SSignal c sig => SSignal (withEnv env c) sig
  | _ => sc
  end.

(** The outside as a program sees it that runs its commands through [NewRunner]. *)
Definition NewRunner (config : Config) : Kernel := {|
  sys_error h sc := sys_error (map (runner_call (Environ config)) h) (runner_call (Environ config) sc);
  sys_output h sc := sys_output (map (runner_call (Environ config)) h) (runner_call (Environ config) sc);
  sys_entries h := sys_entries (map (runner_call (Environ config)) h);
  getenv := getenv;
  environ := environ
|}.
End runner.
