(* ===== verification/RootFSProvider.v ===== *)
(** linux_backend/container_pool/rootfs_provider: the root file system of a
    container, from an overlay or from a docker image.

    The graph driver is a package the program only calls: its methods are arguments
    here, as is the interface [RepositoryFetcher] (see RepositoryFetcher.v). *)
From S2P Require Import Prelude GoStd OS Url.

Local Open Scope string_scope.
Local Open Scope list_scope.
Local Open Scope Z_scope.

(** * Definitions *)

(** The interface [RootFSProvider]. *)
Record RootFSProvider := mkProvider {
  ProvideRootFS : string → URL → M Trace string;
  CleanupRootFS : string → M Trace unit
}.

Section overlay.
Context {K : Kernel}.
Context (binPath overlaysPath defaultRootFS : string).

Definition overlay_rootFSPath (rootfs : URL) : string :=
  if String.eqb (url_Path rootfs) "" then defaultRootFS else url_Path rootfs.

Definition overlay_create_cmd (id : string) (rootfs : URL) : Cmd :=
  cmd (path_Join [binPath; "overlay.sh"])
    ["create"; path_Join [overlaysPath; id]; overlay_rootFSPath rootfs] [].

Definition overlay_cleanup_cmd (id : string) : Cmd :=
  cmd (path_Join [binPath; "overlay.sh"]) ["cleanup"; path_Join [overlaysPath; id]] [].

Definition NewOverlay : RootFSProvider := mkProvider
  (λ id rootfs, Run (overlay_create_cmd id rootfs) ≫= λ _,
                mret (path_Join [overlaysPath; id; "rootfs"]))
  (λ id, Run (overlay_cleanup_cmd id)).
End overlay.

Definition ErrInvalidDockerURL : error :=
  mkError "*errors.errorString" "invalid docker url; must provide path".

Section docker.
(** The interface [RepositoryFetcher], and the methods of [graphdriver.Driver] used. *)
Context (Fetch : string → string → M Trace string).
Context (Create : string → string → M Trace unit) (Get : string → M Trace string).
Context (Put : string → M Trace unit) (Remove : string → M Trace unit).

(** [url.Path[1:]] *)
Definition docker_repo (url : URL) : string :=
  match url_Path url with String _ p => p | EmptyString => "" end.
Definition docker_tag (url : URL) : string :=
  if String.eqb (Fragment url) "" then "latest" else Fragment url.

Definition NewDocker : RootFSProvider := mkProvider
  (λ id url,
     if String.eqb (url_Path url) "" then raise ErrInvalidDockerURL
     else imageID ← Fetch (docker_repo url) (docker_tag url);
          Create id imageID ≫= λ _, Get id)
  (λ id, ignore_err (Put id) ≫= λ _, Remove id).
End docker.
