(* ===== verification/Paths.v ===== *)
(** Absolute paths and the files below them: what [path.Join] makes of plain names, and what
    a file holds after files have been written and directories renamed and removed. *)
From Stdlib Require Import Ascii.
From S2P Require Import Prelude GoStd OS.

Local Open Scope string_scope.
Local Open Scope list_scope.
Local Open Scope Z_scope.

(** * Paths *)

(** A name that means the file of that name *)
Definition plain_name (s : string) : Prop := free_of slash s ∧ s ≠ "" ∧ s ≠ "." ∧ s ≠ "..".

#[export] Instance plain_name_dec s : Decision (plain_name s).
Proof. unfold plain_name, free_of. apply _. Defined.

(** The path of the names of a list, from the root on *)
Definition abs_path (l : list string) : string := String slash (Join l "/").

Lemma clean_names l stack :
  Forall plain_name l → foldl (clean_component true) stack l = reverse l ++ stack.
Proof.
  intros H. revert stack. induction H as [|s l (Hs & H1 & H2 & H3) _ IH]; intros stack; [done|]. cbn [foldl].
  rewrite reverse_cons, <-app_assoc, <-IH. f_equal. unfold clean_component.
  by rewrite (proj2 (String.eqb_neq s "") H1), (proj2 (String.eqb_neq s ".") H2), (proj2 (String.eqb_neq s "..") H3).
Qed.

Lemma Split_abs l : l ≠ [] → Forall plain_name l → Split (abs_path l) slash = "" :: l.
Proof.
  intros Hne Hl. unfold abs_path. change (String slash (Join l "/")) with ("" +:+ String slash (Join l "/")). rewrite Split_app_sep by done. f_equal.
  apply Split_Join; [done|]. eapply Forall_impl; [exact Hl|]. by intros s [].
Qed.

Lemma Clean_abs l : l ≠ [] → Forall plain_name l → Clean (abs_path l) = abs_path l.
Proof.
  intros Hne Hl. unfold Clean, abs_path. change (is_rooted (String slash (Join l "/"))) with true. cbv zeta.
  change (String slash (Join l "/")) with (abs_path l). rewrite Split_abs by done. cbn [foldl]. change (clean_component true [] "") with ([] : list string).
  rewrite clean_names, app_nil_r, reverse_involutive by done. done.
Qed.

Lemma Join_snoc l s sep : l ≠ [] → Join (l ++ [s]) sep = Join l sep +:+ sep +:+ s.
Proof.
  induction l as [|x l IH]; [done|]. intros _. destruct l as [|y l]; [done|].
  change ((x :: y :: l) ++ [s]) with (x :: y :: (l ++ [s])). rewrite !Join_cons, !string_app_assoc.
  change (y :: l ++ [s]) with ((y :: l) ++ [s]). by rewrite IH.
Qed.

Lemma abs_snoc l s : l ≠ [] → abs_path (l ++ [s]) = abs_path l +:+ "/" +:+ s.
Proof. intros Hne. unfold abs_path. by rewrite Join_snoc. Qed.

Lemma path_Join_abs l s : l ≠ [] → Forall plain_name l → plain_name s → path_Join [abs_path l; s] = abs_path (l ++ [s]).
Proof.
  intros Hne Hl Hs. cbn [path_Join]. change (String.eqb (abs_path l) "") with false. cbv iota.
  change (Join [abs_path l; s] "/") with (abs_path l +:+ "/" +:+ s). rewrite <-abs_snoc by done. apply Clean_abs; [by destruct l|].
  apply Forall_app; split; [done|by apply Forall_singleton].
Qed.

Lemma path_Join_abs2 l s t :
  l ≠ [] → Forall plain_name l → plain_name s → plain_name t → path_Join [abs_path l; s; t] = abs_path (l ++ [s; t]).
Proof.
  intros Hne Hl Hs Ht. cbn [path_Join]. change (String.eqb (abs_path l) "") with false. cbv iota.
  change (Join [abs_path l; s; t] "/") with (abs_path l +:+ "/" +:+ (s +:+ "/" +:+ t)).
  assert (E : abs_path l +:+ "/" +:+ (s +:+ "/" +:+ t) = abs_path (l ++ [s; t])).
  { change [s; t] with ([s] ++ [t]). rewrite app_assoc, abs_snoc, (abs_snoc l) by (by destruct l). by rewrite !string_app_assoc. }
  rewrite E. apply Clean_abs; [by destruct l|]. apply Forall_app; split; [done|]. apply Forall_cons; split; [done|by apply Forall_singleton].
Qed.

(** * Files in directories *)

(** The rest of a path that is in a directory *)
Fixpoint below_dir (d p : string) : option string :=
  match d, p with
  | EmptyString, String c rest => if Ascii.eqb c slash then Some rest else None
  | String c d, String c' p => if Ascii.eqb c c' then below_dir d p else None
  | _, _ => None
  end.

Definition within (d p : string) : bool := String.eqb p d || (if below_dir d p is Some _ then true else false).

(** Whether a call can change what the file at [p] holds *)
Definition touches (c : Syscall) (p : string) : bool :=
  match c with
  | SWriteFile q _ | SCreate q | SWrite q _ | SRemove q => String.eqb q p
  | SRemoveAll q => within q p
  | SRename a b => within a p || within b p
  | _ => false
  end.

(** What the file at [p] holds after the calls of a list, the latest first, where it is known:
    a directory that is renamed takes its files along. *)
Fixpoint file_in (failed : Trace → Syscall → option error) (calls : Trace) (p : string) : option string :=
  match calls with
  | [] => None
  | c :: before =>
      match failed (reverse before) c, c with
      | None, SWriteFile q d => if String.eqb q p then Some d else file_in failed before p
      | None, SRename a b =>
          match below_dir b p with
          | Some rest => file_in failed before (a +:+ "/" +:+ rest)
          | None => if touches c p then None else file_in failed before p
          end
      | _, _ => if touches c p then None else file_in failed before p
      end
  end.

(** Files can be read, and hold what they hold. *)
Definition FileTree {K : Kernel} : Prop := ∀ h p d,
  file_in sys_error (reverse h) p = Some d → sys_error h (SReadFile p) = None ∧ sys_output h (SReadFile p) = d.

Lemma below_dir_app d rest : below_dir d (d +:+ "/" +:+ rest) = Some rest.
Proof.
  induction d as [|c d IH]; [done|]. change (String c d +:+ "/" +:+ rest) with (String c (d +:+ "/" +:+ rest)).
  cbn [below_dir]. by rewrite Ascii.eqb_refl.
Qed.

Lemma below_dir_Some d p rest : below_dir d p = Some rest → p = d +:+ "/" +:+ rest.
Proof.
  revert p. induction d as [|c d IH]; intros [|c' p]; cbn [below_dir]; try done.
  - destruct (Ascii.eqb_spec c' slash) as [->|]; [|done]. by intros [= ->].
  - destruct (Ascii.eqb_spec c c') as [->|]; [|done]. intros H%IH. by rewrite H.
Qed.


Lemma Split_below l rest : l ≠ [] → Forall plain_name l → Split (abs_path l +:+ "/" +:+ rest) slash = "" :: l ++ Split rest slash.
Proof.
  intros Hne Hl. unfold abs_path. change (String slash (Join l "/") +:+ "/" +:+ rest) with ("" +:+ String slash (Join l "/" +:+ "/" +:+ rest)).
  rewrite Split_app_sep by done. f_equal. induction Hl as [|s l [Hs _] Hl IH]; [done|]. destruct l as [|s' l].
  - by apply Split_app_sep.
  - rewrite Join_cons, !string_app_assoc. change ("/" +:+ (Join (s' :: l) "/" +:+ "/" +:+ rest)) with (String slash (Join (s' :: l) "/" +:+ "/" +:+ rest)).
    rewrite Split_app_sep by done. by rewrite IH.
Qed.

(** A path is in a directory when the names of the directory are the first of it. *)
Lemma within_abs a b : a ≠ [] → b ≠ [] → Forall plain_name a → Forall plain_name b → within (abs_path a) (abs_path b) = true → a `prefix_of` b.
Proof.
  intros Ha Hb Hpa Hpb. unfold within. intros [E%String.eqb_eq|E]%orb_true_iff.
  - apply (f_equal (λ s, Split s slash)) in E. rewrite !Split_abs in E by done. by injection E as ->.
  - destruct (below_dir (abs_path a) (abs_path b)) as [rest|] eqn:Hr; [|done]. apply below_dir_Some in Hr.
    apply (f_equal (λ s, Split s slash)) in Hr. rewrite Split_below, Split_abs in Hr by done. injection Hr as ->. by apply prefix_app_r.
Qed.

Lemma below_abs l s : l ≠ [] → below_dir (abs_path l) (abs_path (l ++ [s])) = Some s.
Proof. intros Hne. rewrite abs_snoc by done. apply below_dir_app. Qed.

Lemma abs_inj a b : a ≠ [] → b ≠ [] → Forall plain_name a → Forall plain_name b → abs_path a = abs_path b → a = b.
Proof. intros Ha Hb Hpa Hpb E. apply (f_equal (λ s, Split s slash)) in E. rewrite !Split_abs in E by done. by injection E. Qed.

Lemma file_in_snoc failed h c p :
  file_in failed (reverse (h ++ [c])) p =
    match failed h c, c with
    | None, SWriteFile q d => if String.eqb q p then Some d else file_in failed (reverse h) p
    | None, SRename a b =>
        match below_dir b p with
        | Some rest => file_in failed (reverse h) (a +:+ "/" +:+ rest)
        | None => if touches c p then None else file_in failed (reverse h) p
        end
    | _, _ => if touches c p then None else file_in failed (reverse h) p
    end.
Proof. rewrite reverse_app. cbn [reverse app]. change (reverse [c] ++ reverse h) with (c :: reverse h). cbn [file_in]. by rewrite reverse_involutive. Qed.

(** A call that does not touch a file. *)
Lemma file_in_other failed h c p :
  touches c p = false → (∀ a b, c = SRename a b → below_dir b p = None) → file_in failed (reverse (h ++ [c])) p = file_in failed (reverse h) p.
Proof.
  intros Ht Hr. rewrite file_in_snoc, Ht. destruct (failed h c); [by destruct c|]. destruct c; try done.
  - cbn in Ht. by rewrite Ht.
  - by rewrite (Hr _ _ eq_refl).
Qed.
