(* ===== verification/Patricia.v ===== *)
(** github.com/tchap/go-patricia/patricia, vendored: the radix tree in which docker's graph
    keeps its ids. Items are stored under byte strings; a node has up to [MaxPrefixPerNode]
    bytes of prefix, and its children, which differ in their first byte, are a short list or,
    from the ninth on, an array indexed by that byte.

    A node is a value here. The code changes nodes through pointers, and a prefix may share
    its array with others; a node has one parent, and [compact] appends to a prefix only the
    bytes that follow it in its array, or past the end of it, so that no other prefix changes.
    A nil item is [None]. What is shown is that the tree is a finite map: see [entries]. *)
From Stdlib Require Import Ascii.
From S2P Require Import Prelude GoStd.

Local Open Scope string_scope.
Local Open Scope list_scope.
Local Open Scope nat_scope.

(** A non-nil [[]byte] *)
Definition Prefix : Type := list ascii.

(** [patricia.Prefix(s)] and [string(prefix)] *)
Definition bytes (s : string) : Prefix := String.list_ascii_of_string s.
Definition text (p : Prefix) : string := String.string_of_list_ascii p.

Inductive childList (T : Type) :=
  | sparseChildList (children : list T)
  | denseChildList (min max : nat) (children : list (option T)).
Arguments sparseChildList {T} children.
Arguments denseChildList {T} min max children.


#[warnings="-register-all"] Inductive Trie (A : Type) := mkTrie {
  t_prefix : option Prefix;
  t_item : option A;
  t_children : childList (Trie A)
}.
Arguments mkTrie {A} _ _ _.
Arguments t_prefix {A} _.
Arguments t_item {A} _.
Arguments t_children {A} _.

Definition MaxChildrenPerSparseNode : nat := 8.

Definition out_of_range {B} : Result B := Crash (Panic "index out of range").

(** [ErrNilPrefix], with which the operations panic *)
Definition ErrNilPrefix : fault := Panic "Nil prefix passed into a method call".
Definition non_nil {B} (key : option Prefix) (k : Prefix → Result B) : Result B :=
  match key with None => Crash ErrNilPrefix | Some key => k key end.

(** * children.go *)

Section children.
Context {A : Type}.
Implicit Types (t c : Trie A) (ch : childList (Trie A)).

(** [len], [range] and slicing read a nil prefix as an empty one. *)
Definition prefix_of t : Prefix := default [] (t_prefix t).

(** [t.prefix[0]] *)
Definition first t : Result ascii :=
  match prefix_of t with b :: _ => Ok b | [] => out_of_range end.

(** The loops that look for the child whose prefix starts with [b] *)
Fixpoint seek (b : ascii) (l : list (Trie A)) : Result (option nat) :=
  match l with
  | [] => Ok None
  | c :: rest =>
      b' ← first c;
      if Ascii.eqb b' b then Ok (Some 0) else r ← seek b rest; Ok (option_map S r)
  end.

(** [list.children[b-list.min]] *)
Definition dense_index (min : nat) (l : list (option (Trie A))) (b : nat) : Result nat :=
  if (b <? min) || (length l <=? b - min) then out_of_range else Ok (b - min).

(** A child is designated by its place in the list. *)
Definition child_at (i : nat) ch : Result (Trie A) :=
  match (match ch with sparseChildList l => l !! i | denseChildList _ _ l => mjoin (l !! i) end) with
  | Some c => Ok c
  | None => Crash NilDereference
  end.

(** What the list is when the child at [i] has been changed through its pointer *)
Definition with_child (i : nat) (c : Trie A) ch : childList (Trie A) :=
  match ch with
  | sparseChildList l => sparseChildList (<[i := c]> l)
  | denseChildList min max l => denseChildList min max (<[i := Some c]> l)
  end.

Definition child_count ch : nat :=
  match ch with sparseChildList l => length l | denseChildList min max _ => max - min + 1 end.

Definition head ch : Result (Trie A) := child_at 0 ch.

Definition next (b : ascii) ch : Result (option nat) :=
  match ch with
  | sparseChildList l => seek b l
  | denseChildList min max l =>
      let i := nat_of_ascii b in
      if (i <? min) || (max <? i) then Ok None
      else
        i ← dense_index min l i;
        match l !! i with Some (Some _) => Ok (Some i) | _ => Ok None end
  end.

Definition newDenseChildList (l : list (Trie A)) (child : Trie A) : Result (childList (Trie A)) :=
  let all := l ++ [child] in
  bytes ← mapM (λ c, b ← first c; Ok (nat_of_ascii b)) all;
  let min := foldl Nat.min 255 bytes in
  let max := foldl Nat.max 0 bytes in
  Ok (denseChildList min max
        (foldl (λ children '(b, c), <[b - min := Some c]> children) (replicate (max - min + 1) None) (zip bytes all))).

Definition add (child : Trie A) ch : Result (childList (Trie A)) :=
  match ch with
  | sparseChildList l =>
      if negb (length l =? MaxChildrenPerSparseNode) then Ok (sparseChildList (l ++ [child]))
      else newDenseChildList l child
  | denseChildList min max l =>
      b ← first child;
      let b := nat_of_ascii b in
      if (min <=? b) && (b <=? max) then
        i ← dense_index min l b;
        match l !! i with
        | Some (Some _) => Crash (Panic "dense child list collision detected")
        | _ => Ok (denseChildList min max (<[i := Some child]> l))
        end
      else if b <? min then
        Ok (denseChildList b max (Some child :: replicate (min - b - 1) None ++ l))
      else Ok (denseChildList min b (l ++ replicate (b - max - 1) None ++ [Some child]))
  end.

Definition replace (b : ascii) (child : Trie A) ch : Result (childList (Trie A)) :=
  match ch with
  | sparseChildList l =>
      r ← seek b l;
      Ok (match r with Some i => sparseChildList (<[i := child]> l) | None => ch end)
  | denseChildList min max l =>
      i ← dense_index min l (nat_of_ascii b);
      b' ← first child;
      j ← dense_index min l (nat_of_ascii b');
      Ok (denseChildList min max (<[j := Some child]> (<[i := None]> l)))
  end.

Definition remove (child : Trie A) ch : Result (childList (Trie A)) :=
  let non_existent := Crash (Panic "removing non-existent child") in
  b ← first child;
  match ch with
  | sparseChildList l =>
      r ← seek b l;
      match r with Some i => Ok (sparseChildList (remove_at i l)) | None => non_existent end
  | denseChildList min max l =>
      i ← dense_index min l (nat_of_ascii b);
      match l !! i with
      | Some (Some _) => Ok (denseChildList min max (<[i := None]> l))
      | _ => non_existent
      end
  end.
End children.

(** * patricia.go *)

Section patricia.
Context {A : Type} (MaxPrefixPerNode : nat).
Implicit Types (t : Trie A) (ch : childList (Trie A)).

Definition NewTrie : Trie A := mkTrie None None (sparseChildList []).

Definition with_item (item : option A) t : Trie A := mkTrie (t_prefix t) item (t_children t).
Definition with_children ch t : Trie A := mkTrie (t_prefix t) (t_item t) ch.

Fixpoint common_length (key p : Prefix) : nat :=
  match key, p with
  | b :: key, b' :: p => if Ascii.eqb b b' then S (common_length key p) else 0
  | _, _ => 0
  end.
Definition longestCommonPrefixLength t (key : Prefix) : nat := common_length key (prefix_of t).

(** [None]: the node itself is returned. *)
Definition compact t : Result (option (Trie A)) :=
  if negb (child_count (t_children t) =? 1) then Ok None
  else
    child ← head (t_children t);
    match t_item t, t_item child with
    | None, None =>
        if MaxPrefixPerNode <? length (prefix_of t) + length (prefix_of child) then Ok None
        else Ok (Some (mkTrie (Some (prefix_of t ++ prefix_of child)) None (t_children child)))
    | _, _ => Ok None
    end.

(** [t.compact()] where the result is used in the place of [t] *)
Definition compacted t : Result (Trie A) := r ← compact t; Ok (default t r).

(** The node that is found, as the places of the children on the way to it; an iteration
    takes at least one byte off the key. *)
Fixpoint find_loop (fuel : nat) (key : Prefix) t : Result (list nat * Trie A * bool * Prefix) :=
  match fuel with
  | O => Crash Blocked
  | S fuel =>
      let common := longestCommonPrefixLength t key in
      let leftover := drop common (prefix_of t) in
      match drop common key with
      | [] => Ok ([], t, true, leftover)
      | (b :: _) as key =>
          if common <? length (prefix_of t) then Ok ([], t, false, leftover)
          else
            child ← next b (t_children t);
            match child with
            | None => Ok ([], t, false, [])
            | Some i =>
                c ← child_at i (t_children t);
                '(path, root, found, leftover) ← find_loop fuel key c;
                Ok (i :: path, root, found, leftover)
            end
      end
  end.
Definition findSubtree (key : Prefix) t := find_loop (S (length key)) key t.

(** The trie after [f] has changed the node at the end of a path *)
Fixpoint modify_at (path : list nat) (f : Trie A → Result (Trie A)) t : Result (Trie A) :=
  match path with
  | [] => f t
  | i :: path =>
      c ← child_at i (t_children t);
      c' ← modify_at path f c;
      Ok (with_children (with_child i c' (t_children t)) t)
  end.

(** ** Inserting *)

(** From the label InsertItem on *)
Definition InsertItem (replace : bool) (item : A) t : bool * Trie A :=
  match t_item t with
  | Some _ => if replace then (true, with_item (Some item) t) else (false, t)
  | None => (true, with_item (Some item) t)
  end.

(** The loop of AppendChild makes nodes until the whole of a key that is not empty is used. *)
Fixpoint chain (fuel : nat) (key : Prefix) (item : A) : Trie A :=
  match fuel with
  | O => NewTrie
  | S fuel =>
      if length key <=? MaxPrefixPerNode then mkTrie (Some key) (Some item) (sparseChildList [])
      else mkTrie (Some (take MaxPrefixPerNode key)) None
             (sparseChildList [chain fuel (drop MaxPrefixPerNode key) item])
  end.

Definition AppendChild (replace : bool) (key : Prefix) (item : A) t : Result (bool * Trie A) :=
  match key with
  | [] => Ok (InsertItem replace item t)
  | _ =>
      ch ← add (chain (length key) key item) (t_children t);
      Ok (true, with_children ch t)
  end.

Definition SplitPrefix (replace : bool) (common : nat) (key : Prefix) (item : A) t : Result (bool * Trie A) :=
  child ← compacted (mkTrie (Some (drop common (prefix_of t))) (t_item t) (t_children t));
  ch ← add child (sparseChildList []);
  AppendChild replace key item (mkTrie (Some (take common (prefix_of t))) None ch).

Fixpoint put_loop (fuel : nat) (replace : bool) (key : Prefix) (item : A) t : Result (bool * Trie A) :=
  match fuel with
  | O => Crash Blocked
  | S fuel =>
      let common := longestCommonPrefixLength t key in
      let key := drop common key in
      if common <? length (prefix_of t) then SplitPrefix replace common key item t
      else
        match key with
        | [] => Ok (InsertItem replace item t)
        | b :: _ =>
            child ← next b (t_children t);
            match child with
            | None => AppendChild replace key item t
            | Some i =>
                c ← child_at i (t_children t);
                '(inserted, c') ← put_loop fuel replace key item c;
                Ok (inserted, with_children (with_child i c' (t_children t)) t)
            end
        end
  end.

Definition put (key : option Prefix) (item : A) (replace : bool) t : Result (bool * Trie A) :=
  non_nil key (λ key,
    match t_prefix t with
    | None =>
        if length key <=? MaxPrefixPerNode
        then Ok (InsertItem replace item (mkTrie (Some key) (t_item t) (t_children t)))
        else AppendChild replace (drop MaxPrefixPerNode key) item
               (mkTrie (Some (take MaxPrefixPerNode key)) (t_item t) (t_children t))
    | Some _ => put_loop (S (length key)) replace key item t
    end).

Definition Insert (key : option Prefix) (item : A) t : Result (bool * Trie A) := put key item false t.
Definition Set_ (key : option Prefix) (item : A) t : Result (Trie A) := '(_, t') ← put key item true t; Ok t'.

(** ** Looking up *)

Definition Get (key : Prefix) t : Result (option A) :=
  '(_, node, found, leftover) ← findSubtree key t;
  Ok (if negb found || negb (length (leftover : Prefix) =? 0) then None else t_item node).

Definition Match (key : Prefix) t : Result bool := item ← Get key t; Ok (bool_decide (item ≠ None)).

Definition MatchSubtree (key : Prefix) t : Result bool := '(_, _, matched, _) ← findSubtree key t; Ok matched.

(** ** Visiting *)

Definition SkipSubtree : error := errors_New "Skip this subtree".

Section visitor.
Context {T : Type} (visitor : Prefix → A → M T unit).

(** [list.walk]: the children in their order, an empty place of an array passed over *)
Fixpoint walk_children (pre : Prefix) t : M T unit :=
  let visit c :=
    let pre := pre ++ prefix_of c in
    r ← attempt (match t_item c with Some item => visitor pre item | None => mret tt end);
    match r with
    | inl _ => walk_children pre c
    | inr e => if decide (e = SkipSubtree) then mret tt else raise e
    end in
  match t_children t with
  | sparseChildList l => for_each visit l
  | denseChildList _ _ l => for_each (λ place, match place with Some c => visit c | None => mret tt end) l
  end.

Definition walk (actualRootPrefix : option Prefix) t : M T unit :=
  let pre := default (prefix_of t) actualRootPrefix in
  r ← attempt (match t_item t with Some item => visitor pre item | None => mret tt end);
  match r with
  | inl _ => walk_children pre t
  | inr e => if decide (e = SkipSubtree) then mret tt else raise e
  end.

Definition Visit t : M T unit := walk None t.

Definition VisitSubtree (prefix : option Prefix) t : M T unit :=
  prefix ← of_result (non_nil prefix Ok);
  match t_prefix t with
  | None => mret tt
  | Some _ =>
      '(_, root, found, leftover) ← of_result (findSubtree prefix t);
      if negb found then mret tt else walk (Some (prefix ++ leftover)) root
  end.

(** [done] is [prefix[:offset]]. *)
Fixpoint prefixes_loop (fuel : nat) (done key : Prefix) t : M T unit :=
  match fuel with
  | O => crash Blocked
  | S fuel =>
      let common := longestCommonPrefixLength t key in
      let done := done ++ take common key in
      let key := drop common key in
      if common <? length (prefix_of t) then mret tt
      else
        match t_item t with Some item => visitor done item | None => mret tt end ≫= λ _,
        match key with
        | [] => mret tt
        | b :: _ =>
            child ← of_result (next b (t_children t));
            match child with
            | None => mret tt
            | Some i => c ← of_result (child_at i (t_children t)); prefixes_loop fuel done key c
            end
        end
  end.

Definition VisitPrefixes (key : option Prefix) t : M T unit :=
  key ← of_result (non_nil key Ok);
  match t_prefix t with
  | None => mret tt
  | Some _ => prefixes_loop (S (length key)) [] key t
  end.
End visitor.

(** ** Deleting *)

Definition delete_node (path : list nat) (node t : Trie A) : Result (Trie A) :=
  let node := with_item None node in
  r ← compact node;
  match r, path with
  | None, _ => modify_at path (λ _, Ok node) t
  | Some child, [] => Ok child
  | Some child, _ =>
      modify_at (removelast path)
        (λ parent, b ← first node; ch ← replace b child (t_children parent); compacted (with_children ch parent)) t
  end.

Definition Delete (key : option Prefix) t : Result (bool * Trie A) :=
  non_nil key (λ key,
    match t_prefix t with
    | None => Ok (false, t)
    | Some _ =>
        '(path, node, _, leftover) ← findSubtree key t;
        if negb (length (leftover : Prefix) =? 0) then Ok (false, t)
        else
          match t_item node with
          | None => Ok (false, t)
          | Some _ => t' ← delete_node path node t; Ok (true, t')
          end
    end).

Definition DeleteSubtree (prefix : option Prefix) t : Result (bool * Trie A) :=
  non_nil prefix (λ key,
    match t_prefix t with
    | None => Ok (false, t)
    | Some _ =>
        '(path, root, found, _) ← findSubtree key t;
        if negb found then Ok (false, t)
        else
          match path with
          | [] => Ok (true, mkTrie None (t_item t) (sparseChildList []))
          | _ =>
              t' ← modify_at (removelast path)
                     (λ parent, ch ← remove root (t_children parent); Ok (with_children ch parent)) t;
              Ok (true, t')
          end
    end).

(** * What a trie holds *)

(** The items with their keys, in the order in which they are visited *)
Fixpoint entries (base : Prefix) t : list (Prefix * A) :=
  let pre := base ++ prefix_of t in
  match t_item t with Some item => [(pre, item)] | None => [] end ++
  match t_children t with
  | sparseChildList l => flat_map (entries pre) l
  | denseChildList _ _ l => flat_map (λ place, match place with Some c => entries pre c | None => [] end) l
  end.
End patricia.

(** * Lists of children *)

Section children_lemmas.
Context {A : Type}.
Implicit Types (t c : Trie A) (ch : childList (Trie A)).

Definition kids ch : list (Trie A) :=
  match ch with sparseChildList l => l | denseChildList _ _ l => omap id l end.

(** The children differ in their first byte, and one in an array is at the place of that byte. *)
Definition list_ok ch : Prop :=
  (∀ c, c ∈ kids ch → ∃ b, first c = Ok b) ∧ NoDup (first <$> kids ch) ∧
  match ch with
  | sparseChildList l => length l ≤ MaxChildrenPerSparseNode
  | denseChildList min max l =>
      min < max < 256 ∧ length l = max - min + 1 ∧
      ∀ i c b, l !! i = Some (Some c) → first c = Ok b → nat_of_ascii b = min + i
  end.

Lemma first_prefix c b : first c = Ok b → ∃ r, prefix_of c = b :: r.
Proof. unfold first. destruct (prefix_of c) as [|b' r]; intros [= <-]. by exists r. Qed.

Lemma nat_of_ascii_inj b b' : nat_of_ascii b = nat_of_ascii b' → b = b'.
Proof. intros H. by rewrite <-(ascii_nat_embedding b), H, ascii_nat_embedding. Qed.

Lemma first_known c b b' : first c = Ok b → first c = Ok b' → b = b'.
Proof. congruence. Qed.

Lemma elem_of_kids c ch : c ∈ kids ch ↔ ∃ i, child_at i ch = Ok c.
Proof.
  unfold child_at. destruct ch as [l|min max l]; cbn.
  - rewrite list_elem_of_lookup. split; intros [i H]; exists i; [by rewrite H|destruct (l !! i); by inversion H].
  - rewrite list_elem_of_omap. split.
    + intros (o & [i Hi]%list_elem_of_lookup & Ho). exists i. rewrite Hi. cbn in *. by subst.
    + intros [i H]. exists (Some c). split; [|done]. apply list_elem_of_lookup. exists i.
      destruct (l !! i) as [[c'|]|]; by inversion H.
Qed.

(** A child can be changed in its place. *)
Lemma child_split i c ch :
  child_at i ch = Ok c → ∃ L R, kids ch = L ++ c :: R ∧ ∀ c', kids (with_child i c' ch) = L ++ c' :: R.
Proof.
  unfold child_at. destruct ch as [l|min max l]; cbn.
  - intros H. destruct (l !! i) as [c1|] eqn:E; [|done]. injection H as ->.
    exists (take i l), (drop (S i) l). split; [by rewrite take_drop_middle|].
    intros c'. apply insert_take_drop. by eapply lookup_lt_Some.
  - intros H. destruct (l !! i) as [[c1|]|] eqn:E; try done. injection H as ->.
    exists (omap id (take i l)), (omap id (drop (S i) l)). split.
    + by rewrite <-(take_drop_middle l i (Some c)) at 1 by done; rewrite omap_app.
    + intros c'. rewrite insert_take_drop by (by eapply lookup_lt_Some). by rewrite omap_app.
Qed.

Lemma list_ok_with_child i c c' ch :
  list_ok ch → child_at i ch = Ok c → first c' = first c → list_ok (with_child i c' ch).
Proof.
  intros (Hf & Hnd & Hd) Hc E. destruct (child_split i c ch Hc) as (L & R & HE & HE'). unfold list_ok. rewrite HE'.
  rewrite HE in Hf, Hnd. split_and!.
  - intros c2 Hin. apply elem_of_app in Hin as [Hin|[->|Hin]%elem_of_cons].
    + apply Hf. apply elem_of_app. by left.
    + rewrite E. apply Hf. apply elem_of_app. right. by left.
    + apply Hf. apply elem_of_app. right. by right.
  - rewrite fmap_app, fmap_cons in *. by rewrite E.
  - unfold child_at in Hc. destruct ch as [l|min max l]; cbn in *; [by rewrite length_insert|]. rewrite length_insert.
    destruct Hd as (Hm & Hl & Hd). split; [done|]. split; [done|]. intros j c2 b Hj Hb.
    destruct (decide (i = j)) as [->|Hij]; [|rewrite list_lookup_insert_ne in Hj by done; by eapply Hd].
    destruct (l !! j) as [[c1|]|] eqn:Ej; try done. injection Hc as ->.
    rewrite list_lookup_insert_eq in Hj by (by eapply lookup_lt_Some). injection Hj as <-.
    apply (Hd j c); [done|by rewrite <-E].
Qed.

Lemma seek_spec b (l : list (Trie A)) :
  (∀ c, c ∈ l → ∃ b, first c = Ok b) →
  (∃ i c, seek b l = Ok (Some i) ∧ l !! i = Some c ∧ first c = Ok b) ∨
  (seek b l = Ok None ∧ ∀ c, c ∈ l → first c ≠ Ok b).
Proof.
  induction l as [|c l IH]; intros Hf; [right; split; [done|by intros c ?%not_elem_of_nil]|].
  destruct (Hf c) as [b' Hb']; [by left|]. cbn [seek]. rewrite Hb'. cbn [mbind Result_bind].
  destruct (Ascii.eqb_spec b' b) as [->|Hne]; [left; by exists 0, c|].
  destruct IH as [(i & c' & -> & Hc & Hb)|[-> Hn]]; [by intros c2 Hc2; apply Hf; right| |].
  - left. by exists (S i), c'.
  - right. split; [done|]. intros c2 [->|Hc2]%elem_of_cons; [congruence|by apply Hn].
Qed.

Lemma dense_place min max (l : list (option (Trie A))) c b :
  list_ok (denseChildList min max l) → c ∈ omap id l → first c = Ok b →
  min ≤ nat_of_ascii b ≤ max ∧ l !! (nat_of_ascii b - min) = Some (Some c).
Proof.
  intros (_ & _ & Hm & Hl & Hd) ([c'|] & [i Hi]%list_elem_of_lookup & [= ->])%list_elem_of_omap Hb.
  rewrite (Hd i c b Hi Hb). pose proof (lookup_lt_Some _ _ _ Hi). split; [lia|]. by replace (min + i - min) with i by lia.
Qed.

Lemma dense_index_ok min max (l : list (option (Trie A))) b :
  list_ok (denseChildList min max l) → min ≤ b ≤ max → dense_index min l b = Ok (b - min) ∧ ∃ o, l !! (b - min) = Some o.
Proof.
  intros (_ & _ & Hm & Hl & _) Hb. unfold dense_index.
  destruct (Nat.ltb_spec b min); [lia|]. destruct (Nat.leb_spec (length l) (b - min)); [lia|].
  split; [done|]. apply lookup_lt_is_Some. lia.
Qed.

Lemma next_spec b ch :
  list_ok ch →
  (∃ i c, next b ch = Ok (Some i) ∧ child_at i ch = Ok c ∧ first c = Ok b) ∨
  (next b ch = Ok None ∧ ∀ c, c ∈ kids ch → first c ≠ Ok b).
Proof.
  intros Hok. destruct ch as [l|min max l].
  - destruct (seek_spec b l) as [(i & c & H1 & H2 & H3)|]; [apply Hok| |by right].
    left. exists i, c. unfold child_at. by rewrite H2.
  - cbn [next kids]. destruct (decide (min ≤ nat_of_ascii b ≤ max)) as [Hr|Hr].
    + destruct (Nat.ltb_spec (nat_of_ascii b) min); [lia|]. destruct (Nat.ltb_spec max (nat_of_ascii b)); [lia|].
      cbn [orb]. destruct (dense_index_ok min max l (nat_of_ascii b) Hok Hr) as [-> [o Ho]]. cbn [mbind Result_bind].
      rewrite Ho. destruct o as [c|].
      * left. exists (nat_of_ascii b - min), c. unfold child_at. rewrite Ho. split_and!; [done..|].
        destruct (proj1 Hok c) as [b' Hb']. { apply list_elem_of_omap. exists (Some c). split; [|done]. by eapply list_elem_of_lookup_2. }
        rewrite Hb'. f_equal. apply nat_of_ascii_inj. destruct Hok as (_ & _ & _ & _ & Hd). rewrite (Hd _ _ _ Ho Hb'). lia.
      * right. split; [done|]. intros c Hc Hb. destruct (dense_place min max l c b Hok Hc Hb) as [_ E]. congruence.
    + right. split.
      * destruct (Nat.ltb_spec (nat_of_ascii b) min); [done|]. by destruct (Nat.ltb_spec max (nat_of_ascii b)); [|lia].
      * intros c Hc Hb. by destruct (dense_place min max l c b Hok Hc Hb).
Qed.
End children_lemmas.

(** ** Adding and replacing *)

Section adding.
Context {A : Type}.
Implicit Types (t c : Trie A) (ch : childList (Trie A)).

Lemma omap_insert_None i c (l : list (option (Trie A))) :
  l !! i = Some None → omap id (<[i := Some c]> l) ≡ₚ c :: omap id l.
Proof.
  intros H. rewrite insert_take_drop by (by eapply lookup_lt_Some).
  rewrite <-(take_drop_middle l i None) at 3 by done. rewrite !omap_app. cbn. by rewrite Permutation_middle.
Qed.

(** What is left to show of a list with one child more *)
Lemma kids_added ch ch' child b :
  list_ok ch → kids ch' ≡ₚ child :: kids ch → first child = Ok b → (∀ c, c ∈ kids ch → first c ≠ Ok b) →
  (∀ c, c ∈ kids ch' → ∃ b, first c = Ok b) ∧ NoDup (first <$> kids ch').
Proof.
  intros (Hf & Hnd & _) E Hb Hn. split.
  - intros c. rewrite E. intros [->|Hc]%elem_of_cons; [by exists b|by apply Hf].
  - rewrite E. cbn. apply NoDup_cons. split; [|done]. rewrite Hb. intros (c & Hc & Hin)%list_elem_of_fmap.
    by apply (Hn c Hin).
Qed.

Definition byte_of c : nat := match first c with Ok b => nat_of_ascii b | _ => 0 end.

Lemma byte_of_first c b : first c = Ok b → byte_of c = nat_of_ascii b.
Proof. unfold byte_of. by intros ->. Qed.

Lemma bytes_of (l : list (Trie A)) :
  (∀ c, c ∈ l → ∃ b, first c = Ok b) → mapM (λ c, b ← first c; Ok (nat_of_ascii b)) l = Ok (byte_of <$> l).
Proof.
  induction l as [|c l IH]; intros Hf; [done|]. cbn. destruct (Hf c) as [b Hb]; [by left|].
  rewrite IH by (intros c' Hc'; apply Hf; by right). by rewrite (byte_of_first c b Hb), Hb.
Qed.

Lemma foldl_min (l : list nat) a : foldl Nat.min a l ≤ a ∧ ∀ x, x ∈ l → foldl Nat.min a l ≤ x.
Proof.
  revert a. induction l as [|y l IH]; intros a; cbn; [split; [done|by intros x ?%not_elem_of_nil]|].
  destruct (IH (a `min` y)) as [H1 H2]. split; [lia|]. intros x [->|Hx]%elem_of_cons; [lia|by apply H2].
Qed.
Lemma foldl_max (l : list nat) a m : a ≤ m → (∀ x, x ∈ l → x ≤ m) →
  foldl Nat.max a l ≤ m ∧ a ≤ foldl Nat.max a l ∧ ∀ x, x ∈ l → x ≤ foldl Nat.max a l.
Proof.
  revert a. induction l as [|y l IH]; intros a Ha Hm; cbn; [split_and!; [done..|by intros x ?%not_elem_of_nil]|].
  destruct (IH (a `max` y)) as (H1 & H2 & H3).
  - apply Nat.max_lub; [done|]. apply Hm. by left.
  - intros x Hx. apply Hm. by right.
  - split_and!; [done|lia|]. intros x [->|Hx]%elem_of_cons; [lia|by apply H3].
Qed.

(** Children put into an array at the places of their bytes *)
Lemma place_all min max (l : list (Trie A)) arr :
  NoDup (byte_of <$> l) → (∀ c, c ∈ l → min ≤ byte_of c ≤ max) → length arr = max - min + 1 →
  (∀ i c, arr !! i = Some (Some c) → byte_of c = min + i) → (∀ c, c ∈ l → arr !! (byte_of c - min) = Some None) →
  let arr' := foldl (λ children '(b, c), <[b - min := Some c]> children) arr (zip (byte_of <$> l) l) in
  length arr' = max - min + 1 ∧ (∀ i c, arr' !! i = Some (Some c) → byte_of c = min + i) ∧ omap id arr' ≡ₚ l ++ omap id arr.
Proof.
  revert arr. induction l as [|c l IH]; intros arr Hnd Hr Hl Hp Hfree; [done|]. cbn [fmap list_fmap zip foldl].
  rewrite fmap_cons in Hnd. apply NoDup_cons in Hnd as [Hc Hnd].
  assert (Hrc : min ≤ byte_of c ≤ max) by (apply Hr; by left).
  destruct (IH (<[byte_of c - min := Some c]> arr)) as (H1 & H2 & H3); [done| | | | |].
  - intros c' Hc'. apply Hr. by right.
  - by rewrite length_insert.
  - intros i c' Hi. destruct (decide (byte_of c - min = i)) as [<-|Hne].
    + rewrite list_lookup_insert_eq in Hi by lia. injection Hi as <-. lia.
    + rewrite list_lookup_insert_ne in Hi by done. by apply Hp.
  - intros c' Hc'. rewrite list_lookup_insert_ne; [apply Hfree; by right|]. intros E. apply Hc.
    assert (min ≤ byte_of c' ≤ max) by (apply Hr; by right).
    replace (byte_of c) with (byte_of c') by lia. by apply list_elem_of_fmap_2.
  - split_and!; [done..|]. etrans; [exact H3|]. rewrite omap_insert_None by (apply Hfree; by left). symmetry. apply Permutation_middle.
Qed.

Lemma byte_of_inj c c' b b' : first c = Ok b → first c' = Ok b' → byte_of c = byte_of c' → b = b'.
Proof. intros H H'. rewrite (byte_of_first c b H), (byte_of_first c' b' H'). apply nat_of_ascii_inj. Qed.

Lemma bytes_NoDup (l : list (Trie A)) :
  (∀ c, c ∈ l → ∃ b, first c = Ok b) → NoDup (first <$> l) → NoDup (byte_of <$> l).
Proof.
  induction l as [|c l IH]; intros Hf Hnd; [constructor|]. rewrite fmap_cons in *. apply NoDup_cons in Hnd as [Hc Hnd].
  apply NoDup_cons. split; [|apply IH; [intros c' Hc'; apply Hf; by right|done]].
  intros (c' & E & Hc')%list_elem_of_fmap. apply Hc. destruct (Hf c) as [b Hb]; [by left|].
  destruct (Hf c') as [b' Hb']; [by right|]. rewrite (byte_of_inj c c' b b' Hb Hb' E) in Hb. rewrite Hb, <-Hb'.
  by apply list_elem_of_fmap_2.
Qed.


Lemma no_kids n : omap id (replicate n (None : option (Trie A))) = [].
Proof. by induction n. Qed.
Lemma no_child n i c : replicate n (None : option (Trie A)) !! i ≠ Some (Some c).
Proof. by intros [? _]%lookup_replicate. Qed.

Lemma newDense_spec l child b :
  list_ok (sparseChildList l) → l ≠ [] → first child = Ok b → (∀ c, c ∈ l → first c ≠ Ok b) →
  ∃ ch', newDenseChildList l child = Ok ch' ∧ list_ok ch' ∧ kids ch' ≡ₚ child :: l.
Proof.
  intros Hok Hne Hb Hn. set (all := l ++ [child]).
  destruct (kids_added (sparseChildList l) (sparseChildList all) child b) as [Hf Hnd]; [done|symmetry; apply Permutation_cons_append|done..|].
  cbn [kids] in Hf, Hnd. pose proof (bytes_NoDup all Hf Hnd) as Hbytes. unfold newDenseChildList. fold all. rewrite bytes_of by done.
  cbn [mbind Result_bind]. set (min := foldl Nat.min 255 (byte_of <$> all)). set (max := foldl Nat.max 0 (byte_of <$> all)).
  assert (Hr : ∀ c, c ∈ all → min ≤ byte_of c ≤ max ∧ byte_of c ≤ 255).
  { assert (H255 : ∀ x, x ∈ byte_of <$> all → x ≤ 255).
    { intros x (c & -> & _)%list_elem_of_fmap. unfold byte_of. destruct (first c) as [b'|?|?]; [|lia..]. pose proof (nat_ascii_bounded b'). lia. }
    intros c Hc. pose proof (list_elem_of_fmap_2 byte_of all c Hc) as Hin. split; [|by apply H255].
    split; [by apply foldl_min|]. by apply (foldl_max (byte_of <$> all) 0 255 ltac:(lia) H255). }
  destruct (place_all min max all (replicate (max - min + 1) None)) as (H1 & H2 & H3); [done|intros c Hc; by apply Hr|by rewrite length_replicate| | |].
  { by intros i c ?%no_child. }
  { intros c Hc. apply lookup_replicate_2. pose proof (Hr c Hc). lia. }
  rewrite no_kids, app_nil_r in H3. eexists. split; [done|].
  assert (Hperm : kids (denseChildList min max (foldl (λ children '(b, c), <[b - min := Some c]> children)
            (replicate (max - min + 1) None) (zip (byte_of <$> all) all))) ≡ₚ child :: l).
  { cbn [kids]. etrans; [exact H3|]. symmetry. apply Permutation_cons_append. }
  split; [|done]. destruct (kids_added _ _ child b Hok Hperm Hb Hn) as [Hf' Hnd']. split; [done|]. split; [done|]. split; [|split; [done|]].
  - destruct l as [|c0 l]; [done|]. destruct (Hf c0) as [b0 Hb0]; [by left|].
    assert (byte_of c0 ≠ byte_of child). { intros E. apply (Hn c0); [by left|]. by rewrite (byte_of_inj c0 child b0 b Hb0 Hb E) in Hb0. }
    pose proof (Hr c0 ltac:(by left)). pose proof (Hr child ltac:(apply elem_of_app; right; by left)).
    destruct (foldl_max (byte_of <$> all) 0 255) as [Hmax _]; [lia| |fold max in Hmax; lia].
    intros x (c & -> & Hc)%list_elem_of_fmap. by apply Hr.
  - intros i c b' Hi Hb'. rewrite <-(byte_of_first c b' Hb'). by apply H2.
Qed.

Lemma add_spec ch child b :
  list_ok ch → first child = Ok b → (∀ c, c ∈ kids ch → first c ≠ Ok b) →
  ∃ ch', add child ch = Ok ch' ∧ list_ok ch' ∧ kids ch' ≡ₚ child :: kids ch.
Proof.
  intros Hok Hb Hn. destruct ch as [l|min max l].
  - cbn [add kids]. destruct (Nat.eqb_spec (length l) MaxChildrenPerSparseNode) as [Hl|Hl]; cbn [negb].
    { apply (newDense_spec l child b); try done. by intros ->. }
    assert (E : kids (sparseChildList (l ++ [child])) ≡ₚ child :: kids (sparseChildList l)) by (symmetry; apply Permutation_cons_append).
    eexists. split; [done|]. split; [|done]. destruct (kids_added _ _ child b Hok E Hb Hn). split; [done|]. split; [done|].
    destruct Hok as (_ & _ & Hlen). rewrite length_app. cbn. lia.
  - cbn [add]. rewrite Hb. cbn [mbind Result_bind]. pose proof Hok as (_ & _ & Hm & Hl & Hp).
    pose proof (nat_ascii_bounded b) as Hbound. set (B := nat_of_ascii b) in *.
    (* what remains in each of the three cases *)
    assert (Hdone : ∀ min' max' l', min' < max' < 256 → length l' = max' - min' + 1 → omap id l' ≡ₚ child :: omap id l →
      (∀ i c b, l' !! i = Some (Some c) → first c = Ok b → nat_of_ascii b = min' + i) →
      ∃ ch', Ok (denseChildList min' max' l') = Ok ch' ∧ list_ok ch' ∧ kids ch' ≡ₚ child :: kids (denseChildList min max l)).
    { intros min' max' l' Hm' Hl' E Hp'. eexists. split; [done|]. split; [|done].
      destruct (kids_added _ (denseChildList min' max' l') child b Hok E Hb Hn). do 4 (split; [done|]). done. }
    destruct (Nat.leb_spec min B); [destruct (Nat.leb_spec B max)|]; cbn [andb].
    + destruct (dense_index_ok min max l B Hok) as [-> [o Ho]]; [lia|]. cbn [mbind Result_bind]. rewrite Ho. destruct o as [c|].
      { exfalso. assert (Hin : c ∈ omap id l). { apply list_elem_of_omap. exists (Some c). split; [|done]. by eapply list_elem_of_lookup_2. }
        destruct (proj1 Hok c Hin) as [b' Hb']. apply (Hn c Hin). rewrite Hb'. f_equal. apply nat_of_ascii_inj.
        rewrite (Hp _ _ _ Ho Hb'). fold B. lia. }
      apply Hdone; [done|by rewrite length_insert|by apply omap_insert_None|].
      intros i c b' Hi Hb'. destruct (decide (B - min = i)) as [<-|Hne].
      * rewrite list_lookup_insert_eq in Hi by (by eapply lookup_lt_Some). injection Hi as <-.
        rewrite (first_known _ _ _ Hb' Hb). fold B. lia.
      * rewrite list_lookup_insert_ne in Hi by done. by eapply Hp.
    + destruct (Nat.ltb_spec B min); [lia|]. apply Hdone; [lia| | |].
      * rewrite !length_app, length_replicate. cbn. lia.
      * rewrite !omap_app, no_kids. symmetry. apply Permutation_cons_append.
      * intros i c b' Hi Hb'. apply lookup_app_Some in Hi as [Hi|[Hge Hi]]; [by eapply Hp|].
        apply lookup_app_Some in Hi as [Hi|[Hge' Hi]]; [by apply no_child in Hi|].
        rewrite length_replicate in *. apply list_lookup_singleton_Some in Hi as [Hi0 [= <-]].
        rewrite (first_known _ _ _ Hb' Hb). fold B. lia.
    + destruct (Nat.ltb_spec B min); [|lia]. apply Hdone; [lia| | |].
      * cbn. rewrite length_app, length_replicate. lia.
      * cbn. by rewrite omap_app, no_kids.
      * intros i c b' Hi Hb'. destruct i as [|i]; [injection Hi as <-; rewrite (first_known _ _ _ Hb' Hb); fold B; lia|]. cbn in Hi.
        apply lookup_app_Some in Hi as [Hi|[Hge Hi]]; [by apply no_child in Hi|].
        rewrite length_replicate in *. rewrite (Hp _ _ _ Hi Hb'). lia.
Qed.

Lemma seek_at b (l : list (Trie A)) i c :
  (∀ c, c ∈ l → ∃ b, first c = Ok b) → NoDup (first <$> l) → l !! i = Some c → first c = Ok b → seek b l = Ok (Some i).
Proof.
  intros Hf Hnd Hi Hb. destruct (seek_spec b l Hf) as [(j & c' & -> & Hj & Hb')|[_ Hn]].
  - do 2 f_equal. apply (NoDup_lookup _ j i (Ok b) Hnd); rewrite list_lookup_fmap; [by rewrite Hj, <-Hb'|by rewrite Hi, <-Hb].
  - destruct (Hn c); [by eapply list_elem_of_lookup_2|done].
Qed.

(** Replacing a child by one that starts with the same byte changes it in its place. *)
Lemma replace_spec ch i c c' b :
  list_ok ch → child_at i ch = Ok c → first c = Ok b → first c' = Ok b → replace b c' ch = Ok (with_child i c' ch).
Proof.
  intros Hok Hi Hb Hb'. destruct ch as [l|min max l]; unfold child_at in Hi.
  - destruct (l !! i) as [c0|] eqn:E; [|done]. injection Hi as ->. destruct Hok as (Hf & Hnd & _).
    cbn [replace]. by rewrite (seek_at b l i c).
  - destruct (l !! i) as [[c0|]|] eqn:E; try done. injection Hi as ->. pose proof (lookup_lt_Some _ _ _ E).
    pose proof Hok as (_ & _ & Hm & Hl & Hp). pose proof (Hp i c b E Hb) as HB. cbn [replace].
    destruct (dense_index_ok min max l (nat_of_ascii b) Hok) as [Hx _]; [lia|]. rewrite Hx, Hb'. cbn [mbind Result_bind].
    rewrite Hx. cbn [mbind Result_bind with_child]. replace (nat_of_ascii b - min) with i by lia.
    by rewrite list_insert_insert_eq.
Qed.
End adding.

(** * Tries *)

Section tries.
Context {A : Type}.
Implicit Types (t c : Trie A) (ch : childList (Trie A)).

Inductive wf : Trie A → Prop :=
  | wf_node t : list_ok (t_children t) → (∀ c, c ∈ kids (t_children t) → wf c) → wf t.

(** An empty trie has no prefix. *)
Definition trie_ok t : Prop := wf t ∧ (t_prefix t = None → t_item t = None ∧ kids (t_children t) = []).

Definition here (pre : Prefix) t : list (Prefix * A) := match t_item t with Some item => [(pre, item)] | None => [] end.
Definition below (pre : Prefix) t : list (Prefix * A) := flat_map (entries pre) (kids (t_children t)).

Lemma entries_eq base t : entries base t = here (base ++ prefix_of t) t ++ below (base ++ prefix_of t) t.
Proof.
  destruct t as [p it ch]. unfold here, below. cbn [entries t_item t_children]. f_equal.
  destruct ch as [l|min max l]; [done|]. cbn [kids]. generalize (base ++ prefix_of (mkTrie p it (denseChildList min max l))) as pre. intros pre.
  induction l as [|[c|] l IH]; [done| |done]. cbn. by rewrite IH.
Qed.

Lemma elem_of_entries k a base t :
  (k, a) ∈ entries base t ↔
  (k = base ++ prefix_of t ∧ t_item t = Some a) ∨
  ∃ c, c ∈ kids (t_children t) ∧ (k, a) ∈ entries (base ++ prefix_of t) c.
Proof.
  rewrite entries_eq, elem_of_app. unfold here, below. f_equiv.
  - destruct (t_item t) as [a'|]; [rewrite list_elem_of_singleton|rewrite elem_of_nil]; naive_solver.
  - rewrite list_elem_of_In, in_flat_map. by setoid_rewrite list_elem_of_In.
Qed.

Lemma wf_inv t : wf t → list_ok (t_children t) ∧ ∀ c, c ∈ kids (t_children t) → wf c.
Proof. by destruct 1. Qed.

Lemma entries_under t : wf t → ∀ k a base, (k, a) ∈ entries base t → (base ++ prefix_of t) `prefix_of` k.
Proof.
  induction 1 as [t _ _ IH]. intros k a base [[-> _]|(c & Hc & Hk)]%elem_of_entries; [done|].
  apply IH in Hk; [|done]. etrans; [|exact Hk]. by apply prefix_app_r.
Qed.

(** The keys below a child go on with its first byte. *)
Lemma child_keys c b k a base : wf c → first c = Ok b → (k, a) ∈ entries base c → (base ++ [b]) `prefix_of` k.
Proof.
  intros Hwf [r Hr]%first_prefix Hk. apply entries_under in Hk; [|done]. etrans; [|exact Hk].
  rewrite Hr. exists r. by rewrite <-app_assoc.
Qed.

Lemma byte_conflict (base : Prefix) b b' k : (base ++ [b]) `prefix_of` k → (base ++ [b']) `prefix_of` k → b = b'.
Proof.
  intros [r Hr] [r' Hr']. rewrite Hr, <-!app_assoc in Hr'. apply app_inv_head in Hr'. cbn in Hr'. congruence.
Qed.

Lemma not_extended (base : Prefix) b : ¬ (base ++ [b]) `prefix_of` base.
Proof. intros [r Hr]. apply (f_equal length) in Hr. rewrite !length_app in Hr. cbn in Hr. lia. Qed.

Lemma keys_NoDup t : wf t → ∀ base, NoDup (entries base t).*1.
Proof.
  induction 1 as [t Hok Hwf IH]. intros base. rewrite entries_eq, fmap_app. set (pre := base ++ prefix_of t).
  assert (Hb : ∀ k, k ∈ (below pre t).*1 → ∃ c b, c ∈ kids (t_children t) ∧ first c = Ok b ∧ (pre ++ [b]) `prefix_of` k).
  { intros k ([k' a] & -> & Hin)%list_elem_of_fmap. apply list_elem_of_In, in_flat_map in Hin as (c & Hc & Hk).
    apply list_elem_of_In in Hc, Hk. destruct (proj1 Hok c Hc) as [b Hb]. exists c, b. split_and!; [done..|].
    by eapply child_keys; [apply Hwf| |]. }
  apply NoDup_app. split_and!.
  - unfold here. destruct (t_item t); [by apply NoDup_singleton|constructor].
  - intros k Hk Hin. assert (k = pre) as ->. { unfold here in Hk. destruct (t_item t); [by apply list_elem_of_singleton in Hk|by apply elem_of_nil in Hk]. }
    destruct (Hb _ Hin) as (c & b & _ & _ & Hp). by apply not_extended in Hp.
  - clear Hb. unfold below. destruct Hok as (Hf & Hnd & _). revert Hf Hnd Hwf IH. generalize (kids (t_children t)) as l.
    induction l as [|c l IHl]; intros Hf Hnd Hwf IH; [constructor|]. cbn [flat_map]. rewrite fmap_app. rewrite fmap_cons in Hnd.
    apply NoDup_cons in Hnd as [Hc Hnd]. apply NoDup_app. split_and!; [apply IH; by left| |].
    + intros k ([k1 a1] & -> & H1)%list_elem_of_fmap ([k2 a2] & E & H2)%list_elem_of_fmap. cbn in E. subst k2.
      apply list_elem_of_In, in_flat_map in H2 as (c2 & Hc2%list_elem_of_In & H2%list_elem_of_In).
      destruct (Hf c) as [b1 Hb1]; [by left|]. destruct (Hf c2) as [b2 Hb2]; [by right|].
      apply Hc. rewrite Hb1. rewrite (byte_conflict pre b1 b2 k1).
      * rewrite <-Hb2. by apply list_elem_of_fmap_2.
      * eapply child_keys; [apply Hwf; by left|done..].
      * eapply child_keys; [apply Hwf; by right|done..].
    + apply IHl; [intros c' Hc'; apply Hf; by right|done|intros c' Hc'; apply Hwf; by right|intros c' Hc'; apply IH; by right].
Qed.

(** ** What inserting does *)

Definition differ (key p : Prefix) : Prop :=
  match key, p with b :: _, b' :: _ => b ≠ b' | _, _ => True end.

Lemma common_length_spec key p :
  ∃ pfx key' p', key = pfx ++ key' ∧ p = pfx ++ p' ∧ common_length key p = length pfx ∧ differ key' p'.
Proof.
  revert p. induction key as [|b key IH]; intros p; [by exists [], [], p|].
  destruct p as [|b' p]; [by exists [], (b :: key), []|]. cbn. destruct (Ascii.eqb_spec b b') as [->|Hne].
  - destruct (IH p) as (pfx & key' & p' & -> & -> & -> & Hd). by exists (b' :: pfx), key', p'.
  - by exists [], (b :: key), (b' :: p).
Qed.

Lemma first_cons t b r : prefix_of t = b :: r → first t = Ok b.
Proof. unfold first. by intros ->. Qed.

(** What a trie is after [put], and what [put] returns *)
Definition puts (base key : Prefix) (item : A) (replace : bool) t (inserted : bool) t' : Prop :=
  (∃ a l, entries base t ≡ₚ (base ++ key, a) :: l ∧ inserted = replace ∧
     entries base t' ≡ₚ (base ++ key, if replace then item else a) :: l) ∨
  ((∀ a, (base ++ key, a) ∉ entries base t) ∧ inserted = true ∧
     entries base t' ≡ₚ (base ++ key, item) :: entries base t).

Lemma own_key base t : wf t → t_item t = None → ∀ a, (base ++ prefix_of t, a) ∉ entries base t.
Proof.
  intros [Hok Hwf]%wf_inv Ht a [[_ ?]|(c & Hc & Hin)]%elem_of_entries; [congruence|].
  destruct (proj1 Hok c Hc) as [b Hb]. apply (child_keys c b) in Hin; [|by apply Hwf|done]. by apply not_extended in Hin.
Qed.

Lemma InsertItem_spec base replace item t :
  wf t →
  let '(inserted, t') := InsertItem replace item t in
  wf t' ∧ t_prefix t' = t_prefix t ∧ puts base (prefix_of t) item replace t inserted t'.
Proof.
  intros Hwf. destruct (wf_inv t Hwf) as [Hok Hk]. unfold InsertItem.
  assert (Hnew : wf (with_item (Some item) t)) by (by constructor).
  assert (He : entries base (with_item (Some item) t) = (base ++ prefix_of t, item) :: below (base ++ prefix_of t) t) by (by rewrite entries_eq).
  destruct (t_item t) as [a|] eqn:Ht.
  - assert (E : entries base t = (base ++ prefix_of t, a) :: below (base ++ prefix_of t) t) by (rewrite entries_eq; unfold here; by rewrite Ht).
    destruct replace; (split; [done|]); (split; [done|]); left; exists a, (below (base ++ prefix_of t) t); by rewrite ?E, ?He.
  - split; [done|]. split; [done|]. right. split; [by apply own_key|]. split; [done|]. rewrite He, entries_eq. unfold here. by rewrite Ht.
Qed.

Lemma puts_moved base key item replace t0 t inserted t' :
  entries base t0 = entries base t → puts base key item replace t0 inserted t' → puts base key item replace t inserted t'.
Proof. unfold puts. by intros ->. Qed.

(** A child changed by [put] changes its parent as [put] does. *)
Lemma puts_child base i c c' key item replace inserted t :
  wf t → child_at i (t_children t) = Ok c → first c' = first c → wf c' → (∃ b r, first c = Ok b ∧ key = b :: r) →
  puts (base ++ prefix_of t) key item replace c inserted c' →
  let t' := with_children (with_child i c' (t_children t)) t in
  wf t' ∧ puts base (prefix_of t ++ key) item replace t inserted t'.
Proof.
  intros Hwf Hi Hf Hc' (b & r & Hb & ->) Hputs t'. destruct (wf_inv t Hwf) as [Hok Hk].
  destruct (child_split i c (t_children t) Hi) as (L & R & HE & HE'). split.
  { constructor; [by eapply list_ok_with_child|]. cbn [t' t_children with_children]. rewrite HE'. intros c2 Hin.
    apply elem_of_app in Hin as [Hin|[->|Hin]%elem_of_cons]; [|done|]; apply Hk; rewrite HE; set_solver. }
  set (pre := base ++ prefix_of t) in *.
  set (rest := here pre t ++ flat_map (entries pre) L ++ flat_map (entries pre) R).
  assert (Hsplit : ∀ x ch, kids ch = L ++ x :: R → entries base (with_children ch t) ≡ₚ entries pre x ++ rest).
  { intros x ch Hch. rewrite entries_eq. change (prefix_of (with_children ch t)) with (prefix_of t). fold pre.
    unfold below, here. cbn [t_children t_item with_children]. rewrite Hch, flat_map_app. cbn [flat_map]. unfold rest, here.
    rewrite !app_assoc. apply Permutation_app_tail. rewrite <-!app_assoc. rewrite (Permutation_app_comm (flat_map _ L)).
    rewrite app_assoc, (Permutation_app_comm _ (entries pre x)). by rewrite <-app_assoc. }
  assert (Ht : entries base t ≡ₚ entries pre c ++ rest) by (destruct t; by apply (Hsplit c)).
  assert (Ht' : entries base t' ≡ₚ entries pre c' ++ rest) by (by apply Hsplit).
  unfold puts. rewrite app_assoc. fold pre. destruct Hputs as [(a & l & H1 & H2 & H3)|(H1 & H2 & H3)]; [left|right].
  - exists a, (l ++ rest). by rewrite Ht, Ht', H1, H3.
  - split_and!; [|done|by rewrite Ht', Ht, H3]. intros a. rewrite Ht, elem_of_app. intros [Hin|Hin]; [by apply (H1 a)|].
    unfold rest in Hin. rewrite !elem_of_app in Hin. destruct Hin as [Hin|Hin].
    + unfold here in Hin. destruct (t_item t); [|by apply elem_of_nil in Hin]. apply list_elem_of_singleton in Hin. injection Hin as E _.
      apply (f_equal length) in E. rewrite length_app in E. cbn in E. lia.
    + rewrite !list_elem_of_In, !in_flat_map in Hin. setoid_rewrite <-list_elem_of_In in Hin.
      assert (∃ c2, (c2 ∈ L ∨ c2 ∈ R) ∧ (pre ++ b :: r, a) ∈ entries pre c2) as (c2 & Hc2 & Hin2) by naive_solver.
      assert (Hin3 : c2 ∈ kids (t_children t)) by (rewrite HE; set_solver).
      destruct (proj1 Hok c2 Hin3) as [b2 Hb2]. apply (child_keys c2 b2) in Hin2; [|by apply Hk|done].
      rewrite (byte_conflict pre b2 b (pre ++ b :: r)) in Hb2; [|done|exists r; by rewrite <-app_assoc].
      destruct Hok as (_ & Hnd & _). rewrite HE, fmap_app, fmap_cons in Hnd.
      apply NoDup_app in Hnd as (_ & HndL & [HndR _]%NoDup_cons). rewrite Hb in *.
      destruct Hc2 as [Hc2|Hc2]; [apply (HndL (first c2)); [by apply list_elem_of_fmap_2|rewrite Hb2; by left]|].
      apply HndR. rewrite <-Hb2. by apply list_elem_of_fmap_2.
Qed.

(** Enough fuel for a loop that goes down a trie: only the root's prefix can be empty. *)
Definition enough (fuel : nat) (key : Prefix) t : Prop :=
  length key < fuel ∨ (∃ b r, key = b :: r ∧ first t = Ok b) ∧ length key ≤ fuel.

Lemma enough_fuel fuel key t : enough fuel key t → ∃ fuel', fuel = S fuel'.
Proof. intros [H|[(b & r & -> & _) H]]; cbn in H; destruct fuel as [|fuel']; [lia|by exists fuel'|lia|by exists fuel']. Qed.

Lemma enough_below fuel pfx key' t b r c :
  enough (S fuel) (pfx ++ key') t → prefix_of t = pfx → key' = b :: r → first c = Ok b → enough fuel key' c.
Proof.
  intros H Hp -> Hb. right. split; [by exists b, r|]. destruct H as [H|[(b' & r' & E & Hb') H]]; rewrite length_app in H; cbn in *; [lia|].
  destruct pfx; [|cbn in H; lia]. apply first_prefix in Hb' as [? Hb']. congruence.
Qed.

Lemma NewTrie_ok : trie_ok NewTrie.
Proof.
  split; [|done]. constructor; [|by intros c ?%not_elem_of_nil].
  split; [by intros c ?%not_elem_of_nil|]. split; [constructor|]. cbn. unfold MaxChildrenPerSparseNode. lia.
Qed.

(** The items by their keys *)
Definition items t : gmap Prefix A := list_to_map (entries [] t).

Lemma items_lookup t k a : trie_ok t → items t !! k = Some a ↔ (k, a) ∈ entries [] t.
Proof. intros [Hwf _]. unfold items. symmetry. apply elem_of_list_to_map, keys_NoDup, Hwf. Qed.

Lemma items_perm t l : NoDup l.*1 → entries [] t ≡ₚ l → items t = list_to_map l.
Proof. intros Hnd Hp. unfold items. apply list_to_map_proper; [|done]. by rewrite Hp. Qed.

(** ** Finding *)

(** A path leads from [t] to a node; the keys of the node go on from [base']. *)
Inductive leads : Prefix → Trie A → list nat → Prefix → Trie A → Prop :=
  | leads_here base t : leads base t [] base t
  | leads_on base t i c path base' node :
      child_at i (t_children t) = Ok c → leads (base ++ prefix_of t) c path base' node → leads base t (i :: path) base' node.

Lemma leads_wf base t path base' node : leads base t path base' node → wf t → wf node.
Proof. induction 1 as [|? ? ? ? ? ? ? Hi _ IH]; intros Hwf; [done|]. apply IH. apply (wf_inv _ Hwf), elem_of_kids. by eexists. Qed.

(** The entries whose key starts with [k], in their order *)
Definition at_prefix (k : Prefix) (l : list (Prefix * A)) : list (Prefix * A) := filter (λ e, k `prefix_of` e.1) l.

Lemma at_prefix_none k l : (∀ k' a, (k', a) ∈ l → ¬ k `prefix_of` k') → at_prefix k l = [].
Proof.
  unfold at_prefix. induction l as [|[k' a] l IH]; intros H; [done|].
  rewrite filter_cons_False by (apply (H k' a); by left). apply IH. intros k2 a2 Hin. apply (H k2 a2). by right.
Qed.

Lemma at_prefix_all k l : (∀ k' a, (k', a) ∈ l → k `prefix_of` k') → at_prefix k l = l.
Proof.
  unfold at_prefix. induction l as [|[k' a] l IH]; intros H; [done|].
  rewrite filter_cons_True by (apply (H k' a); by left). f_equal. apply IH. intros k2 a2 Hin. apply (H k2 a2). by right.
Qed.

Lemma at_prefix_app k l l' : at_prefix k (l ++ l') = at_prefix k l ++ at_prefix k l'.
Proof. apply filter_app. Qed.

(** Keys that go on with [b] are the keys of one child. *)
Lemma at_prefix_child base k b r t i c :
  wf t → k = b :: r → child_at i (t_children t) = Ok c → first c = Ok b →
  at_prefix ((base ++ prefix_of t) ++ k) (entries base t) = at_prefix ((base ++ prefix_of t) ++ k) (entries (base ++ prefix_of t) c).
Proof.
  intros [Hok Hwf]%wf_inv -> Hi Hb. destruct (child_split i c (t_children t) Hi) as (L & R & HE & _).
  set (pre := base ++ prefix_of t). assert (Hpre : (pre ++ [b]) `prefix_of` (pre ++ b :: r)) by (exists r; by rewrite <-app_assoc).
  destruct Hok as (Hf & Hnd & _). rewrite HE, fmap_app, fmap_cons in Hnd. apply NoDup_app in Hnd as (_ & HL & [HR _]%NoDup_cons).
  assert (Hno : ∀ l, (∀ c2, c2 ∈ l → c2 ∈ kids (t_children t) ∧ first c2 ≠ Ok b) → at_prefix (pre ++ b :: r) (flat_map (entries pre) l) = []).
  { intros l Hl. apply at_prefix_none. intros k' a (c2 & Hc2%list_elem_of_In & Hk%list_elem_of_In)%list_elem_of_In%in_flat_map Hpk.
    destruct (Hl c2 Hc2) as [Hin Hne]. destruct (Hf c2 Hin) as [b2 Hb2]. apply (child_keys c2 b2) in Hk; [|by apply Hwf|done].
    apply Hne. rewrite Hb2. f_equal. apply (byte_conflict pre b2 b k'); [done|by etrans]. }
  rewrite entries_eq, at_prefix_app. fold pre. unfold below. rewrite HE, flat_map_app, at_prefix_app. cbn [flat_map].
  rewrite at_prefix_app, !Hno.
  - rewrite app_nil_l, app_nil_r. rewrite (at_prefix_none _ (here pre t)); [done|]. unfold here. intros k' a Hin Hpk.
    destruct (t_item t); [|by apply elem_of_nil in Hin]. apply list_elem_of_singleton in Hin. injection Hin as -> _.
    apply (not_extended pre b). by etrans.
  - intros c2 Hc2. split; [rewrite HE; set_solver|]. intros Hb2. apply HR. rewrite Hb, <-Hb2. by apply list_elem_of_fmap_2.
  - intros c2 Hc2. split; [rewrite HE; set_solver|]. intros Hb2. apply (HL (Ok b)); [rewrite <-Hb2; by apply list_elem_of_fmap_2|].
    rewrite Hb. by left.
Qed.

Lemma find_loop_spec fuel : ∀ base key t,
  wf t → enough fuel key t →
  ∃ path node found leftover base', find_loop fuel key t = Ok (path, node, found, leftover) ∧ leads base t path base' node ∧
    at_prefix (base ++ key) (entries base t) = (if found : bool then entries base' node else []) ∧
    (found = true → base' ++ prefix_of node = base ++ key ++ leftover).
Proof.
  induction fuel as [|fuel IH]; intros base key t Hwf Hfuel; [by destruct (enough_fuel _ _ _ Hfuel)|]. cbn [find_loop].
  unfold longestCommonPrefixLength. destruct (common_length_spec key (prefix_of t)) as (pfx & key' & p' & Hkey & Hp & -> & Hd).
  rewrite Hkey, Hp, !drop_app_length. destruct key' as [|b r].
  { exists [], t, true, p', base. rewrite app_nil_r. split; [done|]. split; [constructor|]. split; [|by rewrite Hp].
    apply at_prefix_all. intros k a Hin. apply entries_under in Hin; [|done]. etrans; [|exact Hin]. rewrite Hp, app_assoc. by apply prefix_app_r. }
  destruct p' as [|bp p'].
  - rewrite app_nil_r in Hp |- *. rewrite Nat.ltb_irrefl. destruct (wf_inv t Hwf) as [Hok Hk].
    destruct (next_spec b (t_children t) Hok) as [(i & c & -> & Hi & Hb)|[-> Hn]]; cbn [mbind Result_bind].
    + rewrite Hi. cbn [mbind Result_bind]. assert (Hc : wf c) by (apply Hk, elem_of_kids; by exists i).
      destruct (IH (base ++ prefix_of t) (b :: r) c) as (path & node & found & leftover & base' & -> & Hl & He & Hf); [done|subst key; by eapply enough_below|].
      cbn [mbind Result_bind]. exists (i :: path), node, found, leftover, base'. split; [done|]. split; [by econstructor|].
      rewrite <-Hp, (app_assoc base). rewrite (at_prefix_child base (b :: r) b r t i c) by done. split; [done|].
      intros Hfound. rewrite (Hf Hfound). by rewrite <-!app_assoc.
    + exists [], t, false, [], base. split; [done|]. split; [constructor|]. split; [|done]. apply at_prefix_none.
      rewrite <-Hp, (app_assoc base). set (pre := base ++ prefix_of t).
      intros k a [[-> _]|(c & Hc & Hin)]%elem_of_entries [z Hz].
      * apply (f_equal length) in Hz. fold pre in Hz. rewrite !length_app in Hz. cbn in Hz. lia.
      * destruct (proj1 Hok c Hc) as [b2 Hb2]. apply (child_keys c b2) in Hin; [|by apply Hk|done].
        apply (Hn c Hc). rewrite Hb2. f_equal. apply (byte_conflict pre b2 b k); [done|]. exists (r ++ z). rewrite Hz, <-!app_assoc. done.
  - destruct (Nat.ltb_spec (length pfx) (length (pfx ++ bp :: p'))) as [_|Hl]; [|rewrite length_app in Hl; cbn in Hl; lia].
    exists [], t, false, (bp :: p'), base. split; [done|]. split; [constructor|]. split; [|done]. apply at_prefix_none.
    intros k a Hin [z Hz]. apply entries_under in Hin as [z' Hz']; [|done]. rewrite Hp in Hz'. cbn in Hd. apply Hd.
    rewrite Hz' in Hz. rewrite <-!app_assoc in Hz. apply app_inv_head in Hz. apply app_inv_head in Hz. cbn in Hz. congruence.
Qed.

Lemma findSubtree_spec key t :
  wf t →
  ∃ path node found leftover base', findSubtree key t = Ok (path, node, found, leftover) ∧ leads [] t path base' node ∧ wf node ∧
    at_prefix key (entries [] t) = (if found : bool then entries base' node else []) ∧
    (found = true → base' ++ prefix_of node = key ++ leftover).
Proof.
  intros Hwf. destruct (find_loop_spec (S (length key)) [] key t Hwf) as (path & node & found & leftover & base' & H1 & H2 & H3 & H4); [left; lia|].
  exists path, node, found, leftover, base'. split; [done|]. split; [done|]. split; [by eapply leads_wf|]. by split.
Qed.

(** An item is found by its key. *)
Lemma found_item key a base' node (found : bool) leftover l :
  wf node → at_prefix key l = (if found then entries base' node else []) → (found = true → base' ++ prefix_of node = key ++ leftover) →
  (key, a) ∈ l ↔ found = true ∧ leftover = [] ∧ t_item node = Some a.
Proof.
  intros Hwf Hl Hf. assert (E : (key, a) ∈ l ↔ (key, a) ∈ at_prefix key l).
  { unfold at_prefix. rewrite list_elem_of_filter. by split; [|intros [_ ?]]. }
  rewrite E, Hl. clear E Hl. destruct found; [|split; [by intros ?%not_elem_of_nil|by intros [? _]]]. specialize (Hf eq_refl).
  rewrite elem_of_entries, Hf. split.
  - intros [[E Ha]|(c & Hc & Hin)].
    + split; [done|]. split; [|done]. apply (app_inv_head key). by rewrite app_nil_r.
    + exfalso. destruct (wf_inv node Hwf) as [Hok Hk]. destruct (proj1 Hok c Hc) as [b Hb].
      apply (child_keys c b) in Hin; [|by apply Hk|done]. apply (not_extended (key ++ leftover) b). etrans; [exact Hin|by apply prefix_app_r].
  - intros (_ & -> & Ha). left. by rewrite app_nil_r.
Qed.

Lemma Get_items key t : trie_ok t → Get key t = Ok (items t !! key).
Proof.
  intros Ht. unfold Get. destruct (findSubtree_spec key t (proj1 Ht)) as (path & node & found & leftover & base' & -> & _ & Hn & Hl & Hf).
  cbn [mbind Result_bind]. f_equal. apply option_eq. intros a. rewrite items_lookup by done. rewrite (found_item key a base' node found leftover) by done.
  destruct found, leftover; cbn; naive_solver.
Qed.

(** ** Visiting *)

Section visiting.
Context {T : Type} (visitor : Prefix → A → M T unit).
Context (no_skip : ∀ k a s, (visitor k a s).1 ≠ Err SkipSubtree).

Definition visits (l : list (Prefix * A)) : M T unit := for_each (λ e, visitor e.1 e.2) l.

Lemma visits_app l l' s : visits (l ++ l') s = (visits l ≫= λ _, visits l') s.
Proof. apply for_each_app. Qed.

Lemma visit_item pre t (k : M T unit) s :
  (r ← attempt (match t_item t with Some item => visitor pre item | None => mret tt end);
   match r with inl _ => k | inr e => if decide (e = SkipSubtree) then mret tt else raise e end) s =
  (visits (here pre t) ≫= λ _, k) s.
Proof.
  unfold here. destruct (t_item t) as [a|]; [|done]. cbn [visits for_each]. unfold mbind, M_bind, attempt. cbn [fst snd].
  pose proof (no_skip pre a s) as Hs. destruct (visitor pre a s) as [[[]|e|c] s'] eqn:E; [done| |done].
  cbn in Hs. destruct (decide (e = SkipSubtree)) as [->|]; done.
Qed.

Lemma for_each_flat {B} (f : B → M T unit) (g : B → list (Prefix * A)) (l : list B) :
  (∀ x, x ∈ l → ∀ s, f x s = visits (g x) s) → ∀ s, for_each f l s = visits (flat_map g l) s.
Proof.
  induction l as [|x l IH]; intros H s; [done|]. cbn [for_each flat_map]. rewrite visits_app. unfold mbind, M_bind.
  rewrite H by (by left). destruct (visits (g x) s) as [[[]|e|c] s']; [|done..]. apply IH. intros y Hy. apply H. by right.
Qed.

Lemma walk_children_spec t : wf t → ∀ pre s, walk_children visitor pre t s = visits (below pre t) s.
Proof.
  induction 1 as [[p it ch] _ _ IH]. intros pre s. unfold below. cbn [walk_children t_children] in *.
  assert (Hvisit : ∀ c, c ∈ kids ch → ∀ s,
    (r ← attempt (match t_item c with Some item => visitor (pre ++ prefix_of c) item | None => mret tt end);
     match r with inl _ => walk_children visitor (pre ++ prefix_of c) c | inr e => if decide (e = SkipSubtree) then mret tt else raise e end) s
    = visits (entries pre c) s).
  { intros c Hc s0. rewrite visit_item, entries_eq, visits_app. unfold mbind, M_bind.
    destruct (visits (here (pre ++ prefix_of c) c) s0) as [[[]|e|f] s']; [by apply IH|done..]. }
  destruct ch as [l|min max l]; cbn [kids] in *; [by apply for_each_flat|].
  transitivity (visits (flat_map (λ place, match place with Some c => entries pre c | None => [] end) l) s).
  - apply for_each_flat. intros [c|] Hin s0; [|done]. apply Hvisit, list_elem_of_omap. by exists (Some c).
  - f_equal. clear. induction l as [|[c|] l IH]; [done| |done]. cbn. by rewrite IH.
Qed.

Lemma walk_spec t base s : wf t → walk visitor (Some (base ++ prefix_of t)) t s = visits (entries base t) s.
Proof.
  intros Hwf. unfold walk. cbn [default from_option]. unfold id. rewrite visit_item, entries_eq, visits_app. unfold mbind, M_bind.
  destruct (visits (here (base ++ prefix_of t) t) s) as [[[]|e|f] s']; [by apply walk_children_spec|done..].
Qed.

Lemma Visit_spec t s : wf t → Visit visitor t s = visits (entries [] t) s.
Proof. intros Hwf. rewrite <-walk_spec by done. done. Qed.

Lemma empty_entries t : trie_ok t → t_prefix t = None → entries [] t = [].
Proof. intros [_ He] Hp. destruct (He Hp) as [Hi Hk]. rewrite entries_eq. unfold here, below. by rewrite Hi, Hk. Qed.

Lemma VisitSubtree_spec key t s :
  trie_ok t → VisitSubtree visitor (Some key) t s = visits (at_prefix key (entries [] t)) s.
Proof.
  intros Ht. unfold VisitSubtree, non_nil, of_result, mbind, M_bind. destruct (t_prefix t) as [p|] eqn:Hp.
  - destruct (findSubtree_spec key t (proj1 Ht)) as (path & node & found & leftover & base' & -> & _ & Hn & -> & Hf).
    destruct found; cbn [negb]; [|done]. rewrite <-Hf by done. by apply walk_spec.
  - by rewrite (empty_entries t Ht Hp).
Qed.
End visiting.

(** ** Deleting *)

Lemma modify_spec base t path base' node :
  leads base t path base' node → wf t →
  ∃ L R, entries base t = L ++ entries base' node ++ R ∧
    ∀ f node', f node = Ok node' → wf node' → (path ≠ [] → first node' = first node) →
    ∃ t', modify_at path f t = Ok t' ∧ wf t' ∧ entries base t' = L ++ entries base' node' ++ R ∧
      (path = [] → t' = node') ∧ (path ≠ [] → t_prefix t' = t_prefix t).
Proof.
  induction 1 as [base t|base t i c path base' node Hi Hl IH]; intros Hwf.
  - exists [], []. rewrite app_nil_r. split; [done|]. intros f node' Hf Hn _. exists node'. by rewrite app_nil_r.
  - destruct (wf_inv t Hwf) as [Hok Hk]. destruct IH as (L & R & HE & IH); [apply Hk, elem_of_kids; by exists i|].
    destruct (child_split i c (t_children t) Hi) as (Lc & Rc & Hc & Hc'). set (pre := base ++ prefix_of t) in *.
    exists (here pre t ++ flat_map (entries pre) Lc ++ L), (R ++ flat_map (entries pre) Rc). split.
    { rewrite entries_eq. fold pre. unfold below. rewrite Hc, flat_map_app. cbn [flat_map]. rewrite HE. by rewrite <-!app_assoc. }
    intros f node' Hf Hn Hfirst. assert (Hfirst' : first node' = first node) by (by apply Hfirst).
    destruct (IH f node' Hf Hn (λ _, Hfirst')) as (c' & Hm & Hcw & Hce & Hnil & Hpre). cbn [modify_at]. rewrite Hi. cbn [mbind Result_bind].
    rewrite Hm. cbn [mbind Result_bind]. eexists. split; [done|].
    assert (E : first c' = first c).
    { destruct path as [|j path]; [|unfold first, prefix_of; by rewrite Hpre]. rewrite Hnil by done.
      by inversion Hl; subst. }
    split_and!; [| |done|done].
    + constructor; [by eapply list_ok_with_child|]. cbn [t_children with_children]. rewrite Hc'. intros c2 Hin.
      apply elem_of_app in Hin as [Hin|[->|Hin]%elem_of_cons]; [|done|]; apply Hk; rewrite Hc; set_solver.
    + rewrite entries_eq. change (prefix_of (with_children (with_child i c' (t_children t)) t)) with (prefix_of t). fold pre.
      unfold below, here. cbn [t_children t_item with_children]. rewrite Hc', flat_map_app. cbn [flat_map]. rewrite Hce. by rewrite <-!app_assoc.
Qed.
End tries.

(** ** Changing a trie *)

Section changing.
Context {A : Type} (MaxPrefixPerNode : nat).
Implicit Types (t c node : Trie A) (ch : childList (Trie A)) (item : A).

(** ** Compaction *)

Lemma compact_spec t :
  wf t →
  compact MaxPrefixPerNode t = Ok None ∨
  ∃ t', compact MaxPrefixPerNode t = Ok (Some t') ∧ (∀ base, entries base t' = entries base t) ∧ wf t' ∧
    (∀ b, first t = Ok b → first t' = Ok b) ∧ t_prefix t' ≠ None.
Proof.
  intros [Hok Hwf]%wf_inv. unfold compact. destruct (Nat.eqb_spec (child_count (t_children t)) 1) as [H1|]; cbn [negb]; [|by left].
  assert (∃ c, head (t_children t) = Ok c ∧ kids (t_children t) = [c]) as (c & -> & Hkids).
  { destruct (t_children t) as [l|min max l]; cbn in H1.
    - destruct l as [|c [|]]; try done. by exists c.
    - destruct Hok as (_ & _ & ? & _). lia. }
  cbn [mbind Result_bind]. destruct (t_item t) as [it|] eqn:Ht; [by left|]. destruct (t_item c) as [ic|] eqn:Hc; [by left|].
  destruct (Nat.ltb_spec MaxPrefixPerNode (length (prefix_of t) + length (prefix_of c))); [by left|]. right. eexists.
  split; [done|]. destruct (wf_inv c) as [Hokc Hwfc]; [apply Hwf; rewrite Hkids; by left|]. split_and!; [|by constructor| |done].
  - intros base. rewrite !(entries_eq base). unfold here, below. rewrite Hkids, Ht. cbn [t_item t_children flat_map app].
    rewrite app_nil_r, entries_eq. unfold here, below. rewrite Hc. cbn. by rewrite app_assoc.
  - intros b [r Hr]%first_prefix. unfold first, prefix_of in *. cbn. by rewrite Hr.
Qed.

Lemma compacted_spec t :
  wf t → t_prefix t ≠ None →
  ∃ t', compacted MaxPrefixPerNode t = Ok t' ∧ (∀ base, entries base t' = entries base t) ∧ wf t' ∧
    (∀ b, first t = Ok b → first t' = Ok b) ∧ t_prefix t' ≠ None.
Proof.
  intros Hwf Hp. unfold compacted. destruct (compact_spec t Hwf) as [->|(t' & -> & H)]; cbn; [by exists t|by exists t'].
Qed.

Lemma leads_last base t path base' node :
  leads base t path base' node → path ≠ [] →
  ∃ base0 parent i, leads base t (removelast path) base0 parent ∧ child_at i (t_children parent) = Ok node ∧
    base' = base0 ++ prefix_of parent.
Proof.
  induction 1 as [|base t i c path base' node Hi Hl IH]; intros Hne; [done|]. destruct path as [|j path].
  - inversion Hl; subst. exists base, t, i. split; [constructor|done].
  - destruct IH as (base0 & parent & k & H1 & H2 & H3); [done|]. exists base0, parent, k. split; [|done]. by econstructor.
Qed.

Lemma leads_first base t path base' node :
  leads base t path base' node → wf t → path ≠ [] → ∃ b, first node = Ok b.
Proof.
  intros Hl Hwf Hne. destruct (leads_last _ _ _ _ _ Hl Hne) as (base0 & parent & i & Hl0 & Hi & _).
  pose proof (leads_wf _ _ _ _ _ Hl0 Hwf) as [Hok _]%wf_inv. apply (proj1 Hok), elem_of_kids. by exists i.
Qed.

(** A node whose item is gone stands for what is below it. *)
Lemma emptied base node : wf node → wf (with_item None node) ∧ entries base (with_item None node) = below (base ++ prefix_of node) node.
Proof. intros Hwf. destruct (wf_inv node Hwf). split; [by constructor|by rewrite entries_eq]. Qed.

Lemma delete_node_spec t path base' node :
  leads [] t path base' node → wf t → t_prefix t ≠ None →
  ∃ L R t', entries [] t = L ++ entries base' node ++ R ∧ delete_node MaxPrefixPerNode path node t = Ok t' ∧
    wf t' ∧ t_prefix t' ≠ None ∧ entries [] t' = L ++ below (base' ++ prefix_of node) node ++ R.
Proof.
  intros Hl Hwf Hp. pose proof (leads_wf _ _ _ _ _ Hl Hwf) as Hn. destruct (emptied base' node Hn) as [Hn' He].
  unfold delete_node. destruct (compact_spec (with_item None node) Hn') as [->|(c & -> & Hce & Hcw & Hcf & Hcp)]; cbn [mbind Result_bind].
  - destruct (modify_spec _ _ _ _ _ Hl Hwf) as (L & R & HE & Hm).
    destruct (Hm (λ _, Ok (with_item None node)) _ eq_refl Hn' (λ _, eq_refl)) as (t' & Ht' & Hw & HE' & Hnil & Hpre).
    exists L, R, t'. split; [done|]. split; [by destruct path|]. rewrite HE', He. split_and!; [done| |done].
    destruct path; [|by rewrite Hpre]. inversion Hl; subst. by rewrite Hnil.
  - destruct path as [|i path].
    { inversion Hl; subst. exists [], [], c. rewrite app_nil_r, Hce, He. by rewrite app_nil_r. }
    destruct (leads_last _ _ _ _ _ Hl) as (base0 & parent & j & Hl0 & Hj & ->); [done|].
    pose proof (leads_wf _ _ _ _ _ Hl0 Hwf) as Hpw. destruct (wf_inv parent Hpw) as [Hok Hk].
    destruct (proj1 Hok node) as [b Hb]; [apply elem_of_kids; by exists j|].
    destruct (child_split j node (t_children parent) Hj) as (Lc & Rc & HEc & HEc').
    destruct (modify_spec _ _ _ _ _ Hl0 Hwf) as (L & R & HE & Hm). set (pre := base0 ++ prefix_of parent) in *.
    set (ch := with_child j c (t_children parent)).
    assert (Hch : wf (with_children ch parent)).
    { constructor; [eapply list_ok_with_child; [done..|]; rewrite Hb; by apply Hcf|]. unfold ch. cbn [t_children with_children]. rewrite HEc'.
      intros c2 Hin. apply elem_of_app in Hin as [Hin|[->|Hin]%elem_of_cons]; [|done|]; apply Hk; rewrite HEc; set_solver. }
    assert (Hpp : t_prefix parent ≠ None).
    { destruct (removelast (i :: path)) as [|i' path'] eqn:Er; [by inversion Hl0; subst|].
      destruct (leads_first _ _ _ _ _ Hl0 Hwf) as [bp [r Hr]%first_prefix]; [done|]. unfold prefix_of in Hr. by destruct (t_prefix parent). }
    destruct (compacted_spec (with_children ch parent) Hch Hpp) as (p' & Hp' & Hpe & Hpw' & Hpf & Hpn).
    set (f := λ parent : Trie A, b ← first (with_item None node); ch ← replace b c (t_children parent); compacted MaxPrefixPerNode (with_children ch parent)).
    assert (Hf : f parent = Ok p').
    { unfold f. change (first (with_item None node)) with (first node). rewrite Hb. cbn [mbind Result_bind].
      rewrite (replace_spec _ j node c b) by first [done|by apply Hcf]. exact Hp'. }
    destruct (Hm f p' Hf Hpw') as (t' & Ht' & Hw & HE' & Hnil & Hpre).
    { intros Hne. destruct (leads_first _ _ _ _ _ Hl0 Hwf Hne) as [bp Hbp]. rewrite Hbp. by apply Hpf. }
    exists (L ++ here pre parent ++ flat_map (entries pre) Lc), (flat_map (entries pre) Rc ++ R), t'. split_and!; [|exact Ht'|done| |].
    + rewrite HE, (entries_eq base0 parent). fold pre. unfold below. rewrite HEc, flat_map_app. cbn [flat_map]. by rewrite <-!app_assoc.
    + destruct (removelast (i :: path)); [by rewrite Hnil|by rewrite Hpre].
    + rewrite HE', Hpe, (entries_eq base0). change (prefix_of (with_children ch parent)) with (prefix_of parent). fold pre. unfold below, here.
      cbn [t_children t_item with_children]. unfold ch. rewrite HEc', flat_map_app. cbn [flat_map]. rewrite Hce, He. unfold below. by rewrite <-!app_assoc.
Qed.

Lemma Delete_items key a t :
  trie_ok t → items t !! key = Some a →
  ∃ t', Delete MaxPrefixPerNode (Some key) t = Ok (true, t') ∧ trie_ok t' ∧ items t' = base.delete key (items t).
Proof.
  intros Ht Ha%items_lookup; [|done]. unfold Delete. cbn [non_nil].
  destruct (t_prefix t) as [p|] eqn:Hp; [|by rewrite (empty_entries t Ht Hp) in Ha; apply elem_of_nil in Ha].
  destruct (findSubtree_spec key t (proj1 Ht)) as (path & node & found & leftover & base' & -> & Hl & Hn & He & Hf).
  cbn [mbind Result_bind]. pose proof Ha as (-> & -> & Hit)%(found_item key a base' node found leftover); [|done..].
  cbn [length Nat.eqb negb]. rewrite Hit. destruct (delete_node_spec t path base' node Hl) as (L & R & t' & HE & -> & Hw & Hp' & HE'); [apply Ht|by rewrite Hp|].
  cbn [mbind Result_bind]. exists t'. split; [done|]. split; [by split|].
  specialize (Hf eq_refl). rewrite app_nil_r in Hf. rewrite (entries_eq base' node), Hf in HE. unfold here in HE. rewrite Hit in HE.
  rewrite Hf in HE'. assert (Hperm : entries [] t ≡ₚ (key, a) :: entries [] t').
  { rewrite HE, HE'. cbn [app]. symmetry. apply Permutation_middle. }
  pose proof (keys_NoDup t (proj1 Ht) []) as Hnd. rewrite Hperm in Hnd. rewrite (items_perm t _ Hnd Hperm). cbn [list_to_map foldr uncurry fst snd].
  cbn in Hnd. apply NoDup_cons in Hnd as [Hnin Hnd]. fold (items t'). rewrite delete_insert_id; [done|].
  apply eq_None_not_Some. intros [a' Ha'%items_lookup]; [|by split]. apply Hnin. change key with (key, a').1. by apply list_elem_of_fmap_2.
Qed.

(** ** Inserting *)

Context (Hmax : 0 < MaxPrefixPerNode).

Lemma chain_spec fuel key item :
  0 < length key ≤ fuel →
  wf (chain MaxPrefixPerNode fuel key item) ∧
  (∀ b r, key = b :: r → first (chain MaxPrefixPerNode fuel key item) = Ok b) ∧
  (∀ base, entries base (chain MaxPrefixPerNode fuel key item) = [(base ++ key, item)]).
Proof.
  revert key. induction fuel as [|fuel IH]; intros key Hk; [lia|]. cbn [chain].
  destruct (Nat.leb_spec (length key) MaxPrefixPerNode).
  - split_and!; [|by intros b r ->|by intros base; rewrite entries_eq].
    constructor; [|by intros c ?%not_elem_of_nil]. split; [by intros c ?%not_elem_of_nil|]. split; [constructor|]. cbn. unfold MaxChildrenPerSparseNode. lia.
  - destruct (IH (drop MaxPrefixPerNode key)) as (Hwf & Hf & He); [rewrite length_drop; lia|]. split_and!.
    + constructor; cbn [t_children kids]; [|by intros c ->%list_elem_of_singleton].
      destruct (drop MaxPrefixPerNode key) as [|b r] eqn:E; [apply (f_equal length) in E; rewrite length_drop in E; cbn in E; lia|].
      split; [intros c ->%list_elem_of_singleton; exists b; by eapply Hf|]. split; [apply NoDup_singleton|]. cbn. unfold MaxChildrenPerSparseNode. lia.
    + intros b r ->. destruct MaxPrefixPerNode; [lia|done].
    + intros base. rewrite entries_eq. unfold here, below. cbn [t_item t_children kids flat_map app]. rewrite app_nil_r, He.
      unfold prefix_of. cbn. by rewrite <-app_assoc, take_drop.
Qed.

Lemma AppendChild_spec base replace key b r item t :
  wf t → key = b :: r → (∀ c, c ∈ kids (t_children t) → first c ≠ Ok b) →
  ∃ t', AppendChild MaxPrefixPerNode replace key item t = Ok (true, t') ∧ wf t' ∧ t_prefix t' = t_prefix t ∧
    puts base (prefix_of t ++ key) item replace t true t'.
Proof.
  intros [Hok Hwf]%wf_inv -> Hn. unfold AppendChild. set (key := b :: r).
  destruct (chain_spec (length key) key item) as (Hcw & Hcf & Hce); [cbn; lia|].
  destruct (add_spec (t_children t) (chain MaxPrefixPerNode (length key) key item) b) as (ch & -> & Hch & Hp); [done|by eapply Hcf|done|].
  cbn [mbind Result_bind]. eexists. split; [done|]. split_and!; [|done|].
  - constructor; [done|]. intros c. cbn [t_children with_children]. rewrite Hp. intros [->|Hc]%elem_of_cons; [done|by apply Hwf].
  - right. split_and!; [|done|].
    + intros a Hin. rewrite app_assoc, elem_of_entries in Hin. destruct Hin as [[E _]|(c & Hc & Hin)].
      * apply (f_equal length) in E. rewrite length_app in E. cbn in E. lia.
      * destruct (proj1 Hok c Hc) as [b' Hb']. apply (child_keys c b') in Hin; [|by apply Hwf|done].
        rewrite (byte_conflict (base ++ prefix_of t) b b' ((base ++ prefix_of t) ++ key)) in Hn; [by apply (Hn c)| |done].
        exists r. unfold key. by rewrite <-!app_assoc.
    + rewrite !(entries_eq base). unfold below. cbn [t_children with_children]. rewrite Hp. cbn [flat_map]. rewrite Hce.
      change (prefix_of (with_children ch t)) with (prefix_of t). rewrite (app_assoc base). symmetry. apply Permutation_middle.
Qed.

Lemma SplitPrefix_spec base replace pfx b p' key' item t :
  wf t → prefix_of t = pfx ++ b :: p' → differ key' (b :: p') →
  ∃ t', SplitPrefix MaxPrefixPerNode replace (length pfx) key' item t = Ok (true, t') ∧ wf t' ∧ t_prefix t' = Some pfx ∧
    puts base (pfx ++ key') item replace t true t'.
Proof.
  intros Hwf Hp Hd. unfold SplitPrefix. rewrite Hp, drop_app_length, take_app_length.
  destruct (wf_inv t Hwf) as [Hok Hk].
  destruct (compacted_spec (mkTrie (Some (b :: p')) (t_item t) (t_children t))) as (c & -> & He & Hc & Hf & _); [by constructor|done|].
  specialize (Hf b eq_refl). cbn [mbind Result_bind].
  destruct (add_spec (sparseChildList []) c b) as (ch & -> & Hch & Hperm); [|done|by intros ? ?%not_elem_of_nil|].
  { split; [by intros ? ?%not_elem_of_nil|]. split; [constructor|]. cbn. unfold MaxChildrenPerSparseNode. lia. }
  apply Permutation_singleton_r in Hperm. cbn [mbind Result_bind]. set (node := mkTrie (Some pfx) None ch).
  assert (Hnode : wf node). { constructor; [done|]. cbn [t_children node]. rewrite Hperm. by intros c' ->%list_elem_of_singleton. }
  assert (E : entries base node = entries base t).
  { rewrite (entries_eq base node). unfold here, below. cbn [t_item t_children node]. rewrite Hperm. cbn [flat_map app].
    rewrite app_nil_r, He, !entries_eq. unfold below, here. cbn [t_item t_children]. unfold prefix_of at 2 4. cbn.
    change (prefix_of node) with pfx. by rewrite Hp, <-app_assoc. }
  destruct key' as [|b' r'].
  - cbn [AppendChild InsertItem t_item node]. eexists. split; [done|].
    destruct (InsertItem_spec base replace item node Hnode) as (H1 & H2 & H3). split; [done|]. split; [done|].
    rewrite app_nil_r. by eapply puts_moved.
  - destruct (AppendChild_spec base replace (b' :: r') b' r' item node) as (t' & -> & Hw & Hpre & Hputs); [done|done| |].
    { cbn [t_children node]. rewrite Hperm. intros c' ->%list_elem_of_singleton Hb'. cbn in Hd. congruence. }
    exists t'. split; [done|]. split; [done|]. split; [done|]. by eapply puts_moved.
Qed.

Lemma put_loop_spec fuel : ∀ base replace key item t,
  wf t → enough fuel key t →
  ∃ inserted t', put_loop MaxPrefixPerNode fuel replace key item t = Ok (inserted, t') ∧ wf t' ∧
    (t_prefix t ≠ None → t_prefix t' ≠ None) ∧ (∀ b r, key = b :: r → first t = Ok b → first t' = Ok b) ∧
    puts base key item replace t inserted t'.
Proof.
  induction fuel as [|fuel IH]; intros base replace key item t Hwf Hfuel; [by destruct (enough_fuel _ _ _ Hfuel)|]. cbn [put_loop].
  unfold longestCommonPrefixLength. destruct (common_length_spec key (prefix_of t)) as (pfx & key' & p' & Hkey & Hp & -> & Hd).
  rewrite Hkey, drop_app_length. destruct p' as [|bp p'].
  - rewrite app_nil_r in Hp. rewrite Hp, Nat.ltb_irrefl. destruct key' as [|b r].
    + pose proof (InsertItem_spec base replace item t Hwf) as H. destruct (InsertItem replace item t) as [inserted t'] eqn:E.
      destruct H as (H1 & H2 & H3). exists inserted, t'. split; [done|]. split; [done|]. split; [by rewrite H2|].
      rewrite app_nil_r, <-Hp. split; [|done]. unfold first, prefix_of. by rewrite H2.
    + destruct (wf_inv t Hwf) as [Hok Hk]. destruct (next_spec b (t_children t) Hok) as [(i & c & -> & Hi & Hb)|[-> Hn]]; cbn [mbind Result_bind].
      * rewrite Hi. cbn [mbind Result_bind].
        assert (Hc : wf c) by (apply Hk, elem_of_kids; by exists i).
        destruct (IH (base ++ prefix_of t) replace (b :: r) item c) as (inserted & c' & -> & Hc' & _ & Hf & Hputs); [done|subst key; by eapply enough_below|].
        cbn [mbind Result_bind]. destruct (puts_child base i c c' (b :: r) item replace inserted t) as [H1 H2]; try done.
        { rewrite Hb. by eapply Hf. } { by exists b, r. }
        exists inserted, (with_children (with_child i c' (t_children t)) t). split; [done|]. split; [done|]. split; [done|]. split; [done|].
        by rewrite <-Hp.
      * destruct (AppendChild_spec base replace (b :: r) b r item t) as (t' & -> & H1 & H2 & H3); [done..|].
        exists true, t'. split; [done|]. split; [done|]. split; [by rewrite H2|]. split; [|by rewrite <-Hp].
        unfold first, prefix_of. by rewrite H2.
  - rewrite Hp. destruct (Nat.ltb_spec (length pfx) (length (pfx ++ bp :: p'))) as [_|Hl]; [|rewrite length_app in Hl; cbn in Hl; lia].
    destruct (SplitPrefix_spec base replace pfx bp p' key' item t) as (t' & -> & H1 & H2 & H3); [done..|].
    exists true, t'. split; [done|]. split; [done|]. split; [by rewrite H2|]. split; [|done].
    intros b r E Hf. apply first_prefix in Hf as [r' Hf]. rewrite Hp in Hf. unfold first, prefix_of. rewrite H2. cbn.
    destruct pfx as [|b0 pfx]; [|by injection Hf as ->]. cbn in E, Hf. subst key'. injection Hf as ->. by destruct Hd.
Qed.

Lemma put_spec replace key item t :
  trie_ok t →
  ∃ inserted t', put MaxPrefixPerNode (Some key) item replace t = Ok (inserted, t') ∧ trie_ok t' ∧
    puts [] key item replace t inserted t'.
Proof.
  intros [Hwf He]. unfold put. cbn [non_nil]. destruct (t_prefix t) as [p|] eqn:Hp.
  - destruct (put_loop_spec (S (length key)) [] replace key item t Hwf) as (inserted & t' & -> & H1 & H2 & _ & H3); [left; lia|].
    exists inserted, t'. split; [done|]. split; [|done]. split; [done|]. intros E. rewrite Hp in H2. by destruct H2.
  - destruct (He eq_refl) as [Hit Hkids]. destruct (wf_inv t Hwf) as [Hok Hk].
    assert (Ht : entries [] t = []). { rewrite entries_eq. unfold here, below. by rewrite Hit, Hkids. }
    assert (Hnode : ∀ p, wf (mkTrie (Some p) (t_item t) (t_children t)) ∧ entries [] (mkTrie (Some p) (t_item t) (t_children t)) = []).
    { intros p. split; [by constructor|]. rewrite entries_eq. unfold here, below. cbn. by rewrite Hit, Hkids. }
    destruct (Nat.leb_spec (length key) MaxPrefixPerNode) as [Hl|Hl].
    + destruct (Hnode key) as [Hn1 Hn2]. pose proof (InsertItem_spec [] replace item _ Hn1) as H.
      destruct (InsertItem replace item _) as [inserted t'] eqn:E. destruct H as (H1 & H2 & H3). exists inserted, t'.
      split; [done|]. split; [split; [done|by rewrite H2]|]. eapply puts_moved; [|exact H3]. by rewrite Hn2, Ht.
    + destruct (Hnode (take MaxPrefixPerNode key)) as [Hn1 Hn2]. destruct (drop MaxPrefixPerNode key) as [|b r] eqn:Hd.
      { apply (f_equal length) in Hd. rewrite length_drop in Hd. cbn in Hd. lia. }
      destruct (AppendChild_spec [] replace (b :: r) b r item _ Hn1) as (t' & E & H1 & H2 & H3); [done| |].
      { cbn [t_children]. rewrite Hkids. by intros c ?%not_elem_of_nil. }
      exists true, t'. split; [exact E|]. split; [split; [done|by rewrite H2]|]. unfold prefix_of in H3. cbn [t_prefix default from_option] in H3.
      unfold id in H3. rewrite <-Hd, take_drop in H3. eapply puts_moved; [|exact H3]. by rewrite Hn2, Ht.
Qed.

Lemma put_items replace key item t :
  trie_ok t →
  ∃ t', put MaxPrefixPerNode (Some key) item replace t = Ok (replace || bool_decide (items t !! key = None), t') ∧ trie_ok t' ∧
    items t' = if replace || bool_decide (items t !! key = None) then <[key := item]> (items t) else items t.
Proof.
  intros Ht. destruct (put_spec replace key item t Ht) as (inserted & t' & E & Ht' & Hputs).
  pose proof (keys_NoDup t (proj1 Ht) []) as Hnd. pose proof (keys_NoDup t' (proj1 Ht') []) as Hnd'.
  destruct Hputs as [(a & l & H1 & -> & H2)|(H1 & -> & H2)]; cbn [app] in *.
  - assert (Ha : items t !! key = Some a) by (apply items_lookup; [done|]; rewrite H1; by left).
    rewrite Ha, bool_decide_eq_false_2, orb_false_r by done. exists t'. split; [done|]. split; [done|].
    rewrite H1 in Hnd. rewrite H2 in Hnd'. rewrite (items_perm t _ Hnd H1), (items_perm t' _ Hnd' H2). cbn.
    destruct replace; [by rewrite insert_insert_eq|done].
  - assert (Ha : items t !! key = None). { apply eq_None_not_Some. intros [a Ha%items_lookup]; [by apply (H1 a)|done]. }
    rewrite Ha, bool_decide_eq_true_2, orb_true_r by done. exists t'. split; [done|]. split; [done|].
    rewrite H2 in Hnd'. by rewrite (items_perm t' _ Hnd' H2).
Qed.
End changing.


(** * Properties *)

(** C30: equivalence: a trie made by [NewTrie] and changed by inserting, setting and
    deleting holds the items of a finite map under their keys, whatever the length of a prefix
    in a node: inserting says whether the key is new and keeps the item of one that is not;
    getting is looking up; deleting a key that is there takes away its item only; and a
    subtree is visited by visiting the items whose keys start with its prefix, each once. *)
Theorem trie_is_map {A T} MaxPrefixPerNode (visitor : Prefix → A → M T unit) key item (t : Trie A) s :
  0 < MaxPrefixPerNode → trie_ok t → (∀ k a s, (visitor k a s).1 ≠ Err SkipSubtree) →
  let fresh := bool_decide (items t !! key = None) in
  (∃ t', Insert MaxPrefixPerNode (Some key) item t = Ok (fresh, t') ∧ trie_ok t' ∧
     items t' = if fresh then <[key := item]> (items t) else items t) ∧
  (∃ t', Set_ MaxPrefixPerNode (Some key) item t = Ok t' ∧ trie_ok t' ∧ items t' = <[key := item]> (items t)) ∧
  Get key t = Ok (items t !! key) ∧
  (is_Some (items t !! key) →
     ∃ t', Delete MaxPrefixPerNode (Some key) t = Ok (true, t') ∧ trie_ok t' ∧ items t' = base.delete key (items t)) ∧
  ∃ l, list_to_map l = filter (λ e, key `prefix_of` e.1) (items t) ∧ NoDup l.*1 ∧
    VisitSubtree visitor (Some key) t s = for_each (λ e, visitor e.1 e.2) l s.
Proof.
  intros Hmax Ht Hskip fresh. split_and!.
  - exact (put_items MaxPrefixPerNode Hmax false key item t Ht).
  - unfold Set_. destruct (put_items MaxPrefixPerNode Hmax true key item t Ht) as (t' & -> & H). by exists t'.
  - by apply Get_items.
  - intros [a Ha]. by eapply (Delete_items MaxPrefixPerNode).
  - exists (at_prefix key (entries [] t)). pose proof (keys_NoDup t (proj1 Ht) []) as Hnd. split_and!; [| |by apply VisitSubtree_spec].
    + rewrite map_filter_alt. unfold items. apply list_to_map_proper.
      * apply (sublist_NoDup _ _ Hnd), fmap_sublist, sublist_filter.
      * unfold at_prefix. by rewrite map_to_list_to_map.
    + apply (sublist_NoDup _ _ Hnd), fmap_sublist, sublist_filter.
Qed.

(** * Witnesses and failures *)

Lemma trie_is_map_witness :
  ∃ t', Insert 64 (Some (bytes "ab")) 1 NewTrie = Ok (true, t') ∧ items t' = {[bytes "ab" := 1]}.
Proof.
  destruct (trie_is_map 64 (λ _ _, mret tt : M unit unit) (bytes "ab") 1 NewTrie tt) as ((t' & H1 & _ & H2) & _);
    [lia|apply NewTrie_ok|done|]. exists t'. split; [exact H1|exact H2].
Defined.

Definition inserted (keys : list string) : Result (Trie nat) :=
  foldl (λ t key, t ← t; '(_, t') ← Insert 64 (Some (bytes key)) 1 t; Ok t') (Ok NewTrie) keys.

(** Deleting a key that is not there can delete another: the longest key in the trie that it
    starts with, when nothing below goes on with its next byte. *)
Lemma Delete_takes_ancestor :
  ∃ t, inserted ["ab"; "abd"; "x"] = Ok t ∧ Get (bytes "abc") t = Ok None ∧
    ∃ t', Delete 64 (Some (bytes "abc")) t = Ok (true, t') ∧ Get (bytes "ab") t = Ok (Some 1) ∧ Get (bytes "ab") t' = Ok None.
Proof. eexists. split; [vm_compute; reflexivity|]. split; [by vm_compute|]. eexists. split; [vm_compute; reflexivity|]. by vm_compute. Qed.

(** Deleting all of a trie leaves the root's item, which the next key is given. *)
Lemma DeleteSubtree_keeps_item :
  ∃ t, inserted ["ab"] = Ok t ∧
    ∃ t1 t2, DeleteSubtree (Some (bytes "a")) t = Ok (true, t1) ∧ Insert 64 (Some (bytes "x")) 2 t1 = Ok (false, t2) ∧
      Get (bytes "x") t2 = Ok (Some 1).
Proof.
  eexists. split; [vm_compute; reflexivity|]. do 2 eexists. split; [vm_compute; reflexivity|].
  split; [vm_compute; reflexivity|]. by vm_compute.
Qed.
