(* ===== verification/TruncIndex.v ===== *)
(** github.com/docker/docker/pkg/truncindex, vendored: the ids of the images in docker's graph,
    found by any prefix that only one of them has. The ids are kept twice, in a set and in a
    patricia trie; every operation is a critical section. *)
From Stdlib Require Import Ascii.
From S2P Require Import Prelude GoStd Patricia.

Local Open Scope string_scope.
Local Open Scope list_scope.

Definition ErrNoID : error := errors_New "prefix can't be empty".

(** [patricia.MaxPrefixPerNode], as [init] sets it *)
Definition MaxPrefixPerNode : nat := 64.

Record TruncIndex := mkTruncIndex { trie : Trie unit; ids : gset string }.

Definition set_ids (s : gset string) (idx : TruncIndex) : TruncIndex := mkTruncIndex (trie idx) s.
Definition set_trie (t : Trie unit) (idx : TruncIndex) : TruncIndex := mkTruncIndex t (ids idx).

(** A call of the trie that changes it *)
Definition on_trie (f : Trie unit → Result (bool * Trie unit)) : M TruncIndex bool := λ idx,
  match f (trie idx) with
  | Ok (b, t) => (Ok b, set_trie t idx)
  | Err e => (Err e, idx)
  | Crash c => (Crash c, idx)
  end.

Definition addId (id : string) : M TruncIndex unit :=
  exists_ ← gets (λ idx, bool_decide (id ∈ ids idx));
  if Contains id " " then raise (errors_New "Illegal character: ' '")
  else if String.eqb id "" then raise ErrNoID
  else if exists_ : bool then raise (errors_New ("Id already exists: '" +:+ id +:+ "'"))
  else
    modify (λ idx, set_ids ({[id]} ∪ ids idx) idx) ≫= λ _,
    inserted ← on_trie (Insert MaxPrefixPerNode (Some (bytes id)) tt);
    if inserted : bool then mret tt else raise (errors_New ("Failed to insert id: " +:+ id)).

Definition Add (id : string) : M TruncIndex unit := addId id.

Definition NewTruncIndex (l : list string) : Result TruncIndex :=
  let '(r, idx) := for_each (λ id, ignore_err (addId id)) l (mkTruncIndex NewTrie ∅) in
  _ ← r; Ok idx.

Definition No_such_id (id : string) : error := errors_New ("No such id: '" +:+ id +:+ "'").

Definition Delete (id : string) : M TruncIndex unit :=
  exists_ ← gets (λ idx, bool_decide (id ∈ ids idx));
  if negb exists_ || String.eqb id "" then raise (No_such_id id)
  else
    modify (λ idx, set_ids (ids idx ∖ {[id]}) idx) ≫= λ _,
    deleted ← on_trie (Patricia.Delete MaxPrefixPerNode (Some (bytes id)));
    if deleted : bool then mret tt else raise (No_such_id id).

Definition not_found (s : string) : error := errors_New ("No such id: " +:+ s).

(** [subTreeVisitFunc], whose variable [id] is the state *)
Definition visit (prefix : Prefix) (_ : unit) : M string unit := λ id,
  if negb (String.eqb id "") then (Err (errors_New "we've found two entries"), "")
  else (Ok tt, text prefix).

Definition Get (s : string) : M TruncIndex string :=
  if String.eqb s "" then raise ErrNoID
  else
    idx ← gets (λ idx, idx);
    match VisitSubtree visit (Some (bytes s)) (trie idx) "" with
    | (Ok _, id) => if negb (String.eqb id "") then mret id else raise (not_found s)
    | (Err _, _) => raise (not_found s)
    | (Crash c, _) => crash c
    end.

(** * The contract: a set of ids *)

(** The ids that start with [s] *)
Definition matching (s : string) (l : gset string) : gset string := filter (λ id, String.prefix s id = true) l.

Inductive call := CAdd (id : string) | CDelete (id : string) | CGet (s : string).

Definition perform (c : call) : M TruncIndex string :=
  match c with
  | CAdd id => Add id ≫= λ _, mret ""
  | CDelete id => Delete id ≫= λ _, mret ""
  | CGet s => Get s
  end.

Definition contract (c : call) : M (gset string) string := λ l,
  match c with
  | CAdd id =>
      if Contains id " " then (Err (errors_New "Illegal character: ' '"), l)
      else if String.eqb id "" then (Err ErrNoID, l)
      else if bool_decide (id ∈ l) then (Err (errors_New ("Id already exists: '" +:+ id +:+ "'")), l)
      else (Ok "", {[id]} ∪ l)
  | CDelete id =>
      if bool_decide (id ∈ l) then (Ok "", l ∖ {[id]}) else (Err (No_such_id id), l)
  | CGet s =>
      (if String.eqb s "" then Err ErrNoID
       else match elements (matching s l) with [id] => Ok id | _ => Err (not_found s) end, l)
  end.

(** The answers to a sequence of calls *)
Fixpoint run {S} (f : call → M S string) (l : list call) (s : S) : list (Result string) * S :=
  match l with
  | [] => ([], s)
  | c :: l => let '(r, s) := f c s in let '(rs, s) := run f l s in (r :: rs, s)
  end.

(** * Lemmas *)

Lemma bytes_text p : bytes (text p) = p.
Proof. apply String.list_ascii_of_string_of_list_ascii. Qed.
Lemma text_bytes s : text (bytes s) = s.
Proof. apply String.string_of_list_ascii_of_string. Qed.

Lemma bytes_inj s s' : bytes s = bytes s' → s = s'.
Proof. intros H. by rewrite <-(text_bytes s), H, text_bytes. Qed.

Lemma prefix_bytes s id : String.prefix s id = true ↔ bytes s `prefix_of` bytes id.
Proof.
  revert id. induction s as [|c s IH]; intros id; cbn.
  - split; [intros _; apply prefix_nil|by destruct id].
  - destruct id as [|c' id]; cbn; [split; [done|by intros ?%prefix_nil_not]|].
    destruct (ascii_dec c c') as [->|Hne].
    + rewrite IH. split; [apply prefix_cons|apply prefix_cons_inv_2].
    + split; [done|]. intros H%prefix_cons_inv_1. congruence.
Qed.

(** The trie holds the ids of the set. *)
Definition index_ok (idx : TruncIndex) : Prop :=
  trie_ok (trie idx) ∧ (∀ id, is_Some (items (trie idx) !! bytes id) ↔ id ∈ ids idx) ∧ "" ∉ ids idx.

Lemma empty_ok : index_ok (mkTruncIndex NewTrie ∅).
Proof. split; [apply NewTrie_ok|]. split; [|set_solver]. intros id. cbn. rewrite lookup_empty. split; [by intros [? ?]|set_solver]. Qed.

Lemma visit_no_skip k a s : (visit k a s).1 ≠ Err SkipSubtree.
Proof. unfold visit. by destruct (negb _). Qed.

(** Visiting gives the key of a single entry. *)
Lemma visited (l : list (Prefix * unit)) :
  (∀ k a, (k, a) ∈ l → text k ≠ "") →
  match l with
  | [] => visits visit l "" = (Ok tt, "")
  | [e] => visits visit l "" = (Ok tt, text e.1)
  | _ => ∃ e, visits visit l "" = (Err e, "")
  end.
Proof.
  intros Hne. destruct l as [|[k1 []] [|[k2 []] l]]; [done|done|]. unfold visits, mbind, M_bind. cbn.
  assert (String.eqb (text k1) "" = false) as E by (apply String.eqb_neq, (Hne k1 tt); by left). unfold mbind, M_bind, visit. cbn. rewrite E. by eexists.
Qed.

Lemma matched idx s :
  index_ok idx → text <$> (at_prefix (bytes s) (entries [] (trie idx))).*1 ≡ₚ elements (matching s (ids idx)).
Proof.
  intros (Ht & Hids & _). apply NoDup_Permutation; [|apply NoDup_elements|].
  - apply NoDup_fmap_2; [intros p p' E; by rewrite <-(bytes_text p), E, bytes_text|].
    apply (sublist_NoDup _ (entries [] (trie idx)).*1); [by apply keys_NoDup, Ht|]. apply fmap_sublist, sublist_filter.
  - intros id. unfold matching, at_prefix. rewrite elem_of_elements, elem_of_filter, prefix_bytes, <-Hids, list_elem_of_fmap. split.
    + intros (p & -> & ([k []] & -> & [Hp Hin]%list_elem_of_filter)%list_elem_of_fmap). cbn in *. rewrite bytes_text.
      split; [done|]. exists tt. by apply items_lookup.
    + intros [Hp [[] Hin%items_lookup]]; [|done]. exists (bytes id). split; [by rewrite text_bytes|].
      apply list_elem_of_fmap. exists (bytes id, tt). split; [done|]. by apply list_elem_of_filter.
Qed.

Lemma Get_contract idx s : index_ok idx → Get s idx = (fst (contract (CGet s) (ids idx)), idx).
Proof.
  intros Hok. unfold Get. cbn [contract fst]. destruct (String.eqb s "") eqn:Es; [done|]. unfold gets, mbind, M_bind.
  rewrite VisitSubtree_spec; [|exact visit_no_skip|apply Hok]. pose proof (matched idx s Hok) as Hm.
  set (l := at_prefix (bytes s) (entries [] (trie idx))) in *.
  assert (Hne : ∀ k a, (k, a) ∈ l → text k ≠ "").
  { intros k a [Hp _]%list_elem_of_filter E. cbn in Hp. rewrite <-(bytes_text k), E in Hp. apply prefix_nil_inv in Hp.
    by destruct s. }
  pose proof (visited l Hne) as Hv. destruct l as [|[k1 []] [|[k2 []] l]]; cbn in Hm.
  - symmetry in Hm. apply Permutation_nil_r in Hm. rewrite Hm. by rewrite Hv.
  - symmetry in Hm. apply Permutation_singleton_r in Hm. rewrite Hm, Hv. cbn [fst].
    destruct (String.eqb_spec (text k1) ""); [by destruct (Hne k1 tt ltac:(by left))|done].
  - destruct Hv as [e ->]. apply Permutation_length in Hm. cbn in Hm. by destruct (elements _) as [|x [|y m]].
Qed.

(** What an operation does is what the contract says. *)
Lemma perform_contract idx c :
  index_ok idx →
  let '(r, idx') := perform c idx in index_ok idx' ∧ contract c (ids idx) = (r, ids idx').
Proof.
  intros Hok. pose proof Hok as (Ht & Hids & Hne). destruct c as [id|id|s].
  - cbn [perform contract]. unfold Add, addId, mbind, M_bind, gets, raise. destruct (Contains id " "); [done|].
    destruct (String.eqb_spec id "") as [->|Hid]; [done|]. destruct (bool_decide_reflect (id ∈ ids idx)) as [Hin|Hin]; [done|].
    destruct (put_items MaxPrefixPerNode ltac:(unfold MaxPrefixPerNode; lia) false (bytes id) tt (trie idx) Ht) as (t' & Hput & Ht' & Hi).
    assert (Hnone : items (trie idx) !! bytes id = None) by (apply eq_None_not_Some; by rewrite Hids).
    unfold on_trie, modify, Insert. cbn [trie set_ids]. rewrite Hput. rewrite Hnone in Hi |- *.
    rewrite bool_decide_eq_true_2 in Hi |- * by done. cbn [orb] in Hi |- *.
    split; [|done]. split; [done|]. split; [|cbn; set_solver]. cbn [trie ids set_trie set_ids]. intros id'. rewrite Hi. destruct (decide (id' = id)) as [->|Hd].
    + rewrite lookup_insert_eq. set_solver.
    + rewrite lookup_insert_ne by (intros E; by apply bytes_inj in E). rewrite Hids. set_solver.
  - cbn [perform contract]. unfold Delete, mbind, M_bind, gets, raise. destruct (bool_decide_reflect (id ∈ ids idx)) as [Hin|Hin]; [|done].
    destruct (String.eqb_spec id "") as [->|Hid]; [done|]. cbn [negb orb]. pose proof (proj2 (Hids id) Hin) as [[] Ha].
    destruct (Delete_items MaxPrefixPerNode (bytes id) tt (trie idx) Ht Ha) as (t' & Hdel & Ht' & Hi).
    unfold on_trie, modify. cbn [trie set_ids]. rewrite Hdel. split; [|done]. split; [done|]. split; [|cbn; set_solver]. cbn [trie ids set_trie set_ids].
    intros id'. rewrite Hi. destruct (decide (id' = id)) as [->|Hd].
    + rewrite lookup_delete_eq. split; [by intros [? ?]|set_solver].
    + rewrite lookup_delete_ne by (intros E; by apply bytes_inj in E). rewrite Hids. set_solver.
  - cbn [perform]. rewrite Get_contract by done. split; [done|]. by cbn [contract fst].
Qed.

Lemma run_contract l idx :
  index_ok idx → let '(rs, idx') := run perform l idx in index_ok idx' ∧ run contract l (ids idx) = (rs, ids idx').
Proof.
  revert idx. induction l as [|c l IH]; intros idx Hok; [done|]. cbn [run]. pose proof (perform_contract idx c Hok) as H.
  destruct (perform c idx) as [r idx1]. destruct H as [Hok1 ->]. specialize (IH idx1 Hok1).
  destruct (run perform l idx1) as [rs idx2]. destruct IH as [? ->]. done.
Qed.

(** * Properties *)

(** C29: refinement: the index, with its trie, answers any sequence of calls as a set of ids does:
    an id is added unless it is empty, has a blank or is there; one that is there is deleted;
    and what is got by a prefix is the id that alone starts with it, an error when there is
    none or more than one. No call of the trie panics, and the set and the trie agree. *)
Theorem index_refines_set calls :
  ∃ idx, NewTruncIndex [] = Ok idx ∧
    (run perform calls idx).1 = (run contract calls ∅).1 ∧ ids (run perform calls idx).2 = (run contract calls ∅).2.
Proof.
  eexists. split; [reflexivity|]. pose proof (run_contract calls _ empty_ok) as H.
  destruct (run perform calls (mkTruncIndex NewTrie ∅)) as [rs idx']. destruct H as [_ H]. cbn [ids] in H. by rewrite H.
Qed.
