(* ===== verification/GraphDriver.v ===== *)
(** github.com/docker/docker/daemon/graphdriver, vendored: where docker's graph keeps the file
    systems of images, by id ([Driver]), how a driver is chosen (driver.go), and the driver
    that copies directories (vfs/driver.go). Aufs.v has the other driver that main.go links. *)
From S2P Require Import Prelude GoStd OS.

Local Open Scope string_scope.
Local Open Scope list_scope.
Local Open Scope Z_scope.

(** What drivers act on: the counts that the aufs driver keeps in memory, and the outside. *)
Record Host := mkHost { active : gmap string nat; h_trace : Trace }.

Definition trace_lens : Lens Host Trace := mkLens h_trace (λ h s, mkHost (active s) h).
#[export] Instance trace_lens_laws : LensLaws trace_lens.
Proof. by split; [|intros []|]. Qed.

Definition on_host {A} (m : M Trace A) : M Host A := zoom trace_lens m.

(** The interface [Differ], and [Driver] with the [Differ] that a driver may be.
    [Layer] is the type of archives. *)
Record Differ (Layer : Type) := mkDiffer {
  Diff : string → M Host Layer;
  ApplyDiff : string → Layer → M Host unit;
  DiffSize : string → M Host Z
}.
Arguments Diff {Layer} _ _.
Arguments ApplyDiff {Layer} _ _ _.
Arguments DiffSize {Layer} _ _.

Record Driver (Layer : Type) := mkDriver {
  d_String : string;
  d_Create : string → string → M Host unit;
  d_Remove : string → M Host unit;
  d_Get : string → string → M Host string;
  d_Put : string → M Host unit;
  d_Exists : string → M Host bool;
  d_Cleanup : M Host unit;
  d_Differ : option (Differ Layer)
}.
Arguments mkDriver {Layer} _ _ _ _ _ _ _ _.
Arguments d_String {Layer} _.
Arguments d_Create {Layer} _ _ _.
Arguments d_Remove {Layer} _ _.
Arguments d_Get {Layer} _ _ _.
Arguments d_Put {Layer} _ _.
Arguments d_Exists {Layer} _ _.
Arguments d_Cleanup {Layer} _.
Arguments d_Differ {Layer} _.

(** * driver.go *)

Definition ErrNotSupported : error := errors_New "driver not supported".
Definition ErrPrerequisites : error := errors_New "prerequisites for driver not satisfied (wrong filesystem?)".
Definition ErrIncompatibleFS : error := errors_New "backing file system is unsupported for this graph driver".

Definition priority : list string := ["aufs"; "btrfs"; "devicemapper"; "vfs"].

Section choosing.
Context {Layer : Type} {K : Kernel}.

Definition InitFunc : Type := string → list string → M Host (Driver Layer).

(** The map of registered drivers; it is iterated over in an order of its own. *)
Local Abbreviation Drivers := (list (string * InitFunc)).

Fixpoint registered (name : string) (drivers : Drivers) : option InitFunc :=
  match drivers with
  | [] => None
  | (n, init) :: rest => if String.eqb n name then Some init else registered name rest
  end.

Definition Register (name : string) (init : InitFunc) (drivers : Drivers) : Result Drivers :=
  match registered name drivers with
  | Some _ => Err (errors_New ("Name already registered " +:+ name))
  | None => Ok ((name, init) :: drivers)
  end.

Definition GetDriver (drivers : Drivers) (name home : string) (options : list string) : M Host (Driver Layer) :=
  match registered name drivers with
  | Some init => init (path_Join [home; name]) options
  | None => raise ErrNotSupported
  end.

(** The error of a driver that cannot be used here *)
Definition unusable (e : error) : bool :=
  bool_decide (e = ErrNotSupported) || bool_decide (e = ErrPrerequisites) || bool_decide (e = ErrIncompatibleFS).

(** The two loops over drivers: the first that can be used, or the error of one that fails *)
Fixpoint first_usable (l : list (M Host (Driver Layer))) (otherwise : M Host (Driver Layer)) : M Host (Driver Layer) :=
  match l with
  | [] => otherwise
  | init :: rest =>
      r ← attempt init;
      match r with
      | inl driver => mret driver
      | inr e => if unusable e then first_usable rest otherwise else raise e
      end
  end.

Definition New (DefaultDriver : string) (drivers : Drivers) (root : string) (options : list string) : M Host (Driver Layer) :=
  match List.filter (λ name, negb (String.eqb name "")) [getenv "DOCKER_DRIVER"; DefaultDriver] with
  | name :: _ => GetDriver drivers name root options
  | [] =>
      first_usable (map (λ name, GetDriver drivers name root options) priority)
        (first_usable (map (λ d, snd d root options) drivers) (raise (errors_New "No supported storage backend found")))
  end.
End choosing.

(** * vfs/driver.go *)

Module vfs.
Section vfs.
Context {Layer : Type} {K : Kernel} (home : string).

Definition isGNUcoreutils : M Trace bool :=
  r ← attempt (RunOutput (cmd "cp" ["--version"] []));
  mret (match r with inl stdout => Contains stdout "GNU coreutils" | inr _ => false end).

Definition copyDir (src dst : string) : M Trace unit :=
  gnu ← isGNUcoreutils;
  let argv := if gnu : bool then ["-aT"; "--reflink=auto"; src; dst] else ["-a"; src +:+ "/."; dst +:+ "/."] in
  '(output, err) ← CombinedOutput (cmd "cp" argv []);
  match err with
  | Some e => raise (errors_New ("Error VFS copying directory: " +:+ err_msg e +:+ " (" +:+ output +:+ ")"))
  | None => mret tt
  end.

Definition dir (id : string) : string := path_Join [home; "dir"; Base id].

Definition Get (id mountLabel : string) : M Trace string :=
  is_dir ← StatIsDir (dir id);
  if is_dir : bool then mret (dir id) else raise (errors_New (dir id +:+ ": not a directory")).

Definition Create (id parent : string) : M Trace unit :=
  MkdirAll (Dir (dir id)) ≫= λ _,
  Mkdir (dir id) ≫= λ _,
  if String.eqb parent "" then mret tt
  else
    r ← attempt (Get parent "");
    match r with
    | inl parentDir => copyDir parentDir (dir id)
    | inr e => raise (errors_New (parent +:+ ": " +:+ err_msg e))
    end.

Definition Remove (id : string) : M Trace unit := Stat (dir id) ≫= λ _, RemoveAll (dir id).

Definition Exists (id : string) : M Trace bool :=
  r ← attempt (Stat (dir id));
  mret (match r with inl _ => true | inr _ => false end).

Definition Driver_ : Driver Layer :=
  mkDriver "vfs" (λ id parent, on_host (Create id parent)) (λ id, on_host (Remove id))
    (λ id label, on_host (Get id label)) (λ _, mret tt) (λ id, on_host (Exists id)) (mret tt) None.
End vfs.

Definition Init {Layer} {K : Kernel} (home : string) (options : list string) : M Host (Driver Layer) := mret (Driver_ home).
End vfs.

(** * Lemmas *)

(** What main.go links: the aufs driver is used where it can be, else vfs; only an error that
    does not say that aufs cannot be used is one of start-up. *)
Lemma New_aufs_or_vfs {Layer} {K : Kernel} (aufs : InitFunc (Layer := Layer)) root s :
  getenv "DOCKER_DRIVER" = "" →
  New "" [("vfs", vfs.Init); ("aufs", aufs)] root [] s =
    match aufs (path_Join [root; "aufs"]) [] s with
    | (Ok d, s') => (Ok d, s')
    | (Err e, s') => if unusable e then (Ok (vfs.Driver_ (path_Join [root; "vfs"])), s') else (Err e, s')
    | (Crash c, s') => (Crash c, s')
    end.
Proof.
  intros Henv. unfold New. rewrite Henv. cbn [List.filter String.eqb negb map priority first_usable].
  change (GetDriver [("vfs", vfs.Init); ("aufs", aufs)] "aufs" root []) with (aufs (path_Join [root; "aufs"]) []).
  unfold mbind at 1, M_bind at 1, attempt at 1.
  destruct (aufs (path_Join [root; "aufs"]) [] s) as [[d|e|c] s']; [done| |done]. by destruct (unusable e).
Qed.
