(* ===== verification/Aufs.v ===== *)
(** github.com/docker/docker/daemon/graphdriver/aufs, vendored: the driver that stacks the
    directories of an image's layers in a union mount (aufs.go, dirs.go, mount.go), what it
    uses of pkg/mount (mount.go, mountinfo_linux.go), and MakePrivate of graphdriver/driver.go.

    Each operation is a critical section where the code locks; the counts of users are
    [active] of [Host] (GraphDriver.v). The label of a mount is not looked at, as in a build
    without SELinux. A mount with flags has them in front of its options. *)
From Stdlib Require Import Ascii.
From S2P Require Import Prelude GoStd OS JsonCodec Paths GraphDriver.

Local Open Scope string_scope.
Local Open Scope list_scope.
Local Open Scope Z_scope.

(** The lines that a [bufio.Scanner] finds in a text *)
Fixpoint drop_return (s : string) : string :=
  match s with
  | EmptyString => ""
  | String c EmptyString => if Ascii.eqb c "013" then "" else s
  | String c s => String c (drop_return s)
  end.
Definition scan_lines (text : string) : list string :=
  let l := Split text newline in
  map drop_return (match last l with Some "" => removelast l | _ => l end).

(** * pkg/mount *)

Record MountInfo := mkMountInfo { Mountpoint : string; Fstype : string }.

(** The text after the first [sub], or without its first two bytes when there is none *)
Fixpoint after (sub s : string) : option string :=
  if String.prefix sub s then Some (String.substring (String.length sub) (String.length s) s)
  else match s with EmptyString => None | String _ s => after sub s end.

Definition is_number (s : string) : bool := match ParseInt10 s with Ok _ => true | _ => false end.

(** A line: four numbers, the root, the mount point and the options; after the separator, three
    words *)
Definition parse_line (text : string) : Result MountInfo :=
  match ScanWords text with
  | id :: parent :: majmin :: root :: mountpoint :: opts :: _ =>
      match Split majmin ":" with
      | [major; minor] =>
          if forallb is_number [id; parent; major; minor] then
            let rest := match after " - " text with Some rest => rest | None => String.substring 2 (String.length text) text end in
            match ScanWords rest with
            | [fstype; source; vfsopts] => Ok (mkMountInfo mountpoint fstype)
            | _ => Err (errors_New ("Error did not find 3 fields post '-' in '" +:+ text +:+ "'"))
            end
          else Err (errors_New ("Scanning '" +:+ text +:+ "' failed"))
      | _ => Err (errors_New ("Scanning '" +:+ text +:+ "' failed"))
      end
  | _ => Err (errors_New ("Scanning '" +:+ text +:+ "' failed"))
  end.

Fixpoint parseInfoFile (lines : list string) : Result (list MountInfo) :=
  match lines with
  | [] => Ok []
  | text :: lines => p ← parse_line text; out ← parseInfoFile lines; Ok (p :: out)
  end.

Section mount.
Context {K : Kernel}.

Definition parseMountTable : M Trace (list MountInfo) :=
  text ← ReadFile "/proc/self/mountinfo"; of_result (parseInfoFile (scan_lines text)).

Definition Mounted (mountpoint : string) : M Trace bool :=
  entries ← parseMountTable;
  mret (existsb (λ e, String.eqb (Mountpoint e) mountpoint) entries).

Definition ForceMount (device target mType options : string) : M Trace unit := sys_ (SMount device target mType options).

(** [Mount], of options that have no remount among them *)
Definition Mount (device target mType options : string) : M Trace unit :=
  mounted ← Mounted target;
  if mounted : bool then mret tt else ForceMount device target mType options.

(** The loop of ForceUnmount: [n] more attempts after one that failed *)
Fixpoint unmount_again (n : nat) (target : string) (err : error) : M Trace unit :=
  match n with
  | O => raise err
  | S n => r ← attempt (sys_ (SUnmount target)); match r with inl _ => mret tt | inr e => unmount_again n target e end
  end.
Definition ForceUnmount (target : string) : M Trace unit :=
  r ← attempt (sys_ (SUnmount target));
  match r with inl _ => mret tt | inr e => unmount_again 9 target e end.

(** [mountpk.Unmount] *)
Definition mount_Unmount (target : string) : M Trace unit :=
  mounted ← Mounted target;
  if negb mounted then mret tt else ForceUnmount target.

Definition MakePrivate (mountPoint : string) : M Trace unit :=
  mounted ← Mounted mountPoint;
  (if negb mounted then Mount mountPoint mountPoint "none" "bind,rw" else mret tt) ≫= λ _,
  ForceMount "" mountPoint "none" "private".
End mount.

(** * aufs *)

Section aufs.
Context {Layer : Type} {K : Kernel} (os_IsNotExist os_IsExist : error → bool).

(** [syscall.Statfs]'s type of the file system; of archive and utils what the driver calls *)
Context (Statfs : string → M Trace Z) (TarWithOptions : string → M Trace Layer) (Untar : Layer → string → M Trace unit).
Context (TreeSize : string → M Trace Z).

Definition ErrAufsNotSupported : error := errors_New "AUFS was not found in /proc/filesystems".
Definition FsMagicBtrfs : Z := 2435016766.
Definition FsMagicAufs : Z := 1635083891.
Definition incompatibleFsMagic : list Z := [FsMagicBtrfs; FsMagicAufs].

Definition supportsAufs : M Trace unit :=
  ignore_err (Run (cmd "modprobe" ["aufs"] [])) ≫= λ _,
  text ← ReadFile "/proc/filesystems";
  if existsb (λ line, Contains line "aufs") (scan_lines text) then mret tt else raise ErrAufsNotSupported.

(** [mount.go], and the mount of [mount_linux.go] *)
Definition Unmount (target : string) : M Trace unit :=
  ignore_err (Run (cmd "auplink" [target; "flush"] [])) ≫= λ _, sys_ (SUnmount target).

Section driver.
Context (root : string).

(** ** dirs.go *)

(** The names of [path] that are no directories *)
Definition loadIds (path : string) : M Trace (list string) :=
  names ← ReadDir path;
  h ← gets id;
  mret (List.filter (λ n, negb (String.eqb (sys_output h (SLstat (path_Join [path; n]))) "d")) names).

Definition getParentIds (id : string) : M Trace (list string) :=
  text ← ReadFile (path_Join [root; "layers"; id]);
  mret (List.filter (λ t, negb (String.eqb t "")) (scan_lines text)).

(** ** aufs.go *)

Definition target (id : string) : string := path_Join [root; "mnt"; id].
Definition diff (id : string) : string := path_Join [root; "diff"; id].

Definition mounted (id : string) : M Trace bool := Mounted (target id).

Definition unmount (id : string) : M Trace unit :=
  m ← mounted id;
  if negb m then mret tt else Unmount (target id).

Definition getParentLayerPaths (id : string) : M Trace (list string) :=
  parentIds ← getParentIds id;
  match parentIds with
  | [] => raise (errors_New ("Dir " +:+ id +:+ " does not have any parent layers"))
  | _ => mret (map diff parentIds)
  end.

Definition tryMount (ro : list string) (rw tgt : string) : M Trace unit :=
  sys_ (SMount "none" tgt "aufs" ("br:" +:+ rw +:+ "=rw:" +:+ Join ro "=ro+wh:" +:+ "=ro+wh:,xino=/dev/shm/aufs.xino")).

Definition mountRw (rw tgt : string) : M Trace unit :=
  sys_ (SMount "none" tgt "aufs" ("br:" +:+ rw +:+ ",xino=/dev/shm/aufs.xino")).

Definition append_layer (tgt layer : string) : M Trace unit :=
  sys_ (SMount "none" tgt "aufs" ("remount,append:" +:+ layer +:+ "=ro+wh")).

Definition aufsMount (ro : list string) (rw tgt : string) : M Trace unit :=
  deferred_on_error (Unmount tgt)
    (r ← attempt (tryMount ro rw tgt);
     match r with
     | inl _ => mret tt
     | inr _ => mountRw rw tgt ≫= λ _, for_each (append_layer tgt) ro
     end).

Definition mount (id : string) : M Trace unit :=
  m ← mounted id;
  if m : bool then mret tt
  else layers ← getParentLayerPaths id; aufsMount layers (diff id) (target id).

Definition Exists (id : string) : M Trace bool :=
  r ← attempt (sys_ (SLstat (path_Join [root; "layers"; id])));
  mret (match r with inl _ => true | inr _ => false end).

Definition createDirsFor (id : string) : M Trace unit :=
  MkdirAll (target id) ≫= λ _, MkdirAll (diff id).

Definition Create (id parent : string) : M Trace unit :=
  createDirsFor id ≫= λ _,
  let f := path_Join [root; "layers"; id] in
  sys_ (SCreate f) ≫= λ _,
  deferred (sys_ (SClose f))
    (if String.eqb parent "" then mret tt
     else
       ids ← getParentIds parent;
       for_each (λ i, sys_ (SWrite f (i +:+ nl))) (parent :: ids)).

(** The count of an id; ids that nobody uses have none. *)
Definition count (id : string) (a : gmap string nat) : nat := default 0%nat (a !! id).

Definition set_active (f : gmap string nat → gmap string nat) : M Host unit := modify (λ s, mkHost (f (active s)) (h_trace s)).

(** A directory is moved out of the way, and removed when Remove returns. *)
Definition move_away (p id : string) : M Trace unit :=
  r ← attempt (Rename (path_Join [root; p; id]) (path_Join [root; p; id +:+ "-removing"]));
  match r with inl _ => mret tt | inr e => if os_IsNotExist e then mret tt else raise e end.
Definition remove_moved (p id : string) : M Trace unit := RemoveAll (path_Join [root; p; id +:+ "-removing"]).

Definition Remove (id : string) : M Trace unit :=
  unmount id ≫= λ _,
  move_away "mnt" id ≫= λ _,
  deferred (remove_moved "mnt" id)
    (move_away "diff" id ≫= λ _,
     deferred (remove_moved "diff" id)
       (r ← attempt (sys_ (SRemove (path_Join [root; "layers"; id])));
        match r with inl _ => mret tt | inr e => if os_IsNotExist e then mret tt else raise e end)).

Definition Get (id mountLabel : string) : M Host string :=
  r ← attempt (on_host (getParentIds id));
  ids ← match r with inl ids => mret ids | inr e => if os_IsNotExist e then mret [] else raise e end;
  n ← gets (λ s, count id (active s));
  out ← (match ids with
         | [] => mret (diff id)
         | _ => (if (n =? 0)%nat then on_host (mount id) else mret tt) ≫= λ _, mret (target id)
         end);
  set_active (<[id := S n]>) ≫= λ _, mret out.

Definition Put (id : string) : M Host unit :=
  n ← gets (λ s, count id (active s));
  if (1 <? n)%nat then set_active (<[id := pred n]>)
  else
    r ← attempt (on_host (getParentIds id));
    (match r with
     | inl (_ :: _) => ignore_err (on_host (unmount id))
     | _ => mret tt
     end) ≫= λ _,
    set_active (base.delete id).

Definition Cleanup : M Trace unit :=
  ids ← loadIds (path_Join [root; "layers"]);
  for_each (λ id, ignore_err (unmount id)) ids ≫= λ _,
  mount_Unmount root.

Definition Driver_ : Driver Layer :=
  mkDriver "aufs" (λ id parent, on_host (Create id parent)) (λ id, on_host (Remove id)) Get Put (λ id, on_host (Exists id)) (on_host Cleanup)
    (Some (mkDiffer _ (λ id, on_host (TarWithOptions (diff id))) (λ id l, on_host (Untar l (diff id))) (λ id, on_host (TreeSize (diff id))))).
End driver.

Definition Init (root : string) (options : list string) : M Host (Driver Layer) :=
  r ← attempt (on_host supportsAufs);
  match r with
  | inr _ => raise ErrNotSupported
  | inl _ =>
      s ← attempt (on_host (Statfs (Dir root)));
      match s with
      | inr e => raise (errors_New ("Couldn't stat the root directory: " +:+ err_msg e))
      | inl magic =>
          if existsb (Z.eqb magic) incompatibleFsMagic then raise ErrIncompatibleFS
          else
            made ← attempt (on_host (MkdirAll root));
            match made with
            | inr e => if os_IsExist e then mret (Driver_ root) else raise e
            | inl _ =>
                on_host (MakePrivate root) ≫= λ _,
                on_host (for_each (λ p, MkdirAll (path_Join [root; p])) ["mnt"; "diff"; "layers"]) ≫= λ _,
                mret (Driver_ root)
            end
      end
  end.
End aufs.

(** * Who uses an image finds it mounted *)

Section users.
Context {K : Kernel} (os_IsNotExist : error → bool) (names : list string).
Context (Hnames : names ≠ []) (Hplain : Forall plain_name names).
Local Abbreviation root := (abs_path names).
Local Abbreviation get := (Get os_IsNotExist root).
Local Abbreviation put := (Put root).

(** A mount on top of those that are there, or one more set of options for the topmost *)
Definition mount_with (options : string) (mounts : list (list string)) : list (list string) :=
  if String.prefix "remount," options then
    match mounts with [] => [] | top :: below => (top ++ [options]) :: below end
  else [options] :: mounts.

(** What is mounted at [t] after some calls, the last one first: the mounts from the topmost down,
    each with the options of the calls that made it *)
Fixpoint mounts_at (calls : Trace) (t : string) : list (list string) :=
  match calls with
  | [] => []
  | c :: before =>
      let mounts := mounts_at before t in
      match sys_error (reverse before) c, c with
      | None, SMount _ t' _ options => if String.eqb t' t then mount_with options mounts else mounts
      | None, SUnmount t' => if String.eqb t' t then tail mounts else mounts
      | _, _ => mounts
      end
  end.

(** The table of mounts tells what is mounted. *)
Definition MountTable : Prop := ∀ t h b h', Mounted t h = (Ok b, h') → b = negb (bool_decide (mounts_at (reverse h) t = [])).

(** The file of an image has its ancestors, and is there as long as the image is. *)
Context (parents : string → list string).
Definition LayerFiles : Prop := ∀ id h, plain_name id →
  match (getParentIds root id h).1 with Ok l => l = parents id | Err e => os_IsNotExist e = false | Crash _ => False end.

(** The options that mount an image with all its layers: its own directory to write to, and
    below it, to read, those of its ancestors, the nearest first; or its own alone, to which
    each of the others is then appended. *)
Definition whole (id : string) (options : list string) : Prop :=
  let rw := diff root id in
  let layers := map (diff root) (parents id) in
  options = ["br:" +:+ rw +:+ "=rw:" +:+ foldr (λ layer text, layer +:+ "=ro+wh:" +:+ text) "" layers +:+ ",xino=/dev/shm/aufs.xino"] ∨
  options = ("br:" +:+ rw +:+ ",xino=/dev/shm/aufs.xino") :: map (λ layer, "remount,append:" +:+ layer +:+ "=ro+wh") layers.

(** The image is mounted, once, with all its layers. *)
Definition image_mounted (id : string) (h : Trace) : Prop := ∃ options, mounts_at (reverse h) (target root id) = [options] ∧ whole id options.

(** What lacks a layer can be unmounted. *)
Definition HalfMountsGo : Prop := ∀ id h options, plain_name id →
  mounts_at (reverse h) (target root id) = [options] → ¬ whole id options → sys_error h (SUnmount (target root id)) = None.

Context (table : MountTable) (files : LayerFiles) (half : HalfMountsGo).

(** Nothing has changed at the places in [P]. *)
Definition keeps (P : string → Prop) : relation Trace := λ h h', ∀ t, P t → mounts_at (reverse h') t = mounts_at (reverse h) t.

#[local] Instance keeps_preorder P : PreOrder (keeps P).
Proof. split; [by intros h t|]. intros h1 h2 h3 H1 H2 t Ht. by rewrite H2, H1. Qed.

(** The calls that change nothing in [P] *)
Definition spares (P : string → Prop) (c : Syscall) : Prop :=
  match c with SMount _ t _ _ | SUnmount t => ¬ P t | _ => True end.

Lemma sys_keeps P c : spares P c → steps (keeps P) (sys c).
Proof.
  intros Hc h t Ht. unfold sys. cbn [snd]. rewrite reverse_snoc. cbn [mounts_at]. rewrite reverse_involutive.
  destruct (sys_error h c); [done|].
  destruct c; cbn in Hc; try done; match goal with |- context [String.eqb ?a t] => by destruct (String.eqb_spec a t) as [->|] end.
Qed.

Lemma sys__keeps P c : spares P c → steps (keeps P) (sys_ c).
Proof. intros Hc. unfold sys_. mstep; [by apply sys_keeps|mstep]. Qed.

Ltac keep := repeat first [mstep | apply sys__keeps; cbn; tauto | apply sys_keeps; cbn; tauto].

Lemma Mounted_keeps P t : steps (keeps P) (Mounted t).
Proof. unfold Mounted, parseMountTable, ReadFile. keep. Qed.
Lemma getParentIds_keeps P id : steps (keeps P) (getParentIds root id).
Proof. unfold getParentIds, ReadFile. keep. Qed.

(** All places but one *)
Definition other (t : string) : string → Prop := λ t', t' ≠ t.

Lemma Unmount_keeps t : steps (keeps (other t)) (Unmount t).
Proof. unfold Unmount, Run, other. keep. Qed.
Lemma unmount_keeps id : steps (keeps (other (target root id))) (unmount root id).
Proof. unfold unmount, mounted. mstep; [apply Mounted_keeps|]. mstep; [mstep|apply Unmount_keeps]. Qed.

Lemma aufsMount_keeps ro rw t : steps (keeps (other t)) (aufsMount ro rw t).
Proof.
  unfold aufsMount. mstep; [apply Unmount_keeps|]. unfold tryMount, mountRw, append_layer, other. keep.
Qed.

Lemma mount_keeps id : steps (keeps (other (target root id))) (mount root id).
Proof.
  unfold mount, mounted, getParentLayerPaths. mstep; [apply Mounted_keeps|]. mstep; [mstep|].
  mstep; [|apply aufsMount_keeps]. mstep; [apply getParentIds_keeps|keep].
Qed.

(** ** What is mounted for an image *)

(** Nothing, or the image with all its layers *)
Definition place_ok (id : string) (h : Trace) : Prop :=
  parents id ≠ [] → mounts_at (reverse h) (target root id) = [] ∨ image_mounted id h.

Lemma place_keeps id h h' : mounts_at (reverse h') (target root id) = mounts_at (reverse h) (target root id) →
  (place_ok id h → place_ok id h') ∧ (image_mounted id h → image_mounted id h').
Proof. unfold place_ok, image_mounted. by intros ->. Qed.

Lemma Join_foldr sep l : l ≠ [] → Join l sep +:+ sep = foldr (λ x text, x +:+ sep +:+ text) "" l.
Proof.
  intros Hl. induction l as [|x l IH]; [done|]. destruct l as [|y l]; [cbn; by rewrite string_app_nil|].
  change (Join (x :: y :: l) sep) with (x +:+ sep +:+ Join (y :: l) sep). rewrite !string_app_assoc, IH by done. done.
Qed.

Lemma sys_mount src t fs options h :
  let '(r, h') := sys_ (SMount src t fs options) h in
  match r with
  | Ok _ => mounts_at (reverse h') t = mount_with options (mounts_at (reverse h) t)
  | Err _ => mounts_at (reverse h') t = mounts_at (reverse h) t
  | Crash _ => False
  end.
Proof.
  rewrite sys__eq. destruct (sys_error h _) eqn:E; rewrite reverse_snoc; cbn [mounts_at]; by rewrite reverse_involutive, E, ?String.eqb_refl.
Qed.

Lemma appends_mounted t layers top h :
  mounts_at (reverse h) t = [top] →
  let '(r, h') := for_each (append_layer t) layers h in
  ∃ done rest, layers = done ++ rest ∧ mounts_at (reverse h') t = [top ++ map (λ layer, "remount,append:" +:+ layer +:+ "=ro+wh") done] ∧
    match r with Ok _ => rest = [] | Err _ => True | Crash _ => False end.
Proof.
  revert top h. induction layers as [|layer layers IH]; intros top h Hm; cbn [for_each].
  { exists [], []. cbn. by rewrite app_nil_r. }
  unfold mbind, M_bind. pose proof (sys_mount "none" t "aufs" ("remount,append:" +:+ layer +:+ "=ro+wh") h) as Hs. unfold append_layer at 1.
  destruct (sys_ _ h) as [[u|e|c] h1].
  - rewrite Hm in Hs. specialize (IH _ _ Hs). destruct (for_each _ layers h1) as [r h2]. destruct IH as (dn & rest & -> & IH & Hr).
    exists (layer :: dn), rest. split; [done|]. split; [by rewrite IH, <-app_assoc|done].
  - exists [], (layer :: layers). cbn. by rewrite app_nil_r, Hs.
  - done.
Qed.

(** Unmounting takes away the one mount there is, unless it fails on a whole one. *)
Lemma Unmount_place id h :
  plain_name id → (∃ options, mounts_at (reverse h) (target root id) = [options]) ∨ mounts_at (reverse h) (target root id) = [] →
  let h' := (Unmount (target root id) h).2 in
  mounts_at (reverse h') (target root id) = [] ∨ image_mounted id h'.
Proof.
  intros Hp Hm. set (t := target root id) in *. unfold Unmount, Run, ignore_err, attempt, mbind, M_bind.
  assert (Hk : mounts_at (reverse (sys_ (SRun (cmd "auplink" [t; "flush"] [])) h).2) t = mounts_at (reverse h) t) by (by apply (sys__keeps (λ _, True))).
  assert (Hend : ∀ h1, mounts_at (reverse h1) t = mounts_at (reverse h) t →
    mounts_at (reverse (sys_ (SUnmount t) h1).2) t = [] ∨ image_mounted id (sys_ (SUnmount t) h1).2).
  { intros h1 H1. rewrite sys__trace. unfold image_mounted. fold t. rewrite reverse_snoc. cbn [mounts_at]. rewrite reverse_involutive, String.eqb_refl.
    destruct Hm as [[options Hm]|Hm]; rewrite Hm in H1; [|left; rewrite H1; by destruct (sys_error _ _)].
    destruct (sys_error h1 (SUnmount t)) as [e|] eqn:E; rewrite H1; [|by left]. right. exists options. split; [done|].
    destruct (decide (whole id options)) as [Hw|Hw]; [done|]. pose proof (half id h1 options Hp H1 Hw) as Hx. fold t in Hx. congruence. }
  rewrite sys__eq in Hk |- *. cbn [snd] in Hk. destruct (sys_error h _); by apply Hend.
Qed.

(** Mounting mounts all layers or leaves nothing. *)
Lemma aufsMount_place id h :
  plain_name id → parents id ≠ [] → mounts_at (reverse h) (target root id) = [] →
  let '(r, h') := aufsMount (map (diff root) (parents id)) (diff root id) (target root id) h in
  place_ok id h' ∧ match r with Ok _ => image_mounted id h' | _ => True end.
Proof.
  intros Hp Hpar Hm. unfold aufsMount, deferred_on_error.
  assert (Hno : ∀ h1 e, (∃ options, mounts_at (reverse h1) (target root id) = [options]) ∨ mounts_at (reverse h1) (target root id) = [] →
    let '(r, h') := (ignore_err (Unmount (target root id)) ≫= λ _, raise (A := unit) e) h1 in
    place_ok id h' ∧ match r with Ok _ => image_mounted id h' | _ => True end).
  { intros h1 e H1. pose proof (Unmount_place id h1 Hp H1) as H. cbn zeta in H. unfold ignore_err, attempt, mbind, M_bind, raise.
    destruct (Unmount _ h1) as [[]]; (split; [|done]; by intros _). }
  unfold mbind at 1, M_bind at 1, attempt at 1. unfold mbind at 1, M_bind at 1, attempt at 1. unfold tryMount.
  match goal with |- context [SMount _ _ _ ?o] => pose proof (sys_mount "none" (target root id) "aufs" o h) as Hs end.
  destruct (sys_ _ h) as [[u|e|c] h1]; rewrite ?Hm in Hs.
  - assert (Hi : image_mounted id h1); [|split; [by right|done]]. eexists. split; [exact Hs|]. left. f_equal.
    rewrite <-Join_foldr, !string_app_assoc by by destruct (parents id). done.
  - unfold mountRw. unfold mbind at 1, M_bind at 1.
    match goal with |- context [SMount _ _ _ ?o] => pose proof (sys_mount "none" (target root id) "aufs" o h1) as Hs2 end.
    destruct (sys_ _ h1) as [[u|e2|c] h2]; rewrite ?Hs in Hs2; [|by apply Hno; right|done].
    pose proof (appends_mounted (target root id) (map (diff root) (parents id)) _ h2 Hs2) as Ha.
    destruct (for_each _ _ h2) as [r h3]. destruct Ha as (dn & rest & Hd & Ha & Hr). destruct r as [u2|e2|c].
    + assert (Hi : image_mounted id h3); [|split; [by right|done]]. eexists. split; [exact Ha|]. right. rewrite Hd, Hr, app_nil_r. done.
    + apply Hno. left. by eexists.
    + done.
  - done.
Qed.

(** Mounting leaves the image mounted with all its layers, or not mounted. *)
Lemma mount_place id h :
  plain_name id → place_ok id h →
  let '(r, h') := mount root id h in
  place_ok id h' ∧ match r with Ok _ => parents id ≠ [] → image_mounted id h' | _ => True end.
Proof.
  intros Hp Hok. unfold mount, mounted, getParentLayerPaths. pose proof (Mounted_keeps (λ _, True) (target root id) h (target root id) I) as Hk.
  unfold mbind at 1, M_bind at 1. destruct (Mounted (target root id) h) as [[m|e|c] h1] eqn:Em; cbn [snd] in Hk.
  2,3: split; [by apply (place_keeps id h)|done].
  apply table in Em. destruct m.
  - split; [by apply (place_keeps id h)|]. intros Hpar. apply (place_keeps id h); [done|]. destruct (Hok Hpar) as [E|Hi]; [|done].
    rewrite E in Em. done.
  - symmetry in Em. apply negb_false_iff, bool_decide_eq_true in Em. rewrite Em in Hk.
    unfold mbind at 1, M_bind at 1. unfold mbind at 1, M_bind at 1. pose proof (files id h1 Hp) as Hf. pose proof (getParentIds_keeps (λ _, True) id h1 (target root id) I) as Hk2.
    rewrite Hk in Hk2. destruct (getParentIds root id h1) as [[l|e|c] h2]; cbn [fst snd] in Hf, Hk2; [subst l| |done].
    2: { split; [by intros _; left|done]. }
    destruct (parents id) as [|p ps] eqn:Epar; [split; [intros []; done|done]|]. rewrite <-Epar.
    pose proof (aufsMount_place id h2 Hp ltac:(by rewrite Epar) Hk2) as H. cbn [mret M_ret].
    destruct (aufsMount _ _ _ h2) as [r h3]. destruct H as [H1 H2]. split; [done|]. by destruct r.
Qed.

Lemma unmount_place id h : plain_name id → place_ok id h → place_ok id (unmount root id h).2.
Proof.
  intros Hp Hok Hpar. unfold unmount, mounted, mbind, M_bind. pose proof (Mounted_keeps (λ _, True) (target root id) h (target root id) I) as Hk.
  destruct (Mounted (target root id) h) as [[m|e|c] h1]; cbn [snd] in *; [|by apply (place_keeps id h)..].
  destruct (negb m); [by apply (place_keeps id h)|]. apply Unmount_place; [done|]. rewrite Hk.
  destruct (Hok Hpar) as [E|(options & E & _)]; [by right|left; by exists options].
Qed.

(** ** The invariant *)

(** The state between calls: no image is mounted but with all its layers, and what has users,
    and layers, is mounted. *)
Definition used_mounted (s : Host) : Prop := ∀ id, plain_name id →
  place_ok id (h_trace s) ∧ ((0 < count id (active s))%nat → parents id ≠ [] → image_mounted id (h_trace s)).

Lemma target_inj id id' : plain_name id → plain_name id' → target root id = target root id' → id = id'.
Proof.
  intros H H' E. unfold target in E. rewrite !path_Join_abs2 in E by (done || by repeat split).
  assert (Hf : ∀ x, plain_name x → Forall plain_name (names ++ ["mnt"; x])).
  { intros x Hx. apply Forall_app. split; [done|]. constructor; [by repeat split|by constructor]. }
  apply abs_inj in E; [|by destruct names..|by apply Hf|by apply Hf].
  apply app_inv_head in E. by injection E.
Qed.

Lemma count_insert id id' n a : count id' (<[id := n]> a) = if decide (id' = id) then n else count id' a.
Proof. unfold count. destruct (decide (id' = id)) as [->|Hne]; [by rewrite lookup_insert_eq|by rewrite lookup_insert_ne]. Qed.

Lemma count_delete id id' a : count id' (base.delete id a) = if decide (id' = id) then 0%nat else count id' a.
Proof. unfold count. destruct (decide (id' = id)) as [->|Hne]; [by rewrite lookup_delete_eq|by rewrite lookup_delete_ne]. Qed.

(** The invariant after a call that may change the count of [id] and what is mounted for it *)
Lemma used_after id s a h :
  plain_name id → used_mounted s → keeps (other (target root id)) (h_trace s) h →
  (∀ id', id' ≠ id → count id' a = count id' (active s)) → place_ok id h →
  ((0 < count id a)%nat → parents id ≠ [] → image_mounted id h) → used_mounted (mkHost a h).
Proof.
  intros Hp Hu Hk Ha Hpl Hid id' Hp'. cbn. destruct (decide (id' = id)) as [->|Hne]; [done|].
  assert (E : mounts_at (reverse h) (target root id') = mounts_at (reverse (h_trace s)) (target root id')).
  { apply Hk. intros E. by apply Hne, target_inj. }
  rewrite Ha by done. destruct (Hu id' Hp') as [H1 H2]. destruct (place_keeps id' _ _ E) as [E1 E2]. auto.
Qed.

(** A call that mounts and unmounts nothing *)
Lemma used_quiet id s a h :
  plain_name id → used_mounted s → keeps (λ _, True) (h_trace s) h →
  (∀ id', id' ≠ id → count id' a = count id' (active s)) →
  ((0 < count id a)%nat → parents id ≠ [] → (0 < count id (active s))%nat) → used_mounted (mkHost a h).
Proof.
  intros Hp Hu Hk Ha Hc. destruct (Hu id Hp) as [H1 H2]. destruct (place_keeps id (h_trace s) h (Hk _ I)) as [E1 E2].
  apply (used_after id s); auto. intros t _. by apply Hk.
Qed.

Lemma parseInfoFile_returns l : no_crash (parseInfoFile l).
Proof.
  induction l as [|text l IH]; [done|]. cbn. apply no_crash_bind.
  - unfold parse_line. intros c. by repeat case_match.
  - intros p. apply no_crash_bind; [exact IH|done].
Qed.

Lemma unmount_returns id h : match (unmount root id h).1 with Crash _ => False | _ => True end.
Proof.
  unfold unmount, mounted, Mounted, parseMountTable, ReadFile, Unmount, Run, ignore_err, attempt, mbind, M_bind, of_result, sys_.
  unfold sys at 1. destruct (sys_error h _); cbn; [done|]. destruct (parseInfoFile _) as [l|e|c] eqn:E; cbn; [|done|by apply parseInfoFile_returns in E].
  destruct (negb _); [done|]. unfold mbind, M_bind, sys. repeat (case_match; cbn in *; simplify_eq; try done).
Qed.

(** What [Get] and [Put] do to the counts, and that they keep the invariant *)
Lemma Get_users id label s :
  plain_name id → used_mounted s →
  let '(r, s') := get id label s in
  used_mounted s' ∧
  match r with
  | Ok p => active s' = <[id := S (count id (active s))]> (active s) ∧ p = (match parents id with [] => diff root id | _ => target root id end)
  | _ => active s' = active s
  end.
Proof.
  intros Hp Hu. destruct s as [a h]. unfold Get, set_active. pose proof (files id h Hp) as Hf. pose proof (getParentIds_keeps (λ _, True) id h) as Hk.
  assert (E0 : on_host (getParentIds root id) (mkHost a h) = (let '(r, h1) := getParentIds root id h in (r, mkHost a h1))) by done.
  unfold mbind, M_bind, attempt. rewrite E0.
  destruct (getParentIds root id h) as [[l|e|c] h1]; cbn [fst snd] in *; [subst l| |done].
  2: { rewrite Hf. cbn. split; [|done]. by apply (used_quiet id (mkHost a h)). }
  destruct (Hu id Hp) as [Hpl Hcount]. cbn in Hpl, Hcount. destruct (place_keeps id h h1 (Hk _ I)) as [Hpl1 _]. specialize (Hpl1 Hpl).
  destruct (parents id) as [|p ps] eqn:Epar.
  - cbn. split; [|done]. apply (used_quiet id (mkHost a h)); [done..| |congruence].
    intros id' Hne. by rewrite count_insert, decide_False.
  - unfold gets, modify, mret, M_ret. cbn [active]. destruct (Nat.eqb_spec (count id a) 0) as [E|E].
    + unfold on_host, zoom. cbn [view over trace_lens h_trace active]. pose proof (mount_keeps id h1) as Hk3. pose proof (mount_place id h1 Hp Hpl1) as Hm.
      assert (Hk1 : keeps (other (target root id)) h h1) by (intros t _; by apply Hk).
      destruct (mount root id h1) as [[u|e|c] h2]; cbn in Hk3 |- *; destruct Hm as [Hm1 Hm2]; (split; [|done]);
        (apply (used_after id (mkHost a h)); [done|done|etrans; [exact Hk1|exact Hk3]| |exact Hm1|]); try done.
      * intros id' Hne. by rewrite count_insert, decide_False.
      * cbn. lia.
      * cbn. lia.
    + cbn. split; [|done]. apply (used_quiet id (mkHost a h)); [done..| |cbn; lia].
      intros id' Hne. by rewrite count_insert, decide_False.
Qed.

Lemma Put_users id s :
  plain_name id → used_mounted s →
  let '(r, s') := put id s in
  used_mounted s' ∧ r = Ok tt ∧ ∀ id', count id' (active s') = if decide (id' = id) then pred (count id (active s)) else count id' (active s).
Proof.
  intros Hp Hu. destruct s as [a h]. unfold Put, set_active, gets, modify, ignore_err, mbind, M_bind, mret, M_ret. cbn [active].
  destruct (Nat.ltb_spec 1 (count id a)) as [E|E].
  { cbn. split; [|split; [done|intros id'; apply count_insert]]. apply (used_quiet id (mkHost a h)); [done..| |cbn; lia].
    intros id' Hne. by rewrite count_insert, decide_False. }
  pose proof (files id h Hp) as Hf. pose proof (getParentIds_keeps (λ _, True) id h) as Hk.
  assert (E0 : on_host (getParentIds root id) (mkHost a h) = (let '(r, h1) := getParentIds root id h in (r, mkHost a h1))) by done.
  unfold attempt. rewrite E0. destruct (Hu id Hp) as [Hpl _]. cbn in Hpl.
  assert (Hend : ∀ h', keeps (other (target root id)) h h' → place_ok id h' → used_mounted (mkHost (base.delete id a) h') ∧
    ∀ id', count id' (base.delete id a) = if decide (id' = id) then pred (count id a) else count id' a).
  { intros h' Hk' Hpl'. split.
    - apply (used_after id (mkHost a h)); [done..| |done|].
      + intros id' Hne. by rewrite count_delete, decide_False.
      + rewrite count_delete, decide_True by done. lia.
    - intros id'. rewrite count_delete. case_decide; [lia|done]. }
  destruct (getParentIds root id h) as [r1 h1]. cbn [fst snd] in *.
  assert (Hk1 : keeps (other (target root id)) h h1) by (intros t _; by apply Hk).
  pose proof (proj1 (place_keeps id h h1 (Hk _ I)) Hpl) as Hpl1. destruct r1 as [l|e|c]; [| |done].
  2: { cbn. by destruct (Hend h1 Hk1 Hpl1). }
  destruct l as [|p ps]; [cbn; by destruct (Hend h1 Hk1 Hpl1)|].
  unfold on_host, zoom. cbn [view over trace_lens h_trace active]. pose proof (unmount_keeps id h1) as Hk3. pose proof (unmount_place id h1 Hp Hpl1) as Hpl2.
  pose proof (unmount_returns id h1) as Hret. destruct (unmount root id h1) as [[u|e|c] h2]; cbn in Hk3, Hpl2 |- *; [| |done].
  all: destruct (Hend h2) as [H1 H2]; [etrans; [exact Hk1|exact Hk3]|exact Hpl2|done].
Qed.

(** ** Sequences of calls *)

Inductive use := UGet (id label : string) | UPut (id : string).

Definition use_id (u : use) : string := match u with UGet id _ | UPut id => id end.

Definition run_use (u : use) : M Host string :=
  match u with UGet id label => get id label | UPut id => put id ≫= λ _, mret "" end.

(** Each call, what it returned, and the state it left *)
Record entry := mkEntry { e_use : use; e_result : Result string; e_after : Host }.

Fixpoint run_uses (l : list use) (s : Host) : list entry :=
  match l with
  | [] => []
  | u :: l => let '(r, s) := run_use u s in mkEntry u r s :: run_uses l s
  end.

(** The users of [id] after a call, if there were [n] before *)
Definition users_after (id : string) (n : nat) (e : entry) : nat :=
  match e_use e, e_result e with
  | UGet id' _, Ok _ => if decide (id' = id) then S n else n
  | UGet _ _, _ => n
  | UPut id', _ => if decide (id' = id) then pred n else n
  end.

(** What holds of a call: who uses an image finds it mounted then, and the directory that is
    returned is the mount, or that of an image that has no layers below it. *)
Definition entry_ok (e : entry) : Prop :=
  used_mounted (e_after e) ∧
  ∀ id label p, e_use e = UGet id label → e_result e = Ok p → p = match parents id with [] => diff root id | _ => target root id end.

Lemma run_use_ok u s :
  plain_name (use_id u) → used_mounted s →
  let '(r, s') := run_use u s in
  entry_ok (mkEntry u r s') ∧ ∀ id, count id (active s') = users_after id (count id (active s)) (mkEntry u r s').
Proof.
  intros Hp Hu. destruct u as [id label|id]; cbn [use_id run_use] in *.
  - pose proof (Get_users id label s Hp Hu) as H. destruct (get id label s) as [r s']. destruct H as [H1 H2]. split.
    + split; [done|]. cbn. intros ? ? p [= <- <-] ->. apply H2.
    + intros id'. cbn. destruct r as [p|e|c]; [|by rewrite H2..]. destruct H2 as [-> _]. rewrite count_insert.
      destruct (decide (id' = id)) as [->|Hne]; [by rewrite decide_True|by rewrite decide_False].
  - pose proof (Put_users id s Hp Hu) as H. unfold mbind, M_bind. destruct (put id s) as [r s']. destruct H as (H1 & -> & H2). cbn. split.
    + split; [done|]. by intros ? ? ? [=].
    + intros id'. cbn. rewrite H2. destruct (decide (id' = id)) as [->|Hne]; [by rewrite decide_True|by rewrite decide_False].
Qed.
End users.

(** * Properties *)


(** * Failures of the code *)

(** Removing an image forgets neither its users nor, so, that it was mounted: when an image that
    was removed while it had users is made again, [Get] returns a mount that is not there. *)
Lemma removed_keeps_count {K : Kernel} no root id s : active (on_host (Remove no root id) s).2 = active s.
Proof. unfold on_host, zoom. by destruct (Remove no root id (view trace_lens s)). Qed.

Lemma counted_not_mounted {K : Kernel} no root id label s l h :
  getParentIds root id (h_trace s) = (Ok l, h) → l ≠ [] → count id (active s) ≠ 0%nat →
  Get no root id label s = (Ok (target root id), mkHost (<[id := S (count id (active s))]> (active s)) h).
Proof.
  intros E Hl Hc. destruct s as [a h0]. unfold Get, set_active. unfold on_host, zoom, attempt, mbind, M_bind, gets, modify. cbn [view over trace_lens h_trace active] in *.
  rewrite E. destruct l as [|p ps]; [done|]. cbn. by rewrite (proj2 (Nat.eqb_neq _ _) Hc).
Qed.

(** An outside where no image can be mounted at once, nor a layer be appended, nor anything
    unmounted; the table says what is mounted. *)
Definition half_kernel : Kernel := {|
  sys_error h c := match c with
                   | SMount _ _ _ options => if Contains options "=ro+wh" then Some (errors_New "no") else None
                   | SUnmount _ => Some (errors_New "busy")
                   | _ => None
                   end;
  sys_output h c := match c with
                    | SReadFile p =>
                        if String.eqb p "/proc/self/mountinfo" then
                          if existsb (λ c, match c with SMount _ _ _ _ => true | _ => false end) h
                          then "1 1 0:1 / /r/mnt/app rw - aufs none rw" +:+ nl else ""
                        else "base" +:+ nl
                    | _ => ""
                    end;
  sys_entries _ _ := [];
  getenv _ := "";
  environ := []
|}.

(** A mount that lacks a layer and cannot be unmounted is taken for the image by the next [Get]: the
    first one fails, the second one succeeds, and the image's ancestor is not there. *)
Lemma half_mounted_image_used :
  let get := Get (K := half_kernel) (λ _, false) "/r" "app" "" in
  let s1 := (get (mkHost ∅ [])).2 in
  let s2 := (get s1).2 in
  (get (mkHost ∅ [])).1 = Err (errors_New "no") ∧ (get s1).1 = Ok "/r/mnt/app" ∧ count "app" (active s2) = 1%nat ∧
  mounts_at (K := half_kernel) (reverse (h_trace s2)) "/r/mnt/app" = [["br:/r/diff/app,xino=/dev/shm/aufs.xino"]].
Proof. vm_compute. by split_and!. Qed.

(** * Witnesses *)

Definition mountinfo : string := "/proc/self/mountinfo".

(** What is mounted when no call fails *)
Fixpoint mounts_of (calls : Trace) (t : string) : list (list string) :=
  match calls with
  | [] => []
  | SMount _ t' _ options :: before => if String.eqb t' t then mount_with options (mounts_of before t) else mounts_of before t
  | SUnmount t' :: before => if String.eqb t' t then tail (mounts_of before t) else mounts_of before t
  | _ :: before => mounts_of before t
  end.

(** The lines of the table, for what is mounted after some calls *)
Definition mounted_list (calls : Trace) : list string :=
  List.filter (λ t, negb (bool_decide (mounts_of calls t = [])))
    (omap (λ c, match c with SMount _ t _ _ => Some t | _ => None end) calls).

Definition table_text (l : list string) : string :=
  foldr (λ t text, "1 1 0:1 / " +:+ t +:+ " rw - aufs none rw" +:+ nl +:+ text) "" l.

Definition table_of (l : list string) : option (list string) :=
  match parseInfoFile (scan_lines (table_text l)) with Ok es => Some (map Mountpoint es) | _ => None end.

(** An outside where the only call that fails is reading a table that would not be read back, and
    where the image "app" is on top of the image "base". *)
Definition mount_kernel : Kernel := {|
  sys_error h c := match c with
                   | SReadFile p =>
                       if String.eqb p mountinfo && negb (bool_decide (table_of (mounted_list (reverse h)) = Some (mounted_list (reverse h))))
                       then Some (errors_New "unreadable") else None
                   | _ => None
                   end;
  sys_output h c := match c with
                    | SReadFile p =>
                        if String.eqb p mountinfo then table_text (mounted_list (reverse h))
                        else if String.eqb p "/r/layers/app" then "base" +:+ nl else ""
                    | _ => ""
                    end;
  sys_entries _ _ := [];
  getenv _ := "";
  environ := []
|}.

#[local] Existing Instance mount_kernel.

Lemma mounts_of_at calls t : mounts_of calls t = mounts_at calls t.
Proof.
  induction calls as [|c calls IH]; [done|]. destruct c; cbn [mounts_of mounts_at sys_error mount_kernel]; rewrite ?IH; try done.
  by destruct (_ && _).
Qed.

Lemma mounts_of_mounted calls t :
  mounts_of calls t ≠ [] → t ∈ omap (λ c, match c with SMount _ t _ _ => Some t | _ => None end) calls.
Proof.
  induction calls as [|c calls IH]; [done|]. destruct c; cbn; try exact IH.
  - destruct (String.eqb_spec target0 t) as [->|]; [by left|]. intros H. right. by apply IH.
  - destruct (String.eqb_spec p t); [|exact IH]. intros H. apply IH. by intros E; rewrite E in H.
Qed.

Lemma mounted_list_at calls t : existsb (String.eqb t) (mounted_list calls) = negb (bool_decide (mounts_at calls t = [])).
Proof.
  rewrite <-mounts_of_at. apply eq_true_iff_eq. rewrite existsb_exists, negb_true_iff, bool_decide_eq_false. split.
  - intros (x & [_ H%negb_true_iff%bool_decide_eq_false]%filter_In & ->%String.eqb_eq). done.
  - intros H. exists t. rewrite String.eqb_refl. split; [|done]. apply filter_In. split; [by apply list_elem_of_In, mounts_of_mounted|].
    by apply negb_true_iff, bool_decide_eq_false.
Qed.

Lemma mount_kernel_table : MountTable.
Proof.
  intros t h b h'. unfold Mounted, parseMountTable, ReadFile. intros (es & h1 & H & [= <- _])%bind_Ok_inv.
  apply bind_Ok_inv in H as (text & h2 & H & [Hp ->]%of_result_Ok). unfold sys in H. cbn [sys_error sys_output mount_kernel] in H.
  change (String.eqb "/proc/self/mountinfo" mountinfo) with true in H. cbn [andb] in H.
  destruct (bool_decide_reflect (table_of (mounted_list (reverse h)) = Some (mounted_list (reverse h)))) as [E|]; [|done].
  injection H as <- _. unfold table_of in E. rewrite Hp in E. injection E as E. rewrite <-mounted_list_at, <-E. clear.
  induction es as [|e es IH]; [done|]. cbn. rewrite String.eqb_sym. f_equal. exact IH.
Qed.

Definition example_parents (id : string) : list string := if String.eqb id "app" then ["base"] else [].

Lemma mount_kernel_files : LayerFiles (λ _, false) ["r"] example_parents.
Proof.
  intros id h Hp. assert (E : path_Join [abs_path ["r"]; "layers"; id] = "/r/layers/" +:+ id).
  { rewrite path_Join_abs2 by (done || by repeat constructor). reflexivity. }
  unfold getParentIds. rewrite E. unfold ReadFile, sys, mbind, M_bind. cbn [sys_error sys_output mount_kernel].
  change (String.eqb ("/r/layers/" +:+ id) mountinfo) with false. cbn [andb]. cbv iota.
  change (String.eqb ("/r/layers/" +:+ id) "/r/layers/app") with (String.eqb id "app").
  unfold example_parents. by destruct (String.eqb id "app").
Qed.

