(* ===== verification/DockerGraph.v ===== *)
(** github.com/docker/docker/graph (graph.go) and image (image.go), vendored: the store of
    images that the repository fetcher fills and root file systems are made from. An image is
    a directory of its own below the graph's root, with its JSON and its size; its file system
    is the driver's; the index (TruncIndex.v) has the ids of the images there are.

    The archives of layers, and the fields of an image's JSON other than the three the graph
    looks at, are parameters: see [Archiver] and [Rest]. *)
From Stdlib Require Import Ascii.
From S2P Require Import Prelude GoStd OS JsonCodec Patricia TruncIndex GraphDriver Paths.

Local Open Scope string_scope.
Local Open Scope list_scope.
Local Open Scope Z_scope.

(** * utils/utils.go *)

Definition TruncateID (id : string) : string := String.substring 0 (Nat.min 12 (String.length id)) id.

Definition ValidateID (id : string) : Result unit :=
  if String.eqb id "" then Err (errors_New "Id can't be empty")
  else if Contains id ":" then Err (errors_New "Invalid character in id: ':'")
  else Ok tt.

Definition hex_digit (n : nat) : ascii := ascii_of_nat (if (n <? 10)%nat then 48 + n else 87 + n).

(** [hex.EncodeToString] *)
Fixpoint hex_encode (s : string) : string :=
  match s with
  | String c s =>
      String (hex_digit (nat_of_ascii c / 16)) (String (hex_digit (nat_of_ascii c mod 16)) (hex_encode s))
  | EmptyString => ""
  end.

(** The loop that draws 32 bytes until the id does not start with twelve decimal digits *)
Fixpoint GenerateRandomID {K : Kernel} (fuel : nat) : M Trace string :=
  match fuel with
  | O => crash Blocked
  | S fuel =>
      r ← attempt (sys (SRandom 32));
      match r with
      | inr e => crash (Panic (err_msg e))
      | inl bytes =>
          let value := hex_encode bytes in
          match ParseInt10 (TruncateID value) with
          | Ok _ => GenerateRandomID fuel
          | _ => mret value
          end
      end
  end.

(** An int64 *)
Definition i64 (z : Z) : Z := (z + 2 ^ 63) mod 2 ^ 64 - 2 ^ 63.

(** * image/image.go *)

Record Image (Rest : Type) := mkImage { ID : string; Parent : string; Size : Z; img_graph : bool; img_rest : Rest }.
Arguments mkImage {Rest} _ _ _ _ _.
Arguments ID {Rest} _.
Arguments Parent {Rest} _.
Arguments Size {Rest} _.
Arguments img_graph {Rest} _.
Arguments img_rest {Rest} _.

(** What image.go and graph.go call of the packages archive and utils on the layers of images,
    and encoding/json on images *)
Record Archiver (Layer Changes Rest : Type) := mkArchiver {
  ApplyLayer : string → Layer → M Trace unit;
  TreeSize : string → M Trace Z;
  ChangesDirs : string → string → M Trace Changes;
  ChangesSize : string → Changes → M Trace Z;
  Tar : string → M Trace Layer;
  ExportChanges : string → Changes → M Trace Layer;
  CloseArchive : Layer → M Trace unit;
  Unmarshal : string → Result (Image Rest);
  Marshal : Image Rest → Result string
}.
Arguments ApplyLayer {Layer Changes Rest} _ _ _.
Arguments TreeSize {Layer Changes Rest} _ _.
Arguments ChangesDirs {Layer Changes Rest} _ _ _.
Arguments ChangesSize {Layer Changes Rest} _ _ _.
Arguments Tar {Layer Changes Rest} _ _.
Arguments ExportChanges {Layer Changes Rest} _ _ _.
Arguments CloseArchive {Layer Changes Rest} _ _.
Arguments Unmarshal {Layer Changes Rest} _ _.
Arguments Marshal {Layer Changes Rest} _ _.

(** The graph's state: its index, and what the driver and the image functions act on *)
Record GState := mkGState { idIndex : TruncIndex; g_host : Host }.

Definition index_lens : Lens GState TruncIndex := mkLens idIndex (λ i s, mkGState i (g_host s)).
Definition host_lens : Lens GState Host := mkLens g_host (λ h s, mkGState (idIndex s) h).
#[export] Instance index_lens_laws : LensLaws index_lens.
Proof. by split; [|intros []|]. Qed.
#[export] Instance host_lens_laws : LensLaws host_lens.
Proof. by split; [|intros []|]. Qed.

Definition on_index {A} (m : M TruncIndex A) : M GState A := zoom index_lens m.
Definition on_driver {A} (m : M Host A) : M GState A := zoom host_lens m.
Definition on_os {A} (m : M Trace A) : M GState A := on_driver (on_host m).

Section image.
Context {Layer Changes Rest : Type} {K : Kernel} (ar : Archiver Layer Changes Rest) (driver : Driver Layer).
Context (os_IsNotExist : error → bool).
Implicit Types (img : Image Rest).

Definition set_Size (n : Z) img : Image Rest := mkImage (ID img) (Parent img) n (img_graph img) (img_rest img).
Definition SetGraph img : Image Rest := mkImage (ID img) (Parent img) (Size img) true (img_rest img).

Definition jsonPath (root : string) : string := path_Join [root; "json"].
Definition sizePath (root : string) : string := path_Join [root; "layersize"].

Definition NewImgJSON (src : string) : Result (Image Rest) := Unmarshal ar src.

Definition LoadImage (root : string) : M Trace (Image Rest) :=
  jsonData ← ReadFile (jsonPath root);
  img ← of_result (Unmarshal ar jsonData);
  of_result (ValidateID (ID img)) ≫= λ _,
  r ← attempt (ReadFile (sizePath root));
  match r with
  | inr e => if os_IsNotExist e then mret (set_Size (-1) img) else raise e
  | inl buf => size ← of_result (ParseInt10 buf); mret (set_Size size img)
  end.

Definition SaveSize img (root : string) : M Trace unit :=
  r ← attempt (WriteFile (sizePath root) (fmt_d (Size img)));
  match r with
  | inl _ => mret tt
  | inr e => raise (errors_New ("Error storing image size in " +:+ root +:+ "/layersize: " +:+ err_msg e))
  end.

(** The size of what a layer adds to its parent *)
Definition changed_size (layer parent : string) : M Host Z :=
  changes ← on_host (ChangesDirs ar layer parent);
  on_host (ChangesSize ar layer changes).

(** What StoreImage does when it knows the size of the layer *)
Definition store_metadata img (jsonData : option string) (root : string) (size : Z) : M Host (Image Rest) :=
  let img := set_Size size img in
  on_host (SaveSize img root) ≫= λ _,
  data ← match jsonData with Some data => mret data | None => of_result (Marshal ar img) end;
  on_host (WriteFile (jsonPath root) data) ≫= λ _,
  mret img.

(** The parent is put back when StoreImage returns. *)
Definition StoreImage img (jsonData : option string) (layerData : option Layer) (root layer : string) : M Host (Image Rest) :=
  on_host (MkdirAll layer) ≫= λ _,
  match layerData with
  | None => store_metadata img jsonData root 0
  | Some l =>
      match d_Differ driver with
      | Some differ =>
          ApplyDiff differ (ID img) l ≫= λ _,
          size ← DiffSize differ (ID img);
          store_metadata img jsonData root size
      | None =>
          on_host (ApplyLayer ar layer l) ≫= λ _,
          if String.eqb (Parent img) "" then
            size ← on_host (TreeSize ar layer);
            store_metadata img jsonData root size
          else
            parent ← d_Get driver (Parent img) "";
            deferred (d_Put driver (Parent img))
              (size ← changed_size layer parent; store_metadata img jsonData root size)
      end
  end.

(** The archive of a layer, and what closing it does *)
Definition TarLayer img : M Host (Layer * M Host unit) :=
  if negb (img_graph img)
  then raise (errors_New ("Can't load storage driver for unregistered image " +:+ ID img))
  else
    match d_Differ driver with
    | Some differ => a ← Diff differ (ID img); mret (a, on_host (CloseArchive ar a))
    | None =>
        imgFs ← d_Get driver (ID img) "";
        let closing a := attempt (on_host (CloseArchive ar a)) ≫= λ r,
          d_Put driver (ID img) ≫= λ _, match r with inl _ => mret tt | inr e => raise e end in
        deferred_on_error (d_Put driver (ID img))
          (if String.eqb (Parent img) "" then a ← on_host (Tar ar imgFs); mret (a, closing a)
           else
             parentFs ← d_Get driver (Parent img) "";
             deferred (d_Put driver (Parent img))
               (changes ← on_host (ChangesDirs ar imgFs parentFs);
                a ← on_host (ExportChanges ar imgFs changes);
                mret (a, closing a)))
    end.

(** * graph/graph.go *)

(** [graph.Root], and the bound on the draws of a random id *)
Context (Root : string) (fuel : nat).

Definition ImageRoot (id : string) : string := path_Join [Root; id].

Definition Mktemp : M Trace string :=
  id ← GenerateRandomID fuel;
  let dir := path_Join [Root; "_tmp"; id] in
  MkdirAll dir ≫= λ _, mret dir.

(** The error [fmt.Errorf] makes of another *)
Definition wrapped (what : string) {S A} (m : M S A) : M S A :=
  r ← attempt m;
  match r with inl a => mret a | inr e => raise (errors_New (what +:+ err_msg e)) end.

Definition rootfs_failed (verb id : string) : string :=
  "Driver " +:+ d_String driver +:+ " failed to " +:+ verb +:+ " image rootfs " +:+ id +:+ ": ".

(** The size of an image that was stored without it *)
Definition measure img : M Host Z :=
  rootfs ← wrapped (rootfs_failed "get" (ID img)) (d_Get driver (ID img) "");
  deferred (d_Put driver (ID img))
    (size ← if String.eqb (Parent img) "" then on_host (TreeSize ar rootfs)
            else (parentFs ← d_Get driver (Parent img) ""; changed_size rootfs parentFs);
     on_host (SaveSize (set_Size size img) (ImageRoot (ID img))) ≫= λ _,
     mret size).

Definition Get (name : string) : M GState (Image Rest) :=
  id ← on_index (TruncIndex.Get name);
  img ← on_os (LoadImage (ImageRoot id));
  if negb (String.eqb (ID img) id)
  then raise (errors_New ("Image stored at '" +:+ id +:+ "' has wrong id '" +:+ ID img +:+ "'"))
  else
    let img := SetGraph img in
    if Size img <? 0 then size ← on_driver (measure img); mret (set_Size size img)
    else mret img.

Definition Exists (id : string) : M GState bool :=
  r ← attempt (Get id);
  mret (match r with inl _ => true | inr _ => false end).

(** An error other than that the file does not exist *)
Definition unless_missing {S} (m : M S unit) : M S unit :=
  r ← attempt m;
  match r with inl _ => mret tt | inr e => if os_IsNotExist e then mret tt else raise e end.

(** [graph.IsNotExist] *)
Definition IsNotExist (e : error) : bool := Contains (err_msg e) "does not exist" || Contains (err_msg e) "No such".

(** From [driver.Get] to the end, the deferred [Put] in between *)
Definition commit (jsonData : option string) (layerData : option Layer) (img : Image Rest) (tmp : string) : M GState unit :=
  rootfs ← wrapped (rootfs_failed "get" (ID img)) (on_driver (d_Get driver (ID img) ""));
  deferred (on_driver (d_Put driver (ID img)))
    (on_driver (StoreImage (SetGraph img) jsonData layerData tmp rootfs) ≫= λ _,
     on_os (Rename tmp (ImageRoot (ID img))) ≫= λ _,
     ignore_err (on_index (Add (ID img)))).

Definition Register (jsonData : option string) (layerData : option Layer) (img : Image Rest) : M GState unit :=
  deferred_on_error (on_driver (d_Remove driver (ID img)))
    (of_result (ValidateID (ID img)) ≫= λ _,
     there ← Exists (ID img);
     if there : bool then raise (errors_New ("Image " +:+ ID img +:+ " already exists"))
     else
       unless_missing (on_os (RemoveAll (ImageRoot (ID img)))) ≫= λ _,
       ignore_err (on_driver (d_Remove driver (ID img))) ≫= λ _,
       r ← attempt (on_os Mktemp);
       let tmp := match r with inl tmp => tmp | inr _ => "" end in
       deferred (on_os (RemoveAll tmp))
         (match r with
          | inr e => raise (errors_New ("Mktemp failed: " +:+ err_msg e))
          | inl _ =>
              wrapped (rootfs_failed "create" (ID img)) (on_driver (d_Create driver (ID img) (Parent img))) ≫= λ _,
              commit jsonData layerData img tmp
          end)).

Definition Create (layerData : option Layer) (containerID containerImage : string) (rest : Rest) : M GState (Image Rest) :=
  id ← on_os (GenerateRandomID fuel);
  let img := mkImage id (if String.eqb containerID "" then "" else containerImage) 0 false rest in
  Register None layerData img ≫= λ _, mret (SetGraph img).

Definition Delete (name : string) : M GState unit :=
  id ← on_index (TruncIndex.Get name);
  tmp ← on_os Mktemp;
  ignore_err (on_index (TruncIndex.Delete id)) ≫= λ _,
  on_os (Rename (ImageRoot id) tmp) ≫= λ _,
  ignore_err (on_driver (d_Remove driver id)) ≫= λ _,
  on_os (RemoveAll tmp).

(** ** Reading the whole graph *)

Fixpoint walk_names {B} (handler : B → Image Rest → M GState B) (names : list string) (acc : B) : M GState B :=
  match names with
  | [] => mret acc
  | name :: names =>
      r ← attempt (Get name);
      match r with
      | inl img => acc ← handler acc img; walk_names handler names acc
      | inr _ => walk_names handler names acc
      end
  end.

Definition walkAll {B} (handler : B → Image Rest → M GState B) (acc : B) : M GState B :=
  names ← on_os (ReadDir Root);
  walk_names handler names acc.

Definition Map : M GState (gmap string (Image Rest)) :=
  walkAll (λ images img, mret (<[ID img := img]> images)) ∅.

Definition ByParent : M GState (gmap string (list (Image Rest))) :=
  walkAll (λ byParent img,
    r ← attempt (Get (Parent img));
    mret (match r with
          | inl parent => <[ID parent := default [] (byParent !! ID parent) ++ [img]]> byParent
          | inr _ => byParent
          end)) ∅.

Definition Heads : M GState (gmap string (Image Rest)) :=
  byParent ← ByParent;
  walkAll (λ heads img, mret (match (byParent : gmap string (list (Image Rest))) !! ID img with
                              | None => <[ID img := img]> heads
                              | Some _ => heads
                              end)) ∅.

(** ** Ancestors (image.go) *)

Definition GetParent img : M GState (option (Image Rest)) :=
  if String.eqb (Parent img) "" then mret None
  else if negb (img_graph img) then raise (errors_New "Can't lookup parent of unregistered image")
  else parent ← Get (Parent img); mret (Some parent).

(** The loops over an image and its ancestors; [n] bounds their iterations. *)
Fixpoint History (n : nat) img : M GState (list (Image Rest)) :=
  match n with
  | O => crash Blocked
  | S n =>
      parent ← wrapped "Error while getting parent image: " (GetParent img);
      match parent with
      | None => mret [img]
      | Some parent => l ← History n parent; mret (img :: l)
      end
  end.

Fixpoint Depth (n : nat) img : M GState Z :=
  match n with
  | O => crash Blocked
  | S n =>
      parent ← GetParent img;
      match parent with
      | None => mret 1
      | Some parent => d ← Depth n parent; mret (1 + d)
      end
  end.

Fixpoint GetParentsSize (n : nat) (size : Z) img : M GState Z :=
  match n with
  | O => crash Blocked
  | S n =>
      r ← attempt (GetParent img);
      match r with
      | inl (Some parent) => GetParentsSize n (i64 (size + Size parent)) parent
      | _ => mret size
      end
  end.

Definition RawJson img : M GState string :=
  let failed what := "Failed to " +:+ what +:+ " json for image " +:+ ID img +:+ ": " in
  if negb (img_graph img)
  then raise (errors_New ("Failed to get root for image " +:+ ID img +:+ ": Can't lookup root of unregistered image"))
  else
    let path := jsonPath (ImageRoot (ID img)) in
    wrapped (failed "open") (on_os (sys_ (SOpen path))) ≫= λ _,
    wrapped (failed "read") (on_os (ReadFile path)).
End image.

(** ** Making the graph *)

Section new.
Context {Layer : Type} {K : Kernel} (driver : Driver Layer) (os_IsExist : error → bool) (Getwd : string).

(** [filepath.Abs] *)
Definition Abs (root : string) : string := if is_rooted root then Clean root else path_Join [Getwd; root].

(** The ids that the driver has, of the names in the graph's directory *)
Fixpoint existing (names : list string) : M Host (list string) :=
  match names with
  | [] => mret []
  | id :: names =>
      there ← d_Exists driver id;
      ids ← existing names;
      mret (if there : bool then id :: ids else ids)
  end.

Definition restore (Root : string) : M Host TruncIndex :=
  dir ← on_host (ReadDir Root);
  ids ← existing dir;
  of_result (NewTruncIndex ids).

Definition NewGraph (root : string) : M Host (string * TruncIndex) :=
  r ← attempt (on_host (MkdirAll root));
  match r with
  | inr e => if os_IsExist e then idx ← restore (Abs root); mret (Abs root, idx) else raise e
  | inl _ => idx ← restore (Abs root); mret (Abs root, idx)
  end.
End new.

(** * The index *)

Section index.
Context {Layer Changes Rest : Type} {K : Kernel} (ar : Archiver Layer Changes Rest) (driver : Driver Layer).
Context (os_IsNotExist : error → bool) (Root : string) (fuel : nat).
Implicit Types (img : Image Rest).

Local Abbreviation get := (Get ar driver os_IsNotExist Root).
Local Abbreviation has := (Exists ar driver os_IsNotExist Root).
Local Abbreviation register := (Register ar driver os_IsNotExist Root fuel).
Local Abbreviation remove := (Delete driver Root fuel).

Definition same_index : relation GState := λ s s', idIndex s' = idIndex s.

#[export] Instance same_index_preorder : PreOrder same_index.
Proof. split; [by intros s|]. intros s1 s2 s3 H1 H2. unfold same_index in *. by rewrite H2. Qed.

Lemma on_driver_same {A} (m : M Host A) : steps same_index (on_driver m).
Proof. intros s. unfold on_driver, zoom. by destruct (m (view host_lens s)). Qed.

Lemma on_os_same {A} (m : M Trace A) : steps same_index (on_os m).
Proof. apply on_driver_same. Qed.

Lemma lookup_same (name : string) : steps same_index (on_index (TruncIndex.Get name)).
Proof.
  intros s. unfold on_index, zoom, same_index, TruncIndex.Get. destruct (String.eqb name ""); [done|]. unfold gets, mbind, M_bind.
  destruct (VisitSubtree visit (Some (bytes name)) (trie (view index_lens s)) "") as [[[]|e|c] id]; [|done..].
  by destruct (negb (String.eqb id "")).
Qed.

Ltac quiet := repeat first [apply on_driver_same|apply on_os_same|apply lookup_same|mstep].

Lemma Get_same name : steps same_index (get name).
Proof. unfold Get. quiet. Qed.
Lemma Exists_same id : steps same_index (has id).
Proof. unfold Exists. mstep; [|mstep]. mstep. apply Get_same. Qed.

Lemma wrapped_same {A} what (m : M GState A) : steps same_index m → steps same_index (wrapped what m).
Proof. intros Hm. unfold wrapped. mstep; [by mstep|]. quiet. Qed.

(** [m] adds [id] to the index when it succeeds, and leaves the index alone when it fails. *)
Definition adds (id : string) (m : M GState unit) : Prop := ∀ s,
  let added := idIndex (m s).2 = (Add id (idIndex s)).2 in
  let unchanged := idIndex (m s).2 = idIndex s in
  match (m s).1 with Ok _ => added | Err _ => unchanged | Crash _ => added ∨ unchanged end.

Lemma adds_after {A} id (m : M GState A) (f : A → M GState unit) : steps same_index m → (∀ a, adds id (f a)) → adds id (m ≫= f).
Proof.
  intros Hm Hf s. specialize (Hm s). unfold mbind, M_bind. destruct (m s) as [[a|e|c] s1]; [|exact Hm|right; exact Hm].
  specialize (Hf a s1). unfold same_index in Hm. cbn in Hm |- *. by rewrite <-Hm.
Qed.

Lemma adds_raise id e : adds id (raise e).
Proof. by intros s. Qed.

Lemma adds_deferred id c (m : M GState unit) : steps same_index c → adds id m → adds id (deferred c m).
Proof.
  intros Hc Hm s. specialize (Hm s). unfold deferred, ignore_err, mbind, M_bind, attempt. destruct (m s) as [[[]|e|f] s1]; cbn in *; [| |done].
  all: specialize (Hc s1); unfold same_index in Hc; destruct (c s1) as [[?|?|?] s2]; cbn in *; rewrite Hc; auto.
Qed.

Lemma adds_on_error id c (m : M GState unit) : steps same_index c → adds id m → adds id (deferred_on_error c m).
Proof.
  intros Hc Hm s. specialize (Hm s). unfold deferred_on_error, ignore_err, mbind, M_bind, attempt. destruct (m s) as [[[]|e|f] s1]; cbn in *; [done| |done].
  specialize (Hc s1). unfold same_index in Hc. destruct (c s1) as [[?|?|?] s2]; cbn in *; rewrite Hc; auto.
Qed.

Lemma add_returns id idx : index_ok idx → ∃ r, (Add id idx).1 = r ∧ ∀ f, r ≠ Crash f.
Proof.
  intros Hok. eexists. split; [done|]. intros f E. pose proof (perform_contract idx (CAdd id) Hok) as H. cbn [perform] in H.
  unfold mbind, M_bind in H. destruct (Add id idx) as [[[]|e|c] idx']; [done..|]. destruct H as [_ H]. cbn in H.
  by repeat case_match.
Qed.


Lemma adds_added id : adds id (ignore_err (on_index (Add id))).
Proof.
  intros s. unfold ignore_err, on_index, zoom, attempt, mbind, M_bind. cbn [view index_lens].
  destruct (Add id (idIndex s)) as [[[]|e|c] idx] eqn:E; cbn; auto.
Qed.

Lemma commit_adds jsonData layerData img tmp : adds (ID img) (commit ar driver Root jsonData layerData img tmp).
Proof.
  unfold commit. apply adds_after; [apply wrapped_same, on_driver_same|]. intros rootfs.
  apply adds_deferred; [apply on_driver_same|]. apply adds_after; [apply on_driver_same|]. intros img'.
  apply adds_after; [apply on_os_same|]. intros _. apply adds_added.
Qed.

Lemma unless_missing_same (m : M GState unit) : steps same_index m → steps same_index (unless_missing os_IsNotExist m).
Proof. intros Hm. unfold unless_missing. mstep; [by mstep|]. quiet. Qed.

Lemma Register_adds jsonData layerData img : adds (ID img) (register jsonData layerData img).
Proof.
  unfold Register. apply adds_on_error; [apply on_driver_same|].
  apply adds_after; [quiet|]. intros _. apply adds_after; [apply Exists_same|]. intros there. destruct there; [apply adds_raise|].
  apply adds_after; [apply unless_missing_same, on_os_same|]. intros _. apply adds_after; [quiet|]. intros _.
  apply adds_after; [quiet|]. intros r. apply adds_deferred; [apply on_os_same|]. destruct r as [tmp|e]; [|apply adds_raise].
  apply adds_after; [apply wrapped_same, on_driver_same|]. intros _. apply commit_adds.
Qed.

(** What adding does to an index *)
Definition indexable (id : string) : Prop := Contains id " " = false ∧ id ≠ "".

Lemma Add_ids id idx :
  index_ok idx →
  index_ok (Add id idx).2 ∧ (indexable id → ids (Add id idx).2 = {[id]} ∪ ids idx) ∧ (¬ indexable id → ids (Add id idx).2 = ids idx).
Proof.
  intros Hok. pose proof (perform_contract idx (CAdd id) Hok) as H. cbn [perform contract] in H. unfold mbind, M_bind in H.
  destruct (Add id idx) as [r idx'] eqn:EA. cbn [snd]. unfold indexable.
  assert (index_ok idx' ∧ ids idx' = (if Contains id " " then ids idx else if String.eqb id "" then ids idx else {[id]} ∪ ids idx)) as [H1 ->].
  { destruct r as [[]|e|c]; destruct H as [Ho H]; (split; [exact Ho|]).
    all: cbn in H; repeat case_match; simplify_eq; try done; by destruct (bool_decide_reflect (id ∈ ids idx)); simplify_eq; set_solver. }
  split; [done|]. destruct (Contains id " "); [split; [by intros [? _]|done]|]. destruct (String.eqb_spec id "") as [->|Hne]; [split; [by intros [_ ?]|done]|].
  split; [done|]. intros Hn. by destruct Hn.
Qed.

(** After registering, index and trie agree. *)
Lemma Register_index jsonData layerData img s :
  index_ok (idIndex s) →
  let '(r, s') := register jsonData layerData img s in
  index_ok (idIndex s') ∧
  match r with
  | Ok _ => indexable (ID img) → ids (idIndex s') = {[ID img]} ∪ ids (idIndex s)
  | Err _ => idIndex s' = idIndex s
  | Crash _ => idIndex s' = (Add (ID img) (idIndex s)).2 ∨ idIndex s' = idIndex s
  end.
Proof.
  intros Hok. pose proof (Register_adds jsonData layerData img s) as H. destruct (Add_ids (ID img) (idIndex s) Hok) as (Ho & Hi & _).
  destruct (register jsonData layerData img s) as [r s']. cbn in H. destruct r as [u|e|c]; [by rewrite H..|].
  split; [|done]. by destruct H as [-> | ->].
Qed.

(** ** What failing leaves behind *)

(** An error comes after the driver has been told to remove the image. *)
Lemma removed_on_error {A} (c : M GState unit) (m : M GState A) s e s' :
  deferred_on_error c m s = (Err e, s') → ∃ s0, same_index (m s).2 s0 ∧ s' = (c s0).2 ∧ m s = (Err e, s0).
Proof.
  unfold deferred_on_error, ignore_err, mbind, M_bind, attempt. destruct (m s) as [[a|e0|f] s0]; [done| |done].
  destruct (c s0) as [[?|?|?] s1] eqn:Ec; cbn; intros [= <- <-]; exists s0; rewrite Ec; by split_and!.
Qed.

(** C33: registering an image is all or nothing in the index: when it succeeds, the image's id is
    added, unless it has a blank, which the index refuses (and [Register] does not notice:
    [blank_id_not_indexed]); when it fails, the index is as it was, and the last thing done is
    that the driver is told to remove what it has of the id, which, when the reason is that
    the image was there, is the layer that was there ([registering_again_removes_layer]).
    Index and trie agree afterwards, whatever happens. *)
Theorem Register_all_or_nothing jsonData layerData img s :
  index_ok (idIndex s) →
  let '(r, s') := register jsonData layerData img s in
  let added := if Contains (ID img) " " then ids (idIndex s) else {[ID img]} ∪ ids (idIndex s) in
  index_ok (idIndex s') ∧
  match r with
  | Ok _ => ID img ≠ "" ∧ ids (idIndex s') = added
  | Err _ => idIndex s' = idIndex s ∧ ∃ s0, s' = (on_driver (d_Remove driver (ID img)) s0).2
  | Crash _ => ids (idIndex s') = added ∨ ids (idIndex s') = ids (idIndex s)
  end.
Proof.
  intros Hok. pose proof (Register_adds jsonData layerData img s) as Ha. destruct (Add_ids (ID img) (idIndex s) Hok) as (Ho & Hi & Hn).
  destruct (register jsonData layerData img s) as [r s'] eqn:E. cbn in Ha.
  assert (Hadd : (ID img = "" → False) → ids (Add (ID img) (idIndex s)).2 = if Contains (ID img) " " then ids (idIndex s) else {[ID img]} ∪ ids (idIndex s)).
  { intros Hne. unfold indexable in Hi, Hn. destruct (Contains (ID img) " "); [apply Hn; by intros []|by apply Hi]. }
  destruct r as [u|e|c].
  - assert (Hne : ID img ≠ ""); [|split; [by rewrite Ha|]; split; [done|by rewrite Ha, Hadd]].
    unfold Register in E. apply on_error_Ok, bind_Ok_inv in E as ([] & s1 & [Hv _]%of_result_Ok & _). intros Hid. rewrite Hid in Hv. done.
  - rewrite Ha. split; [done|]. split; [done|]. apply removed_on_error in E as (s0 & _ & -> & _). by exists s0.
  - destruct (decide (ID img = "")) as [Hid|Hid].
    + unfold indexable in Hn. destruct Ha as [-> | ->]; (split; [done|]); right; [apply Hn; by intros []|done].
    + destruct Ha as [-> | ->]; (split; [done|]); [left; by apply Hadd|by right].
Qed.

(** Deleting takes the image that alone has an id that starts so out of the index, whether or
    not its directory can be moved away afterwards. *)
Lemma Delete_forgets name s :
  index_ok (idIndex s) →
  let '(r, s') := remove name s in
  let forgotten := ∃ id, elements (matching name (ids (idIndex s))) = [id] ∧ ids (idIndex s') = ids (idIndex s) ∖ {[id]} in
  index_ok (idIndex s') ∧ (r = Ok tt → forgotten) ∧ (forgotten ∨ idIndex s' = idIndex s).
Proof.
  intros Hok. unfold Delete. unfold mbind at 1, M_bind at 1. unfold on_index at 1, zoom at 1. cbn [view over index_lens].
  rewrite Get_contract by done. cbn [contract fst]. destruct (String.eqb name ""); [by cbn; split_and!; auto|].
  destruct (elements (matching name (ids (idIndex s)))) as [|id [|? ?]] eqn:Em; cbn [fst]; [by cbn; split_and!; auto| |by cbn; split_and!; auto].
  assert (Hin : id ∈ ids (idIndex s)) by (assert (id ∈ matching name (ids (idIndex s))) as [_ ?]%elem_of_filter by (apply elem_of_elements; rewrite Em; by left); done).
  destruct s as [idx h]. cbn [idIndex g_host] in *. unfold mbind at 1, M_bind at 1.
  pose proof (on_os_same (Mktemp Root fuel) (mkGState idx h)) as Hs. destruct (on_os (Mktemp Root fuel) (mkGState idx h)) as [[tmp|e|c] s1];
    unfold same_index in Hs; cbn in Hs; [|cbn; rewrite Hs; by split_and!; auto..].
  pose proof (perform_contract idx (CDelete id) Hok) as Hd. cbn [perform contract] in Hd. rewrite bool_decide_eq_true_2 in Hd by done.
  unfold mbind at 1, M_bind at 1. unfold ignore_err at 1, attempt at 1, mbind at 1, M_bind at 1. unfold on_index at 1, zoom at 1. cbn [view over index_lens]. rewrite Hs.
  unfold mbind, M_bind in Hd. destruct (TruncIndex.Delete id idx) as [[[]|e|c] idx'] eqn:Ed; destruct Hd as [Hok' Hd]; [|done..]. injection Hd as Hd.
  cbn [mret M_ret]. set (s2 := mkGState idx' (g_host s1)).
  assert (Hrest : steps same_index (on_os (Rename (ImageRoot Root id) tmp) ≫= λ _, ignore_err (on_driver (d_Remove driver id)) ≫= λ _, on_os (RemoveAll tmp))) by quiet.
  specialize (Hrest s2). unfold same_index in Hrest. unfold mbind, M_bind in Hrest |- *. cbn in Hrest |- *.
  match type of Hrest with idIndex (?m).2 = _ => destruct m as [r s3] end. cbn in Hrest. rewrite Hrest. split; [done|].
  split; [intros _|left]; by exists id.
Qed.
End index.

Lemma hex_digit_not_dot n : (n < 16)%nat → hex_digit n ≠ slash ∧ hex_digit n ≠ "."%char.
Proof. intros Hn. do 16 (destruct n as [|n]; [by split|]). lia. Qed.

(** The hex of some bytes is the name of a file. *)
Lemma hex_plain s : String.length s = 32%nat → plain_name (hex_encode s).
Proof.
  assert (Hfree : ∀ s, free_of slash (hex_encode s)).
  { clear. intros s. unfold free_of. induction s as [|c s IH]; [done|]. pose proof (nat_ascii_bounded c). cbn [hex_encode all_chars].
    destruct (hex_digit_not_dot (nat_of_ascii c / 16)) as [H1 _]; [apply Nat.Div0.div_lt_upper_bound; lia|].
    destruct (hex_digit_not_dot (nat_of_ascii c mod 16)) as [H2 _]; [apply Nat.mod_upper_bound; lia|].
    by rewrite (proj2 (Ascii.eqb_neq _ _) H1), (proj2 (Ascii.eqb_neq _ _) H2). }
  intros Hl. split; [apply Hfree|]. destruct s as [|c s]; [done|]. cbn [hex_encode].
  destruct (hex_digit_not_dot (nat_of_ascii c / 16)) as [_ H]; [apply Nat.Div0.div_lt_upper_bound; pose proof (nat_ascii_bounded c); lia|].
  split_and!; [done|by intros [= E]|by intros [= E]].
Qed.

(** * Storing and loading *)

Lemma wrapped_Ok {S A} what (m : M S A) s a s' : wrapped what m s = (Ok a, s') → m s = (Ok a, s').
Proof. unfold wrapped, mbind, M_bind, attempt. destruct (m s) as [[b|e|f] s1]; [by intros [= <- <-]|done..]. Qed.


Lemma sys__Ok {K : Kernel} c h u h' : sys_ c h = (Ok u, h') → sys_error h c = None ∧ h' = h ++ [c].
Proof. rewrite sys__eq. destruct (sys_error h c); [done|]. by intros [= _ <-]. Qed.

Section storing.
Context {Layer Changes Rest : Type} {K : Kernel} (ar : Archiver Layer Changes Rest) (home : string).
Context (os_IsNotExist : error → bool) (names : list string) (fuel : nat).
Context (files : FileTree) (random : ∀ h n, String.length (sys_output h (SRandom n)) = n).
Context (Hnames : names ≠ []) (Hplain : Forall plain_name names).
Context (tree_size : ∀ d h n h', TreeSize ar d h = (Ok n, h') → 0 ≤ n < 2 ^ 63).
Context (changes_size : ∀ d c h n h', ChangesSize ar d c h = (Ok n, h') → 0 ≤ n < 2 ^ 63).
Implicit Types (img : Image Rest).

Local Abbreviation Root := (abs_path names).
Local Abbreviation driver := (vfs.Driver_ (Layer := Layer) home).
Local Abbreviation get := (Get ar driver os_IsNotExist Root).
Local Abbreviation register := (Register ar driver os_IsNotExist Root fuel).

(** The trace of [s'] is that of [s] followed by calls that did not fail. *)
Definition went (calls : Trace) (h h' : Trace) : Prop :=
  h' = h ++ calls ∧ ∀ before c after, calls = before ++ c :: after → sys_error (h ++ before) c = None.

Lemma went_nil h : went [] h h.
Proof. split; [by rewrite app_nil_r|]. by intros [|]. Qed.

Lemma went_snoc calls c h h' : went calls h h' → sys_error h' c = None → went (calls ++ [c]) h (h' ++ [c]).
Proof.
  intros [-> H] Hc. split; [by rewrite app_assoc|]. intros before c' after E.
  destruct after as [|c2 after] using rev_ind.
  - apply app_inj_tail in E as [-> ->]. done.
  - rewrite app_comm_cons, app_assoc in E. apply app_inj_tail in E as [E _]. by eapply H.
Qed.

(** What an image's directory is given: its size and its JSON *)
Definition metadata (dir json : string) (size : Z) : Trace :=
  [SWriteFile (sizePath dir) (fmt_d size); SWriteFile (jsonPath dir) json].

Lemma store_metadata_Ok img json dir n s img' s' :
  store_metadata ar img (Some json) dir n s = (Ok img', s') → went (metadata dir json n) (h_trace s) (h_trace s').
Proof.
  intros (u & s1 & H1 & H2)%bind_Ok_inv. apply zoom_Ok in H1 as (h1 & H1 & ->). unfold SaveSize in H1.
  apply bind_Ok_inv in H1 as (r & h & H1 & H1'). unfold attempt in H1.
  destruct (WriteFile (sizePath dir) (fmt_d (Size (set_Size n img))) (view trace_lens s)) as [[[]|e|c] h2] eqn:EW; [| |done].
  2: { by injection H1 as <- <-. }
  injection H1 as <- <-. injection H1' as <- <-. apply sys__Ok in EW as [E1 ->].
  apply bind_Ok_inv in H2 as (data & s2 & [= <- <-] & H2). apply bind_Ok_inv in H2 as (u2 & s3 & H2 & [= _ <-]).
  apply zoom_Ok in H2 as (h3 & [E2 ->]%sys__Ok & ->). cbn in *.
  apply (went_snoc [_]); [|done]. apply (went_snoc []); [apply went_nil|done].
Qed.

(** The size that an image has whose layer, if it has one, is unpacked in [dir]: that of the
    directory right after unpacking, or, when it has a parent, of what it changes in the
    parent's directory. [h] is the trace afterwards. *)
Definition measured (l : option Layer) (dir parent : string) (n : Z) (h : Trace) : Prop :=
  match l with
  | None => n = 0
  | Some layer => ∃ h0 h1, ApplyLayer ar dir layer h0 = (Ok tt, h1) ∧
      if String.eqb parent "" then TreeSize ar dir h1 = (Ok n, h)
      else ∃ changes h2, ChangesDirs ar dir (vfs.dir home parent) (h1 ++ [SStat (vfs.dir home parent)]) = (Ok changes, h2) ∧
             ChangesSize ar dir changes h2 = (Ok n, h)
  end.

Lemma vfs_Get_Ok id label (s : Host) p s' :
  d_Get driver id label s = (Ok p, s') → p = vfs.dir home id ∧ h_trace s' = h_trace s ++ [SStat (vfs.dir home id)].
Proof.
  intros (h & H & ->)%zoom_Ok. unfold vfs.Get in H. apply bind_Ok_inv in H as (d & h1 & H1 & H).
  apply bind_Ok_inv in H1 as (t & h2 & H1 & [= <- <-]). unfold sys in H1. injection H1 as _ <-.
  destruct (String.eqb t "d"); [|done]. by injection H as <- <-.
Qed.

Lemma StoreImage_Ok img json l dir layer s img' s' :
  StoreImage ar driver img (Some json) l dir layer s = (Ok img', s') →
  ∃ n h, measured l layer (Parent img) n h ∧ 0 ≤ n < 2 ^ 63 ∧ went (metadata dir json n) h (h_trace s').
Proof.
  unfold StoreImage. intros (u & s1 & _ & H)%bind_Ok_inv. cbn [d_Differ vfs.Driver_] in H. destruct l as [l|].
  2: { exists 0, (h_trace s1). split; [done|]. split; [lia|]. by eapply store_metadata_Ok. }
  apply bind_Ok_inv in H as (u2 & s2 & (h1 & Ha & ->)%zoom_Ok & H). destruct u2. destruct (String.eqb (Parent img) "") eqn:Ep.
  - apply bind_Ok_inv in H as (n & s3 & (h & Hn & ->)%zoom_Ok & H). exists n, h. split; [|split; [by eapply tree_size|by apply store_metadata_Ok in H]].
    exists (h_trace s1), h1. split; [exact Ha|]. by rewrite Ep.
  - apply bind_Ok_inv in H as (parent & s3 & [-> Ht]%vfs_Get_Ok & H). apply deferred_Ok in H as (s4 & H & ->). cbn [d_Put vfs.Driver_ mret M_ret snd].
    apply bind_Ok_inv in H as (n & s5 & Hn & H). apply bind_Ok_inv in Hn as (c & s6 & (h2 & Hc & ->)%zoom_Ok & Hn). apply zoom_Ok in Hn as (h & Hn & ->).
    exists n, h. split; [|split; [by eapply changes_size|by apply store_metadata_Ok in H]].
    exists (h_trace s1), h1. split; [exact Ha|]. rewrite Ep. exists c, h2. cbn [view over trace_lens h_trace] in *. by rewrite <-Ht.
Qed.

Lemma commit_Ok json l img dir s s' :
  commit ar driver Root (Some json) l img dir s = (Ok tt, s') →
  ∃ n h, measured l (vfs.dir home (ID img)) (Parent img) n h ∧ 0 ≤ n < 2 ^ 63 ∧
    went (metadata dir json n ++ [SRename dir (ImageRoot Root (ID img))]) h (h_trace (g_host s')).
Proof.
  unfold commit. intros (rootfs & s1 & (hg & [-> _]%vfs_Get_Ok & _)%wrapped_Ok%zoom_Ok & H)%bind_Ok_inv. apply deferred_Ok in H as (s2 & H & ->).
  assert (E : (on_driver (d_Put driver (ID img)) s2).2 = s2) by (by destruct s2). rewrite E.
  apply bind_Ok_inv in H as (img' & s3 & H & H2). apply zoom_Ok in H as (t & (n & h & Hm & Hn & Hw)%StoreImage_Ok & ->).
  apply bind_Ok_inv in H2 as (u & s4 & H2 & H3). apply zoom_Ok in H2 as (t2 & H2 & ->). apply zoom_Ok in H2 as (h2 & [Hr ->]%sys__Ok & ->).
  assert (Et : h_trace (g_host s2) = h_trace t ++ [SRename dir (ImageRoot Root (ID img))]).
  { unfold ignore_err, mbind, M_bind, attempt, on_index, zoom in H3. cbn [view over index_lens host_lens trace_lens] in H3.
    destruct (Add _ _) as [[[]|e|c] idx]; try done; by injection H3 as <-. }
  exists n, h. split; [done|]. split; [done|]. rewrite Et. by apply went_snoc.
Qed.

Lemma Mktemp_Ok h dir h' : Mktemp Root fuel h = (Ok dir, h') → ∃ x, plain_name x ∧ dir = abs_path (names ++ ["_tmp"; x]).
Proof.
  intros (id & h1 & H & H2)%bind_Ok_inv. apply bind_Ok_inv in H2 as (u & h2 & _ & [= <- _]). exists id.
  assert (Hid : plain_name id); [|split; [done|by apply path_Join_abs2]]. clear Hnames Hplain. revert h H. induction fuel as [|f IH]; intros h H; [done|].
  apply bind_Ok_inv in H as (r & h3 & H & H2). unfold attempt, sys in H.
  destruct (sys_error h (SRandom 32)) as [e|]; [by injection H as <- <-|]. injection H as <- <-.
  pose proof (random h 32) as Hlen. set (raw := sys_output h (SRandom 32)) in *. cbv zeta in H2.
  destruct (ParseInt10 (TruncateID (hex_encode raw))) as [z|e|c] eqn:E; [by eapply IH| |].
  all: injection H2 as <- _; by apply hex_plain.
Qed.

Lemma Register_Ok json l img s s' :
  register (Some json) l img s = (Ok tt, s') →
  ValidateID (ID img) = Ok tt ∧
  ∃ x n h h1, plain_name x ∧ measured l (vfs.dir home (ID img)) (Parent img) n h ∧ 0 ≤ n < 2 ^ 63 ∧
    let dir := abs_path (names ++ ["_tmp"; x]) in
    went (metadata dir json n ++ [SRename dir (ImageRoot Root (ID img))]) h h1 ∧ h_trace (g_host s') = h1 ++ [SRemoveAll dir].
Proof.
  unfold Register. intros H%on_error_Ok. apply bind_Ok_inv in H as ([] & s1 & Hv & H). apply of_result_Ok in Hv as [Hv ->].
  split; [done|]. apply bind_Ok_inv in H as (there & s2 & _ & H). destruct there; [done|].
  apply bind_Ok_inv in H as (u & s3 & _ & H). apply bind_Ok_inv in H as (u2 & s4 & _ & H).
  apply bind_Ok_inv in H as (r & s5 & Hr & H). apply deferred_Ok in H as (s6 & H & ->). destruct r as [dir|e]; [|done].
  assert (Htmp : ∃ x, plain_name x ∧ dir = abs_path (names ++ ["_tmp"; x])).
  { unfold attempt in Hr. destruct (on_os (Mktemp Root fuel) s4) as [[d|e|c] s7] eqn:E; try done. injection Hr as <- <-.
    apply zoom_Ok in E as (t & E & _). apply zoom_Ok in E as (h & E & _). by eapply Mktemp_Ok. }
  destruct Htmp as (x & Hx & ->). apply bind_Ok_inv in H as (u3 & s7 & _ & H). apply commit_Ok in H as (n & h & Hm & Hn & Hw).
  exists x, n, h, (h_trace (g_host s6)). split_and!; [done|done|apply Hn|apply Hn|exact Hw|].
  unfold on_os, on_driver, on_host, zoom, RemoveAll. cbn [view host_lens trace_lens]. rewrite sys__eq.
  by destruct (sys_error (h_trace (g_host s6)) (SRemoveAll (abs_path (names ++ ["_tmp"; x])))).
Qed.

(** ** The files of an image *)

Lemma names_snoc l x : l ≠ [] → l ++ [x] ≠ ([] : list string).
Proof. by destruct l. Qed.

Lemma plain_snoc l x : Forall plain_name l → plain_name x → Forall plain_name (l ++ [x]).
Proof. intros Hl Hx. apply Forall_app. split; [done|by apply Forall_singleton]. Qed.

Lemma tmp_plain : plain_name "_tmp" ∧ plain_name "json" ∧ plain_name "layersize".
Proof. by repeat split. Qed.

(** Where the files of an image are, once the directory they were made in is the image's *)
Lemma image_files x id json n h h1 :
  plain_name x → plain_name id → id ≠ "_tmp" →
  let dir := abs_path (names ++ ["_tmp"; x]) in
  went (metadata dir json n ++ [SRename dir (ImageRoot Root id)]) h h1 →
  let h2 := h1 ++ [SRemoveAll dir] in
  file_in sys_error (reverse h2) (jsonPath (ImageRoot Root id)) = Some json ∧
  file_in sys_error (reverse h2) (sizePath (ImageRoot Root id)) = Some (fmt_d n).
Proof.
  destruct tmp_plain as (Ht & Hj & Hl). intros Hx Hid Hne dir [-> Hok] h2.
  assert (Hdir : Forall plain_name (names ++ ["_tmp"; x])).
  { change ["_tmp"; x] with (["_tmp"] ++ [x]). rewrite app_assoc. apply plain_snoc; [by apply plain_snoc|done]. }
  assert (Hdne : names ++ ["_tmp"; x] ≠ []) by (by destruct names).
  assert (Hroot : ImageRoot Root id = abs_path (names ++ [id])) by (by apply path_Join_abs).
  pose proof (plain_snoc names id Hplain Hid) as Hrp. pose proof (names_snoc names id Hnames) as Hrne.
  assert (Hfile : ∀ f, plain_name f →
    path_Join [ImageRoot Root id; f] = abs_path ((names ++ [id]) ++ [f]) ∧ path_Join [dir; f] = abs_path ((names ++ ["_tmp"; x]) ++ [f])).
  { intros f Hf. rewrite Hroot. split; by apply path_Join_abs. }
  assert (Hfar : ∀ f, plain_name f → within dir (abs_path ((names ++ [id]) ++ [f])) = false).
  { intros f Hf. apply not_true_iff_false. intros Hw%within_abs; [|done|by apply names_snoc|done|by apply plain_snoc].
    rewrite <-app_assoc in Hw. apply prefix_app_inv in Hw. apply prefix_cons_inv_1 in Hw. congruence. }
  assert (Hmove : ∀ f, plain_name f →
    file_in sys_error (reverse h2) (abs_path ((names ++ [id]) ++ [f])) =
    file_in sys_error (reverse (h ++ metadata dir json n)) (abs_path ((names ++ ["_tmp"; x]) ++ [f]))).
  { intros f Hf. unfold h2. rewrite file_in_other; [|by apply Hfar|done]. rewrite app_assoc, file_in_snoc.
    rewrite (Hok (metadata dir json n) (SRename dir (ImageRoot Root id)) []) by done.
    rewrite Hroot, below_abs by done. unfold dir. by rewrite <-abs_snoc. }
  unfold jsonPath, sizePath. destruct (Hfile "json" Hj) as [-> Ej]. destruct (Hfile "layersize" Hl) as [-> El]. rewrite !Hmove by done.
  unfold metadata, jsonPath, sizePath in *. rewrite Ej, El in *.
  change [SWriteFile (abs_path ((names ++ ["_tmp"; x]) ++ ["layersize"])) (fmt_d n); SWriteFile (abs_path ((names ++ ["_tmp"; x]) ++ ["json"])) json]
    with ([SWriteFile (abs_path ((names ++ ["_tmp"; x]) ++ ["layersize"])) (fmt_d n)] ++ [SWriteFile (abs_path ((names ++ ["_tmp"; x]) ++ ["json"])) json]) in *.
  rewrite app_assoc, !(file_in_snoc _ (h ++ _)), (Hok [SWriteFile (abs_path ((names ++ ["_tmp"; x]) ++ ["layersize"])) (fmt_d n)] _ [SRename dir (ImageRoot Root id)]) by done.
  split; [by rewrite String.eqb_refl|]. destruct (String.eqb_spec (abs_path ((names ++ ["_tmp"; x]) ++ ["json"])) (abs_path ((names ++ ["_tmp"; x]) ++ ["layersize"]))) as [E|_].
  { apply abs_inj in E; [|by apply names_snoc|by apply names_snoc|by apply plain_snoc|by apply plain_snoc]. by apply app_inj_tail in E as [_ ?]. }
  pose proof (Hok [] (SWriteFile (abs_path ((names ++ ["_tmp"; x]) ++ ["layersize"])) (fmt_d n)) _ eq_refl) as E. rewrite app_nil_r in E.
  rewrite file_in_snoc, E. by rewrite String.eqb_refl.
Qed.

Lemma LoadImage_files root json n img h :
  file_in sys_error (reverse h) (jsonPath root) = Some json → file_in sys_error (reverse h) (sizePath root) = Some (fmt_d n) →
  0 ≤ n < 2 ^ 63 → Unmarshal ar json = Ok img → ValidateID (ID img) = Ok tt →
  ∃ h', LoadImage ar os_IsNotExist root h = (Ok (set_Size n img), h').
Proof.
  intros Hj Hs Hn Himg Hv. destruct (files _ _ _ Hj) as [E1 E2].
  assert (Hs' : file_in sys_error (reverse (h ++ [SReadFile (jsonPath root)])) (sizePath root) = Some (fmt_d n)) by (by rewrite file_in_other).
  destruct (files _ _ _ Hs') as [E3 E4]. eexists. unfold LoadImage, ReadFile.
  erewrite bind_Ok by (unfold sys; rewrite E1, E2; reflexivity). erewrite bind_Ok by (unfold of_result; rewrite Himg; reflexivity).
  erewrite bind_Ok by (unfold of_result; rewrite Hv; reflexivity).
  erewrite bind_Ok by (apply attempt_Ok; unfold sys; rewrite E3, E4; reflexivity).
  cbn iota. erewrite bind_Ok by (unfold of_result; rewrite ParseInt10_fmt_d by lia; reflexivity). reflexivity.
Qed.

(** The id that alone starts with itself *)
Lemma matching_self id l : (∀ id', id' ∈ l → id' ≠ id → String.prefix id id' = false) → elements (matching id ({[id]} ∪ l)) = [id].
Proof.
  intros H. assert (E : matching id ({[id]} ∪ l) = {[id]}).
  { apply set_eq. intros y. unfold matching. rewrite elem_of_filter, elem_of_union, elem_of_singleton. split.
    - intros [Hp [->|Hy]]; [done|]. destruct (decide (y = id)) as [|Hne]; [done|]. by rewrite (H y Hy Hne) in Hp.
    - intros ->. split; [|by left]. apply prefix_bytes. done. }
  by rewrite E, elements_singleton.
Qed.

(** C32: round trip: an image that has been registered is found. Whatever calls failed before or
    during, when registering with the driver vfs succeeded, then under the image's id the graph
    gives back the image that its JSON describes, with the size that was measured of the
    layer's directory right after unpacking it ([measured]; 0 when there is no layer). The id
    is a file's name without a blank, and no other id in the index starts with it. *)
Theorem registered_image_found img json img0 l s s' :
  index_ok (idIndex s) → indexable (ID img) → plain_name (ID img) → ID img ≠ "_tmp" →
  (∀ id, id ∈ ids (idIndex s) → id ≠ ID img → String.prefix (ID img) id = false) →
  Unmarshal ar json = Ok img0 → ID img0 = ID img →
  register (Some json) l img s = (Ok tt, s') →
  ∃ n h rest s'', measured l (vfs.dir home (ID img)) (Parent img) n h ∧ h_trace (g_host s') = h ++ rest ∧
    get (ID img) s' = (Ok (SetGraph (set_Size n img0)), s'').
Proof.
  intros Hok Hind Hplain_id Htmp Huniq Himg Hid H. pose proof (Register_index ar driver os_IsNotExist Root fuel (Some json) l img s Hok) as Hids.
  rewrite H in Hids. destruct Hids as [Hok' Hids]. specialize (Hids Hind). apply Register_Ok in H as (Hv & x & n & h & h1 & Hx & Hm & Hn & Hw & Ht).
  destruct (image_files x (ID img) json n h h1 Hx Hplain_id Htmp Hw) as [Hj Hs]. rewrite <-Ht in Hj, Hs.
  destruct (LoadImage_files _ json n img0 _ Hj Hs Hn Himg) as [h' Hload]; [by rewrite Hid|]. exists n, h.
  destruct Hw as [Hw _]. rewrite Hw, <-app_assoc in Ht. eexists _, _. split; [done|]. split; [exact Ht|].
  unfold Get. erewrite bind_Ok.
  2: { unfold on_index, zoom. cbn [view index_lens]. rewrite Get_contract by done. cbn [contract fst]. rewrite Hids.
       rewrite (proj2 (String.eqb_neq (ID img) "")) by apply Hind. rewrite matching_self by done. reflexivity. }
  erewrite bind_Ok by (unfold on_os, on_driver, on_host, zoom; cbn [view over host_lens index_lens trace_lens]; cbn [g_host]; rewrite Hload; reflexivity).
  change (ID (set_Size n img0)) with (ID img0). rewrite Hid, String.eqb_refl. cbn [negb].
  change (Size (SetGraph (set_Size n img0))) with n. destruct (Z.ltb_spec n 0); [lia|]. reflexivity.
Qed.
End storing.

(** * Failures of the code *)

Section failures.
Context {Layer Changes Rest : Type} {K : Kernel} (ar : Archiver Layer Changes Rest) (home Root : string).
Context (os_IsNotExist : error → bool) (fuel : nat).
Local Abbreviation driver := (vfs.Driver_ (Layer := Layer) home).
Local Abbreviation register := (Register ar driver os_IsNotExist Root fuel).

Lemma vfs_removes id s :
  sys_error (h_trace (g_host s)) (SStat (vfs.dir home id)) = None →
  let '(r, s') := on_driver (d_Remove driver id) s in
  (∀ c, r ≠ Crash c) ∧ idIndex s' = idIndex s ∧
  h_trace (g_host s') = h_trace (g_host s) ++ [SStat (vfs.dir home id); SRemoveAll (vfs.dir home id)].
Proof.
  intros E. change (d_Remove driver id) with (on_host (vfs.Remove home id)).
  assert (Er : ∃ r, vfs.Remove home id (h_trace (g_host s)) = (r, (h_trace (g_host s) ++ [SStat (vfs.dir home id)]) ++ [SRemoveAll (vfs.dir home id)]) ∧ ∀ c, r ≠ Crash c).
  { unfold vfs.Remove, Stat. rewrite (bind_Ok _ _ _ tt (h_trace (g_host s) ++ [SStat (vfs.dir home id)])) by (by apply sys__ok).
    unfold RemoveAll. rewrite sys__eq. eexists. split; [reflexivity|]. intros c. by repeat case_match. }
  destruct Er as (r & Er & Hr). unfold on_driver, on_host, zoom. cbn [view over host_lens trace_lens]. rewrite Er. split; [done|]. split; [done|].
  cbn. by rewrite <-app_assoc.
Qed.

(** Registering an image that is there fails, and takes away the file system of the one that is
    there: the deferred clean-up does not know that the id was not its own. *)
Theorem registering_again_removes_layer json l (img : Image Rest) s s1 :
  ValidateID (ID img) = Ok tt → Exists ar driver os_IsNotExist Root (ID img) s = (Ok true, s1) →
  sys_error (h_trace (g_host s1)) (SStat (vfs.dir home (ID img))) = None →
  let '(r, s') := register json l img s in
  r = Err (errors_New ("Image " +:+ ID img +:+ " already exists")) ∧ idIndex s' = idIndex s ∧
  h_trace (g_host s') = h_trace (g_host s1) ++ [SStat (vfs.dir home (ID img)); SRemoveAll (vfs.dir home (ID img))].
Proof.
  intros Hv He Hs. pose proof (Exists_same ar driver os_IsNotExist Root (ID img) s) as Hsame. rewrite He in Hsame. unfold same_index in Hsame. cbn in Hsame.
  assert (Hbody : ∀ k, (of_result (ValidateID (ID img)) ≫= λ _, there ← Exists ar driver os_IsNotExist Root (ID img);
      if there : bool then raise (errors_New ("Image " +:+ ID img +:+ " already exists")) else k) s
    = (Err (errors_New ("Image " +:+ ID img +:+ " already exists")) : Result unit, s1)).
  { intros k. rewrite (bind_Ok _ _ _ tt s) by (unfold of_result; by rewrite Hv). by rewrite (bind_Ok _ _ _ true s1). }
  unfold Register, deferred_on_error. rewrite (bind_Ok _ _ _ _ _ (attempt_Err _ _ _ _ (Hbody _))). cbn iota.
  pose proof (vfs_removes (ID img) s1 Hs) as Hrem. unfold ignore_err, attempt, mbind, M_bind, raise.
  destruct (on_driver (d_Remove driver (ID img)) s1) as [[u|e|c] s2]; destruct Hrem as (Hc & Hi & Ht); [| |by destruct (Hc c)].
  all: cbn; split; [done|]; split; [by rewrite Hi|done].
Qed.
End failures.

(** * Witnesses *)

Fixpoint many (n : nat) : string := match n with O => "" | S n => String "255"%char (many n) end.

(** An outside where no call fails and files hold what they hold. *)
Definition tree_kernel : Kernel := {|
  sys_error _ _ := None;
  sys_output h c := match c with
                    | SReadFile p => default "" (file_in (λ _ _, None) (reverse h) p)
                    | SRandom n => many n
                    | SStat _ => "d"
                    | _ => ""
                    end;
  sys_entries _ _ := [];
  getenv _ := "";
  environ := []
|}.

Lemma tree_kernel_files : FileTree (K := tree_kernel).
Proof. intros h p d H. cbn in *. by rewrite H. Qed.

Lemma many_length n : String.length (many n) = n.
Proof. induction n as [|n IH]; [done|]. cbn. by rewrite IH. Qed.

#[local] Existing Instance tree_kernel.

(** The JSON of an image is its id; layers are the sizes of what they hold. *)
Definition example_archiver : Archiver Z unit unit :=
  mkArchiver _ _ _ (λ _ _, mret tt) (λ _, mret 42) (λ _ _, mret tt) (λ _ _, mret 7) (λ _, mret 0) (λ _ _, mret 0) (λ _, mret tt)
    (λ json, Ok (mkImage json "" 0 false tt)) (λ img, Ok (ID img)).

Definition empty_graph : GState := mkGState (mkTruncIndex NewTrie ∅) (mkHost ∅ []).
Definition example_image : Image unit := mkImage "cafe" "" 0 false tt.
Definition example_root : string := "/var/lib/warden-docker-graph".

Local Abbreviation example_register := (Register (K := tree_kernel) example_archiver (vfs.Driver_ "/vfs") (λ _, false) example_root 1).

Local Abbreviation example_get := (Get example_archiver (vfs.Driver_ "/vfs") (λ _, false) example_root).

Lemma example_registers : ∃ s s1,
  example_register (Some "cafe") (Some 42) example_image empty_graph = (Ok tt, s) ∧ example_get "cafe" s = (Ok (mkImage "cafe" "" 42 true tt), s1).
Proof. do 2 eexists. split; vm_compute; reflexivity. Qed.

Lemma registered_image_found_witness :
  ∃ s s', example_register (Some "cafe") (Some 42) example_image empty_graph = (Ok tt, s) ∧
    example_get "cafe" s =
      (Ok (mkImage "cafe" "" 42 true tt), s').
Proof.
  destruct example_registers as (s & _ & Hs & _).
  destruct (registered_image_found (K := tree_kernel) example_archiver "/vfs" (λ _, false) ["var"; "lib"; "warden-docker-graph"] 1
    tree_kernel_files (λ _ n, many_length n) ltac:(done) ltac:(by repeat constructor) ltac:(intros ? ? n ? [= <- <-]; lia)
    ltac:(intros ? ? ? n ? [= <- <-]; lia) example_image "cafe" (mkImage "cafe" "" 0 false tt) (Some 42) empty_graph s)
    as (n & h & rest & s' & Hm & _ & H); [apply empty_ok|by split|by split|done|set_solver|done|done|exact Hs|].
  exists s, s'. split; [exact Hs|]. destruct Hm as (h0 & h1 & _ & Hm). cbn in Hm. injection Hm as <- _. exact H.
Defined.

Lemma Register_all_or_nothing_witness :
  ids (idIndex (example_register (Some "cafe") (Some 42) example_image empty_graph).2) = {["cafe"]}.
Proof.
  pose proof (Register_all_or_nothing (K := tree_kernel) example_archiver (vfs.Driver_ "/vfs") (λ _, false) example_root 1
    (Some "cafe") (Some 42) example_image empty_graph empty_ok) as H.
  destruct example_registers as (s & _ & Hs & _). rewrite Hs in H |- *. destruct H as (_ & _ & H). cbn [snd]. rewrite H. set_solver.
Defined.

Lemma registering_again_removes_layer_witness :
  ∃ s s1, example_register (Some "cafe") (Some 42) example_image empty_graph = (Ok tt, s) ∧
    (example_register (Some "cafe") (Some 42) example_image s).1 = Err (errors_New "Image cafe already exists") ∧
    h_trace (g_host (example_register (Some "cafe") (Some 42) example_image s).2) = s1 ++ [SStat "/vfs/dir/cafe"; SRemoveAll "/vfs/dir/cafe"].
Proof.
  destruct example_registers as (s & s1 & Hs & Hget). exists s, (h_trace (g_host s1)). split; [exact Hs|].
  pose proof (registering_again_removes_layer (K := tree_kernel) example_archiver "/vfs" example_root (λ _, false) 1 (Some "cafe") (Some 42)
    example_image s s1 eq_refl) as H.
  destruct (example_register (Some "cafe") (Some 42) example_image s) as [r s2]. destruct H as (-> & _ & H); [|reflexivity|].
  - unfold Exists. rewrite (bind_Ok _ _ _ _ _ (attempt_Ok _ _ _ _ Hget)). reflexivity.
  - split; [reflexivity|]. exact H.
Defined.

(** An image whose JSON has no id is refused, after all layers have been removed: the empty name
    is the directory of all of them. *)
Lemma empty_id_removes_all_layers :
  example_register (Some "") None (mkImage "" "" 0 false tt) empty_graph =
    (Err (errors_New "Id can't be empty"), mkGState (idIndex empty_graph) (mkHost ∅ [SStat "/vfs/dir"; SRemoveAll "/vfs/dir"])).
Proof. vm_compute. reflexivity. Qed.

(** An id can be a path: one that leads out of the graph is removed, wherever it leads. *)
Lemma id_removes_any_directory :
  SRemoveAll "/var" ∈ h_trace (g_host (example_register (Some "../..") None (mkImage "../.." "" 0 false tt) empty_graph).2).
Proof. apply (bool_decide_unpack _). vm_compute. exact I. Qed.

(** An id with a blank is registered, and not found afterwards. *)
Lemma blank_id_not_indexed :
  let '(r, s) := example_register (Some "ca fe") None (mkImage "ca fe" "" 0 false tt) empty_graph in
  r = Ok tt ∧ ids (idIndex s) = ∅.
Proof. vm_compute. split; reflexivity. Qed.

(** The ancestors of an image that is its own parent have no end. *)
Lemma own_parent_no_history {Layer Changes Rest} {K : Kernel} (ar : Archiver Layer Changes Rest) driver no root n (img : Image Rest) s :
  Parent img = ID img → ID img ≠ "" → img_graph img = true → (∀ s, Get ar driver no root (ID img) s = (Ok img, s)) →
  History ar driver no root n img s = (Crash Blocked, s).
Proof.
  intros Hp Hne Hg Hget. induction n as [|n IH]; [done|]. cbn [History].
  assert (E : GetParent ar driver no root img s = (Ok (Some img), s)).
  { unfold GetParent. rewrite Hp, (proj2 (String.eqb_neq _ _) Hne), Hg. cbn [negb]. by rewrite (bind_Ok _ _ _ _ _ (Hget s)). }
  unfold wrapped. rewrite (bind_Ok _ _ _ (Some img) s) by (by rewrite (bind_Ok _ _ _ _ _ (attempt_Ok _ _ _ _ E))).
  unfold mbind, M_bind in *. by rewrite IH.
Qed.
