(* ===== verification/DockerHttp.v ===== *)
(** github.com/docker/docker/utils, vendored: http.go, the requests that are sent to a registry
    and what decorates them, and resumablerequestreader.go, a download that goes on where its
    connection broke.

    Sending a request is a function of the outside ([client_Do]): the connections, proxies and
    cookies that net/http's client deals with, and the servers. *)
From Stdlib Require Import Ascii.
From S2P Require Import Prelude GoStd OS Url UrlQuery.

Local Open Scope string_scope.
Local Open Scope list_scope.
Local Open Scope Z_scope.

(** * net/http: requests and responses *)

Abbreviation Header := (gmap string (list string)).

Definition to_upper (c : ascii) : ascii :=
  if between "a" "z" c then ascii_of_nat (nat_of_ascii c - 32) else c.

(** [CanonicalHeaderKey]: upper case at the start and after hyphens, lower case elsewhere *)
Fixpoint canonical (upper : bool) (s : string) : string :=
  match s with
  | EmptyString => ""
  | String c s => String (if upper then to_upper c else to_lower c) (canonical (Ascii.eqb c "-") s)
  end.
Definition CanonicalHeaderKey : string → string := canonical true.

Definition h_Get (key : string) (h : Header) : string := Get (CanonicalHeaderKey key) h.
Definition h_Set (key value : string) (h : Header) : Header := <[CanonicalHeaderKey key := [value]]> h.
Definition h_Add (key value : string) (h : Header) : Header := Add (CanonicalHeaderKey key) value h.

(** The host of a URL as text, where [parse] finds the authority *)
Definition url_Host (raw : string) : string :=
  match getscheme (split_cut "#" raw).1 with
  | Ok (scheme, rest0) =>
      let rest := (split_cut "?" rest0).1 in
      if (negb (String.eqb scheme "") || negb (HasPrefix rest "///")) && HasPrefix rest "//" then
        let authority := (split_keep "/" (String.substring 2 (String.length rest) rest)).1 in
        match cut_last "@" authority with Some (_, host) => host | None => authority end
      else ""
  | _ => ""
  end.

Record Request := mkHttpRequest {
  q_Method : string;
  q_url : string;          (* the text the URL was made of *)
  q_Scheme : string;
  q_Host : string;
  q_Header : Header;
  q_body : string
}.

Definition set_Header (h : Header) (req : Request) : Request :=
  mkHttpRequest (q_Method req) (q_url req) (q_Scheme req) (q_Host req) h (q_body req).

Definition http_NewRequest (method urlStr body : string) : Result Request :=
  u ← Parse urlStr;
  Ok (mkHttpRequest method urlStr (Scheme u) (url_Host urlStr) ∅ body).

(** What the reads of a body give: chunks, and at the end the last one with an error,
    [io.EOF] if nothing went wrong *)
Record Body := mkBody { b_chunks : list string; b_last : string; b_end : error }.

Definition io_EOF : error := errors_New "EOF".

Definition concat_strings (l : list string) : string := foldr String.append "" l.

Definition ReadAll (b : Body) : string * option error :=
  (concat_strings (b_chunks b) +:+ b_last b, if decide (b_end b = io_EOF) then None else Some (b_end b)).

Record Response := mkHttpResponse {
  s_StatusCode : Z;
  s_Header : Header;
  s_ContentLength : Z;
  s_Body : Body
}.

(** The fields of an [http.Client] that doRequest sets: the certificates the server's is checked
    against, the client's own, and the kind of timeout. Redirections are made as
    AddRequiredHeadersToRedirectedRequests says (DockerRegistry.v). *)
Inductive TimeoutType := NoTimeout | ReceiveTimeout | ConnectTimeout.
Record HttpClient := mkHttpClient {
  c_jar : bool;
  c_roots : option (list string);
  c_cert : option (string * string);
  c_timeout : TimeoutType
}.

(** What the outside does with a request *)
Class Internet := client_Do : HttpClient → Request → M Trace Response.

(** * utils/http.go *)

Section base64.
Local Abbreviation alphabet := "ABCDEFGHIJKLMNOPQRSTUVWXYZabcdefghijklmnopqrstuvwxyz0123456789+/".

Definition base64_char (n : nat) : ascii := default "A"%char (String.get n alphabet).

Fixpoint base64 (s : string) : string :=
  match s with
  | EmptyString => ""
  | String a EmptyString =>
      let a := nat_of_ascii a in
      String (base64_char (a / 4)) (String (base64_char (a mod 4 * 16)) "==")
  | String a (String b EmptyString) =>
      let a := nat_of_ascii a in let b := nat_of_ascii b in
      String (base64_char (a / 4)) (String (base64_char (a mod 4 * 16 + b / 16)) (String (base64_char (b mod 16 * 4)) "="))
  | String a (String b (String c s)) =>
      let a := nat_of_ascii a in let b := nat_of_ascii b in let c := nat_of_ascii c in
      String (base64_char (a / 4)) (String (base64_char (a mod 4 * 16 + b / 16))
        (String (base64_char (b mod 16 * 4 + c / 64)) (String (base64_char (c mod 64)) (base64 s))))
  end.
End base64.

Definition SetBasicAuth (username password : string) (req : Request) : Request :=
  set_Header (h_Set "Authorization" ("Basic " +:+ base64 (username +:+ ":" +:+ password)) (q_Header req)) req.

Definition ContainsAny (s chars : string) : bool := existsb (λ c, contains_char c s) (String.list_ascii_of_string chars).

Definition stopChars : string := String " " (String "009" (String "013" (String newline "/"))).

(** The interface [VersionInfo]: a name and a version *)
Definition validVersion (version : string * string) : bool :=
  let '(name, vers) := version in
  negb (String.eqb name "" || ContainsAny name stopChars) && negb (String.eqb vers "" || ContainsAny vers stopChars).

Definition appendVersions (base : string) (versions : list (string * string)) : string :=
  match versions with
  | [] => base
  | _ =>
      Join ((if String.eqb base "" then [] else [base]) ++
            map (λ v, v.1 +:+ "/" +:+ v.2) (List.filter validVersion versions)) " "
  end.

(** The interface [HTTPRequestDecorator], and its implementations *)
Inductive Decorator :=
  | HTTPUserAgentDecorator (versions : list (string * string))
  | HTTPMetaHeadersDecorator (Headers : option Header)
  | HTTPAuthDecorator (login password : string).

Definition ChangeRequest (d : Decorator) (req : Request) : Request :=
  match d with
  | HTTPUserAgentDecorator versions =>
      let userAgent := appendVersions (h_Get "User-Agent" (q_Header req)) versions in
      if String.eqb userAgent "" then req else set_Header (h_Set "User-Agent" userAgent (q_Header req)) req
  | HTTPMetaHeadersDecorator None => req
  | HTTPMetaHeadersDecorator (Some headers) => set_Header (headers ∪ q_Header req) req
  | HTTPAuthDecorator login password => SetBasicAuth login password req
  end.

(** An [*HTTPRequestFactory], which may be nil, by its decorators *)
Abbreviation HTTPRequestFactory := (option (list Decorator)).

Definition AddDecorator (d : list Decorator) (h : HTTPRequestFactory) : Result HTTPRequestFactory :=
  match h with
  | None => Crash (Panic "invalid memory address or nil pointer dereference")
  | Some decorators => Ok (Some (decorators ++ d))
  end.

Definition NewRequest (h : HTTPRequestFactory) (method urlStr body : string) (d : list Decorator) : Result Request :=
  req ← http_NewRequest method urlStr body;
  Ok match h with
     | None => req
     | Some decorators => foldl (λ req dec, ChangeRequest dec req) req (decorators ++ d)
     end.

(** * utils/resumablerequestreader.go *)

Record Resumable := mkResumable {
  rr_client : option HttpClient;
  rr_request : option Request;
  lastRange : Z;
  totalSize : Z;
  currentResponse : option Response;
  failures : Z;
  maxFailures : Z
}.

(** A reader, and the outside *)
Record Reading := mkReading { rd : Resumable; rd_trace : Trace }.

Definition reader_lens : Lens Reading Resumable := mkLens rd (λ r s, mkReading r (rd_trace s)).
Definition outside_lens : Lens Reading Trace := mkLens rd_trace (λ h s, mkReading (rd s) h).

Section resumable.
Context {I : Internet}.

Definition ResumableRequestReaderWithInitialResponse (c : HttpClient) (r : Request) (maxfail totalsize : Z) (initialResponse : Response) : Resumable :=
  mkResumable (Some c) (Some r) 0 totalsize (Some initialResponse) 0 maxfail.

Definition set_request (q : option Request) (r : Resumable) : Resumable :=
  mkResumable (rr_client r) q (lastRange r) (totalSize r) (currentResponse r) (failures r) (maxFailures r).
Definition set_response (s : option Response) (r : Resumable) : Resumable :=
  mkResumable (rr_client r) (rr_request r) (lastRange r) (totalSize r) s (failures r) (maxFailures r).
Definition set_totalSize (n : Z) (r : Resumable) : Resumable :=
  mkResumable (rr_client r) (rr_request r) (lastRange r) n (currentResponse r) (failures r) (maxFailures r).
Definition set_lastRange (n : Z) (r : Resumable) : Resumable :=
  mkResumable (rr_client r) (rr_request r) n (totalSize r) (currentResponse r) (failures r) (maxFailures r).
Definition set_failures (n : Z) (r : Resumable) : Resumable :=
  mkResumable (rr_client r) (rr_request r) (lastRange r) (totalSize r) (currentResponse r) n (maxFailures r).

(** A uint32 *)
Definition wrap32 (n : Z) : Z := n mod 2 ^ 32.

Definition cleanUpResponse : M Resumable unit := modify (set_response None).

(** The request, with the range that is left *)
Definition ranged (r : Resumable) (req : Request) : Request :=
  set_Header (h_Set "Range" ("bytes=" +:+ fmt_d (lastRange r) +:+ "-" +:+ fmt_d (totalSize r)) (q_Header req)) req.

(** The first read of a body, and the body after it; it ends after its error. *)
Definition Body_Read (b : Body) : string * option error * Body :=
  match b_chunks b with
  | c :: cs => (c, None, mkBody cs (b_last b) (b_end b))
  | [] => (b_last b, Some (b_end b), mkBody [] "" (b_end b))
  end.

Definition set_Body (b : Body) (s : Response) : Response :=
  mkHttpResponse (s_StatusCode s) (s_Header s) (s_ContentLength s) b.

(** What Read does with the current response: the bytes and the error *)
Definition read_response (fresh : bool) (res : Response) : M Resumable (string * option error) :=
  r ← gets id;
  if (s_StatusCode res =? 416) && (lastRange r =? totalSize r) && (s_ContentLength res =? 0) then
    cleanUpResponse ≫= λ _, mret ("", Some io_EOF)
  else if negb (s_StatusCode res =? 206) && negb (lastRange r =? 0) && fresh then
    cleanUpResponse ≫= λ _, mret ("", Some (errors_New "the server doesn't support byte ranges"))
  else
    (if totalSize r =? 0 then modify (set_totalSize (s_ContentLength res)) else mret tt) ≫= λ _,
    if negb (totalSize r =? 0) && (totalSize r <=? 0) then
      cleanUpResponse ≫= λ _, mret ("", Some (errors_New "failed to auto detect content length"))
    else
      let '(n, err, body) := Body_Read (s_Body res) in
      modify (λ r, set_lastRange (lastRange r + Z.of_nat (String.length n)) (set_response (Some (set_Body body res)) r)) ≫= λ _,
      match err with
      | None => mret (n, None)
      | Some e => cleanUpResponse ≫= λ _, mret (n, if decide (e = io_EOF) then Some io_EOF else None)
      end.

(** A request that failed *)
Definition request_failed (e : error) : M Resumable (string * option error) :=
  r ← gets id;
  if negb (wrap32 (failures r + 1) =? maxFailures r) then
    cleanUpResponse ≫= λ _, modify (set_failures (wrap32 (failures r + 1))) ≫= λ _, mret ("", None)
  else cleanUpResponse ≫= λ _, mret ("", Some e).

(** The bytes read, and the error returned with them. A body is read as it comes: the length of
    the buffer that Read is given is part of how the body is cut into chunks. *)
Definition Read : M Reading (string * option error) :=
  r ← gets rd;
  match rr_client r, rr_request r with
  | Some client, Some request =>
      match currentResponse r with
      | Some res => zoom reader_lens (read_response false res)
      | None =>
          let request := if lastRange r =? 0 then request else ranged r request in
          zoom reader_lens (modify (set_request (Some request))) ≫= λ _,
          sent ← attempt (zoom outside_lens (client_Do client request));
          match sent with
          | inl res => zoom reader_lens (modify (set_response (Some res)) ≫= λ _, read_response true res)
          | inr e => zoom reader_lens (request_failed e)
          end
      end
  | _, _ => mret ("", Some (errors_New ("client and request can't be nil" +:+ nl)))
  end.

Definition Close : M Reading unit :=
  zoom reader_lens (cleanUpResponse ≫= λ _,
    modify (λ r, mkResumable None None (lastRange r) (totalSize r) (currentResponse r) (failures r) (maxFailures r))).

(** Reading until an error, at most [fuel] times: all the bytes, and the error if there was one *)
Fixpoint consume (fuel : nat) : M Reading (string * option error) :=
  match fuel with
  | O => mret ("", None)
  | S fuel =>
      '(n, err) ← Read;
      match err with
      | Some e => mret (n, Some e)
      | None => '(rest, err) ← consume fuel; mret (n +:+ rest, err)
      end
  end.
End resumable.

(** * Lemmas *)

Definition body_data (b : Body) : string := concat_strings (b_chunks b) +:+ b_last b.

(** The reader's request, with whatever headers *)
Definition same_request (q0 q : Request) : Prop := ∃ header, q = set_Header header q0.

Section resuming.
Context {I : Internet} (content : string) (Hcontent : content ≠ "") (c0 : HttpClient) (q0 : Request).
Local Abbreviation total := (Z.of_nat (String.length content)).

(** [b] gives the start of [rest], all of it if it ends with [io.EOF]. *)
Definition carries (rest : string) (b : Body) : Prop :=
  let data := concat_strings (b_chunks b) +:+ b_last b in
  (∃ more, rest = data +:+ more) ∧ (b_end b = io_EOF → data = rest).

(** What resuming rests on, of the one request that a reader makes again and again: an answer with
    status 206 to a request for the range from some byte on carries the content from there on.
    Answers with other statuses may carry anything. *)
Definition serves_ranges : Prop :=
  (∀ q h res h' got rest, same_request q0 q → client_Do c0 q h = (Ok res, h') →
   content = got +:+ rest → h_Get "Range" (q_Header q) = "bytes=" +:+ fmt_d (Z.of_nat (String.length got)) +:+ "-" +:+ fmt_d total →
   s_StatusCode res = 206 → carries rest (s_Body res)) ∧
  (** the errors of the client are not the end of a file *)
  (∀ q h e h', same_request q0 q → client_Do c0 q h = (Err e, h') → e ≠ io_EOF).

(** [got] has been read of [content]. *)
Record reading_ok (got : string) (r : Resumable) : Prop := {
  ro_range : lastRange r = Z.of_nat (String.length got);
  ro_total : totalSize r = total;
  ro_client c : rr_client r = Some c → c = c0;
  ro_request q : rr_request r = Some q → same_request q0 q;
  ro_rest : ∃ rest, content = got +:+ rest ∧ ∀ res, currentResponse r = Some res → carries rest (s_Body res)
}.

(** As long as nothing has been read, there is a response that has something to read. *)
Definition started (got : string) (r : Resumable) : Prop :=
  got = "" → ∃ res, currentResponse r = Some res ∧ body_data (s_Body res) ≠ "".

Lemma carries_read rest b :
  carries rest b →
  let '(n, err, b') := Body_Read b in
  ∃ rest', rest = n +:+ rest' ∧
    match err with None => carries rest' b' | Some e => e = io_EOF → rest' = "" end.
Proof.
  intros [[more H] Heof]. unfold Body_Read. destruct b as [cs l e]. cbn in *. destruct cs as [|c cs]; cbn in *.
  - exists more. split; [done|]. intros E. specialize (Heof E). rewrite Heof in H. apply (f_equal String.length) in H.
    rewrite length_string_app in H. destruct more; [done|cbn in H; lia].
  - exists ((concat_strings cs +:+ l) +:+ more). split; [by rewrite H, !string_app_assoc|]. split; [by exists more|].
    cbn. intros E. specialize (Heof E). rewrite H in Heof. apply (f_equal String.length) in Heof.
    rewrite !length_string_app in Heof. destruct more; [by rewrite string_app_nil|cbn in Heof; lia].
Qed.

(** The outcome of a read *)
Definition read_well (got : string) (out : string * option error) (r : Resumable) : Prop :=
  reading_ok (got +:+ out.1) r ∧ started (got +:+ out.1) r ∧ (out.2 = Some io_EOF → content = got +:+ out.1).

Lemma reading_cleaned got r : reading_ok got r → reading_ok got (set_response None r).
Proof. intros [H1 H2 H3 H4 (rest & H5 & _)]. split; [done..|]. by exists rest. Qed.

Lemma cleaned_well got r e : reading_ok got r → started got r → e ≠ io_EOF → read_well got ("", Some e) r.
Proof. intros H Hs He. unfold read_well. cbn. rewrite string_app_nil. split; [done|]. split; [done|]. by intros [= ?]. Qed.

Lemma read_something got r : got ≠ "" → started got r.
Proof. by intros H ?. Qed.

Lemma at_start got r : reading_ok got r → lastRange r = 0 → got = "".
Proof. intros [-> _ _ _ _] H. destruct got; [done|]. cbn in H. lia. Qed.

Lemma app_empty s t : s +:+ t = "" → s = "" ∧ t = "".
Proof. by destruct s. Qed.

Lemma read_response_well got rest fresh res r :
  reading_ok got (set_response None r) → content = got +:+ rest →
  (got = "" → fresh = false ∧ body_data (s_Body res) ≠ "") →
  (negb (s_StatusCode res =? 206) && negb (lastRange r =? 0) && fresh = false → carries rest (s_Body res)) →
  ∃ out r', read_response fresh res r = (Ok out, r') ∧ read_well got out r'.
Proof.
  intros Hr H5 Hst H6. pose proof Hr as [H1 H2 H3 H4 _]. cbn in H1, H2, H3, H4. unfold read_response, gets, modify, cleanUpResponse, mbind, M_bind, mret, M_ret. cbn [id].
  assert (Hne : lastRange r ≠ 0 → got ≠ "") by (intros Hl ->; by apply Hl).
  assert (Htotal : total ≠ 0) by (by destruct content).
  destruct (_ && (s_ContentLength res =? 0)) eqn:E1.
  { apply andb_true_iff in E1 as [[_ E1%Z.eqb_eq]%andb_true_iff _].
    do 2 eexists. split; [reflexivity|]. unfold read_well. cbn. rewrite string_app_nil. split; [done|]. split; [apply read_something, Hne; lia|].
    intros _. rewrite H5. rewrite H1, H2, H5, length_string_app in E1. destruct rest; [by rewrite string_app_nil|cbn in E1; lia]. }
  destruct (_ && fresh) eqn:E2.
  { do 2 eexists. split; [reflexivity|]. apply cleaned_well; [done| |done]. apply read_something, Hne.
    apply andb_true_iff in E2 as [[_ E2%negb_true_iff%Z.eqb_neq]%andb_true_iff _]. done. }
  destruct (_ && (totalSize r <=? 0)) eqn:E3.
  { rewrite H2 in E3. apply andb_true_iff in E3 as [E3%negb_true_iff%Z.eqb_neq E7%Z.leb_le]. lia. }
  assert (E4 : (totalSize r =? 0) = false) by (rewrite H2; by apply Z.eqb_neq). rewrite E4. cbn [negb andb].
  pose proof (carries_read rest (s_Body res) (H6 eq_refl)) as H. unfold body_data in Hst.
  destruct (Body_Read (s_Body res)) as [[n err] b'] eqn:Eb. destruct H as (rest' & Hrest & H). rewrite Hrest in H5.
  assert (Hg : ∀ s, (∀ res', s = Some res' → carries rest' (s_Body res')) →
    reading_ok (got +:+ n) (set_response s (set_lastRange (lastRange r + Z.of_nat (String.length n)) r))).
  { intros s Hs. split; [cbn; rewrite H1, length_string_app; lia|done..|exists rest'; by rewrite string_app_assoc]. }
  unfold Body_Read in Eb. destruct err as [e|].
  - do 2 eexists. split; [reflexivity|]. split; [by apply (Hg None)|]. split.
    + cbn. intros [-> ->]%app_empty. destruct (b_chunks (s_Body res)); [|done]. injection Eb as E _ _. destruct (Hst eq_refl) as [_ []]. cbn. by rewrite E.
    + cbn. destruct (decide (e = io_EOF)) as [He|]; [|done]. intros _. by rewrite H5, (H He), string_app_nil.
  - do 2 eexists. split; [reflexivity|]. split; [apply (Hg (Some (set_Body b' res))); by intros ? [= <-]|]. split; [|done].
    cbn. intros [-> ->]%app_empty. eexists. split; [done|]. cbn. destruct (b_chunks (s_Body res)) as [|chunk cs]; [done|]. injection Eb as -> <-.
    by apply Hst.
Qed.

Lemma request_failed_well got e r :
  reading_ok got r → got ≠ "" → e ≠ io_EOF → ∃ out r', request_failed e r = (Ok out, r') ∧ read_well got out r'.
Proof.
  intros H Hne He. unfold request_failed, gets, modify, cleanUpResponse, mbind, M_bind, mret, M_ret. cbn [id]. destruct (negb _).
  - do 2 eexists. split; [reflexivity|]. unfold read_well. cbn. rewrite string_app_nil. split; [by destruct (reading_cleaned _ _ H)|].
    split; [by apply read_something|done].
  - do 2 eexists. split; [reflexivity|]. apply cleaned_well; [by apply reading_cleaned|by apply read_something|done].
Qed.

(** The request for what is left is sent on. *)
Lemma ranged_ok got r q :
  reading_ok got r → rr_request r = Some q → reading_ok got (set_request (Some (if lastRange r =? 0 then q else ranged r q)) r).
Proof.
  intros [H1 H2 H3 H4 H5] Hq. split; [done..| |done]. cbn. intros q' [= <-]. destruct (H4 _ Hq) as [hd ->].
  destruct (lastRange r =? 0); [by exists hd|]. by eexists.
Qed.

Lemma Range_sent r q : h_Get "Range" (q_Header (ranged r q)) = "bytes=" +:+ fmt_d (lastRange r) +:+ "-" +:+ fmt_d (totalSize r).
Proof. unfold h_Get, ranged, h_Set, Get. cbn [q_Header set_Header]. by rewrite lookup_insert_eq. Qed.

Lemma Read_well got s :
  serves_ranges → reading_ok got (rd s) → started got (rd s) →
  match Read s with
  | (Ok out, s') => read_well got out (rd s')
  | (Err _, _) => False
  | (Crash f, _) => ∃ q' h', same_request q0 q' ∧ (client_Do c0 q' h').1 = Crash f
  end.
Proof.
  intros [Hpart Herr] Hr Hst. pose proof Hr as [H1 H2 H3 H4 (rest & H5 & H6)]. unfold Read, gets. destruct s as [r h].
  unfold mbind at 1, M_bind at 1. cbn [rd] in *. destruct (rr_client r) as [c|] eqn:Ecl; [|by apply cleaned_well].
  destruct (rr_request r) as [q|] eqn:Eq; [|by apply cleaned_well]. specialize (H3 c eq_refl). subst c.
  destruct (currentResponse r) as [res|] eqn:Ec.
  { destruct (read_response_well got rest false res r) as (out & r' & E & H); [by apply reading_cleaned|done| |by auto|].
    - intros E. split; [done|]. destruct (Hst E) as (res' & Eres & Hd). congruence.
    - unfold zoom. cbn [view over reader_lens rd]. by rewrite E. }
  assert (Hne : got ≠ "") by (intros E; by destruct (Hst E) as (? & ? & _); congruence).
  assert (E0 : (lastRange r =? 0) = false) by (apply Z.eqb_neq; intros E; by apply Hne, (at_start _ _ Hr)).
  pose proof (ranged_ok _ _ _ Hr Eq) as Hr'. rewrite E0 in Hr' |- *. pose proof (ro_request _ _ Hr' _ eq_refl) as Hsame.
  set (r1 := set_request (Some (ranged r q)) r) in *. rewrite (bind_Ok _ _ _ tt (mkReading r1 h)) by done.
  destruct (client_Do c0 (ranged r q) h) as [[res|e|f] h'] eqn:Ed.
  - rewrite (bind_Ok _ _ _ (inl res) (mkReading r1 h')) by (unfold attempt, zoom; cbn; by rewrite Ed).
    destruct (read_response_well got rest true res (set_response (Some res) r1)) as (out & r' & E & H); [exact (reading_cleaned _ _ Hr')|done|done| |].
    + change (lastRange (set_response (Some res) r1)) with (lastRange r). rewrite E0.
      cbn [negb andb]. rewrite !andb_true_r. intros E%negb_false_iff%Z.eqb_eq. eapply Hpart; [exact Hsame|exact Ed|exact H5| |done]. by rewrite Range_sent, H1, H2.
    + unfold zoom. cbn [view over reader_lens rd]. rewrite (bind_Ok _ _ _ tt (set_response (Some res) r1)) by done. by rewrite E.
  - rewrite (bind_Ok _ _ _ (inr e) (mkReading r1 h')) by (unfold attempt, zoom; cbn; by rewrite Ed).
    destruct (request_failed_well got e r1) as (out & r' & E & H); [done|done|by eapply Herr|].
    unfold zoom. cbn [view over reader_lens rd]. by rewrite E.
  - rewrite (bind_Crash _ _ _ f (mkReading r1 h')) by (unfold attempt, zoom; cbn; by rewrite Ed). exists (ranged r q), h. by rewrite Ed.
Qed.

Lemma consume_well fuel got s :
  serves_ranges → reading_ok got (rd s) → started got (rd s) →
  match consume fuel s with
  | (Ok (out, err), s') => (∃ rest, content = got +:+ out +:+ rest) ∧ (err = Some io_EOF → content = got +:+ out)
  | (Err _, _) => False
  | (Crash f, _) => ∃ q' h', same_request q0 q' ∧ (client_Do c0 q' h').1 = Crash f
  end.
Proof.
  intros Hs. revert got s. induction fuel as [|fuel IH]; intros got s Hr Hst; cbn [consume].
  { destruct Hr as [_ _ _ _ (rest & H & _)]. split; [by exists rest|done]. }
  pose proof (Read_well got s Hs Hr Hst) as H. unfold mbind, M_bind. destruct (Read s) as [[[n err]|e|f] s1]; [|done..].
  destruct H as (H & Hst1 & Heof). cbn in H, Hst1, Heof. destruct err as [e|].
  { destruct H as [_ _ _ _ (rest & H & _)]. cbn. split; [exists rest; by rewrite string_app_assoc in H|done]. }
  specialize (IH _ _ H Hst1). destruct (consume fuel s1) as [[[out err]|e|f] s2]; [|done..].
  cbn. destruct IH as [[rest IH1] IH2]. rewrite !string_app_assoc in IH1, IH2. split; [exists rest; by rewrite string_app_assoc|done].
Qed.
End resuming.

(** ** That a download comes to its end *)

Section finishing.
Context {I : Internet} (content : string) (Hcontent : content ≠ "") (c0 : HttpClient) (q0 : Request).
Context (Hserves : serves_ranges content c0 q0).
Local Abbreviation total := (Z.of_nat (String.length content)).
Local Abbreviation reading_ok := (reading_ok content c0 q0).

(** A server that is there: a request for a range is answered with at least a byte of it, or
    with the status that says that there is nothing left, and nothing else. *)
Definition steady : Prop := ∀ q h got rest,
  same_request q0 q → content = got +:+ rest → h_Get "Range" (q_Header q) = "bytes=" +:+ fmt_d (Z.of_nat (String.length got)) +:+ "-" +:+ fmt_d total →
  ∃ res h', client_Do c0 q h = (Ok res, h') ∧
    if String.eqb rest "" then s_StatusCode res = 416 ∧ s_ContentLength res = 0
    else s_StatusCode res = 206 ∧ body_data (s_Body res) ≠ "".

Definition finishes (s : Reading) : Prop := ∃ fuel out s', consume fuel s = (Ok (out, Some io_EOF), s').

Lemma finishes_eof s n s1 : Read s = (Ok (n, Some io_EOF), s1) → finishes s.
Proof. intros H. exists 1%nat, n, s1. cbn [consume]. by rewrite (bind_Ok _ _ _ _ _ H). Qed.

Lemma finishes_step s n s1 : Read s = (Ok (n, None), s1) → finishes s1 → finishes s.
Proof.
  intros H (fuel & out & s2 & H2). exists (S fuel), (n +:+ out), s2. cbn [consume]. rewrite (bind_Ok _ _ _ _ _ H). cbn.
  by rewrite (bind_Ok _ _ _ _ _ H2).
Qed.

Lemma finishes_same s s1 : Read s = Read s1 → finishes s1 → finishes s.
Proof. intros H ([|fuel] & out & s2 & H2); [done|]. exists (S fuel), out, s2. cbn [consume] in *. unfold mbind, M_bind in *. by rewrite H. Qed.

(** The reader can send requests. *)
Definition open (r : Resumable) : Prop := is_Some (rr_client r) ∧ is_Some (rr_request r).

Lemma totals got r : reading_ok got r → (totalSize r =? 0) = false ∧ (totalSize r <=? 0) = false.
Proof. intros [_ -> _ _ _]. assert (0 < total) by (destruct content; [done|cbn; lia]). split; [by apply Z.eqb_neq; lia|by apply Z.leb_gt; lia]. Qed.

Lemma Read_current c q res s :
  rr_client (rd s) = Some c → rr_request (rd s) = Some q → currentResponse (rd s) = Some res → Read s = zoom reader_lens (read_response false res) s.
Proof. intros Hc Hq Hr. unfold Read, gets, mbind at 1, M_bind at 1. by rewrite Hc, Hq, Hr. Qed.

(** The response at hand is read to its end. *)
Lemma drained res got s :
  open (rd s) → reading_ok got (rd s) → started got (rd s) → currentResponse (rd s) = Some res →
  (∀ got' s', reading_ok got' (rd s') → open (rd s') → currentResponse (rd s') = None →
    String.length got' = (String.length got + String.length (body_data (s_Body res)))%nat → finishes s') →
  finishes s.
Proof.
  remember (b_chunks (s_Body res)) as cs eqn:Ecs. revert res got s Ecs.
  induction cs as [|chunk cs IH]; intros res got s Ecs [[c Hc] [q Hq]] Hr Hst Hres Hk.
  all: pose proof (Read_well content Hcontent c0 q0 got s Hserves Hr Hst) as Hw; destruct s as [r h]; cbn [rd] in *.
  all: destruct (totals _ _ Hr) as [T1 T2]; pose proof (Read_current c q res (mkReading r h) Hc Hq Hres) as ER; rewrite ER in Hw.
  all: unfold zoom in Hw, ER; cbn [view over reader_lens rd rd_trace] in Hw, ER.
  all: unfold read_response, gets, modify, cleanUpResponse, mbind, M_bind, mret, M_ret in Hw, ER; cbn [id] in Hw, ER.
  all: rewrite T1, T2 in Hw, ER; rewrite andb_false_r in Hw, ER; cbn [negb andb] in Hw, ER; unfold Body_Read in Hw, ER; rewrite <-Ecs in Hw, ER.
  all: destruct (_ && (s_ContentLength res =? 0)); cbn in Hw, ER; [by eapply finishes_eof|].
  - destruct (decide (b_end (s_Body res) = io_EOF)); [by eapply finishes_eof|].
    eapply finishes_step; [exact ER|]. destruct Hw as (Hw & _ & _). eapply Hk; [exact Hw|by split; eexists|done|].
    unfold body_data. rewrite <-Ecs. cbn. by rewrite length_string_app.
  - eapply finishes_step; [exact ER|]. destruct Hw as (Hw & Hst1 & _).
    apply (IH (set_Body (mkBody cs (b_last (s_Body res)) (b_end (s_Body res))) res) (got +:+ chunk)); [done|by split; eexists|exact Hw|exact Hst1|done|].
    intros got' s' Hr' Ho' Hres' Hl. apply (Hk got' s' Hr' Ho' Hres'). rewrite Hl. unfold body_data. rewrite <-Ecs. cbn.
    rewrite !length_string_app. lia.
Qed.

(** Every connection brings the download on. *)
Lemma finishes_from n got rest s :
  steady → open (rd s) → reading_ok got (rd s) → currentResponse (rd s) = None → got ≠ "" → content = got +:+ rest → (String.length rest ≤ n)%nat →
  finishes s.
Proof.
  intros Hs. revert got rest s. induction n as [n IH] using lt_wf_ind. intros got rest [r h] [[c Hc] [q Hq]] Hr Hres Hgot Hrest Hn. cbn [rd] in *.
  pose proof Hr as [H1 H2 H3 _ _]. specialize (H3 c Hc). subst c. assert (E0 : (lastRange r =? 0) = false) by (rewrite H1; apply Z.eqb_neq; destruct got; [done|cbn; lia]).
  pose proof (ranged_ok _ _ _ _ _ _ Hr Hq) as Hr1. rewrite E0 in Hr1. pose proof (ro_request _ _ _ _ _ Hr1 _ eq_refl) as Hsame.
  destruct (Hs (ranged r q) h got rest Hsame Hrest) as (res & h' & Hdo & Hres'); [by rewrite Range_sent, H1, H2|]. set (r1 := set_response (Some res) (set_request (Some (ranged r q)) r)).
  assert (ER : Read (mkReading r h) = zoom reader_lens (read_response true res) (mkReading r1 h')).
  { unfold Read, gets, mbind at 1, M_bind at 1. cbn [rd]. rewrite Hc, Hq, Hres, E0. unfold zoom, attempt, modify, mbind, M_bind. cbn. by rewrite Hdo. }
  destruct (totals _ _ Hr) as [T1 T2]. destruct (String.eqb_spec rest "") as [-> | Hne].
  { destruct Hres' as [S1 S2]. rewrite string_app_nil in Hrest. eapply finishes_eof. rewrite ER. unfold zoom, read_response, gets, mbind, M_bind. cbn [view reader_lens rd id].
    rewrite S1, S2. change (lastRange r1) with (lastRange r). change (totalSize r1) with (totalSize r). rewrite H1, H2, <-Hrest, !Z.eqb_refl. reflexivity. }
  destruct Hres' as [S1 Hd]. apply (finishes_same _ (mkReading r1 h')).
  { rewrite ER, (Read_current c0 (ranged r q) res) by done. unfold zoom, read_response. cbn [view reader_lens rd]. by rewrite S1. }
  assert (Hcar : carries rest (s_Body res)).
  { destruct Hserves as [Hp _]. eapply Hp; [exact Hsame|exact Hdo|exact Hrest|by rewrite Range_sent, H1, H2|done]. }
  apply (drained res got); [split; [by exists c0|by eexists]| |by apply read_something|done|].
  { destruct Hr1 as [A1 A2 A3 A4 _]. split; [done..|]. exists rest. split; [done|]. by intros ? [= <-]. }
  intros got' s' Hr' Ho' Hcur Hl. destruct Hr' as [B1 B2 B3 B6 (rest' & B4 & B5)].
  assert (String.length (body_data (s_Body res)) ≠ 0%nat) by (by destruct (body_data (s_Body res))).
  assert (String.length got + String.length rest = String.length got' + String.length rest')%nat.
  { rewrite <-!length_string_app. congruence. }
  apply (IH (String.length rest') ltac:(lia) got' rest' s'); [done|by split; [..|exists rest']|done| |done|lia].
  intros ->. cbn in Hl. lia.
Qed.
End finishing.

(** * Properties *)

Section properties.
Context {I : Internet} (content : string) (c : HttpClient) (q : Request) (maxfail : Z) (res : Response).

(** The reader that is made for a layer whose download has begun *)
Definition begun (h : Trace) : Reading :=
  mkReading (ResumableRequestReaderWithInitialResponse c q maxfail (Z.of_nat (String.length content)) res) h.

End properties.

(** A download that broke before its first byte starts again without a look at the status: the
    page that a server sends with an error becomes part of the layer. *)
Lemma error_page_read_as_layer {I : Internet} c q r h h' status header page bodyLength more :
  rr_client r = Some c → rr_request r = Some q → currentResponse r = None → lastRange r = 0 → 0 < totalSize r →
  client_Do c q h = (Ok (mkHttpResponse status header bodyLength (mkBody [page] more io_EOF)), h') →
  ∃ s', Read (mkReading r h) = (Ok (page, None), s').
Proof.
  intros Hc Hq Hn H0 Ht Hdo. eexists. unfold Read, gets, mbind at 1, M_bind at 1. cbn [rd]. rewrite Hc, Hq, Hn, H0. cbn [Z.eqb].
  unfold zoom, attempt, modify, mbind, M_bind. cbn. rewrite Hdo. cbn. unfold read_response, gets, modify, mbind, M_bind. cbn.
  rewrite H0. rewrite (proj2 (Z.eqb_neq 0 (totalSize r)) ltac:(lia)), andb_false_r, andb_false_r. cbn [andb].
  rewrite (proj2 (Z.eqb_neq (totalSize r) 0) ltac:(lia)). rewrite (proj2 (Z.leb_gt (totalSize r) 0) ltac:(lia)). reflexivity.
Qed.

(** * Witnesses *)

(** A server that sends a byte at a time, after which the connection breaks. *)
#[local] Instance example_internet : Internet := λ _ q,
  let range := h_Get "Range" (q_Header q) in
  if String.eqb range "" then mret (mkHttpResponse 503 ∅ 5 (mkBody ["sorry"] "" io_EOF))
  else match find (λ k, String.eqb range ("bytes=" +:+ fmt_d (Z.of_nat k) +:+ "-5")) (seq 0 6) with
       | Some 5%nat => mret (mkHttpResponse 416 ∅ 0 (mkBody [] "" io_EOF))
       | Some k => mret (mkHttpResponse 206 ∅ 1 (mkBody [] (String.substring k 1 "layer") (errors_New "connection reset")))
       | None => raise (errors_New "bad range")
       end.

Lemma layer_splits got rest : "layer" = got +:+ rest → (String.length got, rest) ∈ [(0%nat, "layer"); (1%nat, "ayer"); (2%nat, "yer"); (3%nat, "er"); (4%nat, "r"); (5%nat, "")].
Proof.
  intros H. do 5 (destruct got as [|? got]; [lazymatch type of H with ?s = _ => change (s = rest) in H end; subst rest; apply (bool_decide_unpack _); vm_compute; exact I|injection H as <- H]).
  destruct got; [|done]. change ("" = rest) in H. subst rest. apply (bool_decide_unpack _). vm_compute. exact I.
Qed.

(** What the server sends of each part of the layer *)
Lemma example_ranges c q h got rest :
  "layer" = got +:+ rest → h_Get "Range" (q_Header q) = "bytes=" +:+ fmt_d (Z.of_nat (String.length got)) +:+ "-" +:+ fmt_d 5 →
  ∃ res h', client_Do c q h = (Ok res, h') ∧ carries rest (s_Body res) ∧
    if String.eqb rest "" then s_StatusCode res = 416 ∧ s_ContentLength res = 0
    else s_StatusCode res = 206 ∧ body_data (s_Body res) ≠ "".
Proof.
  intros H%layer_splits Hr. unfold client_Do, example_internet. rewrite Hr. clear Hr. cbn zeta.
  repeat (apply elem_of_cons in H as [[= -> ->]|H]; [do 2 eexists; split; [reflexivity|split; [split; [by eexists|by intros [=]]|by split]]|]).
  by apply elem_of_nil in H.
Qed.

Lemma example_serves c q0 : serves_ranges "layer" c q0 ∧ steady "layer" c q0.
Proof.
  split; [split|].
  - intros q h res h' got rest _ H Hs Hr _. destruct (example_ranges c q h got rest Hs Hr) as (res' & h2 & E & Hc & _). congruence.
  - intros q h e h' _ H ->. unfold client_Do, example_internet in H. cbn zeta in H. destruct (String.eqb _ ""); [done|].
    destruct (find _ _) as [k|]; [|done]. by do 6 (destruct k; [done|]).
  - intros q h got rest _ Hs Hr. destruct (example_ranges c q h got rest Hs Hr) as (res & h2 & E & _ & H). by exists res, h2.
Qed.

Local Abbreviation example_begun :=
  (begun "layer" (mkHttpClient true None None ReceiveTimeout) (mkHttpRequest "GET" "http://r/v1/images/a/layer" "http" "r" ∅ "") 5
    (mkHttpResponse 200 ∅ 5 (mkBody ["la"] "" (errors_New "unexpected EOF")))).

