(* ===== verification/RepositoryFetcher.v ===== *)
(** linux_backend/container_pool/repository_fetcher: fetching the layers of a docker
    image ([DockerRepositoryFetcher]), three times if need be ([Retryable]).

    The registry, the graph that stores the layers and the parser of image metadata
    are packages the program only calls: records of operations on a state of their
    own, with laws, which DockerStore.v shows of docker's packages. The map of layers being fetched, which goroutines wait on, is
    modelled apart, as a step relation. *)
From S2P Require Import Prelude GoStd.

Local Open Scope string_scope.
Local Open Scope list_scope.
Local Open Scope Z_scope.

(** * Retrying *)

Section retryable.
Context {S : Type} (Fetch : string → string → M S string).

(** [attempt] of 3, with the error of the one before *)
Fixpoint retry (attempts : nat) (err : error) (repoName tag : string) : M S string :=
  match attempts with
  | O => raise err
  | Datatypes.S attempts' =>
      r ← attempt (Fetch repoName tag);
      match r with
      | inl res => mret res
      | inr e => retry attempts' e repoName tag
      end
  end.

Definition Retryable_Fetch (repoName tag : string) : M S string :=
  retry 3 (errors_New "") repoName tag.
End retryable.

(** * Fetching one image *)

Record RepositoryData := mkRepositoryData { Endpoints : list string; Tokens : list string }.

(** The interface [Registry], and [Close] of the layers it hands out. *)
Record Registry (S Layer : Type) := mkRegistry {
  GetRepositoryData : string → M S RepositoryData;
  GetRemoteTags : list string → string → list string → M S (gmap string string);
  GetRemoteHistory : string → string → list string → M S (list string);
  GetRemoteImageJSON : string → string → list string → M S (string * Z);
  GetRemoteImageLayer : string → string → list string → Z → M S Layer;
  CloseLayer : Layer → M S unit
}.
Arguments GetRepositoryData {S Layer} _ _.
Arguments GetRemoteTags {S Layer} _ _ _ _.
Arguments GetRemoteHistory {S Layer} _ _ _ _.
Arguments GetRemoteImageJSON {S Layer} _ _ _ _.
Arguments GetRemoteImageLayer {S Layer} _ _ _ _ _.
Arguments CloseLayer {S Layer} _ _.

(** The interface [Graph], and [image.NewImgJSON]. *)
Record Graph (S Layer Image : Type) := mkGraph {
  Exists : string → M S bool;
  Register : string → Layer → Image → M S unit;
  NewImgJSON : string → Result Image;
  img_ID : Image → string
}.
Arguments Exists {S Layer Image} _ _.
Arguments Register {S Layer Image} _ _ _ _.
Arguments NewImgJSON {S Layer Image} _ _.
Arguments img_ID {S Layer Image} _ _.

Section fetcher.
Context {S Layer Image : Type} (registry : Registry S Layer) (graph : Graph S Layer Image).

(** [fetchLayer] between [fetching] and [doneFetching] *)
Definition fetchLayer (endpoint layerID : string) (token : list string) : M S unit :=
  there ← Exists graph layerID;
  if there : bool then mret tt
  else
    '(imgJSON, imgSize) ← GetRemoteImageJSON registry layerID endpoint token;
    img ← of_result (NewImgJSON graph imgJSON);
    layer ← GetRemoteImageLayer registry (img_ID graph img) endpoint token imgSize;
    deferred (CloseLayer registry layer) (Register graph imgJSON layer img).

(** The oldest ancestor first. *)
Definition fetchFromEndpoint (endpoint imgID : string) (token : list string) : M S unit :=
  history ← GetRemoteHistory registry imgID endpoint token;
  for_each (λ layerID, fetchLayer endpoint layerID token) (reverse history).

Fixpoint try_endpoints (imgID : string) (token : list string) (err : option error)
    (endpoints : list string) : M S string :=
  match endpoints with
  | [] => raise (errors_New ("all endpoints failed: " +:+
            match err with Some e => err_msg e | None => "%!s(<nil>)" end))
  | endpoint :: rest =>
      r ← attempt (fetchFromEndpoint endpoint imgID token);
      match r with
      | inl _ => mret imgID
      | inr e => try_endpoints imgID token (Some e) rest
      end
  end.

Definition Fetch (repoName tag : string) : M S string :=
  repoData ← GetRepositoryData registry repoName;
  tagsList ← GetRemoteTags registry (Endpoints repoData) repoName (Tokens repoData);
  match (tagsList : gmap string string) !! tag with
  | None => raise (errors_New ("unknown tag: " +:+ repoName +:+ ":" +:+ tag))
  | Some imgID => try_endpoints imgID (Tokens repoData) None (Endpoints repoData)
  end.

(** ** What is relied on

    [ancestry id] is the image [id] followed by its ancestors; [held id] says that the graph
    has a layer, [inv] what it keeps true, and [good] for which ids it works. *)
Context (ancestry : string → list string) (held : string → S → Prop) (inv : S → Prop) (good : string → Prop).

(** The layers the graph holds stay when something else happens. *)
Definition same_layers : relation S := λ s s', inv s → inv s' ∧ ∀ id, held id s' ↔ held id s.

(** The layer [id], and no other, has been added. *)
Definition layer_added (id : string) (s s' : S) : Prop := ∀ id', held id' s' ↔ id' = id ∨ held id' s.

Record StoreLaws : Prop := {
  (** the registry does not touch the graph *)
  law_data repo : steps same_layers (GetRepositoryData registry repo);
  law_tags es repo tk : steps same_layers (GetRemoteTags registry es repo tk);
  law_history id e tk : steps same_layers (GetRemoteHistory registry id e tk);
  law_json id e tk : steps same_layers (GetRemoteImageJSON registry id e tk);
  law_layer id e tk sz : steps same_layers (GetRemoteImageLayer registry id e tk sz);
  law_close l : steps same_layers (CloseLayer registry l);
  (** a layer that is said to be there is *)
  law_exists id : steps same_layers (Exists graph id);
  law_there id s : inv s → good id → (Exists graph id s).1 = Ok true → held id s;
  (** what is registered is there from then on, if registering succeeds *)
  law_register json l img s :
    inv s → good (img_ID graph img) →
    let '(r, s') := Register graph json l img s in
    inv s' ∧ (layer_added (img_ID graph img) s s' ∨ ∀ id, held id s' ↔ held id s) ∧
    (r = Ok tt → layer_added (img_ID graph img) s s');
  (** the metadata of a layer names that layer *)
  law_names id e tk json sz img s :
    (GetRemoteImageJSON registry id e tk s).1 = Ok (json, sz) →
    NewImgJSON graph json = Ok img → img_ID graph img = id;
  (** the registry has images with good ids, and their history is their ancestry *)
  law_ancestry id e tk l s : (GetRemoteHistory registry id e tk s).1 = Ok l → good id ∧ l = ancestry id
}.

(** The ancestry of an image has the image, and ends with that of each of its members; the
    ancestors of an image with a good id have good ids. *)
Definition ancestry_ok : Prop :=
  (∀ id, good id → id ∈ ancestry id) ∧
  (∀ id l1 a l2, ancestry id = l1 ++ a :: l2 → ancestry a = a :: l2) ∧
  ∀ id a, good id → a ∈ ancestry id → good a.

(** No layer is stored without its ancestors. *)
Definition complete (s : S) : Prop := ∀ id a, held id s → a ∈ ancestry id → held a s.

(** The image and all its ancestors are stored. *)
Definition fetched (id : string) (s : S) : Prop := held id s ∧ ∀ a, a ∈ ancestry id → held a s.
End fetcher.

(** * Lemmas *)

Section fetch_lemmas.
Context {S Layer Image : Type} (registry : Registry S Layer) (graph : Graph S Layer Image).
Context (ancestry : string → list string) (held : string → S → Prop) (inv : S → Prop) (good : string → Prop).
Context (laws : StoreLaws registry graph ancestry held inv good) (Hanc : ancestry_ok ancestry good).
Local Abbreviation same_layers := (same_layers held inv).

(** The graph as it is between requests *)
Definition store_ok (s : S) : Prop := inv s ∧ complete ancestry held s.

(** [m] keeps the graph complete and what is in it, and if it returns, [Q]. *)
Definition safe {A} (m : M S A) (Q : A → S → Prop) (s : S) : Prop :=
  store_ok (m s).2 ∧ (∀ id, held id s → held id (m s).2) ∧
  ∀ a, (m s).1 = Ok a → Q a (m s).2.

#[local] Instance same_layers_preorder : PreOrder same_layers.
Proof.
  split; [by intros s|]. intros s1 s2 s3 H1 H2 Hi. destruct (H1 Hi) as [Hi2 E1]. destruct (H2 Hi2) as [Hi3 E2].
  split; [done|]. intros id. etrans; [apply E2|apply E1].
Qed.

Lemma same_ok s s' : same_layers s s' → store_ok s → store_ok s' ∧ ∀ id, held id s' ↔ held id s.
Proof. intros H [Hi Hc]. destruct (H Hi) as [Hi' E]. split; [|done]. split; [done|]. intros id a. rewrite !E. apply Hc. Qed.

Lemma safe_same {A} (m : M S A) (Q : A → S → Prop) s :
  steps same_layers m → store_ok s →
  (∀ a, (m s).1 = Ok a → store_ok (m s).2 → (∀ id, held id (m s).2 ↔ held id s) → Q a (m s).2) → safe m Q s.
Proof.
  intros Hm Hok HQ. destruct (same_ok _ _ (Hm s) Hok) as [Hok' E]. split_and!; [done|by intros id; rewrite E|].
  intros a Ha. by apply HQ.
Qed.

Lemma safe_ret {A} (a : A) (Q : A → S → Prop) s : store_ok s → Q a s → safe (mret a) Q s.
Proof. intros Hc HQ. split_and!; [done..|]. by intros ? [= <-]. Qed.

Lemma safe_raise {A} e (Q : A → S → Prop) s : store_ok s → safe (raise e) Q s.
Proof. by intros Hc. Qed.

Lemma safe_bind {A B} (m : M S A) (f : A → M S B) (Q : B → S → Prop) s :
  safe m (λ a s', safe (f a) Q s') s → safe (m ≫= f) Q s.
Proof.
  intros (Hc & Hm & Hf). unfold safe, mbind, M_bind.
  destruct (m s) as [[a|e|c] s']; cbn in *; [|by split_and!..].
  destruct (Hf a eq_refl) as (H1 & H2 & H3). split_and!; auto.
Qed.

Lemma safe_mono {A} (m : M S A) (P Q : A → S → Prop) s :
  safe m P s → (∀ a s', store_ok s' → (∀ id, held id s → held id s') → P a s' → Q a s') → safe m Q s.
Proof. intros (Hc & Hm & Hf) HPQ. split_and!; auto. Qed.

Lemma safe_attempt {A} (m : M S A) (Q : A + error → S → Prop) s :
  safe m (λ a, Q (inl a)) s →
  (∀ e s', store_ok s' → (∀ id, held id s → held id s') → Q (inr e) s') →
  safe (attempt m) Q s.
Proof.
  intros (Hc & Hm & Hf) He. unfold safe, attempt.
  destruct (m s) as [[a|e|c] s']; cbn in *; split_and!; auto; intros r [= <-]; auto.
Qed.

Lemma safe_ignored (m : M S unit) s :
  steps same_layers m → store_ok s → safe (ignore_err m) (λ _ s', ∀ id, held id s' ↔ held id s) s.
Proof. intros Hm Hc. apply safe_same; [by apply steps_ignore_err; [apply _|]|done|]. by intros a _ _ E. Qed.

(** Storing a layer whose ancestors are stored. *)
Lemma register_safe json l img s :
  store_ok s → good (img_ID graph img) → (∀ a, a ∈ ancestry (img_ID graph img) → a ≠ img_ID graph img → held a s) →
  safe (Register graph json l img) (λ _ s', held (img_ID graph img) s') s.
Proof.
  intros [Hi Hc] Hg Ha. unfold safe. pose proof (law_register _ _ _ _ _ _ laws json l img s Hi Hg) as H.
  destruct (Register graph json l img s) as [r s']. destruct H as (Hi' & Hor & Hok). unfold layer_added in Hor, Hok. cbn. split_and!.
  - split; [done|]. destruct Hor as [E|E]; intros id a; rewrite !E; [|apply Hc].
    intros [-> | Hid] Hin; [|right; by eapply Hc]. destruct (decide (a = img_ID graph img)); [by left|right; by apply Ha].
  - destruct Hor as [E|E]; intros id; rewrite E; auto.
  - intros [] ->. apply Hok; auto.
Qed.

Lemma fetchLayer_safe endpoint id token s :
  store_ok s → good id → (∀ a, a ∈ ancestry id → a ≠ id → held a s) →
  safe (fetchLayer registry graph endpoint id token) (λ _ s', held id s') s.
Proof.
  intros Hc Hg Ha. unfold fetchLayer. apply safe_bind, safe_same; [apply (law_exists _ _ _ _ _ _ laws)|done|].
  intros there Ht Hc0 E0. destruct there.
  { apply safe_ret; [done|]. apply E0. eapply (law_there _ _ _ _ _ _ laws); [apply Hc|done..]. }
  apply safe_bind, safe_same; [apply (law_json _ _ _ _ _ _ laws)|done|]. intros [json sz] Hj Hc1 E1.
  apply safe_bind, safe_same; [intros s'; reflexivity|done|]. cbn. intros img Himg _ _.
  assert (Hid : img_ID graph img = id) by by eapply (law_names _ _ _ _ _ _ laws).
  rewrite Hid.
  apply safe_bind, safe_same; [apply (law_layer _ _ _ _ _ _ laws)|done|]. intros l _ Hc2 E2.
  unfold deferred. apply safe_bind, safe_attempt.
  - eapply safe_mono; [apply register_safe; [done|by rewrite Hid|]|].
    + rewrite Hid. intros a H1 H2. apply (proj2 (E2 a)), (proj2 (E1 a)), (proj2 (E0 a)). by apply Ha.
    + cbn. intros [] s3 Hc3 _ H3. apply safe_bind.
      eapply safe_mono; [apply safe_ignored; [apply (law_close _ _ _ _ _ _ laws)|done]|]. cbn. intros [] s4 Hc4 _ H4.
      apply safe_ret; [done|]. apply H4. by rewrite <-Hid.
  - intros e s3 Hc3 _. apply safe_bind.
    eapply safe_mono; [apply safe_ignored; [apply (law_close _ _ _ _ _ _ laws)|done]|]. cbn. intros [] s4 Hc4 _ _.
    by apply safe_raise.
Qed.

(** An image and its ancestors, from the oldest on. *)
Lemma fetch_layers_safe endpoint token l1 l2 s :
  store_ok s → (∀ a, a ∈ l2 → held a s) → (∃ id, good id ∧ ancestry id = reverse l1 ++ l2) →
  safe (for_each (λ id, fetchLayer registry graph endpoint id token) l1)
    (λ _ s', ∀ a, a ∈ l1 ++ l2 → held a s') s.
Proof.
  revert l2 s. induction l1 as [|x l1 IH]; intros l2 s Hc H2 (id & Hg & Hid); cbn [for_each].
  - by apply safe_ret.
  - rewrite reverse_cons, <-app_assoc in Hid. cbn in Hid. destruct Hanc as (_ & Hsuf & Hgood).
    pose proof (Hsuf _ _ _ _ Hid) as Hx.
    apply safe_bind. eapply safe_mono; [apply fetchLayer_safe; [done| |]|].
    + apply (Hgood id); [done|]. rewrite Hid. set_solver.
    + rewrite Hx. intros a Ha Hne. apply H2. by apply elem_of_cons in Ha as [->|Ha].
    + cbn. intros _ s1 Hc1 Hk Hs. eapply safe_mono; [apply (IH (x :: l2))|].
      * done.
      * intros a [->|Ha]%elem_of_cons; [done|by apply Hk, H2].
      * by exists id.
      * cbn. intros _ s2 _ _ H a Ha. apply H. set_solver.
Qed.

Lemma fetchFromEndpoint_safe endpoint id token s :
  store_ok s →
  safe (fetchFromEndpoint registry graph endpoint id token) (λ _ s', fetched ancestry held id s') s.
Proof.
  intros Hc. unfold fetchFromEndpoint. apply safe_bind, safe_same; [apply (law_history _ _ _ _ _ _ laws)|done|].
  intros l Hl Hc1 _. destruct (law_ancestry _ _ _ _ _ _ laws _ _ _ _ _ Hl) as [Hg ->].
  eapply safe_mono; [apply (fetch_layers_safe endpoint token (reverse (ancestry id)) [])|].
  - done.
  - by intros a Ha%elem_of_nil.
  - exists id. by rewrite reverse_involutive, app_nil_r.
  - cbn. intros _ s2 _ _ H. assert (∀ a, a ∈ ancestry id → held a s2) by (intros a Ha; apply H; by rewrite app_nil_r, elem_of_reverse).
    split; [|done]. by apply H0, Hanc.
Qed.

Lemma try_endpoints_safe id token endpoints err s :
  store_ok s →
  safe (try_endpoints registry graph id token err endpoints) (λ r s', r = id ∧ fetched ancestry held id s') s.
Proof.
  revert err s. induction endpoints as [|e endpoints IH]; intros err s Hc; [by apply safe_raise|].
  cbn. apply safe_bind, safe_attempt.
  - eapply safe_mono; [by apply fetchFromEndpoint_safe|]. cbn. intros _ s1 Hc1 _ H. by apply safe_ret.
  - intros e1 s1 Hc1 _. by apply IH.
Qed.

Lemma Fetch_safe repo tag s :
  store_ok s → safe (Fetch registry graph repo tag) (fetched ancestry held) s.
Proof.
  intros Hc. unfold Fetch. apply safe_bind, safe_same; [apply (law_data _ _ _ _ _ _ laws)|done|]. intros rd _ Hc1 _.
  apply safe_bind, safe_same; [apply (law_tags _ _ _ _ _ _ laws)|done|]. intros tags _ Hc2 _.
  destruct (tags !! tag) as [id|]; [|by apply safe_raise].
  eapply safe_mono; [by apply try_endpoints_safe|]. cbn. by intros ? s3 _ _ [-> H].
Qed.

Lemma retry_safe repo tag n e s :
  store_ok s → safe (retry (Fetch registry graph) n e repo tag) (fetched ancestry held) s.
Proof.
  revert e s. induction n as [|n IH]; intros e s Hc; [by apply safe_raise|].
  cbn. apply safe_bind, safe_attempt.
  - eapply safe_mono; [by apply Fetch_safe|]. cbn. intros id s' Hc' _ H. by apply safe_ret.
  - intros e' s' Hc' _. by apply IH.
Qed.
End fetch_lemmas.

(** * Layers being fetched

    Goroutines that fetch the same layer take turns: the first makes a channel for
    the layer, the others wait until it is closed and try again. *)

(** A goroutine is elsewhere, about to call [fetching], in [<-fetching], or between
    [fetching] and [doneFetching]. *)
Inductive fetcher_state :=
  | Elsewhere
  | Wants (layerID : string)
  | Waits (layerID : string) (channel : nat)
  | Holds (layerID : string).

Record Fetching := mkFetching {
  fetchingLayers : gmap string nat;    (* the channels, by number *)
  closed_channels : gset nat;
  next_channel : nat;                  (* [make(chan struct{})] *)
  goroutines : nat → fetcher_state
}.

Definition set_goroutine (t : nat) (g : fetcher_state) (f : Fetching) : Fetching :=
  mkFetching (fetchingLayers f) (closed_channels f) (next_channel f)
    (λ t', if decide (t = t') then g else goroutines f t').

(** [fetching] up to the end of its critical section: the channel to wait on, if any. *)
Definition fetching (layerID : string) : M Fetching (option nat) := λ f,
  match fetchingLayers f !! layerID with
  | None => (Ok None, mkFetching (<[layerID := next_channel f]> (fetchingLayers f)) (closed_channels f)
                        (S (next_channel f)) (goroutines f))
  | Some ch => (Ok (Some ch), f)
  end.

(** Closing a channel twice, or a nil one, panics. *)
Definition doneFetching (layerID : string) : M Fetching unit := λ f,
  match fetchingLayers f !! layerID with
  | None => (Crash (Panic "close of nil channel"), f)
  | Some ch =>
      if decide (ch ∈ closed_channels f) then (Crash (Panic "close of closed channel"), f)
      else (Ok tt, mkFetching (base.delete layerID (fetchingLayers f)) ({[ch]} ∪ closed_channels f)
                     (next_channel f) (goroutines f))
  end.

(** The steps of a goroutine. *)
Inductive fetching_step (t : nat) : Fetching → Fetching → Prop :=
  | fs_want l f : goroutines f t = Elsewhere → fetching_step t f (set_goroutine t (Wants l) f)
  | fs_acquire l f f' :
      goroutines f t = Wants l → fetching l f = (Ok None, f') →
      fetching_step t f (set_goroutine t (Holds l) f')
  | fs_wait l ch f f' :
      goroutines f t = Wants l → fetching l f = (Ok (Some ch), f') →
      fetching_step t f (set_goroutine t (Waits l ch) f')
  | fs_wake l ch f :
      goroutines f t = Waits l ch → ch ∈ closed_channels f →
      fetching_step t f (set_goroutine t (Wants l) f)
  | fs_done l f f' :
      goroutines f t = Holds l → doneFetching l f = (Ok tt, f') →
      fetching_step t f (set_goroutine t Elsewhere f').

Definition any_step (f f' : Fetching) : Prop := ∃ t, fetching_step t f f'.

Definition no_fetches : Fetching := mkFetching ∅ ∅ 0 (λ _, Elsewhere).

(** A layer has a channel exactly when one goroutine holds it; the channel is open,
    and no other layer's; who waits, waits for a channel that is closed or a layer's. *)
Record fetching_ok (f : Fetching) : Prop := {
  fo_holder t l : goroutines f t = Holds l → is_Some (fetchingLayers f !! l);
  fo_channel l ch : fetchingLayers f !! l = Some ch → ∃ t, goroutines f t = Holds l;
  fo_once t1 t2 l : goroutines f t1 = Holds l → goroutines f t2 = Holds l → t1 = t2;
  fo_open l ch : fetchingLayers f !! l = Some ch → ch ∉ closed_channels f ∧ (ch < next_channel f)%nat;
  fo_distinct l1 l2 ch : fetchingLayers f !! l1 = Some ch → fetchingLayers f !! l2 = Some ch → l1 = l2;
  fo_closed ch : ch ∈ closed_channels f → (ch < next_channel f)%nat;
  fo_waiter t l ch : goroutines f t = Waits l ch →
    ch ∈ closed_channels f ∨ fetchingLayers f !! l = Some ch
}.

Lemma set_goroutine_lookup t t' g f :
  goroutines (set_goroutine t g f) t' = if decide (t = t') then g else goroutines f t'.
Proof. done. Qed.

Lemma no_fetches_ok : fetching_ok no_fetches.
Proof. split; cbn; intros; try done; by apply not_elem_of_empty in H. Qed.

(** Case analysis on which goroutine moved. *)
Ltac which_goroutine :=
  repeat match goal with
         | H : goroutines (set_goroutine _ _ _) _ = _ |- _ => rewrite set_goroutine_lookup in H
         | H : (if decide ?P then _ else _) = _ |- _ => destruct (decide P); simplify_eq
         end.

(** A step that only moves a goroutine from one state without the lock to another. *)
Lemma fetching_ok_moves t g f :
  fetching_ok f → (∀ l, goroutines f t ≠ Holds l) → (∀ l, g ≠ Holds l) →
  (∀ l ch, g = Waits l ch → ch ∈ closed_channels f ∨ fetchingLayers f !! l = Some ch) →
  fetching_ok (set_goroutine t g f).
Proof.
  intros [] Hf Hg Hw. split; cbn [set_goroutine fetchingLayers closed_channels next_channel]; eauto.
  - intros t' l H. which_goroutine; [by destruct (Hg l)|eauto].
  - intros l ch H. destruct (fo_channel0 _ _ H) as [t' Ht']. exists t'. rewrite set_goroutine_lookup.
    case_decide as E; [subst; by destruct (Hf l)|done].
  - intros t1 t2 l H1 H2. which_goroutine; try (by destruct (Hg l)); eauto.
  - intros t' l ch H. which_goroutine; eauto.
Qed.

Lemma fetching_acquire_ok t l f :
  goroutines f t = Wants l → fetchingLayers f !! l = None → fetching_ok f →
  fetching_ok (set_goroutine t (Holds l)
    (mkFetching (<[l := next_channel f]> (fetchingLayers f)) (closed_channels f)
       (S (next_channel f)) (goroutines f))).
Proof.
  intros Ht El Hok.
  destruct Hok. split; cbn [set_goroutine fetchingLayers closed_channels next_channel].
  - intros t' l' H. which_goroutine; [by rewrite lookup_insert_eq|].
    apply lookup_insert_is_Some'. right. by eapply fo_holder0.
  - intros l' ch [[<- <-]|[Hne Hl]]%lookup_insert_Some.
    + exists t. rewrite set_goroutine_lookup. by rewrite decide_True.
    + destruct (fo_channel0 _ _ Hl) as [t' Ht']. exists t'. rewrite set_goroutine_lookup.
      case_decide; [subst; congruence|done].
  - intros t1 t2 l' H1 H2. which_goroutine; try done; [| |eauto].
    all: match goal with H : goroutines _ _ = Holds _ |- _ => destruct (fo_holder0 _ _ H); congruence end.
  - intros l' ch [[<- <-]|[Hne Hl]]%lookup_insert_Some.
    + split; [|lia]. intros Hin%fo_closed0. lia.
    + destruct (fo_open0 _ _ Hl). split; [done|lia].
  - intros l1 l2 ch [[<- <-]|[Hne1 Hl1]]%lookup_insert_Some [[<- E]|[Hne2 Hl2]]%lookup_insert_Some; [done| | |eauto].
    + destruct (fo_open0 _ _ Hl2). lia.
    + subst ch. destruct (fo_open0 _ _ Hl1). lia.
  - intros ch Hin%fo_closed0. lia.
  - intros t' l' ch H. which_goroutine. destruct (fo_waiter0 _ _ _ H) as [Hc|Hl]; [by left|].
    right. rewrite lookup_insert_ne; [done|congruence].
Qed.

Lemma fetching_done_ok t l c f :
  goroutines f t = Holds l → fetchingLayers f !! l = Some c → fetching_ok f →
  fetching_ok (set_goroutine t Elsewhere
    (mkFetching (base.delete l (fetchingLayers f)) ({[c]} ∪ closed_channels f)
       (next_channel f) (goroutines f))).
Proof.
  intros Ht El Hok.
  destruct Hok. split; cbn [set_goroutine fetchingLayers closed_channels next_channel].
  - intros t' l' H1. which_goroutine. rewrite lookup_delete_ne; [by eapply fo_holder0|].
    intros <-. by destruct (fo_once0 t t' l).
  - intros l' ch [Hne Hl]%lookup_delete_Some. destruct (fo_channel0 _ _ Hl) as [t' Ht']. exists t'.
    rewrite set_goroutine_lookup. case_decide; [subst; congruence|done].
  - intros t1 t2 l' H1 H2. which_goroutine. eauto.
  - intros l' ch [Hne Hl]%lookup_delete_Some. destruct (fo_open0 _ _ Hl) as [Ho Hn]. split; [|done].
    rewrite elem_of_union, elem_of_singleton. intros [->|?]; [|done]. by apply Hne, (fo_distinct0 l l' c).
  - intros l1 l2 ch [_ H1]%lookup_delete_Some [_ H2]%lookup_delete_Some. eauto.
  - intros ch [->%elem_of_singleton|Hin]%elem_of_union; [by apply (fo_open0 l)|eauto].
  - intros t' l' ch H'. which_goroutine. destruct (fo_waiter0 _ _ _ H') as [Hc|Hl].
    + left. set_solver.
    + destruct (decide (l = l')) as [<-|Hne]; [left; assert (ch = c) as -> by congruence; set_solver|].
      right. by rewrite lookup_delete_ne.
Qed.

Lemma fetching_step_ok t f f' : fetching_step t f f' → fetching_ok f → fetching_ok f'.
Proof.
  intros Hs Hok. destruct Hs as [l f Ht|l f f' Ht Hf|l ch f f' Ht Hf|l ch f Ht Hch|l f f' Ht Hf].
  - apply fetching_ok_moves; [done|congruence|done|done].
  - unfold fetching in Hf. destruct (fetchingLayers f !! l) as [c|] eqn:El; [done|]. injection Hf as <-. by apply fetching_acquire_ok.
  - unfold fetching in Hf. destruct (fetchingLayers f !! l) as [c|] eqn:El; [|done]. simplify_eq.
    apply fetching_ok_moves; [done|congruence|done|]. intros ?? [= <- <-]. by right.
  - apply fetching_ok_moves; [done|congruence|done|done].
  - unfold doneFetching in Hf. destruct (fetchingLayers f !! l) as [c|] eqn:El; [|done].
    case_decide as Hnc; [done|]. injection Hf as <-. by apply (fetching_done_ok t l c f).
Qed.

Lemma fetching_steps_ok f : rtc any_step no_fetches f → fetching_ok f.
Proof.
  intros Hst. assert (Hg : ∀ f0, fetching_ok f0 → rtc any_step f0 f → fetching_ok f).
  { intros f0 H0 Hs. induction Hs as [|f1 f2 f3 [t Ht] _ IH]; [done|]. by apply IH, (fetching_step_ok t f1). }
  by apply (Hg no_fetches), Hst; apply no_fetches_ok.
Qed.

(** * Properties *)

(** Fetching an image never leaves a layer in the graph without its ancestors, however
    the fetch ends, and removes nothing; when it succeeds, the image it names and all
    its ancestors are there. *)
Theorem fetch_keeps_ancestry {S Layer Image} (registry : Registry S Layer) (graph : Graph S Layer Image)
    ancestry held inv good repoName tag s :
  StoreLaws registry graph ancestry held inv good → ancestry_ok ancestry good → inv s → complete ancestry held s →
  let r := Retryable_Fetch (Fetch registry graph) repoName tag s in
  complete ancestry held r.2 ∧
  (∀ id, held id s → held id r.2) ∧
  ∀ id, r.1 = Ok id → held id r.2 ∧ ∀ a, a ∈ ancestry id → held a r.2.
Proof.
  intros laws Hanc Hi Hc. destruct (retry_safe registry graph ancestry held inv good laws Hanc repoName tag 3 (errors_New "") s) as ([_ H1] & H2 & H3); [done|].
  by split_and!.
Qed.

(** C36: a layer is fetched by one goroutine at a time: whatever fetches run at once, no two
    hold the same layer, finishing one never panics, and nobody waits for a channel
    that nobody will close: as long as some goroutine is fetching, one of them can
    go on. *)
Theorem layers_fetched_once f :
  rtc any_step no_fetches f →
  (∀ t1 t2 l, goroutines f t1 = Holds l → goroutines f t2 = Holds l → t1 = t2) ∧
  (∀ t l, goroutines f t = Holds l → (doneFetching l f).1 = Ok tt) ∧
  (∀ t, goroutines f t ≠ Elsewhere →
   ∃ t' f', fetching_step t' f f' ∧ goroutines f t' ≠ Elsewhere).
Proof.
  intros Hst. pose proof (fetching_steps_ok f Hst) as Hok. destruct Hok.
  assert (Hd : ∀ t l, goroutines f t = Holds l → ∃ f', doneFetching l f = (Ok tt, f')).
  { intros t l Ht. destruct (fo_holder0 _ _ Ht) as [ch Hch]. unfold doneFetching. rewrite Hch.
    rewrite decide_False by (by apply (fo_open0 l)). by eexists. }
  assert (Hh : ∀ t l, goroutines f t = Holds l → ∃ t' f', fetching_step t' f f' ∧ goroutines f t' ≠ Elsewhere).
  { intros t l Ht. destruct (Hd _ _ Ht) as [f' Hf']. exists t. eexists. split; [by eapply fs_done|congruence]. }
  split_and!; [done| |].
  - intros t l Ht. destruct (Hd _ _ Ht) as [f' ->]. done.
  - intros t Ht. destruct (goroutines f t) as [|l|l ch|l] eqn:E; [done| | |by eapply Hh].
    + exists t. destruct (fetching l f) as [[[ch|]|e|c] f'] eqn:Ef.
      * eexists. split; [by eapply fs_wait|congruence].
      * eexists. split; [by eapply fs_acquire|congruence].
      * unfold fetching in Ef. by destruct (fetchingLayers f !! l).
      * unfold fetching in Ef. by destruct (fetchingLayers f !! l).
    + destruct (fo_waiter0 _ _ _ E) as [Hc|Hl].
      * exists t. eexists. split; [by eapply fs_wake|congruence].
      * destruct (fo_channel0 _ _ Hl) as [t' Ht']. by eapply Hh.
Qed.

(** [Retryable] gives the first result, or the error of the third attempt. *)
Theorem Retryable_attempts {S} (Fetch : string → string → M S string) repoName tag s :
  Retryable_Fetch Fetch repoName tag s =
    match Fetch repoName tag s with
    | (Err _, s1) => match Fetch repoName tag s1 with
                     | (Err _, s2) => Fetch repoName tag s2
                     | x => x
                     end
    | x => x
    end.
Proof.
  unfold Retryable_Fetch. cbn [retry]. unfold mbind, M_bind, attempt.
  destruct (Fetch repoName tag s) as [[?|?|?] s1]; [done| |done].
  destruct (Fetch repoName tag s1) as [[?|?|?] s2]; [done| |done].
  by destruct (Fetch repoName tag s2) as [[?|?|?] s3].
Qed.

(** * Witnesses *)

(** A registry with one repository, two endpoints of which the first is down, and an
    image of two layers; the graph is the set of the layers it holds. *)
Definition example_ancestry (id : string) : list string :=
  if String.eqb id "app" then ["app"; "base"] else [id].

Definition example_registry : Registry (gset string) unit := {|
  GetRepositoryData _ := mret (mkRepositoryData ["down"; "up"] []);
  GetRemoteTags _ _ _ := mret {["latest" := "app"]};
  GetRemoteHistory id e _ :=
    if String.eqb e "down" then raise (errors_New "down") else mret (example_ancestry id);
  GetRemoteImageJSON id _ _ := mret (id, 100);
  GetRemoteImageLayer _ _ _ _ := mret tt;
  CloseLayer _ := mret tt
|}.

Definition example_graph : Graph (gset string) unit string := {|
  Exists id := gets (λ s, bool_decide (id ∈ s));
  Register _ _ img := modify (union {[img]});
  NewImgJSON json := Ok json;
  img_ID img := img
|}.

Definition example_held (id : string) (s : gset string) : Prop := id ∈ s.

Lemma example_laws : StoreLaws example_registry example_graph example_ancestry example_held (λ _, True) (λ _, True).
Proof.
  split; try (intros; intros ? ?; done).
  - intros id e tk s _. cbn. by destruct (String.eqb e "down").
  - intros id s _ _ [= H%bool_decide_eq_true]. done.
  - intros json l img s _ _. cbn. unfold layer_added, example_held.
    assert (∀ id', id' ∈ {[img]} ∪ s ↔ id' = img ∨ id' ∈ s) by set_solver. auto.
  - intros id e tk json sz img s [= <- _] [= <-]. done.
  - intros id e tk l s. cbn. destruct (String.eqb e "down"); [done|]. by intros [= <-].
Qed.

Lemma example_ancestry_ok : ancestry_ok example_ancestry (λ _, True).
Proof.
  split_and!; [| |done].
  - intros id. unfold example_ancestry. destruct (String.eqb_spec id "app") as [->|]; by left.
  - intros id l1 a l2. unfold example_ancestry. destruct (String.eqb_spec id "app") as [->|Hne].
    + destruct l1 as [|? [|? [|? l1]]]; intros [=]; subst; done.
    + destruct l1 as [|? [|? l1]]; intros [=]; subst; [|done..].
      by destruct (String.eqb_spec a "app").
Qed.

Lemma fetch_keeps_ancestry_witness :
  let r := Retryable_Fetch (Fetch example_registry example_graph) "busybox" "latest" ∅ in
  r.1 = Ok "app" ∧ "base" ∈ r.2.
Proof.
  intros r. assert (E : r.1 = Ok "app") by (vm_compute; reflexivity). split; [exact E|].
  destruct (fetch_keeps_ancestry example_registry example_graph example_ancestry example_held (λ _, True) (λ _, True) "busybox" "latest" ∅
              example_laws example_ancestry_ok I) as (_ & _ & H).
  - intros id a Hid. by apply not_elem_of_empty in Hid.
  - apply (H "app" E). right. left.
Defined.

Lemma layers_fetched_once_witness :
  ∃ f, goroutines f 0%nat = Holds "a" ∧ goroutines f 1%nat = Waits "a" 0 ∧ (doneFetching "a" f).1 = Ok tt.
Proof.
  eexists. split; [|split].
  3: { eapply (layers_fetched_once _) with (t := 0%nat).
       - eapply rtc_l; [exists 0%nat; by apply (fs_want 0%nat "a")|].
         eapply rtc_l; [exists 1%nat; by apply (fs_want 1%nat "a")|].
         eapply rtc_l; [exists 0%nat; by eapply (fs_acquire 0%nat "a")|].
         eapply rtc_l; [exists 1%nat; by eapply (fs_wait 1%nat "a")|]. apply rtc_refl.
       - reflexivity. }
  - reflexivity.
  - reflexivity.
Defined.
