(* ===== verification/DockerRegistry.v ===== *)
(** github.com/docker/docker/registry, vendored: registry.go, the client of the registries that
    images are fetched from, as far as the daemon calls it: making it, and the five requests
    of the interface [Registry] (RepositoryFetcher.v); and the names of repositories and
    registries. The requests that push and search, and the accounts of auth.go, which the
    daemon never uses, are left out.

    What servers answer is [client_Do] (DockerHttp.v). Closing the body of a response does
    nothing here, except that a response that is not there cannot be closed. *)
From Stdlib Require Import Ascii.
From S2P Require Import Prelude GoStd OS Url UrlQuery Json JsonCodec DockerHttp RepositoryFetcher.

Local Open Scope string_scope.
Local Open Scope list_scope.
Local Open Scope Z_scope.

Definition INDEXSERVER : string := "https://index.docker.io/v1/".
Definition IndexServerAddress : string := INDEXSERVER.

Definition ErrInvalidRepositoryName : error :=
  errors_New ("Invalid repository name (ex: " +:+ dquote +:+ "registry.domain.tld/myrepos" +:+ dquote +:+ ")").
Definition errLoginRequired : error := errors_New "Authentication is required.".

(** [utils.NewHTTPRequestError] *)
Definition NewHTTPRequestError (msg : string) : error := mkError "*utils.JSONError" msg.

(** [json.Unmarshal] *)
Definition Unmarshal {A} (c : Codec A) (old : A) (text : string) : Result A :=
  '(j, rest) ← parse_json text;
  if String.eqb (skip_ws rest) "" then c_dec c old j else Err SyntaxError.

(** [strings.HasSuffix] *)
Definition has_suffix (s suffix : string) : bool :=
  let n := (String.length s - String.length suffix)%nat in
  (String.length suffix <=? String.length s)%nat && String.eqb (String.substring n (String.length suffix) s) suffix.

(** The text without its last [n] bytes *)
Definition drop_last (n : nat) (s : string) : string := String.substring 0 (String.length s - n) s.

Fixpoint trim_left_space (s : string) : string :=
  match s with String c s' => if is_space c then trim_left_space s' else s | EmptyString => "" end.
Fixpoint trim_right_space (s : string) : string :=
  match s with
  | EmptyString => ""
  | String c s' => let t := trim_right_space s' in if String.eqb t "" && is_space c then "" else String c t
  end.
(** [strings.TrimSpace], of ASCII text *)
Definition TrimSpace (s : string) : string := trim_right_space (trim_left_space s).

(** * Redirections *)

(** [strings.SplitN(s, ":", 2)[0]] *)
Definition before (c : ascii) (s : string) : string := (split_cut c s).1.

Definition trusteds : list string := ["docker.com"; "docker.io"].

Definition trustedLocation (req : Request) : bool :=
  let hostname := before ":" (q_Host req) in
  if negb (String.eqb (q_Scheme req) "https") then false
  else existsb (λ trusted, String.eqb hostname trusted || has_suffix hostname ("." +:+ trusted)) trusteds.

(** The headers that are copied: all but the credentials *)
Definition copy_headers (from to : Header) : Header :=
  foldl (λ h kvs, if String.eqb kvs.1 "Authorization" then h else foldl (λ h v, h_Add kvs.1 v h) h kvs.2) to (map_to_list from).

Definition AddRequiredHeadersToRedirectedRequests (req : Request) (via : list Request) : Request :=
  match via with
  | [] => req
  | first :: _ =>
      if trustedLocation req && trustedLocation first then set_Header (q_Header first) req
      else set_Header (copy_headers (q_Header first) (q_Header req)) req
  end.

(** * Requests *)

Section requests.
Context {K : Kernel} {I : Internet} (os_IsNotExist : error → bool).

(** [tls.LoadX509KeyPair], of the contents of the two files *)
Context (X509KeyPair : string → string → Result (string * string)).

Definition newClient (jar : bool) (roots : option (list string)) (cert : option (string * string)) (timeout : TimeoutType) : HttpClient :=
  mkHttpClient jar roots cert timeout.

Definition LoadX509KeyPair (certFile keyFile : string) : M Trace (string * string) :=
  cert ← ReadFile certFile; key ← ReadFile keyFile; of_result (X509KeyPair cert key).

Definition hasFile (files : list string) (name : string) : bool := existsb (String.eqb name) files.

(** One round of the loop over the files of the host's directory *)
Definition read_cert (hostDir : string) (fs : list string) (name : string) (pool : option (list string)) (certs : list (string * string))
    : M Trace (option (list string) * list (string * string)) :=
  pool ← (if has_suffix name ".crt" then data ← ReadFile (path_Join [hostDir; name]); mret (Some (default [] pool ++ [data])) else mret pool);
  certs ← (if has_suffix name ".cert" then
    let keyName := drop_last 5 name +:+ ".key" in
    if negb (hasFile fs keyName) then raise (errors_New ("Missing key " +:+ keyName +:+ " for certificate " +:+ name))
    else cert ← LoadX509KeyPair (path_Join [hostDir; name]) (path_Join [hostDir; keyName]); mret (certs ++ [cert])
  else mret certs);
  let certName := drop_last 4 name +:+ ".cert" in
  if has_suffix name ".key" && negb (hasFile fs certName) then raise (errors_New ("Missing certificate " +:+ certName +:+ " for key " +:+ name))
  else mret (pool, certs).

Fixpoint read_certs (hostDir : string) (fs names : list string) (pool : option (list string)) (certs : list (string * string))
    : M Trace (option (list string) * list (string * string)) :=
  match names with
  | [] => mret (pool, certs)
  | name :: names => '(pool, certs) ← read_cert hostDir fs name pool certs; read_certs hostDir fs names pool certs
  end.

(** The status for which the next certificate is tried *)
Definition refused (status : Z) : bool := (status =? 403) || (500 <=? status) && (status <? 600).

(** The loop over the certificates, of which there is one at least *)
Fixpoint try_certs (jar : bool) (pool : option (list string)) (timeout : TimeoutType) (req : Request)
    (cert : string * string) (certs : list (string * string)) : M Trace (Response * HttpClient) :=
  let client := newClient jar pool (Some cert) timeout in
  match certs with
  | [] => res ← client_Do client req; mret (res, client)
  | next :: certs =>
      r ← attempt (client_Do client req);
      match r with
      | inl res => if refused (s_StatusCode res) then try_certs jar pool timeout req next certs else mret (res, client)
      | inr _ => try_certs jar pool timeout req next certs
      end
  end.

Definition doRequest (jar : bool) (timeout : TimeoutType) (req : Request) : M Trace (Response * HttpClient) :=
  let hostDir := path_Join ["/etc/docker/certs.d"; q_Host req] in
  r ← attempt (ReadDir hostDir);
  fs ← match r with inl fs => mret fs | inr e => if os_IsNotExist e then mret [] else raise e end;
  '(pool, certs) ← read_certs hostDir fs fs None [];
  match (certs : list (string * string)) with
  | [] => let client := newClient jar pool None timeout in res ← client_Do client req; mret (res, client)
  | cert :: certs => try_certs jar pool timeout req cert certs
  end.

(** ** Asking whether a registry is there *)

Record RegistryInfo := mkInfo { info_Version : string; info_Standalone : bool }.

Definition info_fields : list (Field RegistryInfo) :=
  [field "version" string_codec info_Version (λ v i, mkInfo v (info_Standalone i));
   field "standalone" bool_codec info_Standalone (λ b i, mkInfo (info_Version i) b)].

(** What decoding leaves, with its error ignored: members of the wrong type change nothing. *)
Definition lenient {A} (fields : list (Field A)) (old : A) (text : string) : A :=
  match parse_json text with
  | Ok (JObject l, rest) =>
      if String.eqb (skip_ws rest) "" then
        foldl (λ a kv, match find_field kv.1 fields with
                       | Some f => match f_dec f a kv.2 with Ok a' => a' | _ => a end
                       | None => a
                       end) old l
      else old
  | _ => old
  end.

Definition pingRegistryEndpoint (endpoint : string) : M Trace RegistryInfo :=
  if String.eqb endpoint IndexServerAddress then mret (mkInfo "" false)
  else
    req ← of_result (http_NewRequest "GET" (endpoint +:+ "_ping") "");
    '(resp, _) ← doRequest false ConnectTimeout req;
    match ReadAll (s_Body resp) with
    | (_, Some e) => raise (errors_New ("Error while reading the http response: " +:+ err_msg e))
    | (jsonString, None) =>
        let info := lenient info_fields (mkInfo "" true) jsonString in
        let hdr := h_Get "X-Docker-Registry-Version" (s_Header resp) in
        let info := if String.eqb hdr "" then info else mkInfo hdr (info_Standalone info) in
        let standalone := h_Get "X-Docker-Registry-Standalone" (s_Header resp) in
        mret (if EqualFold standalone "true" || String.eqb standalone "1" then mkInfo (info_Version info) true
              else if negb (String.eqb standalone "") then mkInfo (info_Version info) false
              else info)
    end.

(** * Names *)

Definition namespace_char (c : ascii) : bool := between "a" "z" c || is_digit c || Ascii.eqb c "_".
Definition repo_char (c : ascii) : bool := namespace_char c || Ascii.eqb c "-" || Ascii.eqb c ".".

Definition validateRepositoryName (repositoryName : string) : Result unit :=
  let '(namespace, name) := match cut slash repositoryName with Some (a, b) => (a, b) | None => ("library", repositoryName) end in
  if negb (all_chars namespace_char namespace && (4 <=? String.length namespace)%nat && (String.length namespace <=? 30)%nat)
  then Err (errors_New ("Invalid namespace name (" +:+ namespace +:+ "), only [a-z0-9_] are allowed, size between 4 and 30"))
  else if negb (all_chars repo_char name && negb (String.eqb name ""))
  then Err (errors_New ("Invalid repository name (" +:+ name +:+ "), only [a-z0-9-_.] are allowed"))
  else Ok tt.

(** The host name, and the name of the repository there *)
Definition ResolveRepositoryName (reposName : string) : Result (string * string) :=
  if Contains reposName "://" then Err ErrInvalidRepositoryName
  else
    let official := (_ ← validateRepositoryName reposName; Ok (IndexServerAddress, reposName)) in
    match cut slash reposName with
    | None => official
    | Some (hostname, rest) =>
        if negb (Contains hostname ".") && negb (Contains hostname ":") && negb (String.eqb hostname "localhost") then official
        else if Contains hostname "index.docker.io" then Err (errors_New ("Invalid repository name, try " +:+ dquote +:+ rest +:+ dquote +:+ " instead"))
        else _ ← validateRepositoryName rest; Ok (hostname, rest)
    end.

(** [strings.LastIndex(s, "/")] *)
Definition last_slash (s : string) : Z := match cut_last slash s with Some (a, _) => Z.of_nat (String.length a) | None => -1 end.

Definition Invalid_endpoint (e : error) : error := errors_New ("Invalid Registry endpoint: " +:+ err_msg e).

Definition ExpandAndVerifyRegistryUrl (hostname : string) : M Trace string :=
  if HasPrefix hostname "http:" || HasPrefix hostname "https:" then
    let hostname := if last_slash hostname <? 9 then hostname +:+ "/v1/" else hostname in
    r ← attempt (pingRegistryEndpoint hostname);
    match r with inl _ => mret hostname | inr e => raise (Invalid_endpoint e) end
  else
    let endpoint := "https://" +:+ hostname +:+ "/v1/" in
    r ← attempt (pingRegistryEndpoint endpoint);
    match r with
    | inl _ => mret endpoint
    | inr _ =>
        let endpoint := "http://" +:+ hostname +:+ "/v1/" in
        r ← attempt (pingRegistryEndpoint endpoint);
        match r with inl _ => mret endpoint | inr e => raise (Invalid_endpoint e) end
    end.

(** * The registry *)

Record AuthConfig := mkAuthConfig { Username : string; Password : string; Email : string }.

Record Registry := mkRegistry_ {
  authConfig : option AuthConfig;
  reqFactory : HTTPRequestFactory;
  indexEndpoint : string;
  timeout : TimeoutType
}.

(** [ImgData], of which [ChecksumPayload] is not read *)
Record ImgData := mkImgData { img_ID : string; Checksum : string; Tag : string }.

Definition imgdata_codec : Codec ImgData :=
  struct_codec (mkImgData "" "" "")
    [field "id" string_codec img_ID (λ v d, mkImgData v (Checksum d) (Tag d));
     field "checksum" string_codec Checksum (λ v d, mkImgData (img_ID d) v (Tag d));
     field "Tag" string_codec Tag (λ v d, mkImgData (img_ID d) (Checksum d) v)] (λ _, True).

Record RepositoryData := mkRepositoryData_ { ImgList : gmap string ImgData; Endpoints : list string; Tokens : list string }.

(** Of [NewRegistry]: the decorator that sends the credentials along *)
Definition NewRegistry (authConfig : option AuthConfig) (factory : HTTPRequestFactory) (indexEndpoint : string) (with_timeout : bool) : M Trace Registry :=
  let r factory := mkRegistry_ authConfig factory indexEndpoint (if with_timeout then ReceiveTimeout else NoTimeout) in
  if negb (String.eqb indexEndpoint IndexServerAddress) && HasPrefix indexEndpoint "https://" then
    info ← pingRegistryEndpoint indexEndpoint;
    if info_Standalone info then
      match authConfig with
      | None => crash NilDereference
      | Some auth =>
          factory ← of_result (AddDecorator [HTTPAuthDecorator (Username auth) (Password auth)] factory);
          mret (r factory)
      end
    else mret (r factory)
  else mret (r factory).

Definition setTokenAuth (token : list string) (req : Request) : Request :=
  if String.eqb (h_Get "Authorization" (q_Header req)) ""
  then set_Header (h_Set "Authorization" ("Token " +:+ Join token ",") (q_Header req)) req
  else req.

(** The body of a response, which [fmt.Errorf] wraps the error of *)
Definition read_body (res : Response) (wrap : error → error) : Result string :=
  match ReadAll (s_Body res) with (text, None) => Ok text | (_, Some e) => Err (wrap e) end.

Section registry.
Context (r : Registry).

Definition Registry_doRequest (req : Request) : M Trace (Response * HttpClient) := doRequest true (timeout r) req.

Definition GetRemoteHistory (imgID registry : string) (token : list string) : M Trace (list string) :=
  req ← of_result (NewRequest (reqFactory r) "GET" (registry +:+ "images/" +:+ imgID +:+ "/ancestry") "" []);
  '(res, _) ← Registry_doRequest (setTokenAuth token req);
  if negb (s_StatusCode res =? 200) then
    raise (if s_StatusCode res =? 401 then errLoginRequired
           else NewHTTPRequestError ("Server error: " +:+ fmt_d (s_StatusCode res) +:+ " trying to fetch remote history for " +:+ imgID))
  else
    jsonString ← of_result (read_body res (λ e, errors_New ("Error while reading the http response: " +:+ err_msg e)));
    of_result (Unmarshal (slice_codec true string_codec) [] jsonString).

Definition LookupRemoteImage (imgID registry : string) (token : list string) : M Trace bool :=
  sent ← attempt (req ← of_result (NewRequest (reqFactory r) "GET" (registry +:+ "images/" +:+ imgID +:+ "/json") "" []);
                  Registry_doRequest (setTokenAuth token req));
  mret (match sent with inl (res, _) => s_StatusCode res =? 200 | inr _ => false end).

Definition download_failed (e : error) : error := errors_New ("Failed to download json: " +:+ err_msg e).

Definition GetRemoteImageJSON (imgID registry : string) (token : list string) : M Trace (string * Z) :=
  sent ← attempt (req ← of_result (NewRequest (reqFactory r) "GET" (registry +:+ "images/" +:+ imgID +:+ "/json") "" []);
                  Registry_doRequest (setTokenAuth token req));
  match sent with
  | inr e => raise (download_failed e)
  | inl (res, _) =>
      if negb (s_StatusCode res =? 200) then raise (NewHTTPRequestError ("HTTP code " +:+ fmt_d (s_StatusCode res)))
      else
        let hdr := h_Get "X-Docker-Size" (s_Header res) in
        imageSize ← (if String.eqb hdr "" then mret (-1) else of_result (ParseInt10 hdr));
        jsonString ← of_result (read_body res (λ e,
          errors_New ("Failed to parse downloaded json: " +:+ err_msg e +:+ " (" +:+ (ReadAll (s_Body res)).1 +:+ ")")));
        mret (jsonString, imageSize)
  end.

(** The [io.ReadCloser]s of layers *)
Inductive Layer := PlainBody (b : Body) | ResumableLayer (reader : Resumable).

(** [res.Body.Close()] of the response of a request that failed: there is none. *)
Definition close_missing : M Trace unit := crash NilDereference.

Definition layer_failed (status : Z) (imgID : string) : error :=
  errors_New ("Server error: Status " +:+ fmt_d status +:+ " while fetching image layer (" +:+ imgID +:+ ")").

(** The loop over the attempts, of which [n] are left; the fifth ends with an error that takes the
    status from the response that is not there. *)
Fixpoint layer_attempts (n : nat) (req : Request) : M Trace (Response * HttpClient) :=
  match n with
  | O => crash NilDereference
  | S n =>
      sent ← attempt (Registry_doRequest req);
      match sent with
      | inl res => mret res
      | inr _ => close_missing ≫= λ _, layer_attempts n req
      end
  end.

Definition GetRemoteImageLayer (imgID registry : string) (token : list string) (imgSize : Z) : M Trace Layer :=
  made ← attempt (of_result (NewRequest (reqFactory r) "GET" (registry +:+ "images/" +:+ imgID +:+ "/layer") "" []));
  match made with
  | inr e => raise (errors_New ("Error while getting from the server: " +:+ err_msg e +:+ nl))
  | inl req =>
      let req := setTokenAuth token req in
      '(res, client) ← layer_attempts 5 req;
      if negb (s_StatusCode res =? 200) then raise (layer_failed (s_StatusCode res) imgID)
      else if String.eqb (h_Get "Accept-Ranges" (s_Header res)) "bytes" && (0 <? imgSize)
      then mret (ResumableLayer (ResumableRequestReaderWithInitialResponse client req 5 imgSize res))
      else mret (PlainBody (s_Body res))
  end.

(** The tags that the first of the registries which does not fail has *)
Fixpoint tags_from (registries : list string) (repository : string) (token : list string) : M Trace (gmap string string) :=
  match registries with
  | [] => raise (errors_New "Could not reach any registry endpoint")
  | host :: registries =>
      req ← of_result (NewRequest (reqFactory r) "GET" (host +:+ "repositories/" +:+ repository +:+ "/tags") "" []);
      '(res, _) ← Registry_doRequest (setTokenAuth token req);
      if s_StatusCode res =? 404 then raise (errors_New "Repository not found")
      else if negb (s_StatusCode res =? 200) then tags_from registries repository token
      else rawJSON ← of_result (read_body res id); of_result (Unmarshal string_map_codec ∅ rawJSON)
  end.

Definition GetRemoteTags (registries : list string) (repository : string) (token : list string) : M Trace (gmap string string) :=
  tags_from registries (if contains_char slash repository then repository else "library/" +:+ repository) token.

Definition buildEndpointsList (headers : list string) (indexEp : string) : Result (list string) :=
  parsedUrl ← Parse indexEp;
  Ok (concat (map (λ ep, map (λ epListElement, Scheme parsedUrl +:+ "://" +:+ TrimSpace epListElement +:+ "/v1/") (Split ep ",")) headers)).

(** The images by id; the element of a list may be nil, which has no id. *)
Fixpoint images_by_id (l : list (option ImgData)) (m : gmap string ImgData) : Result (gmap string ImgData) :=
  match l with
  | [] => Ok m
  | None :: _ => Crash NilDereference
  | Some elem :: l => images_by_id l (<[img_ID elem := elem]> m)
  end.

Definition GetRepositoryData (remote : string) : M Trace RepositoryData :=
  let indexEp := indexEndpoint r in
  req ← of_result (NewRequest (reqFactory r) "GET" (indexEp +:+ "repositories/" +:+ remote +:+ "/images") "" []);
  let req := match authConfig r with
             | Some auth => if String.eqb (Username auth) "" then req else SetBasicAuth (Username auth) (Password auth) req
             | None => req
             end in
  let req := set_Header (h_Set "X-Docker-Token" "true" (q_Header req)) req in
  '(res, _) ← Registry_doRequest req;
  if s_StatusCode res =? 401 then raise errLoginRequired
  else if negb (s_StatusCode res =? 200) then raise (NewHTTPRequestError ("HTTP code: " +:+ fmt_d (s_StatusCode res)))
  else
    let values key := default [] (s_Header res !! key) in
    let tokens := if String.eqb (h_Get "X-Docker-Token" (s_Header res)) "" then [] else values "X-Docker-Token" in
    endpoints ← of_result
      (if String.eqb (h_Get "X-Docker-Endpoints" (s_Header res)) "" then u ← Parse indexEp; Ok [Scheme u +:+ "://" +:+ q_Host req +:+ "/v1/"]
       else buildEndpointsList (values "X-Docker-Endpoints") indexEp);
    checksumsJSON ← of_result (read_body res id);
    remoteChecksums ← of_result (Unmarshal (slice_codec false (pointer_codec imgdata_codec)) [] checksumsJSON);
    imgsData ← of_result (images_by_id remoteChecksums ∅);
    mret (mkRepositoryData_ imgsData endpoints tokens).

(** Closing what GetRemoteImageLayer gave *)
Definition CloseLayer (l : Layer) : M Trace unit := mret tt.

(** [*registry.Registry] as the fetcher's [Registry] *)
Definition docker_registry : RepositoryFetcher.Registry Trace Layer := {|
  RepositoryFetcher.GetRepositoryData remote := data ← GetRepositoryData remote; mret (mkRepositoryData (Endpoints data) (Tokens data));
  RepositoryFetcher.GetRemoteTags := GetRemoteTags;
  RepositoryFetcher.GetRemoteHistory := GetRemoteHistory;
  RepositoryFetcher.GetRemoteImageJSON := GetRemoteImageJSON;
  RepositoryFetcher.GetRemoteImageLayer := GetRemoteImageLayer;
  RepositoryFetcher.CloseLayer := CloseLayer
|}.
End registry.
End requests.

(** * Lemmas *)

Section sending.
Context {K : Kernel} {I : Internet} (os_IsNotExist : error → bool) (X509KeyPair : string → string → Result (string * string)).

Lemma try_certs_sent jar pool to req cert certs h res client h' :
  try_certs jar pool to req cert certs h = (Ok (res, client), h') → ∃ h1, client_Do client req h1 = (Ok res, h').
Proof.
  revert cert h. induction certs as [|next certs IH]; intros cert h H; cbn [try_certs] in H.
  - apply bind_Ok_inv in H as (res' & h1 & H & [= -> <- ->]). by exists h.
  - apply bind_Ok_inv in H as (r & h1 & H & H2). destruct r as [res'|e]; [|by eapply IH].
    apply attempt_inl in H. destruct (refused (s_StatusCode res')); [by eapply IH|]. injection H2 as -> <- ->. by exists h.
Qed.

(** A response is what the outside made of the request. *)
Lemma doRequest_sent jar to req h res client h' :
  doRequest os_IsNotExist X509KeyPair jar to req h = (Ok (res, client), h') → ∃ h1, client_Do client req h1 = (Ok res, h').
Proof.
  intros H. unfold doRequest in H. apply bind_Ok_inv in H as (r & h1 & _ & H). apply bind_Ok_inv in H as (fs & h2 & _ & H).
  apply bind_Ok_inv in H as ([pool certs] & h3 & _ & H). destruct certs as [|cert certs].
  - apply bind_Ok_inv in H as (res' & h4 & H & [= -> <- ->]). by eexists.
  - by eapply try_certs_sent.
Qed.

Lemma ChangeRequest_url d req : q_url (ChangeRequest d req) = q_url req ∧ q_Method (ChangeRequest d req) = q_Method req.
Proof. destruct d as [versions|[headers|]|login password]; cbn; [|done..]. by destruct (String.eqb _ ""). Qed.

Lemma NewRequest_url f method url body d req : NewRequest f method url body d = Ok req → q_url req = url ∧ q_Method req = method.
Proof.
  unfold NewRequest, http_NewRequest. destruct (Parse url) as [u|e|c]; [|done..]. cbn. intros [= <-]. destruct f as [l|]; [|done].
  set (r0 := mkHttpRequest _ _ _ _ _ _). assert (H0 : q_url r0 = url ∧ q_Method r0 = method) by done. clearbody r0. revert r0 H0.
  induction (l ++ d) as [|dec ds IH]; intros r0 H0; [done|]. cbn. apply IH. by destruct (ChangeRequest_url dec r0) as [-> ->].
Qed.

Lemma setTokenAuth_url token req : q_url (setTokenAuth token req) = q_url req ∧ q_Method (setTokenAuth token req) = q_Method req.
Proof. unfold setTokenAuth. by destruct (String.eqb _ ""). Qed.

Lemma read_body_Ok res wrap text : read_body res wrap = Ok text → ReadAll (s_Body res) = (text, None).
Proof. unfold read_body. destruct (ReadAll (s_Body res)) as [t [e|]]; [done|]. by intros [= ->]. Qed.

(** The response to a GET of [url] *)
Definition answered (url : string) (res : Response) : Prop :=
  ∃ c q h h', q_Method q = "GET" ∧ q_url q = url ∧ client_Do c q h = (Ok res, h').

Lemma requested r f url token h (req : Request) res client h' :
  NewRequest f "GET" url "" [] = Ok req →
  Registry_doRequest os_IsNotExist X509KeyPair r (setTokenAuth token req) h = (Ok (res, client), h') → answered url res.
Proof.
  intros [Hu Hm]%NewRequest_url (h1 & H)%doRequest_sent. exists client, (setTokenAuth token req), h1, h'.
  destruct (setTokenAuth_url token req) as [-> ->]. done.
Qed.

(** What the code makes of answers *)
Lemma GetRemoteHistory_Ok r id e tk h l h' :
  GetRemoteHistory os_IsNotExist X509KeyPair r id e tk h = (Ok l, h') →
  ∃ res text, answered (e +:+ "images/" +:+ id +:+ "/ancestry") res ∧ s_StatusCode res = 200 ∧ ReadAll (s_Body res) = (text, None) ∧
    Unmarshal (slice_codec true string_codec) [] text = Ok l.
Proof.
  unfold GetRemoteHistory. intros (req & h1 & [Hreq ->]%of_result_Ok & H)%bind_Ok_inv. apply bind_Ok_inv in H as ([res client] & h2 & Hs & H).
  destruct (Z.eqb_spec (s_StatusCode res) 200) as [E|]; [|done]. cbn [negb] in H.
  apply bind_Ok_inv in H as (text & h3 & [Ht ->]%of_result_Ok & [Hl ->]%of_result_Ok). exists res, text.
  split; [by eapply requested|]. split; [done|]. by apply read_body_Ok in Ht.
Qed.

Lemma GetRemoteImageJSON_Ok r id e tk h json sz h' :
  GetRemoteImageJSON os_IsNotExist X509KeyPair r id e tk h = (Ok (json, sz), h') →
  ∃ res, answered (e +:+ "images/" +:+ id +:+ "/json") res ∧ s_StatusCode res = 200 ∧ ReadAll (s_Body res) = (json, None).
Proof.
  unfold GetRemoteImageJSON. intros (sent & h1 & Hs & H)%bind_Ok_inv. destruct sent as [[res client]|er]; [|done]. apply attempt_inl in Hs.
  apply bind_Ok_inv in Hs as (req & h2 & [Hreq ->]%of_result_Ok & Hs).
  destruct (Z.eqb_spec (s_StatusCode res) 200) as [E|]; [|done]. cbn [negb] in H.
  apply bind_Ok_inv in H as (sz' & h3 & _ & H). apply bind_Ok_inv in H as (text & h4 & [Ht ->]%of_result_Ok & [= -> _ _]). exists res.
  split; [by eapply requested|]. split; [done|]. by apply read_body_Ok in Ht.
Qed.
End sending.

(** ** Redirections *)

(** The keys of headers that are set through [Set] and [Add] *)
Definition canonical_keys (h : Header) : Prop := ∀ k vs, h !! k = Some vs → CanonicalHeaderKey k = k.

Lemma add_all_lookup k vs h k' :
  CanonicalHeaderKey k = k →
  default [] (foldl (λ h v, h_Add k v h) h vs !! k') = default [] (h !! k') ++ (if String.eqb k k' then vs else []).
Proof.
  intros Hk. revert h. induction vs as [|v vs IH]; intros h; cbn; [by case_match; rewrite app_nil_r|].
  rewrite IH. unfold h_Add, UrlQuery.Add. rewrite Hk. destruct (String.eqb_spec k k') as [->|Hne].
  - rewrite lookup_insert_eq. cbn. by rewrite <-app_assoc.
  - by rewrite lookup_insert_ne.
Qed.

#[local] Arguments h_Add : simpl never.
Lemma copy_list_lookup (l : list (string * list string)) to k' :
  NoDup l.*1 → (∀ k vs, (k, vs) ∈ l → CanonicalHeaderKey k = k) →
  default [] (foldl (λ h kvs, if String.eqb kvs.1 "Authorization" then h else foldl (λ h v, h_Add kvs.1 v h) h kvs.2) to l !! k') =
  default [] (to !! k') ++ (if String.eqb k' "Authorization" then [] else default [] ((list_to_map l : Header) !! k')).
Proof.
  revert to. induction l as [|[k vs] l IH]; intros to Hnd Hk; cbn.
  { rewrite lookup_empty. cbn. by destruct (String.eqb k' "Authorization"); rewrite app_nil_r. }
  apply NoDup_cons in Hnd as [Hnin Hnd]. cbn in Hnin. rewrite IH; [|done|intros; apply (Hk k0 vs0); by right].
  assert (Hfree : (list_to_map l : Header) !! k = None) by by apply not_elem_of_list_to_map_1.
  destruct (String.eqb_spec k "Authorization") as [->|Hne].
  - destruct (String.eqb_spec k' "Authorization") as [E|Hne']; [done|]. by rewrite lookup_insert_ne by congruence.
  - cbn iota. rewrite add_all_lookup by (apply (Hk k vs); by left). rewrite <-app_assoc. f_equal. destruct (String.eqb_spec k k') as [<-|Hne'].
    + rewrite (proj2 (String.eqb_neq _ _) Hne), lookup_insert_eq, Hfree. cbn. by rewrite app_nil_r.
    + by rewrite lookup_insert_ne.
Qed.

Lemma copy_headers_lookup from to k :
  canonical_keys from →
  default [] (copy_headers from to !! k) = default [] (to !! k) ++ (if String.eqb k "Authorization" then [] else default [] (from !! k)).
Proof.
  intros Hc. unfold copy_headers. rewrite copy_list_lookup; [by rewrite list_to_map_to_list|apply NoDup_fst_map_to_list|].
  intros k0 vs H%elem_of_map_to_list. by eapply Hc.
Qed.

(** ** Trusted places *)

(** A request over https to docker.com or docker.io, or a subdomain of one of them, on any port *)
Definition to_docker (req : Request) : Prop :=
  q_Scheme req = "https" ∧
  ∃ name, free_of ":" name ∧ (q_Host req = name ∨ ∃ port, q_Host req = name +:+ ":" +:+ port) ∧
    ∃ domain, (domain = "docker.com" ∨ domain = "docker.io") ∧ (name = domain ∨ ∃ sub, name = sub +:+ "." +:+ domain).

Lemma has_suffix_spec s t : has_suffix s t = true ↔ ∃ p, s = p +:+ t.
Proof.
  unfold has_suffix. rewrite andb_true_iff, Nat.leb_le, String.eqb_eq. split.
  - intros [Hl E]. exists (String.substring 0 (String.length s - String.length t) s).
    rewrite (substring_split s (String.length s - String.length t)) at 1 by lia. f_equal.
    replace (String.length s - (String.length s - String.length t))%nat with (String.length t) by lia. done.
  - intros [p ->]. rewrite length_string_app. split; [lia|].
    replace (String.length p + String.length t - String.length t)%nat with (String.length p) by lia. apply substring_app_r.
Qed.

Lemma before_spec c s n : before c s = n ↔ free_of c n ∧ (s = n ∨ ∃ rest, s = n +:+ String c rest).
Proof.
  unfold before, split_cut. split.
  - intros <-. destruct (cut c s) as [[a b]|] eqn:E; cbn; [|split; [by apply cut_None|by left]].
    apply cut_Some in E as [Hf ->]. split; [done|right; by exists b].
  - intros [Hf [-> | [rest ->]]]; [by rewrite cut_free|by rewrite cut_app].
Qed.

Lemma trustedLocation_spec req : trustedLocation req = true ↔ to_docker req.
Proof.
  unfold trustedLocation, to_docker. destruct (String.eqb_spec (q_Scheme req) "https") as [E|E]; cbn [negb].
  2: { split; [done|]. by intros [? _]. }
  rewrite existsb_exists. split.
  - intros (d & Hd & H). split; [done|]. exists (before ":" (q_Host req)).
    destruct (proj1 (before_spec ":" (q_Host req) _) eq_refl) as [Hf Hh]. split_and!; [done|exact Hh|].
    exists d. split; [destruct Hd as [<- | [<- | []]]; auto|].
    apply orb_true_iff in H as [H%String.eqb_eq|[sub H]%has_suffix_spec]; [by left|right; by exists sub].
  - intros (_ & name & Hf & Hh & d & Hd & Hn). exists d. split; [destruct Hd as [-> | ->]; cbn; auto|].
    rewrite (proj2 (before_spec ":" (q_Host req) name)) by done. apply orb_true_iff.
    destruct Hn as [-> | [sub ->]]; [left; apply String.eqb_refl|right; apply has_suffix_spec; by exists sub].
Qed.

(** * Properties *)

(** C35: a redirected request gets the headers of the first request, the credentials among them,
    when both go over https to docker.com, docker.io or a subdomain of these, and only then:
    otherwise it keeps the credentials it has itself, of the first request it gets none, and all
    other headers of the first request are added to its own. (The keys of headers are in their
    canonical form, as [http.Header] makes them.) *)
Theorem credentials_stay_trusted req first rest :
  canonical_keys (q_Header first) →
  let req' := AddRequiredHeadersToRedirectedRequests req (first :: rest) in
  (to_docker req ∧ to_docker first ∧ q_Header req' = q_Header first) ∨
  (¬ (to_docker req ∧ to_docker first) ∧
   default [] (q_Header req' !! "Authorization") = default [] (q_Header req !! "Authorization") ∧
   ∀ k, k ≠ "Authorization" → default [] (q_Header req' !! k) = default [] (q_Header req !! k) ++ default [] (q_Header first !! k)).
Proof.
  intros Hc req'. unfold req', AddRequiredHeadersToRedirectedRequests. rewrite <-!trustedLocation_spec.
  destruct (trustedLocation req), (trustedLocation first); cbn [andb]; [by left|right..].
  all: cbn [q_Header set_Header]; split; [by intros []|]; split; [by rewrite copy_headers_lookup, app_nil_r|].
  all: intros k Hk; by rewrite copy_headers_lookup, (proj2 (String.eqb_neq _ _) Hk).
Qed.

(** A layer whose request fails is not asked for again: the first failure panics, on the way to
    the second of five attempts. *)
Theorem failed_layer_request_panics {K : Kernel} {I : Internet} no keypair r imgID registry token imgSize req h e h' :
  NewRequest (reqFactory r) "GET" (registry +:+ "images/" +:+ imgID +:+ "/layer") "" [] = Ok req →
  Registry_doRequest no keypair r (setTokenAuth token req) h = (Err e, h') →
  GetRemoteImageLayer no keypair r imgID registry token imgSize h = (Crash NilDereference, h').
Proof.
  intros Hreq Hs. unfold GetRemoteImageLayer. erewrite bind_Ok by (apply attempt_Ok; by rewrite Hreq). cbn iota zeta.
  apply bind_Crash. cbn [layer_attempts]. by erewrite bind_Ok by (by apply attempt_Err).
Qed.

(** * Failures of the code *)

(** A private registry that stands alone is asked for credentials that main.go does not have. *)
Lemma private_registry_panics {K : Kernel} {I : Internet} no keypair factory endpoint with_timeout info h h' :
  String.eqb endpoint IndexServerAddress = false → HasPrefix endpoint "https://" = true →
  pingRegistryEndpoint no keypair endpoint h = (Ok info, h') → info_Standalone info = true →
  NewRegistry no keypair None factory endpoint with_timeout h = (Crash NilDereference, h').
Proof. intros E1 E2 Hp Hi. unfold NewRegistry. rewrite E1, E2. cbn [negb andb]. by rewrite (bind_Ok _ _ _ _ _ Hp), Hi. Qed.

(** A list of images with a null in it *)
Lemma null_image_panics l m : images_by_id (None :: l) m = Crash NilDereference.
Proof. done. Qed.
Example null_image_decodes : Unmarshal (slice_codec false (pointer_codec imgdata_codec)) [] "[null]" = Ok [None].
Proof. reflexivity. Qed.

(** * Examples *)

Example Resolve_official : ResolveRepositoryName "busybox" = Ok (IndexServerAddress, "busybox").
Proof. reflexivity. Qed.
Example Resolve_private : ResolveRepositoryName "localhost:5000/some_one/app" = Ok ("localhost:5000", "some_one/app").
Proof. reflexivity. Qed.
Example not_dockers : trustedLocation (mkHttpRequest "GET" "" "https" "docker.com.example.org" ∅ "") = false.
Proof. reflexivity. Qed.

(** * Witnesses *)

Definition example_first : Request :=
  mkHttpRequest "GET" "https://index.docker.io/v1/repositories/a/images" "https" "index.docker.io"
    {["Authorization" := ["Token secret"]; "X-Docker-Token" := ["true"]]} "".
Definition example_elsewhere : Request := mkHttpRequest "GET" "https://example.org/" "https" "example.org" ∅ "".

Lemma credentials_stay_trusted_witness :
  let req' := AddRequiredHeadersToRedirectedRequests example_elsewhere [example_first] in
  default [] (q_Header req' !! "Authorization") = [] ∧ default [] (q_Header req' !! "X-Docker-Token") = ["true"].
Proof.
  destruct (credentials_stay_trusted example_elsewhere example_first []) as [[H _]|(_ & H1 & H2)].
  - intros k vs H. cbn in H. apply lookup_insert_Some in H as [[<- _]|[_ H]]; [reflexivity|].
    apply lookup_singleton_Some in H as [<- _]. reflexivity.
  - apply trustedLocation_spec in H. vm_compute in H. discriminate H.
  - split; [exact H1|]. apply (H2 "X-Docker-Token"). discriminate.
Defined.

Definition daemon's_registry : Registry := mkRegistry_ None None IndexServerAddress ReceiveTimeout.

Lemma failed_layer_request_panics_witness :
  let net : Internet := λ _ _, raise (errors_New "connection refused") in
  (GetRemoteImageLayer (K := quiet_kernel) (I := net) (λ _, true) (λ c k, Ok (c, k)) daemon's_registry "a" "https://r/v1/" [] 5 []).1 = Crash NilDereference.
Proof.
  intros net. erewrite (failed_layer_request_panics (K := quiet_kernel) (I := net) (λ _, true) (λ c k, Ok (c, k)) daemon's_registry "a" "https://r/v1/" [] 5).
  - reflexivity.
  - reflexivity.
  - reflexivity.
Defined.
