(* ===== verification/DockerStore.v ===== *)
(** main.go hands docker's graph (DockerGraph.v) to the repository fetcher
    (RepositoryFetcher.v), which sees it as its interfaces [Graph] and [Registry] only. Here
    is the graph behind these interfaces, that it obeys the laws the fetcher relies on, and
    what that gives for the two together. *)
From S2P Require Import Prelude GoStd OS Json JsonCodec Paths Patricia TruncIndex GraphDriver DockerGraph DockerHttp RepositoryFetcher.
From S2P Require Import DockerRegistry.
Import DockerGraph RepositoryFetcher.

Local Open Scope string_scope.
Local Open Scope list_scope.
Local Open Scope Z_scope.

Section store.
Context {Layer Changes Rest : Type} {K : Kernel} (ar : Archiver Layer Changes Rest) (driver : Driver Layer).
Context (os_IsNotExist : error → bool) (Root : string) (fuel : nat).

(** ** The interfaces *)

(** [*graph.Graph] as the fetcher's [Graph] *)
Definition docker_graph : RepositoryFetcher.Graph GState Layer (Image Rest) := {|
  RepositoryFetcher.Exists := DockerGraph.Exists ar driver os_IsNotExist Root;
  RepositoryFetcher.Register json l img := DockerGraph.Register ar driver os_IsNotExist Root fuel (Some json) (Some l) img;
  RepositoryFetcher.NewImgJSON := DockerGraph.NewImgJSON ar;
  img_ID := ID
|}.

(** A registry, which only calls the outside *)
Definition with_graph (registry : Registry Trace Layer) : Registry GState Layer := {|
  GetRepositoryData repo := on_os (GetRepositoryData registry repo);
  GetRemoteTags es repo tk := on_os (GetRemoteTags registry es repo tk);
  GetRemoteHistory id e tk := on_os (GetRemoteHistory registry id e tk);
  GetRemoteImageJSON id e tk := on_os (GetRemoteImageJSON registry id e tk);
  GetRemoteImageLayer id e tk sz := on_os (GetRemoteImageLayer registry id e tk sz);
  CloseLayer l := on_os (CloseLayer registry l)
|}.

(** ** The laws *)

(** Ids of one length, none of which is empty or has a blank: no id is a prefix of another. *)
Definition good_id (n : nat) (id : string) : Prop := String.length id = n ∧ indexable id.

Definition indexed (id : string) (s : GState) : Prop := id ∈ ids (idIndex s).

Definition graph_ok (n : nat) (s : GState) : Prop := index_ok (idIndex s) ∧ ∀ id, indexed id s → good_id n id.

Context (n : nat).
Local Abbreviation quiet_on_layers := (same_layers indexed (graph_ok n)).

Lemma index_same_layers {A} (m : M GState A) : steps same_index m → steps quiet_on_layers m.
Proof.
  intros H s. specialize (H s). unfold same_index in H. unfold same_layers, graph_ok, indexed. by rewrite H.
Qed.

Lemma on_os_layers {A} (m : M Trace A) : steps quiet_on_layers (on_os m).
Proof. apply index_same_layers, on_os_same. Qed.

Lemma length_bytes s : length (bytes s) = String.length s.
Proof. induction s as [|c s IH]; [done|]. cbn. by rewrite <-IH. Qed.

(** Of ids of the same length, only the id itself starts with it. *)
Lemma prefix_same_length id id' : String.prefix id id' = true → String.length id = String.length id' → id = id'.
Proof.
  rewrite prefix_bytes. intros [k H] Hl. apply bytes_inj. rewrite H.
  assert (length k = 0%nat) as ->%nil_length_inv; [|by rewrite app_nil_r].
  apply (f_equal length) in H. rewrite length_app, !length_bytes in H. lia.
Qed.

Lemma Exists_indexed id s :
  graph_ok n s → good_id n id → (DockerGraph.Exists ar driver os_IsNotExist Root id s).1 = Ok true → indexed id s.
Proof.
  intros [Hok Hg] [Hl _] H.
  destruct (DockerGraph.Exists ar driver os_IsNotExist Root id s) as [r s'] eqn:E. cbn in H. subst r.
  apply bind_Ok_inv in E as (r & s1 & E & [= E' _]). destruct r as [img|e]; [|done].
  apply attempt_inl in E. apply bind_Ok_inv in E as (id' & s2 & E & _).
  apply zoom_Ok in E as (idx & E & _). cbn [view index_lens] in E. rewrite Get_contract in E by done. injection E as E _.
  cbn [contract fst] in E. destruct (String.eqb id ""); [done|].
  destruct (elements (matching id (ids (idIndex s)))) as [|x [|? ?]] eqn:Em; [done| |done]. injection E as ->.
  assert (Hin : id' ∈ matching id (ids (idIndex s))) by (apply elem_of_elements; rewrite Em; by left).
  apply elem_of_filter in Hin as [Hp Hin]. assert (id = id') as ->; [|done].
  apply prefix_same_length; [done|]. destruct (Hg id' Hin). congruence.
Qed.

Lemma Register_layers json l img s :
  graph_ok n s → good_id n (ID img) →
  let '(r, s') := DockerGraph.Register ar driver os_IsNotExist Root fuel json l img s in
  graph_ok n s' ∧ (layer_added indexed (ID img) s s' ∨ ∀ id, indexed id s' ↔ indexed id s) ∧
  (r = Ok tt → layer_added indexed (ID img) s s').
Proof.
  intros [Hok Hg] Hid. pose proof (Register_index ar driver os_IsNotExist Root fuel json l img s Hok) as H.
  destruct (Add_ids (ID img) (idIndex s) Hok) as (_ & Ha & _). specialize (Ha (proj2 Hid)).
  destruct (DockerGraph.Register ar driver os_IsNotExist Root fuel json l img s) as [r s']. destruct H as [Hok' H].
  assert (Hor : ids (idIndex s') = {[ID img]} ∪ ids (idIndex s) ∨ r ≠ Ok tt ∧ ids (idIndex s') = ids (idIndex s)).
  { destruct r as [[]|e|c]; [left; apply H, Hid|right; by rewrite H|]. destruct H as [-> | ->]; auto. }
  unfold graph_ok, layer_added, indexed in *.
  destruct Hor as [E|[Hr E]]; rewrite E; (split_and!; [done| | |]).
  - intros id [->%elem_of_singleton|?]%elem_of_union; auto.
  - left. intros id. rewrite elem_of_union, elem_of_singleton. done.
  - intros _ id. rewrite elem_of_union, elem_of_singleton. done.
  - done.
  - by right.
  - done.
Qed.

(** What is asked of the registry: the metadata of a layer names that layer, and it has images
    with good ids, whose history is their ancestry. *)
Definition honest (registry : Registry Trace Layer) (ancestry : string → list string) : Prop :=
  (∀ id e tk json sz img h, (GetRemoteImageJSON registry id e tk h).1 = Ok (json, sz) → Unmarshal ar json = Ok img → ID img = id) ∧
  ∀ id e tk l h, (GetRemoteHistory registry id e tk h).1 = Ok l → good_id n id ∧ l = ancestry id.

Lemma on_os_fst {A} (m : M Trace A) (s : GState) : (on_os m s).1 = (m (h_trace (g_host s))).1.
Proof. unfold on_os, on_driver, on_host, zoom. cbn. by destruct (m (h_trace (g_host s))). Qed.

Lemma docker_store_laws registry ancestry :
  honest registry ancestry → StoreLaws (with_graph registry) docker_graph ancestry indexed (graph_ok n) (good_id n).
Proof.
  intros [Hn Hh]. split; try (intros; apply on_os_layers).
  - intros id. apply index_same_layers, Exists_same.
  - intros id s. apply Exists_indexed.
  - intros json l img s. apply Register_layers.
  - intros id e tk json sz img s H. cbn in H. rewrite on_os_fst in H. by eapply Hn.
  - intros id e tk l s H. cbn in H. rewrite on_os_fst in H. by eapply Hh.
Qed.

Lemma fetch_safe registry ancestry repoName tag s :
  honest registry ancestry → ancestry_ok ancestry (good_id n) → graph_ok n s → complete ancestry indexed s →
  safe ancestry indexed (graph_ok n)
    (Retryable_Fetch (Fetch (with_graph registry) docker_graph) repoName tag) (fetched ancestry indexed) s.
Proof. intros Hh Ha Hs Hc. eapply retry_safe; [by apply docker_store_laws|done|done]. Qed.

(** Fetching into docker's graph, whatever the driver, the archives and the outside do:
    index and trie agree afterwards, nothing that was indexed is lost, no image is indexed
    without its ancestors, and when the fetch succeeds, asking the graph's index for the image
    or any of its ancestors, by its id, gives that one. *)
Lemma fetch_indexed registry ancestry repoName tag s :
  honest registry ancestry → ancestry_ok ancestry (good_id n) → graph_ok n s → complete ancestry indexed s →
  let '(r, s') := Retryable_Fetch (Fetch (with_graph registry) docker_graph) repoName tag s in
  graph_ok n s' ∧ complete ancestry indexed s' ∧ (∀ id, indexed id s → indexed id s') ∧
  ∀ id a, r = Ok id → a = id ∨ a ∈ ancestry id → TruncIndex.Get a (idIndex s') = (Ok a, idIndex s').
Proof.
  intros Hh Ha Hs Hc. destruct (fetch_safe registry ancestry repoName tag s Hh Ha Hs Hc) as ([[Hi Hg] Hc'] & Hk & Hok).
  destruct (Retryable_Fetch _ repoName tag s) as [r s']. cbn in *. split_and!; [by split|done|done|].
  intros id a -> Hin. assert (indexed a s') by (destruct (Hok id eq_refl); by destruct Hin as [-> | ?]; auto). clear Hok Hin. rename H into Hok. rewrite Get_contract by done. f_equal. cbn [contract fst].
  destruct (Hg a Hok) as [Hl [_ Hne]]. rewrite (proj2 (String.eqb_neq _ _) Hne).
  assert (E : matching a (ids (idIndex s')) = {[a]}); [|by rewrite E, elements_singleton].
  apply set_eq. intros y. unfold matching. rewrite elem_of_filter, elem_of_singleton. split.
  - intros [Hp Hy]. symmetry. apply prefix_same_length; [done|]. destruct (Hg y Hy). congruence.
  - intros ->. split; [by apply prefix_bytes|done].
Qed.
End store.

(** * The registry *)

Section daemon.
Context {Changes Rest : Type} {K : Kernel} {I : Internet} (ar : Archiver DockerRegistry.Layer Changes Rest).
Context (driver : Driver DockerRegistry.Layer) (os_IsNotExist : error → bool) (Root : string) (fuel n : nat).
Context (X509KeyPair : string → string → Result (string * string)).

(** What servers are relied on for: the JSON of an image is of that image, and its ancestry is
    a list of ids of one length that has the image and its ancestors. *)
Definition serves_images (ancestry : string → list string) : Prop :=
  (∀ e id res text img, answered (e +:+ "images/" +:+ id +:+ "/json") res → s_StatusCode res = 200 →
   ReadAll (s_Body res) = (text, None) → Unmarshal ar text = Ok img → ID img = id) ∧
  ∀ e id res text l, answered (e +:+ "images/" +:+ id +:+ "/ancestry") res → s_StatusCode res = 200 →
   ReadAll (s_Body res) = (text, None) → DockerRegistry.Unmarshal (slice_codec true string_codec) [] text = Ok l →
   good_id n id ∧ l = ancestry id.

Lemma docker_honest r ancestry : serves_images ancestry → honest ar n (docker_registry os_IsNotExist X509KeyPair r) ancestry.
Proof.
  intros [Hj Ha]. split.
  - intros id e tk json sz img h H Himg. cbn [docker_registry RepositoryFetcher.GetRemoteImageJSON] in H. destruct (DockerRegistry.GetRemoteImageJSON _ _ r id e tk h) as [res h'] eqn:E. cbn in H. subst res.
    apply GetRemoteImageJSON_Ok in E as (res & H1 & H2 & H3). by eapply Hj.
  - intros id e tk l h H. cbn [docker_registry RepositoryFetcher.GetRemoteHistory] in H. destruct (DockerRegistry.GetRemoteHistory _ _ r id e tk h) as [res h'] eqn:E. cbn in H. subst res.
    apply GetRemoteHistory_Ok in E as (res & text & H1 & H2 & H3 & H4). by eapply Ha.
Qed.

(** The daemon's fetcher: over HTTP, into the graph *)
Definition daemon_fetch (r : DockerRegistry.Registry) : string → string → M GState string :=
  Retryable_Fetch (Fetch (with_graph (docker_registry os_IsNotExist X509KeyPair r)) (docker_graph ar driver os_IsNotExist Root fuel)).

(** C28: the daemon's fetcher, with docker's registry, graph, index and trie behind it, keeps no
    image without its ancestors, if servers agree on the images there are. What is relied on,
    and not checked by the code: the JSON that any server gives for an id is that of the image
    with this id, and the ancestry that any server gives for an id is that of one function
    [ancestry], which lists the image itself and ends, from each of its members on, with that
    member's ancestry ([serves_images], [ancestry_ok]); ids have one length and no blanks. Then, whichever requests
    fail and whatever files, archives and drivers do, if the index and its trie agree before and
    no image lacks an ancestor, this is so afterwards; nothing that was indexed is lost; and
    when fetching succeeds, asking the index for the image or any of its ancestors gives that
    one. *)
Theorem fetched_images_indexed r ancestry repoName tag s :
  serves_images ancestry → ancestry_ok ancestry (good_id n) → graph_ok n s → complete ancestry indexed s →
  let '(id, s') := daemon_fetch r repoName tag s in
  graph_ok n s' ∧ complete ancestry indexed s' ∧ (∀ id, indexed id s → indexed id s') ∧
  ∀ i a, id = Ok i → a = i ∨ a ∈ ancestry i → TruncIndex.Get a (idIndex s') = (Ok a, idIndex s').
Proof. intros Hs. by apply fetch_indexed, docker_honest. Qed.

(** ** Starting *)

(** The part of main.go that makes the driver, the graph and the registry *)
Definition setup (DefaultDriver : string) (drivers : list (string * InitFunc (Layer := DockerRegistry.Layer))) (os_IsExist : error → bool) (Getwd : string)
    (graphRoot dockerRegistry : string) : M Host (Driver DockerRegistry.Layer * string * TruncIndex * DockerRegistry.Registry) :=
  on_host (MkdirAll graphRoot) ≫= λ _,
  graphDriver ← GraphDriver.New DefaultDriver drivers graphRoot [];
  '(root, idx) ← NewGraph graphDriver os_IsExist Getwd graphRoot;
  reg ← on_host (NewRegistry os_IsNotExist X509KeyPair None None dockerRegistry true);
  mret (graphDriver, root, idx, reg).

Lemma NewTruncIndex_ok l idx : NewTruncIndex l = Ok idx → index_ok idx ∧ ∀ id, id ∈ ids idx → id ∈ l.
Proof.
  unfold NewTruncIndex. assert (H : ∀ l idx0 k, index_ok idx0 → (∀ id, id ∈ ids idx0 → id ∈ k) →
    let '(r, idx) := for_each (λ id, ignore_err (addId id)) l idx0 in index_ok idx ∧ ∀ id, id ∈ ids idx → id ∈ k ++ l).
  { clear. induction l as [|x l IH]; intros idx0 k Hok Hk; [by rewrite app_nil_r|]. cbn [for_each]. unfold ignore_err, attempt, mbind, M_bind.
    destruct (Add_ids x idx0 Hok) as (Hok' & Hin & Hout). unfold Add in *.
    assert (Hk' : ∀ id, id ∈ ids (addId x idx0).2 → id ∈ k ++ [x]).
    { intros id Hid. destruct (decide (Contains x " " = false ∧ x ≠ "")) as [Hx|Hx].
      - rewrite Hin in Hid by done. apply elem_of_union in Hid as [->%elem_of_singleton|Hid]; apply elem_of_app; [right; by left|left; by apply Hk].
      - rewrite Hout in Hid by done. apply elem_of_app. left. by apply Hk. }
    destruct (addId x idx0) as [[u|e|c] idx1]; cbn [fst snd] in *.
    1,2: pose proof (IH idx1 (k ++ [x]) Hok' Hk') as H; unfold ignore_err, attempt, mbind, M_bind in H; by rewrite <-app_assoc in H.
    split; [done|]. intros id Hid%Hk'. rewrite elem_of_app in *. rewrite elem_of_cons. set_solver. }
  specialize (H l (mkTruncIndex NewTrie ∅) [] empty_ok). destruct (for_each _ l _) as [[u|e|c] idx'] eqn:E; cbn; [|done..].
  intros [= <-]. apply H. intros id Hid. by apply not_elem_of_empty in Hid.
Qed.

(** The graph the daemon starts with, index and trie of which agree *)
Lemma setup_ok DefaultDriver drivers os_IsExist Getwd graphRoot dockerRegistry s d root idx reg s' :
  setup DefaultDriver drivers os_IsExist Getwd graphRoot dockerRegistry s = (Ok (d, root, idx, reg), s') → index_ok idx.
Proof.
  intros (u & s1 & _ & H)%bind_Ok_inv. apply bind_Ok_inv in H as (d' & s2 & _ & H). apply bind_Ok_inv in H as ([root' idx'] & s3 & Hg & H).
  apply bind_Ok_inv in H as (reg' & s4 & _ & [= -> -> -> _ _]).
  assert (Hr : ∀ dir t t', restore d dir t = (Ok idx, t') → index_ok idx).
  { intros dir t t' (names & t1 & _ & Hx)%bind_Ok_inv. apply bind_Ok_inv in Hx as (l & t2 & _ & [Hx _]%of_result_Ok). by apply NewTruncIndex_ok in Hx as [? _]. }
  unfold NewGraph in Hg. apply bind_Ok_inv in Hg as (r & s5 & _ & Hg). destruct r as [v|e].
  - apply bind_Ok_inv in Hg as (i & s6 & Hg & [= _ -> _]). by eapply Hr.
  - destruct (os_IsExist e); [|done]. apply bind_Ok_inv in Hg as (i & s6 & Hg & [= _ -> _]). by eapply Hr.
Qed.
End daemon.

(** * Witnesses *)

#[local] Instance good_id_decision n id : Decision (good_id n id).
Proof. unfold good_id, indexable. apply _. Defined.

(** An image "cafe" on top of an image "base", in a registry of which one endpoint is down. *)
Definition docker_ancestry (id : string) : list string :=
  if String.eqb id "cafe" then ["cafe"; "base"] else if String.eqb id "base" then ["base"]
  else if bool_decide (good_id 4 id) then [id] else [].

(** Where the images are, and what is there *)
Definition example_pages : list (string * Response) :=
  let page text := mkHttpResponse 200 ∅ (-1) (mkBody [text] "" io_EOF) in
  [("http://i/repositories/busybox/images", mkHttpResponse 200 {["X-Docker-Endpoints" := ["down, r"]]} 2 (mkBody ["[]"] "" io_EOF));
   ("http://r/v1/repositories/library/busybox/tags", page (print_json (JObject [("latest", JString "cafe")])));
   ("http://r/v1/images/cafe/ancestry", page (print_json (JArray [JString "cafe"; JString "base"])));
   ("http://r/v1/images/cafe/json", page "cafe"); ("http://r/v1/images/base/json", page "base");
   ("http://r/v1/images/cafe/layer", page "..."); ("http://r/v1/images/base/layer", page "...");
   ("http://down/v1/repositories/library/busybox/tags", mkHttpResponse 503 ∅ 0 (mkBody [] "" io_EOF))].

#[local] Instance example_net : Internet := λ _ q,
  match find (λ p, String.eqb p.1 (q_url q)) example_pages with
  | Some (_, res) => mret res
  | None => raise (errors_New "no such host")
  end.

Lemma docker_ancestry_ok : ancestry_ok docker_ancestry (good_id 4).
Proof.
  split_and!; unfold docker_ancestry.
  - intros id Hg. destruct (String.eqb_spec id "cafe") as [-> | _]; [by left|]. destruct (String.eqb_spec id "base") as [-> | _]; [by left|].
    rewrite bool_decide_eq_true_2 by done. by left.
  - intros id l1 a l2. destruct (String.eqb_spec id "cafe") as [-> | H1]; [|destruct (String.eqb_spec id "base") as [-> | H2]; [|case_bool_decide as Hg]].
    + destruct l1 as [|? [|? [|? l1]]]; intros [=]; subst; done.
    + destruct l1 as [|? [|? l1]]; intros [=]; subst; done.
    + destruct l1 as [|? [|? l1]]; intros [=]; subst; [|done..]. rewrite (proj2 (String.eqb_neq _ _) H1), (proj2 (String.eqb_neq _ _) H2).
      by rewrite bool_decide_eq_true_2.
    + by destruct l1.
  - intros id a Hg. destruct (String.eqb_spec id "cafe") as [-> | H1]; [|destruct (String.eqb_spec id "base") as [-> | H2]; [|case_bool_decide]].
    + intros [-> | [-> | H%elem_of_nil]%elem_of_cons]%elem_of_cons; [by split|by split|done].
    + intros ->%list_elem_of_singleton. by split.
    + by intros ->%list_elem_of_singleton.
    + done.
Qed.

(** As in DockerGraph.v: the JSON of an image is its id. *)
Definition store_archiver : Archiver DockerRegistry.Layer unit unit :=
  mkArchiver _ _ _ (λ _ _, mret tt) (λ _, mret 42) (λ _ _, mret tt) (λ _ _, mret 7) (λ _, mret (PlainBody (mkBody [] "" io_EOF)))
    (λ _ _, mret (PlainBody (mkBody [] "" io_EOF))) (λ _, mret tt) (λ json, Ok (mkImage json "" 0 false tt)) (λ img, Ok (ID img)).

Definition example_registry_at : DockerRegistry.Registry := mkRegistry_ None None "http://i/" ReceiveTimeout.

#[local] Existing Instance tree_kernel.
Local Abbreviation example_fetch :=
  (daemon_fetch store_archiver (vfs.Driver_ "/vfs") (λ _, false) example_root 1 (λ c k, Ok (c, k)) example_registry_at "busybox" "latest" empty_graph).

Lemma example_fetched : example_fetch.1 = Ok "cafe".
Proof. vm_compute. reflexivity. Qed.

(** ** The images that an address can be of *)

Fixpoint tails (s : string) : list string := s :: match s with EmptyString => [] | String _ s' => tails s' end.

Lemma tails_app e t : t ∈ tails (e +:+ t).
Proof. induction e as [|c e IH]; [destruct t; by left|by right]. Qed.

Lemma strip_prefix_app p s : strip_prefix p (p +:+ s) = Some s.
Proof. induction p as [|c p IH]; [done|]. change (strip_prefix (String c p) (String c (p +:+ s)) = Some s). cbn. by rewrite Ascii.eqb_refl. Qed.

Definition ids_in (suffix url : string) : list string :=
  omap (λ t, x ← strip_prefix "images/" t; if has_suffix x suffix then Some (drop_last (String.length suffix) x) else None) (tails url).

Lemma ids_in_all e id suffix : id ∈ ids_in suffix (e +:+ "images/" +:+ id +:+ suffix).
Proof.
  apply list_elem_of_omap. exists ("images/" +:+ id +:+ suffix). split; [apply tails_app|]. rewrite strip_prefix_app. cbn.
  assert (El : (String.length (id +:+ suffix) - String.length suffix)%nat = String.length id) by (rewrite length_string_app; lia).
  unfold has_suffix, drop_last. rewrite El, substring_app_l, substring_app_r, length_string_app, String.eqb_refl.
  by rewrite (proj2 (Nat.leb_le _ _)) by lia.
Qed.

(** Only what is at an address is answered. *)
Lemma example_answers e id suffix res :
  answered (e +:+ "images/" +:+ id +:+ suffix) res → ∃ url, (url, res) ∈ example_pages ∧ id ∈ ids_in suffix url.
Proof.
  intros (c & q & h & h' & _ & Hu & H). unfold client_Do, example_net in H.
  destruct (find _ example_pages) as [[url res']|] eqn:E; [|done]. injection H as -> _. apply find_some in E as [Hin E%String.eqb_eq].
  exists url. split; [by apply list_elem_of_In|]. cbn in E. rewrite E, Hu. apply ids_in_all.
Qed.

(** Each page in turn: what it is of, and what it says *)
Ltac each_page Hin Hid Ht :=
  unfold example_pages in Hin;
  repeat (apply elem_of_cons in Hin as [[= -> ->]|Hin];
          [vm_compute in Hid; first [by apply elem_of_nil in Hid | apply list_elem_of_singleton in Hid as ->; vm_compute in Ht; injection Ht as <-]|]);
  [..|by apply elem_of_nil in Hin].

Lemma example_serves_images : serves_images store_archiver 4 docker_ancestry.
Proof.
  split; intros e id res text x (url & Hin & Hid)%example_answers Hs Ht Hx; each_page Hin Hid Ht.
  - by injection Hx as <-.
  - by injection Hx as <-.
  - vm_compute in Hx. injection Hx as <-. by split.
Qed.

Lemma fetched_images_indexed_witness :
  example_fetch.1 = Ok "cafe" ∧ TruncIndex.Get "base" (idIndex example_fetch.2) = (Ok "base", idIndex example_fetch.2).
Proof.
  split; [apply example_fetched|].
  assert (Hno : ∀ id, ¬ indexed id empty_graph) by (intros id; exact (not_elem_of_empty (C := gset string) id)).
  pose proof (fetched_images_indexed (K := tree_kernel) (I := example_net) store_archiver (vfs.Driver_ "/vfs") (λ _, false) example_root 1 4 (λ c k, Ok (c, k))
    example_registry_at docker_ancestry "busybox" "latest" empty_graph example_serves_images docker_ancestry_ok
    ltac:(split; [apply empty_ok|intros id H; by destruct (Hno id)]) ltac:(intros id a H; by destruct (Hno id))) as H.
  pose proof example_fetched as E. destruct example_fetch as [r s]. cbn in E. subst r. destruct H as (_ & _ & _ & H).
  apply (H "cafe" "base" eq_refl). right. right. by left.
Defined.
