(* ===== verification/Regexp.v ===== *)
(** The part of Go's [regexp] the bandwidth manager's two patterns need:
    sequences of characters, [c+] and [c?] over a character class, captures
    around the latter. Matching prefers, like Go's, the leftmost match and then
    the longest repetition that lets the rest match. *)
From S2P Require Import Prelude GoStd.
From Stdlib Require Import Ascii.

Local Open Scope string_scope.
Local Open Scope list_scope.

Inductive item :=
  | Chr (c : ascii)
  | Plus (cls : ascii → bool)      (* cls+ *)
  | CapPlus (cls : ascii → bool)   (* (cls+) *)
  | CapOpt (cls : ascii → bool).   (* (cls?) *)

Fixpoint lit (s : string) : list item :=
  match s with
  | EmptyString => []
  | String c s' => Chr c :: lit s'
  end.

(** One or more characters of the class, as many as let [k] match the rest;
    [k] is given what has been matched, after [acc]. *)
Fixpoint many {R} (cls : ascii → bool) (k : string → string → option R)
    (acc s : string) : option R :=
  match s with
  | EmptyString => None
  | String c s' =>
      if cls c then
        let acc' := acc +:+ String c "" in
        match many cls k acc' s' with
        | Some r => Some r
        | None => k acc' s'
        end
      else None
  end.

(** The captures of a match of the items at the start of [s], in order. *)
Fixpoint match_here (items : list item) (s : string) : option (list string) :=
  match items with
  | [] => Some []
  | Chr c :: rest =>
      match s with
      | String c' s' => if Ascii.eqb c c' then match_here rest s' else None
      | EmptyString => None
      end
  | Plus cls :: rest => many cls (λ _ s', match_here rest s') "" s
  | CapPlus cls :: rest =>
      many cls (λ cap s', cons cap <$> match_here rest s') "" s
  | CapOpt cls :: rest =>
      let skip := cons "" <$> match_here rest s in
      match s with
      | String c s' =>
          if cls c then
            match match_here rest s' with
            | Some l => Some (String c "" :: l)
            | None => skip
            end
          else skip
      | EmptyString => skip
      end
  end.

(** [re.FindStringSubmatch(s)] without its first element, the whole match. *)
Fixpoint FindStringSubmatch (items : list item) (s : string) : option (list string) :=
  match match_here items s with
  | Some l => Some l
  | None => match s with
            | EmptyString => None
            | String _ s' => FindStringSubmatch items s'
            end
  end.

(** * Lemmas *)

Lemma FindStringSubmatch_here items s l :
  match_here items s = Some l → FindStringSubmatch items s = Some l.
Proof. intros H. destruct s; simpl; by rewrite H. Qed.

Lemma match_here_lit t items s : match_here (lit t ++ items) (t +:+ s) = match_here items s.
Proof. induction t as [|c t IH]; [done|]. simpl. by rewrite Ascii.eqb_refl. Qed.

(** A repetition takes a maximal run of its class when the rest matches after it. *)
Lemma many_run {R} cls (k : string → string → option R) acc s c t r :
  s ≠ "" → all_chars cls s = true → cls c = false →
  k (acc +:+ s) (String c t) = Some r → many cls k acc (s +:+ String c t) = Some r.
Proof.
  intros Hs Hall Hc. revert acc. induction s as [|c' s IH]; [done|]. clear Hs.
  simpl in Hall. apply andb_true_iff in Hall as [Hc' Hall]. intros acc Hk.
  change (many cls k acc (String c' (s +:+ String c t)) = Some r).
  cbn [many]. rewrite Hc'. destruct s as [|c'' s].
  - change ("" +:+ String c t) with (String c t). cbn [many]. rewrite Hc. exact Hk.
  - rewrite IH; [done|done|done|]. by rewrite string_app_assoc.
Qed.

Lemma match_here_Plus cls items s c t l :
  s ≠ "" → all_chars cls s = true → cls c = false →
  match_here items (String c t) = Some l →
  match_here (Plus cls :: items) (s +:+ String c t) = Some l.
Proof. intros. by apply many_run. Qed.

Lemma match_here_CapPlus cls items s c t l :
  s ≠ "" → all_chars cls s = true → cls c = false →
  match_here items (String c t) = Some l →
  match_here (CapPlus cls :: items) (s +:+ String c t) = Some (s :: l).
Proof.
  intros Hs Hall Hc H. apply many_run; [done..|].
  change (cons s <$> match_here items (String c t) = Some (s :: l)). by rewrite H.
Qed.

Lemma match_here_CapOpt_take cls items c t l :
  cls c = true → match_here items t = Some l →
  match_here (CapOpt cls :: items) (String c t) = Some (String c "" :: l).
Proof. intros Hc H. simpl. by rewrite Hc, H. Qed.

Lemma match_here_CapOpt_skip cls items c t l :
  cls c = false → match_here items (String c t) = Some l →
  match_here (CapOpt cls :: items) (String c t) = Some ("" :: l).
Proof. intros Hc H. cbn [match_here]. by rewrite Hc, H. Qed.
