(* ===== verification/BandwidthManager.v ===== *)
(** linux_backend/bandwidth_manager/bandwidth_manager.go *)
From S2P Require Import Prelude GoStd OS Warden Regexp.
From Stdlib Require Import Ascii.

Local Open Scope string_scope.
Local Open Scope list_scope.
Local Open Scope Z_scope.

Record ContainerBandwidthManager := mkBandwidthManager {
  containerPath : string;
  containerID : string
}.

Definition New (containerPath containerID : string) : ContainerBandwidthManager :=
  mkBandwidthManager containerPath containerID.

Definition is_hex (c : ascii) : bool :=
  is_digit c || existsb (Ascii.eqb c) ["a"; "b"; "c"; "d"; "e"; "f"]%char.

Definition is_unit (c : ascii) : bool := existsb (Ascii.eqb c) ["K"; "M"; "G"]%char.

(** [rate (\d+)([KMG]?)bit burst (\d+)([KMG]?)b], the tail of both patterns *)
Definition rate_burst : list item :=
  lit " rate " ++ [CapPlus is_digit; CapOpt is_unit] ++
  lit "bit burst " ++ [CapPlus is_digit; CapOpt is_unit] ++ lit "b".

Definition IN_RATE_PATTERN : list item :=
  lit "qdisc tbf " ++ [Plus is_hex] ++ lit ": root refcnt " ++ [Plus is_digit] ++ rate_burst.

Definition OUT_RATE_PATTERN : list item :=
  lit "police 0x" ++ [Plus is_hex] ++ rate_burst.

(** [1024 ^ 2] and [1024 ^ 3] of the source: [^] is exclusive or in Go. *)
Definition convertUnits (num : Z) (unit : string) : Z :=
  if String.eqb unit "K" then u64 (num * 1024)
  else if String.eqb unit "M" then u64 (num * Z.lxor 1024 2)
  else if String.eqb unit "G" then u64 (num * Z.lxor 1024 3)
  else num.

(** The rate and the burst a pattern finds; [None] when it does not match. *)
Definition find_rates (pattern : list item) (out : string) : Result (option (Z * Z)) :=
  match FindStringSubmatch pattern out with
  | Some [rate; rateUnit; burst; burstUnit] =>
      match ParseUint rate with
      | Ok r =>
          match ParseUint burst with
          | Ok b => Ok (Some (convertUnits r rateUnit / 8, convertUnits b burstUnit))
          | Err e => Err e
          | Crash c => Crash c
          end
      | Err e => Err e
      | Crash c => Crash c
      end
  | _ => Ok None
  end.

Section bandwidth.
Context {K : Kernel}.

Definition SetLimits (m : ContainerBandwidthManager) (limits : BandwidthLimits) : M Trace unit :=
  Run (cmd (path_Join [containerPath m; "net_rate.sh"]) []
        ["BURST=" +:+ fmt_d (BurstRateInBytesPerSecond limits);
         "RATE=" +:+ fmt_d (u64 (RateInBytesPerSecond limits * 8))]).

Definition net_sh (m : ContainerBandwidthManager) (what : string) : Cmd :=
  cmd (path_Join [containerPath m; "net.sh"]) [what] ["ID=" +:+ containerID m].

Definition GetLimits (m : ContainerBandwidthManager) : M Trace ContainerBandwidthStat :=
  egressOut ← RunOutput (net_sh m "get_egress_info");
  inRates ← of_result (find_rates IN_RATE_PATTERN egressOut);
  ingressOut ← RunOutput (net_sh m "get_ingress_info");
  outRates ← of_result (find_rates OUT_RATE_PATTERN ingressOut);
  let '(inRate, inBurst) := default (0, 0) inRates in
  let '(outRate, outBurst) := default (0, 0) outRates in
  mret (mkBandwidthStat inRate inBurst outRate outBurst).
End bandwidth.

(** The text [tc] prints for a rate and a burst with their units, and what
    follows it. *)
Definition rates_text (r : Z) (ru : string) (b : Z) (bu rest : string) : string :=
  " rate " +:+ fmt_d r +:+ ru +:+ "bit burst " +:+ fmt_d b +:+ bu +:+ "b" +:+ rest.

Definition egress_text (handle : string) (refcnt : Z) (rates : string) : string :=
  "qdisc tbf " +:+ handle +:+ ": root refcnt " +:+ fmt_d refcnt +:+ rates.

Definition ingress_text (police : string) (rates : string) : string :=
  "police 0x" +:+ police +:+ rates.

Definition is_unit_text (u : string) : Prop := u ∈ [""; "K"; "M"; "G"].

(** * Lemmas *)

Lemma match_number_unit items n u c t l :
  0 ≤ n → is_unit_text u → is_digit c = false → is_unit c = false →
  match_here items (String c t) = Some l →
  match_here (CapPlus is_digit :: CapOpt is_unit :: items) (fmt_d n +:+ u +:+ String c t) =
    Some (fmt_d n :: u :: l).
Proof.
  intros Hn Hu Hd Hc H.
  assert (Hgo : ∀ c' t', is_digit c' = false →
            match_here (CapOpt is_unit :: items) (String c' t') = Some (u :: l) →
            match_here (CapPlus is_digit :: CapOpt is_unit :: items)
              (fmt_d n +:+ String c' t') = Some (fmt_d n :: u :: l)).
  { intros c' t' Hc' Hm. apply match_here_CapPlus; [by apply fmt_d_nonempty|by apply fmt_d_digits|done..]. }
  unfold is_unit_text in Hu. rewrite !elem_of_cons in Hu.
  destruct Hu as [->|[->|[->|[->|[]%elem_of_nil]]]].
  - apply Hgo; [done|]. by apply match_here_CapOpt_skip.
  - apply Hgo; [done|]. by apply match_here_CapOpt_take.
  - apply Hgo; [done|]. by apply match_here_CapOpt_take.
  - apply Hgo; [done|]. by apply match_here_CapOpt_take.
Qed.

Lemma match_rate_burst r ru b bu rest :
  0 ≤ r → 0 ≤ b → is_unit_text ru → is_unit_text bu →
  match_here rate_burst (rates_text r ru b bu rest) = Some [fmt_d r; ru; fmt_d b; bu].
Proof.
  intros Hr Hb Hru Hbu. unfold rate_burst, rates_text. rewrite match_here_lit.
  change ("bit burst " +:+ fmt_d b +:+ bu +:+ "b" +:+ rest)
    with (String "b" ("it burst " +:+ fmt_d b +:+ bu +:+ "b" +:+ rest)).
  apply match_number_unit; [done..|].
  change (String "b" ("it burst " +:+ fmt_d b +:+ bu +:+ "b" +:+ rest))
    with ("bit burst " +:+ fmt_d b +:+ bu +:+ "b" +:+ rest).
  change (lit "bit burst " ++ [CapPlus is_digit; CapOpt is_unit] ++ lit "b")
    with (lit "bit burst " ++ (CapPlus is_digit :: CapOpt is_unit :: lit "b")).
  rewrite match_here_lit. by apply match_number_unit.
Qed.

Section rates.
Context (r b : Z) (ru bu rest : string).
Context (Hr : is_u64 r) (Hb : is_u64 b) (Hru : is_unit_text ru) (Hbu : is_unit_text bu).

Lemma find_rates_captures pattern out :
  match_here pattern out = Some [fmt_d r; ru; fmt_d b; bu] →
  find_rates pattern out = Ok (Some (convertUnits r ru / 8, convertUnits b bu)).
Proof using Hr Hb.
  intros H. unfold find_rates. rewrite (FindStringSubmatch_here _ _ _ H).
  by rewrite !ParseUint_fmt_d.
Qed.

Lemma find_rates_egress handle refcnt :
  handle ≠ "" → all_chars is_hex handle = true → 0 ≤ refcnt →
  find_rates IN_RATE_PATTERN (egress_text handle refcnt (rates_text r ru b bu rest)) =
    Ok (Some (convertUnits r ru / 8, convertUnits b bu)).
Proof using Hr Hb Hru Hbu.
  intros Hne Hhex Hn. apply find_rates_captures.
  unfold IN_RATE_PATTERN, egress_text. rewrite match_here_lit.
  change (": root refcnt " +:+ fmt_d refcnt +:+ rates_text r ru b bu rest)
    with (String ":" (" root refcnt " +:+ fmt_d refcnt +:+ rates_text r ru b bu rest)).
  apply match_here_Plus; [done..|].
  change (match_here (lit ": root refcnt " ++ [Plus is_digit] ++ rate_burst)
            (": root refcnt " +:+ fmt_d refcnt +:+ rates_text r ru b bu rest) =
          Some [fmt_d r; ru; fmt_d b; bu]).
  rewrite match_here_lit. unfold is_u64 in *.
  apply (match_here_Plus is_digit rate_burst (fmt_d refcnt) " "
           ("rate " +:+ fmt_d r +:+ ru +:+ "bit burst " +:+ fmt_d b +:+ bu +:+ "b" +:+ rest));
    [by apply fmt_d_nonempty|by apply fmt_d_digits|done|].
  apply (match_rate_burst r ru b bu rest); lia || done.
Qed.

Lemma find_rates_ingress police :
  police ≠ "" → all_chars is_hex police = true →
  find_rates OUT_RATE_PATTERN (ingress_text police (rates_text r ru b bu rest)) =
    Ok (Some (convertUnits r ru / 8, convertUnits b bu)).
Proof using Hr Hb Hru Hbu.
  intros Hne Hhex. apply find_rates_captures.
  unfold OUT_RATE_PATTERN, ingress_text. rewrite match_here_lit. unfold is_u64 in *.
  apply (match_here_Plus is_hex rate_burst police " "
           ("rate " +:+ fmt_d r +:+ ru +:+ "bit burst " +:+ fmt_d b +:+ bu +:+ "b" +:+ rest));
    [done..|].
  apply (match_rate_burst r ru b bu rest); lia || done.
Qed.
End rates.

Lemma RunOutput_ok `{Kernel} c h :
  sys_error h (SRun c) = None → RunOutput c h = (Ok (sys_output h (SRun c)), h ++ [SRun c]).
Proof. intros H0. unfold RunOutput, sys. by rewrite H0. Qed.

(** [GetLimits] on what the two scripts print. *)
Lemma GetLimits_eq `{Kernel} m h i o :
  let h' := h ++ [SRun (net_sh m "get_egress_info")] in
  sys_error h (SRun (net_sh m "get_egress_info")) = None →
  sys_error h' (SRun (net_sh m "get_ingress_info")) = None →
  find_rates IN_RATE_PATTERN (sys_output h (SRun (net_sh m "get_egress_info"))) = Ok (Some i) →
  find_rates OUT_RATE_PATTERN (sys_output h' (SRun (net_sh m "get_ingress_info"))) = Ok (Some o) →
  GetLimits m h =
    (Ok (mkBandwidthStat i.1 i.2 o.1 o.2), h' ++ [SRun (net_sh m "get_ingress_info")]).
Proof.
  intros h' He1 He2 Hi Ho. subst h'. unfold GetLimits.
  erewrite bind_Ok by (by apply RunOutput_ok).
  unfold of_result at 1. erewrite bind_Ok by (rewrite Hi; done).
  erewrite bind_Ok by (by apply RunOutput_ok).
  erewrite bind_Ok by (unfold of_result; rewrite Ho; done).
  by destruct i, o.
Qed.

(** A kernel whose [net.sh] prints the given rates. *)
Definition tc_kernel (egress ingress : string) : Kernel := {|
  sys_error _ _ := None;
  sys_output h c := match c with
                    | SRun c' => if decide (Args c' = ["get_egress_info"]) then egress
                                 else if decide (Args c' = ["get_ingress_info"]) then ingress
                                 else ""
                    | _ => ""
                    end;
  sys_entries _ _ := [];
  getenv _ := "";
  environ := []
|}.

(** ** Properties *)

(** Limits are read back as they were set. [SetLimits] passes the rate in bits
    per second (eight times the byte rate, no overflow below 2^61 bytes/s); when
    [tc] reports that rate and burst in plain units on both qdiscs, [GetLimits]
    returns the byte rate and the burst that were set. *)
Theorem bandwidth_roundtrip `{K : Kernel} m limits h handle refcnt police rest rest' :
  let rate := RateInBytesPerSecond limits in
  let burst := BurstRateInBytesPerSecond limits in
  let eg := SRun (net_sh m "get_egress_info") in
  let ing := SRun (net_sh m "get_ingress_info") in
  is_u64 rate → is_u64 burst → rate * 8 < 2 ^ 64 →
  handle ≠ "" → all_chars is_hex handle = true → 0 ≤ refcnt →
  police ≠ "" → all_chars is_hex police = true →
  let h1 := (SetLimits m limits h).2 in
  sys_error h1 eg = None → sys_error (h1 ++ [eg]) ing = None →
  sys_output h1 eg = egress_text handle refcnt (rates_text (rate * 8) "" burst "" rest) →
  sys_output (h1 ++ [eg]) ing = ingress_text police (rates_text (rate * 8) "" burst "" rest') →
  h1 = h ++ [SRun (cmd (path_Join [containerPath m; "net_rate.sh"]) []
                    ["BURST=" +:+ fmt_d burst; "RATE=" +:+ fmt_d (rate * 8)])] ∧
  GetLimits m h1 = (Ok (mkBandwidthStat rate burst rate burst), h1 ++ [eg; ing]).
Proof.
  intros rate burst eg ing Hr Hb Hr8 Hh Hhx Hn Hp Hpx h1 He1 He2 Ho1 Ho2.
  unfold is_u64 in Hr, Hb. split.
  - subst h1. unfold SetLimits, Run. rewrite sys__trace. fold rate burst.
    by rewrite (u64_small (rate * 8)) by (unfold is_u64; lia).
  - assert (Hi : find_rates IN_RATE_PATTERN (sys_output h1 eg) = Ok (Some (rate * 8 / 8, burst))).
    { rewrite Ho1.
      rewrite (find_rates_egress (rate * 8) burst "" "") by (unfold is_u64 in *; done || lia || by left).
      done. }
    assert (Ho : find_rates OUT_RATE_PATTERN (sys_output (h1 ++ [eg]) ing) =
                   Ok (Some (rate * 8 / 8, burst))).
    { rewrite Ho2.
      rewrite (find_rates_ingress (rate * 8) burst "" "") by (unfold is_u64 in *; done || lia || by left).
      done. }
    rewrite (GetLimits_eq m h1 _ _ He1 He2 Hi Ho). cbn [fst snd].
    rewrite Z.div_mul by lia. by rewrite <-app_assoc.
Qed.

(** Rates that [tc] reports in mega- or gigabits are misread: the source writes
    [1024 ^ 2] and [1024 ^ 3], which in Go are 1026 and 1027, so the result differs
    from the number of bits for every positive rate that fits; kilobits are read
    correctly. *)
Theorem convertUnits_mega_giga n :
  0 < n → n * 2 ^ 30 < 2 ^ 64 →
  convertUnits n "K" = n * 2 ^ 10 ∧
  convertUnits n "M" = n * 1026 ∧ convertUnits n "M" ≠ n * 2 ^ 20 ∧
  convertUnits n "G" = n * 1027 ∧ convertUnits n "G" ≠ n * 2 ^ 30.
Proof.
  intros H0 Hn. unfold convertUnits. cbn [String.eqb Ascii.eqb Bool.eqb].
  change (Z.lxor 1024 2) with 1026. change (Z.lxor 1024 3) with 1027.
  rewrite !u64_small by (unfold is_u64; lia). lia.
Qed.

(** ** Witnesses *)

Lemma bandwidth_roundtrip_witness :
  let K := tc_kernel (egress_text "8010" 2 (rates_text 8192 "" 65536 "" " lat 24.4ms"))
             (ingress_text "10" (rates_text 8192 "" 65536 "" " mtu 2Kb")) in
  let m := New "/depot/some-id" "some-id" in
  (GetLimits (K := K) m (SetLimits (K := K) m (mkBandwidthLimits 1024 65536) []).2).1 =
    Ok (mkBandwidthStat 1024 65536 1024 65536).
Proof.
  intros K m.
  rewrite (proj2 (bandwidth_roundtrip (K := K) m (mkBandwidthLimits 1024 65536) [] "8010" 2 "10"
             " lat 24.4ms" " mtu 2Kb" ltac:(split; [discriminate|reflexivity])
             ltac:(split; [discriminate|reflexivity]) ltac:(reflexivity) ltac:(discriminate)
             ltac:(reflexivity) ltac:(discriminate) ltac:(discriminate) ltac:(reflexivity)
             ltac:(reflexivity) ltac:(reflexivity) ltac:(reflexivity) ltac:(reflexivity))).
  reflexivity.
Defined.

Lemma convertUnits_mega_giga_witness :
  convertUnits 10 "K" = 10 * 2 ^ 10 ∧
  convertUnits 10 "M" = 10 * 1026 ∧ convertUnits 10 "M" ≠ 10 * 2 ^ 20 ∧
  convertUnits 10 "G" = 10 * 1027 ∧ convertUnits 10 "G" ≠ 10 * 2 ^ 30.
Proof. apply convertUnits_mega_giga; reflexivity. Defined.
