(* ===== verification/CgroupsManager.v ===== *)
(** linux_backend/cgroups_manager/container_cgroups_manager.go *)
From S2P Require Import Prelude GoStd OS.

Local Open Scope string_scope.
Local Open Scope list_scope.

Record ContainerCgroupsManager := mkCgroupsManager {
  cgroupsPath : string;
  containerID : string
}.

Definition New (cgroupsPath containerID : string) : ContainerCgroupsManager :=
  mkCgroupsManager cgroupsPath containerID.

Definition SubsystemPath (m : ContainerCgroupsManager) (subsystem : string) : string :=
  path_Join [cgroupsPath m; subsystem; "instance-" +:+ containerID m].

Definition file_path (m : ContainerCgroupsManager) (subsystem name : string) : string :=
  path_Join [SubsystemPath m subsystem; name].

Section cgroups.
Context {K : Kernel}.

Definition Set_ (m : ContainerCgroupsManager) (subsystem name value : string) : M Trace unit :=
  WriteFile (file_path m subsystem name) value.

Definition Get (m : ContainerCgroupsManager) (subsystem name : string) : M Trace string :=
  body ← ReadFile (file_path m subsystem name);
  mret (Trim body newline).

(** * Lemmas *)

Lemma Get_reads m subsystem name h text :
  sys_error h (SReadFile (file_path m subsystem name)) = None →
  sys_output h (SReadFile (file_path m subsystem name)) = text →
  Get m subsystem name h =
    (Ok (Trim text newline), h ++ [SReadFile (file_path m subsystem name)]).
Proof. intros He Ho. unfold Get, ReadFile, mbind, M_bind, sys. by rewrite He, Ho. Qed.

Lemma Get_after_write m subsystem name h value :
  PlainFile (file_path m subsystem name) →
  last_write (file_path m subsystem name) h = Some value →
  (Get m subsystem name h).1 = Ok (Trim value newline).
Proof. intros HP H. destruct (HP _ _ H) as [He Ho]. by erewrite Get_reads. Qed.
End cgroups.
