(* ===== verification/QuotaManager.v ===== *)
(** linux_backend/quota_manager/quota_manager.go *)
From S2P Require Import Prelude GoStd OS Warden.
From Stdlib Require Import Ascii.

Local Open Scope string_scope.
Local Open Scope list_scope.
Local Open Scope Z_scope.

(** * Scanning the output of a running command

    [fmt.Fscanf(r, "%d %d ... %d", ...)] on the read end of a pipe whose write
    end this process still holds open: running out of data blocks. *)

Definition scan_error (msg : string) : error := mkError "*errors.errorString" msg.

(** Blanks in front of a verb; a newline must match the format and does not. *)
Fixpoint skip_space (s : string) : Result string :=
  match s with
  | EmptyString => Crash Blocked
  | String c s' =>
      if Ascii.eqb c newline then Err (scan_error "unexpected newline")
      else if is_space c then skip_space s' else Ok s
  end.

(** The digits at the start of [s] and what follows; [None] when [s] ends first. *)
Fixpoint take_digits (s : string) : option (string * string) :=
  match s with
  | EmptyString => None
  | String c s' =>
      if is_digit c then
        match take_digits s' with
        | Some (tok, rest) => Some (String c tok, rest)
        | None => None
        end
      else Some ("", s)
  end.

(** [%d] into an unsigned integer of [bits] bits *)
Definition scan_uint (bits : Z) (s : string) : Result (Z * string) :=
  s' ← skip_space s;
  match take_digits s' with
  | None => Crash Blocked
  | Some (tok, rest) =>
      if String.eqb tok "" then Err (scan_error "expected integer")
      else v ← ParseUint tok;
           if 2 ^ bits <=? v
           then Err (scan_error ("unsigned integer overflow on token " +:+ tok))
           else Ok (v, rest)
  end.

(** A blank of the format *)
Definition expect_space (s : string) : Result string :=
  match s with
  | EmptyString => Crash Blocked
  | String c s' =>
      if is_space c && negb (Ascii.eqb c newline) then Ok s'
      else Err (scan_error "expected space in input to match format")
  end.

(** The operands' widths in [bits] *)
Fixpoint Fscanf_ints (bits : list Z) (s : string) : Result (list Z) :=
  match bits with
  | [] => Ok []
  | b :: bits' =>
      '(v, rest) ← scan_uint b s;
      match bits' with
      | [] => Ok [v]
      | _ => rest' ← expect_space rest; l ← Fscanf_ints bits' rest'; Ok (v :: l)
      end
  end.

(** * The manager *)

Record LinuxQuotaManager := mkQuotaManager {
  enabled : bool;
  binPath : string;
  mountPoint : string
}.

Definition QUOTA_BLOCK_SIZE : Z := 1024.

Definition Disable (m : LinuxQuotaManager) : LinuxQuotaManager :=
  mkQuotaManager false (binPath m) (mountPoint m).

Definition MountPoint (m : LinuxQuotaManager) : string := mountPoint m.
Definition IsEnabled (m : LinuxQuotaManager) : bool := enabled m.

(** [(bytes + QUOTA_BLOCK_SIZE - 1) / QUOTA_BLOCK_SIZE] on [uint64] *)
Definition blocks_of (bytes : Z) : Z :=
  u64 (bytes + QUOTA_BLOCK_SIZE - 1) / QUOTA_BLOCK_SIZE.

(** The block limits [SetLimits] passes on: byte limits take precedence. *)
Definition block_soft (l : DiskLimits) : Z :=
  if ByteSoft l =? 0 then BlockSoft l else blocks_of (ByteSoft l).
Definition block_hard (l : DiskLimits) : Z :=
  if ByteHard l =? 0 then BlockHard l else blocks_of (ByteHard l).

(** The last word of [df -P]'s output *)
Definition df_mount_point (out : string) : string :=
  Trim (default "" (last (Split out " "))) newline.

Section quota.
Context {K : Kernel}.

Definition New (containerDepotPath binPath : string) : M Trace LinuxQuotaManager :=
  dfOut ← RunOutput (cmd "df" ["-P"; containerDepotPath] []);
  mret (mkQuotaManager true binPath (df_mount_point dfOut)).

Definition setquota (m : LinuxQuotaManager) (uid : Z) (limits : DiskLimits) : Cmd :=
  cmd "setquota"
    ["-u"; fmt_d uid; fmt_d (block_soft limits); fmt_d (block_hard limits);
     fmt_d (InodeSoft limits); fmt_d (InodeHard limits); mountPoint m] [].

Definition SetLimits (m : LinuxQuotaManager) (uid : Z) (limits : DiskLimits) : M Trace unit :=
  if negb (enabled m) then mret tt else Run (setquota m uid limits).

Definition repquota (m : LinuxQuotaManager) (uid : Z) : Cmd :=
  cmd (path_Join [binPath m; "repquota"]) [mountPoint m; fmt_d uid] [].

(** Start [repquota], scan its line, wait for it ([defer m.runner.Wait]). *)
Definition scan_repquota (m : LinuxQuotaManager) (uid : Z) (bits : list Z) : M Trace (list Z) :=
  sys_ SPipe ≫= λ _,
  out ← sys (SStart (repquota m uid));
  r ← attempt (of_result (Fscanf_ints bits out));
  ignore_err (Wait (repquota m uid)) ≫= λ _,
  match r with
  | inl l => mret l
  | inr e => raise e
  end.

(** The variable [skip] is a [uint32]; the others are [uint64]. *)
Definition limits_widths : list Z := [32; 32; 64; 64; 32; 32; 64; 64].
Definition usage_widths : list Z := [32; 64; 32; 32; 32; 64; 32; 32].

Definition GetLimits (m : LinuxQuotaManager) (uid : Z) : M Trace DiskLimits :=
  if negb (enabled m) then mret (mkDiskLimits 0 0 0 0 0 0)
  else l ← scan_repquota m uid limits_widths;
       match l with
       | [_; _; blockSoft; blockHard; _; _; inodeSoft; inodeHard] =>
           mret (mkDiskLimits blockSoft blockHard inodeSoft inodeHard 0 0)
       | _ => mret (mkDiskLimits 0 0 0 0 0 0)
       end.

Definition GetUsage (m : LinuxQuotaManager) (uid : Z) : M Trace ContainerDiskStat :=
  if negb (enabled m) then mret (mkDiskStat 0 0)
  else l ← scan_repquota m uid usage_widths;
       match l with
       | [_; bytesUsed; _; _; _; inodesUsed; _; _] => mret (mkDiskStat bytesUsed inodesUsed)
       | _ => mret (mkDiskStat 0 0)
       end.
End quota.

(** One line of [repquota]: the fields separated by blanks, ended by a newline. *)
Definition repquota_line (fields : list Z) : string := Join (map fmt_d fields) " " +:+ nl.

(** The field fits the operand it is scanned into. *)
Definition fits (field : Z) (bits : Z) : Prop := 0 ≤ field < 2 ^ bits.

(** * Lemmas *)

Lemma take_digits_run s c t :
  all_chars is_digit s = true → is_digit c = false →
  take_digits (s +:+ String c t) = Some (s, String c t).
Proof.
  intros Hs Hc. induction s as [|c' s IH]; simpl in *; [by rewrite Hc|].
  apply andb_true_iff in Hs as [Hc' Hs]. by rewrite Hc', (IH Hs).
Qed.

Lemma is_digit_not_space c : is_digit c = true → is_space c = false ∧ Ascii.eqb c newline = false.
Proof.
  intros H. destruct (Ascii.eqb_spec c newline) as [->|]; [done|]. split; [|done].
  unfold is_space. cbn. repeat match goal with
    |- context [Ascii.eqb c ?d] => destruct (Ascii.eqb_spec c d) as [->|]; [done|]
  end. done.
Qed.

(** Scanning a printed number that is followed by something else. *)
Lemma scan_uint_fmt bits v c t :
  0 ≤ v < 2 ^ 64 → is_digit c = false →
  scan_uint bits (fmt_d v +:+ String c t) =
    if 2 ^ bits <=? v
    then Err (scan_error ("unsigned integer overflow on token " +:+ fmt_d v))
    else Ok (v, String c t).
Proof.
  intros Hv Hc. pose proof (fmt_d_digits v ltac:(lia)) as Hd.
  pose proof (ParseUint_fmt_d v Hv) as Hp. unfold scan_uint.
  assert (Hs : skip_space (fmt_d v +:+ String c t) = Ok (fmt_d v +:+ String c t)).
  { destruct (fmt_d v) as [|c' s]; [done|]. simpl in Hd. apply andb_true_iff in Hd as [Hc' _].
    destruct (is_digit_not_space c' Hc') as [Hsp Hnl]. simpl. by rewrite Hnl, Hsp. }
  unfold mbind, Result_bind. rewrite Hs, take_digits_run by done.
  destruct (String.eqb_spec (fmt_d v) "") as [He|_]; [by rewrite He in Hp|].
  by rewrite Hp.
Qed.

(** A well-formed line is read back field by field. *)
Lemma Fscanf_ints_line bits fields t :
  Forall2 fits fields bits → Forall (λ b, b ≤ 64) bits →
  Fscanf_ints bits (Join (map fmt_d fields) " " +:+ nl +:+ t) = Ok fields.
Proof.
  intros H. induction H as [|v b fields bits Hv H IH]; [done|].
  intros [Hb Hbits]%Forall_cons_1. unfold fits in Hv.
  assert (Hv64 : 0 ≤ v < 2 ^ 64).
  { split; [lia|]. eapply Z.lt_le_trans; [apply Hv|]. apply Z.pow_le_mono_r; lia. }
  cbn [Fscanf_ints]. destruct H as [|v' b' fields bits Hv' H].
  - change (Join (map fmt_d [v]) " " +:+ nl +:+ t) with (fmt_d v +:+ String newline t).
    unfold mbind at 1, Result_bind at 1. rewrite scan_uint_fmt by done.
    by rewrite (proj2 (Z.leb_gt (2 ^ b) v)) by lia.
  - change (Join (map fmt_d (v :: v' :: fields)) " ")
      with (fmt_d v +:+ String " " (Join (map fmt_d (v' :: fields)) " ")).
    rewrite string_app_assoc.
    change (String " " (Join (map fmt_d (v' :: fields)) " ") +:+ nl +:+ t)
      with (String " " (Join (map fmt_d (v' :: fields)) " " +:+ nl +:+ t)).
    specialize (IH Hbits). revert IH.
    generalize (Join (map fmt_d (v' :: fields)) " " +:+ nl +:+ t). intros X IH.
    unfold mbind, Result_bind. rewrite scan_uint_fmt by done.
    rewrite (proj2 (Z.leb_gt (2 ^ b) v)) by lia.
    change (expect_space (String " " X)) with (@Ok string X). cbv beta iota.
    by rewrite IH.
Qed.

Lemma scan_repquota_eq `{K : Kernel} m uid bits h :
  let st := SStart (repquota m uid) in
  sys_error h SPipe = None → sys_error (h ++ [SPipe]) st = None →
  scan_repquota m uid bits h =
    match Fscanf_ints bits (sys_output (h ++ [SPipe]) st) with
    | Ok l => (Ok l, h ++ [SPipe; st; SWait (repquota m uid)])
    | Err e => (Err e, h ++ [SPipe; st; SWait (repquota m uid)])
    | Crash c => (Crash c, h ++ [SPipe; st])
    end.
Proof.
  intros st Hp Hs. unfold scan_repquota. rewrite (bind_Ok _ _ _ _ _ (sys__ok _ _ Hp)).
  assert (Hst : sys st (h ++ [SPipe]) = (Ok (sys_output (h ++ [SPipe]) st), (h ++ [SPipe]) ++ [st])).
  { unfold sys. by rewrite Hs. }
  rewrite (bind_Ok _ _ _ _ _ Hst).
  unfold attempt, of_result, ignore_err, Wait, sys_, sys, mbind, M_bind. cbn.
  destruct (Fscanf_ints _ _); cbn; try (by rewrite <-app_assoc);
    unfold attempt; destruct (sys_error ((h ++ [SPipe]) ++ [st]) _); cbn; by rewrite <-!app_assoc.
Qed.

(** A field too wide for its operand stops the scan. *)
Lemma Fscanf_ints_overflow bits bits' v b fields vs :
  Forall2 fits fields bits → Forall (λ b, b ≤ 64) bits →
  2 ^ b ≤ v < 2 ^ 64 → 0 ≤ b →
  Fscanf_ints (bits ++ b :: bits') (Join (map fmt_d (fields ++ v :: vs)) " " +:+ nl) =
    Err (scan_error ("unsigned integer overflow on token " +:+ fmt_d v)).
Proof.
  intros H Hb64 Hv Hb. pose proof (Z.pow_nonneg 2 b ltac:(lia)) as Hp.
  induction H as [|v1 b1 fields bits Hv1 H IH].
  - assert (Hscan : ∃ c t, Join (map fmt_d (v :: vs)) " " +:+ nl = fmt_d v +:+ String c t ∧ is_digit c = false).
    { destruct vs as [|v' vs]; [by exists newline, ""|].
      exists " "%char, (Join (map fmt_d (v' :: vs)) " " +:+ nl).
      change (Join (map fmt_d (v :: v' :: vs)) " ")
        with (fmt_d v +:+ String " " (Join (map fmt_d (v' :: vs)) " ")).
      by rewrite string_app_assoc. }
    destruct Hscan as (c & t & E & Hc). cbn [app Fscanf_ints]. rewrite E.
    unfold mbind, Result_bind. rewrite scan_uint_fmt by (lia || done).
    by rewrite (proj2 (Z.leb_le (2 ^ b) v)) by lia.
  - apply Forall_cons_1 in Hb64 as [Hb1 Hbits]. unfold fits in Hv1.
    assert (Hv64 : 0 ≤ v1 < 2 ^ 64).
    { split; [lia|]. eapply Z.lt_le_trans; [apply Hv1|]. apply Z.pow_le_mono_r; lia. }
    specialize (IH Hbits).
    assert (Hne : ∃ x l, map fmt_d (fields ++ v :: vs) = x :: l)
      by (destruct fields as [|f fields]; eexists; eexists; reflexivity).
    destruct Hne as (x & l & Hxl). cbn [app map]. rewrite Hxl in *.
    change (Join (fmt_d v1 :: x :: l) " ") with (fmt_d v1 +:+ String " " (Join (x :: l) " ")).
    rewrite string_app_assoc.
    change (String " " (Join (x :: l) " ") +:+ nl) with (String " " (Join (x :: l) " " +:+ nl)).
    revert IH. generalize (Join (x :: l) " " +:+ nl). intros X IH. cbn [Fscanf_ints].
    unfold mbind, Result_bind. rewrite scan_uint_fmt by done.
    rewrite (proj2 (Z.leb_gt (2 ^ b1) v1)) by lia.
    change (expect_space (String " " X)) with (@Ok string X). cbv beta iota.
    destruct (bits ++ b :: bits') as [|b2 bs] eqn:Eb; [by destruct bits|].
    by rewrite IH.
Qed.

(** ** Properties *)

(** A byte limit is rounded up to whole blocks. *)
Lemma blocks_of_rounds_up bytes :
  0 ≤ bytes → bytes ≤ 2 ^ 64 - QUOTA_BLOCK_SIZE →
  bytes ≤ blocks_of bytes * QUOTA_BLOCK_SIZE < bytes + QUOTA_BLOCK_SIZE.
Proof.
  unfold QUOTA_BLOCK_SIZE, blocks_of. intros H0 H. unfold QUOTA_BLOCK_SIZE.
  rewrite u64_small by (unfold is_u64; lia).
  pose proof (Z.div_mod (bytes + 1024 - 1) 1024 ltac:(lia)).
  pose proof (Z.mod_pos_bound (bytes + 1024 - 1) 1024 ltac:(lia)). lia.
Qed.

(** [blocks] of 1024 bytes are what is asked for: as many as the bytes need, not one more, or,
    when no bytes are asked for, the blocks that are. *)
Definition asked_for (bytes asked blocks : Z) : Prop :=
  if bytes =? 0 then blocks = asked else bytes ≤ blocks * 1024 < bytes + 1024.

(** C37: the disk limits asked for are what [setquota] is told: [SetLimits] runs this one command,
    for the container's uid and the depot's mount point, with the soft and the hard limit in
    whole blocks of 1024 bytes, a limit in bytes (of at most 2^64 - 1024) rounded up and taken
    before one in blocks, then the soft and the hard limit of inodes; it returns the command's
    error. When quotas are disabled it runs nothing. *)
Theorem SetLimits_blocks {K : Kernel} m uid limits h :
  0 ≤ ByteSoft limits ≤ 2 ^ 64 - 1024 → 0 ≤ ByteHard limits ≤ 2 ^ 64 - 1024 →
  if enabled m then
    ∃ soft hard, asked_for (ByteSoft limits) (BlockSoft limits) soft ∧ asked_for (ByteHard limits) (BlockHard limits) hard ∧
      let c := cmd "setquota" ["-u"; fmt_d uid; fmt_d soft; fmt_d hard; fmt_d (InodeSoft limits); fmt_d (InodeHard limits);
                               mountPoint m] [] in
      SetLimits m uid limits h = (match sys_error h (SRun c) with Some e => Err e | None => Ok tt end, h ++ [SRun c])
  else SetLimits m uid limits h = (Ok tt, h).
Proof.
  intros Hs Hh. unfold SetLimits. destruct (enabled m); [|done]. exists (block_soft limits), (block_hard limits).
  unfold asked_for, block_soft, block_hard. split_and!.
  - destruct (Z.eqb_spec (ByteSoft limits) 0); [done|]. apply blocks_of_rounds_up; [|unfold QUOTA_BLOCK_SIZE]; lia.
  - destruct (Z.eqb_spec (ByteHard limits) 0); [done|]. apply blocks_of_rounds_up; [|unfold QUOTA_BLOCK_SIZE]; lia.
  - apply sys__eq.
Qed.

(** Above that bound the rounding wraps around: the limit becomes zero blocks,
    which [setquota] takes as no limit at all. *)
Theorem blocks_of_overflow bytes :
  2 ^ 64 - QUOTA_BLOCK_SIZE < bytes → bytes < 2 ^ 64 → blocks_of bytes = 0.
Proof.
  unfold QUOTA_BLOCK_SIZE, blocks_of. intros H0 H. unfold QUOTA_BLOCK_SIZE, u64.
  replace (bytes + 1024 - 1) with (bytes - 2 ^ 64 + 1023 + 1 * 2 ^ 64) by lia.
  rewrite Z.mod_add by lia. rewrite Z.mod_small by lia. apply Z.div_small. lia.
Qed.

(** [GetLimits] and [GetUsage] return the fields of [repquota]'s line that they
    name, when every other field fits the 32-bit variable it is scanned into, and
    both wait for the command they started. *)
Theorem quota_reads_line `{K : Kernel} m uid h f0 bytes bsoft bhard f4 inodes isoft ihard rest :
  let st := SStart (repquota m uid) in
  let t' := h ++ [SPipe; st; SWait (repquota m uid)] in
  enabled m = true →
  sys_error h SPipe = None → sys_error (h ++ [SPipe]) st = None →
  sys_output (h ++ [SPipe]) st =
    Join (map fmt_d [f0; bytes; bsoft; bhard; f4; inodes; isoft; ihard]) " " +:+ nl +:+ rest →
  Forall is_u32 [f0; bytes; bsoft; bhard; f4; inodes; isoft; ihard] →
  GetLimits m uid h = (Ok (mkDiskLimits bsoft bhard isoft ihard 0 0), t') ∧
  GetUsage m uid h = (Ok (mkDiskStat bytes inodes), t').
Proof.
  intros st t' Hen Hp Hs Ho Hall.
  assert (Hscan : ∀ bits, Forall (λ b, b = 32 ∨ b = 64) bits → length bits = 8%nat →
    scan_repquota m uid bits h = (Ok [f0; bytes; bsoft; bhard; f4; inodes; isoft; ihard], t')).
  { intros bits Hb Hl. rewrite scan_repquota_eq by done. fold st. rewrite Ho.
    rewrite Fscanf_ints_line; [done| |].
    - apply Forall2_same_length_lookup_2; [done|]. intros i x b Hx Hbi. unfold fits.
      pose proof (Forall_lookup_1 _ _ _ _ Hall Hx) as Hx32. unfold is_u32 in Hx32.
      pose proof (Forall_lookup_1 _ _ _ _ Hb Hbi) as [->| ->]; lia.
    - eapply Forall_impl; [exact Hb|]. cbn. lia. }
  assert (Hw : Forall (λ b, b = 32 ∨ b = 64) limits_widths ∧ Forall (λ b, b = 32 ∨ b = 64) usage_widths).
  { split; repeat constructor; lia. }
  destruct Hw as [Hw1 Hw2].
  unfold GetLimits, GetUsage. rewrite Hen. cbn [negb].
  by rewrite (bind_Ok _ _ _ _ _ (Hscan _ Hw1 eq_refl)), (bind_Ok _ _ _ _ _ (Hscan _ Hw2 eq_refl)).
Qed.

(** A container that uses four gigabytes or more has no readable disk limits:
    [GetLimits] scans the bytes used into a 32-bit variable it ignores, and fails
    with an overflow error. *)
Theorem GetLimits_fails_above_4GiB `{K : Kernel} m uid h bytes fields :
  let st := SStart (repquota m uid) in
  enabled m = true → is_u32 uid →
  sys_error h SPipe = None → sys_error (h ++ [SPipe]) st = None →
  sys_output (h ++ [SPipe]) st = Join (map fmt_d (uid :: bytes :: fields)) " " +:+ nl →
  2 ^ 32 ≤ bytes → bytes < 2 ^ 64 →
  GetLimits m uid h =
    (Err (scan_error ("unsigned integer overflow on token " +:+ fmt_d bytes)),
     h ++ [SPipe; st; SWait (repquota m uid)]).
Proof.
  intros st Hen Hu Hp Hs Ho Hb1 Hb2. unfold GetLimits. rewrite Hen. cbn [negb].
  assert (Hscan : scan_repquota m uid limits_widths h =
    (Err (scan_error ("unsigned integer overflow on token " +:+ fmt_d bytes)),
     h ++ [SPipe; st; SWait (repquota m uid)])).
  { rewrite scan_repquota_eq by done. fold st. rewrite Ho.
    pose proof (Fscanf_ints_overflow [32] [64; 64; 32; 32; 64; 64] bytes 32 [uid] fields) as H.
    unfold limits_widths. cbn [app] in H. rewrite H; [done| | |lia|lia].
    - by repeat constructor; apply Hu.
    - by repeat constructor. }
  by rewrite (bind_Err _ _ _ _ _ Hscan).
Qed.

(** When [repquota] prints nothing (it failed), [GetLimits] and [GetUsage] block
    for ever: they hold the write end of the pipe open themselves, so the scan sees
    no end of file, and the command is never waited for. *)
Theorem silent_repquota_blocks `{K : Kernel} m uid h :
  let st := SStart (repquota m uid) in
  enabled m = true →
  sys_error h SPipe = None → sys_error (h ++ [SPipe]) st = None →
  sys_output (h ++ [SPipe]) st = "" →
  GetLimits m uid h = (Crash Blocked, h ++ [SPipe; st]) ∧
  GetUsage m uid h = (Crash Blocked, h ++ [SPipe; st]).
Proof.
  intros st Hen Hp Hs Ho.
  assert (Hscan : ∀ b bits, scan_repquota m uid (b :: bits) h = (Crash Blocked, h ++ [SPipe; st])).
  { intros b bits. rewrite scan_repquota_eq by done. fold st. by rewrite Ho. }
  unfold GetLimits, GetUsage, limits_widths, usage_widths. rewrite Hen. cbn [negb].
  by rewrite !(bind_Crash _ _ _ _ _ (Hscan _ _)).
Qed.

(** ** Witnesses *)

Definition repquota_kernel (line : string) : Kernel := {|
  sys_error _ _ := None;
  sys_output _ c := match c with SStart _ => line | _ => "" end;
  sys_entries _ _ := [];
  getenv _ := "";
  environ := []
|}.

Definition example_manager : LinuxQuotaManager := mkQuotaManager true "/root/path" "/some/mount/point".

Lemma SetLimits_blocks_witness :
  let limits := mkDiskLimits 7 8 9 10 0 102401 in
  ∃ soft hard, soft = 7 ∧ 102401 ≤ hard * 1024 < 102401 + 1024 ∧
    (SetLimits (K := quiet_kernel) example_manager 1234 limits []).2 =
      [SRun (cmd "setquota" ["-u"; "1234"; fmt_d soft; fmt_d hard; "9"; "10"; "/some/mount/point"] [])].
Proof.
  intros limits. pose proof (SetLimits_blocks (K := quiet_kernel) example_manager 1234 limits []) as H.
  destruct H as (soft & hard & Hs & Hh & E); [by vm_compute..|]. exists soft, hard. split_and!; [exact Hs|apply Hh|apply Hh|].
  rewrite E. reflexivity.
Defined.

Lemma blocks_of_overflow_witness : blocks_of 18446744073709551615 = 0.
Proof. apply blocks_of_overflow; reflexivity. Defined.

Lemma quota_reads_line_witness :
  (GetLimits (K := repquota_kernel ("1234 111 222 333 444 555 666 777" +:+ nl +:+ ""))
     example_manager 1234 []).1 = Ok (mkDiskLimits 222 333 666 777 0 0).
Proof.
  rewrite (proj1 (quota_reads_line (K := repquota_kernel
             ("1234 111 222 333 444 555 666 777" +:+ nl +:+ "")) example_manager 1234 []
             1234 111 222 333 444 555 666 777 "" ltac:(reflexivity) ltac:(reflexivity)
             ltac:(reflexivity) ltac:(reflexivity)
             ltac:(repeat constructor; discriminate))).
  reflexivity.
Defined.

Lemma GetLimits_fails_above_4GiB_witness :
  (GetLimits (K := repquota_kernel ("1234 4294967296 0 0 0 1 0 0" +:+ nl)) example_manager 1234 []).1 =
    Err (scan_error "unsigned integer overflow on token 4294967296").
Proof.
  rewrite (GetLimits_fails_above_4GiB (K := repquota_kernel ("1234 4294967296 0 0 0 1 0 0" +:+ nl))
             example_manager 1234 [] 4294967296 [0; 0; 0; 1; 0; 0]);
    [reflexivity|reflexivity|split; [discriminate|reflexivity]|reflexivity|reflexivity|reflexivity
    |discriminate|reflexivity].
Defined.

Lemma silent_repquota_blocks_witness :
  GetUsage (K := repquota_kernel "") example_manager 1234 [] =
    (Crash Blocked, [SPipe; SStart (repquota example_manager 1234)]).
Proof. apply (silent_repquota_blocks (K := repquota_kernel "") example_manager 1234 []); reflexivity. Defined.
