(* ===== verification/Process.v ===== *)
(** linux_backend/process_tracker: process.go, fanin_writer.go and
    fanout_writer.go. A process spawned in a container, the [iodaemon link] that
    relays its streams and its exit status, and the goroutines around them.

    A critical section under a mutex is one step. A mutex that a call returns
    without unlocking is a field of the state ([fw_locked]); a call that needs it
    then is [Crash Blocked]. *)
From S2P Require Import Prelude GoStd OS Ptyutil Warden.

Local Open Scope string_scope.
Local Open Scope list_scope.
Local Open Scope Z_scope.

(** * fanin_writer.go *)

(** [fw_hasSink]: the channel [hasSink] is closed. [fw_out]: what the sink received. *)
Record faninWriter := mkFanin {
  fw_hasSink : bool;
  fw_closed : bool;
  fw_locked : bool;
  fw_out : list string
}.

Definition new_faninWriter : faninWriter := mkFanin false false false [].

(** Returning "write after close" leaves [writeL] locked. *)
Definition fw_Write (data : string) : M faninWriter nat := λ w,
  if negb (fw_hasSink w) || fw_locked w then (Crash Blocked, w)
  else if fw_closed w then
    (Err (errors_New "write after close"), mkFanin true true true (fw_out w))
  else (Ok (String.length data), mkFanin true false false (fw_out w ++ [data])).

(** Returning "closed twice" leaves [writeL] locked. *)
Definition fw_Close : M faninWriter unit := λ w,
  if negb (fw_hasSink w) || fw_locked w then (Crash Blocked, w)
  else if fw_closed w then
    (Err (errors_New "closed twice"), mkFanin true true true (fw_out w))
  else (Ok tt, mkFanin true true false (fw_out w)).

Definition fw_AddSink : M faninWriter unit := λ w,
  if fw_hasSink w then (Crash (Panic "close of closed channel"), w)
  else (Ok tt, mkFanin true (fw_closed w) (fw_locked w) (fw_out w)).

(** * fanout_writer.go *)

(** Each sink is what it has received; [closed] is never set by the program. *)
Record fanoutWriter := mkFanout {
  fo_sinks : list (list string);
  fo_closed : bool;
  fo_locked : bool
}.

Definition new_fanoutWriter : fanoutWriter := mkFanout [] false false.

Definition fo_Write (data : string) : M fanoutWriter nat := λ w,
  if fo_locked w then (Crash Blocked, w)
  else if fo_closed w then
    (Err (errors_New "write after close"), mkFanout (fo_sinks w) true true)
  else (Ok (String.length data), mkFanout (map (λ s, s ++ [data]) (fo_sinks w)) false false).

Definition fo_AddSink : M fanoutWriter unit := λ w,
  if fo_locked w then (Crash Blocked, w)
  else (Ok tt, mkFanout (if fo_closed w then fo_sinks w else fo_sinks w ++ [[]])
                 (fo_closed w) false).

(** * process.go *)

(** Where [runLinker] is. [Exited st]: the link exited with status [st]
    ([None]: no process state); [Closing st]: it has read [unlinked]. *)
Inductive link_phase :=
  | Idle
  | Running
  | Exited (st : option Z)
  | Closing (st : option Z)
  | Returned.

(** [p_linked]: the channel [linked] is closed; [p_unlinked]: the value is still
    in the channel [unlinked]; [p_sources]: [AddSource] goroutines copying;
    [p_links]: goroutines in [Link];
    [p_pty]: the field [pty], its terminal while nobody closes it ([nil]: [None]). *)
Record Process := mkProcess {
  p_id : Z;
  p_withTty : bool;
  p_linked : bool;
  p_unlinked : bool;
  p_phase : link_phase;
  p_exitStatus : Z;
  p_exitErr : option error;
  p_done : bool;
  p_stdin : faninWriter;
  p_stdout : fanoutWriter;
  p_stderr : fanoutWriter;
  p_sources : nat;
  p_links : nat;
  p_pty : option file
}.

Definition NewProcess (id : Z) (withTty : bool) : Process :=
  mkProcess id withTty false true Idle 0 None false
    new_faninWriter new_fanoutWriter new_fanoutWriter 0 0 None.

Definition set_phase (ph : link_phase) (p : Process) : Process :=
  mkProcess (p_id p) (p_withTty p) (p_linked p) (p_unlinked p) ph (p_exitStatus p)
    (p_exitErr p) (p_done p) (p_stdin p) (p_stdout p) (p_stderr p) (p_sources p) (p_links p) (p_pty p).

Definition set_linked (p : Process) : Process :=
  mkProcess (p_id p) (p_withTty p) true (p_unlinked p) (p_phase p) (p_exitStatus p)
    (p_exitErr p) (p_done p) (p_stdin p) (p_stdout p) (p_stderr p) (p_sources p) (p_links p) (p_pty p).

Definition take_unlinked (p : Process) : Process :=
  mkProcess (p_id p) (p_withTty p) (p_linked p) false (p_phase p) (p_exitStatus p)
    (p_exitErr p) (p_done p) (p_stdin p) (p_stdout p) (p_stderr p) (p_sources p) (p_links p) (p_pty p).

Definition set_stdin (w : faninWriter) (sources : nat) (p : Process) : Process :=
  mkProcess (p_id p) (p_withTty p) (p_linked p) (p_unlinked p) (p_phase p) (p_exitStatus p)
    (p_exitErr p) (p_done p) w (p_stdout p) (p_stderr p) sources (p_links p) (p_pty p).

Definition set_outputs (out err : fanoutWriter) (p : Process) : Process :=
  mkProcess (p_id p) (p_withTty p) (p_linked p) (p_unlinked p) (p_phase p) (p_exitStatus p)
    (p_exitErr p) (p_done p) (p_stdin p) out err (p_sources p) (p_links p) (p_pty p).

Definition add_link (p : Process) : Process :=
  mkProcess (p_id p) (p_withTty p) (p_linked p) (p_unlinked p) (p_phase p) (p_exitStatus p)
    (p_exitErr p) (p_done p) (p_stdin p) (p_stdout p) (p_stderr p) (p_sources p) (S (p_links p)) (p_pty p).

Definition set_pty (f : option file) (p : Process) : Process :=
  mkProcess (p_id p) (p_withTty p) (p_linked p) (p_unlinked p) (p_phase p) (p_exitStatus p)
    (p_exitErr p) (p_done p) (p_stdin p) (p_stdout p) (p_stderr p) (p_sources p) (p_links p) f.

(** [runLinker] opens a terminal for a process that has one. *)
Definition open_pty (p : Process) : Process :=
  set_pty (if p_withTty p then Some (PtyMaster (mkttySize 0 0 0 0)) else p_pty p) p.

(** [completed]: only the first call counts. *)
Definition completed (status : Z) (err : option error) (p : Process) : Process :=
  if p_done p then p
  else mkProcess (p_id p) (p_withTty p) (p_linked p) (p_unlinked p) (p_phase p) status
         err true (p_stdin p) (p_stdout p) (p_stderr p) (p_sources p) (p_links p) (p_pty p).

(** [Wait] returns once [done] is set. *)
Definition Process_Wait (p : Process) : Result (Z * option error) :=
  if p_done p then Ok (p_exitStatus p, p_exitErr p) else Crash Blocked.

(** Which streams a [warden.ProcessIO] provides. *)
Record ProcessIO := mkProcessIO { io_stdin : bool; io_stdout : bool; io_stderr : bool }.

Definition Process_Attach (io : ProcessIO) (p : Process) : Process :=
  let p1 := if io_stdin io then set_stdin (p_stdin p) (S (p_sources p)) p else p in
  let out := if io_stdout io then (fo_AddSink (p_stdout p1)).2 else p_stdout p1 in
  let err := if io_stderr io then (fo_AddSink (p_stderr p1)).2 else p_stderr p1 in
  set_outputs out err p1.

(** [SetTTY] waits for [linked]; closing stdin closes the terminal. [signalled]: the error
    of signalling the link, if any. *)
Definition SetTTY (tty : TTYSpec) (signalled : option error) : M Process unit := λ p,
  if negb (p_linked p) then (Crash Blocked, p)
  else match p_pty p with
       | None => (Ok tt, p)
       | Some f =>
           let '(r, f') := match tty_WindowSize tty with
                           | Some w => SetWinSize (Columns w) (Rows w)
                                         (if fw_closed (p_stdin p) then ClosedFile else f)
                           | None => (Ok tt, f)
                           end in
           (match r with
            | Ok _ => match signalled with Some e => Err e | None => Ok tt end
            | _ => r
            end, set_pty (Some f') p)
       end.

(** ** The commands *)

Definition processSock (containerPath : string) (id : Z) : string :=
  path_Join [containerPath; "processes"; fmt_d id +:+ ".sock"].

Definition iodaemon (containerPath : string) : string :=
  path_Join [containerPath; "bin"; "iodaemon"].

(** The bash command of [Spawn], which forks the daemon off. *)
Definition spawn_flags (containerPath : string) (id : Z) (tty : option TTYSpec)
    (path : string) : list string :=
  let spawnPath := iodaemon containerPath in
  ["-c"; spawnPath +:+ " " +:+ dquote +:+ "$@" +:+ dquote +:+ " &"; spawnPath] ++
  match tty with
  | None => []
  | Some t =>
      ["-tty"] ++
      match tty_WindowSize t with
      | None => []
      | Some w => ["-windowColumns=" +:+ fmt_d (Columns w); "-windowRows=" +:+ fmt_d (Rows w)]
      end
  end ++
  ["spawn"; processSock containerPath id; path].

Definition spawn_cmd (containerPath : string) (id : Z) (c : Cmd) (tty : option TTYSpec) : Cmd :=
  cmd "bash" (spawn_flags containerPath id tty (Path c) ++ Args c) (Env c).

(** The command of [runLinker]. *)
Definition link_cmd (containerPath : string) (p : Process) : Cmd :=
  cmd (iodaemon containerPath)
    ["-tty=" +:+ fmt_bool (p_withTty p); "link"; processSock containerPath (p_id p)] [].

(** ** The goroutines around a process

    [ps_open_fail], [ps_start_fail], [ps_start], [ps_exit], [ps_token] and
    [ps_finish] are [runLinker], which runs once; [ps_unlink] and
    [ps_unlink_late] are [Unlink]; [ps_write] and [ps_eof] are the [AddSource]
    goroutines ([io.Copy], then [Close]); [ps_attach] is [Attach], [ps_setTTY] is [SetTTY]. *)
Definition not_blocked {A} (r : Result A) : Prop :=
  match r with Crash _ => False | _ => True end.

Inductive pstep : Process → Process → Prop :=
  | ps_attach io p : pstep p (Process_Attach io p)
  | ps_link p : pstep p (add_link p)
  | ps_open_fail e p :
      p_phase p = Idle → pstep p (completed (-1) (Some e) (set_phase Returned p))
  | ps_start_fail e w p :
      p_phase p = Idle → fw_AddSink (p_stdin p) = (Ok tt, w) →
      pstep p (completed (-1) (Some e) (set_phase Returned (set_stdin w (p_sources p) (open_pty p))))
  | ps_start w p :
      p_phase p = Idle → fw_AddSink (p_stdin p) = (Ok tt, w) →
      pstep p (set_linked (set_phase Running (set_stdin w (p_sources p) (open_pty p))))
  | ps_exit st p : p_phase p = Running → pstep p (set_phase (Exited st) p)
  | ps_token st p :
      p_phase p = Exited st → p_unlinked p = true →
      pstep p (take_unlinked (set_phase (Closing st) p))
  | ps_finish st r w p :
      p_phase p = Closing st → fw_Close (p_stdin p) = (r, w) → not_blocked r →
      pstep p (match st with
               | Some s => completed s None
               | None => completed (-1) (Some (errors_New "could not determine exit status"))
               end (set_phase Returned (set_stdin w (p_sources p) p)))
  | ps_unlink p :
      p_linked p = true → p_unlinked p = true → pstep p (take_unlinked p)
  | ps_unlink_late p : p_linked p = true → p_unlinked p = false → pstep p p
  | ps_write d r w p :
      (0 < p_sources p)%nat → fw_Write d (p_stdin p) = (r, w) → not_blocked r →
      pstep p (set_stdin w (p_sources p) p)
  | ps_eof r w p :
      (0 < p_sources p)%nat → fw_Close (p_stdin p) = (r, w) → not_blocked r →
      pstep p (set_stdin w (pred (p_sources p)) p)
  | ps_setTTY tty signalled r p p' :
      SetTTY tty signalled p = (r, p') → not_blocked r → pstep p p'.

(** What clients do with a [fanoutWriter]: add a sink, or write. *)
Inductive fo_op := FoAddSink | FoWrite (data : string).

Definition fo_do (w : fanoutWriter) (o : fo_op) : fanoutWriter :=
  match o with
  | FoAddSink => (fo_AddSink w).2
  | FoWrite d => (fo_Write d w).2
  end.

Definition fo_data (ops : list fo_op) : list string :=
  omap (λ o, match o with FoWrite d => Some d | FoAddSink => None end) ops.

(** What each sink should have received: the writes after it was added. *)
Fixpoint fo_expected (ops : list fo_op) : list (list string) :=
  match ops with
  | [] => []
  | FoAddSink :: ops' => fo_data ops' :: fo_expected ops'
  | FoWrite _ :: ops' => fo_expected ops'
  end.

(** The link is up and its exit has not been reported. *)
Definition link_pending (ph : link_phase) : Prop :=
  match ph with Running | Exited _ => True | _ => False end.

(** The invariant of a process: [done] is only set when [runLinker] returns; a
    link that was started and not yet unlinked is pending. *)
Record process_inv (p : Process) : Prop := {
  inv_idle : p_phase p = Idle →
    p_linked p = false ∧ p_unlinked p = true ∧ p_done p = false ∧ fw_hasSink (p_stdin p) = false;
  inv_started : p_phase p ≠ Idle → p_phase p ≠ Returned →
    p_linked p = true ∧ p_done p = false ∧ fw_hasSink (p_stdin p) = true;
  inv_returned : p_phase p = Returned → p_done p = true;
  inv_token : p_linked p = true → p_unlinked p = true → link_pending (p_phase p)
}.

(** Once the link has exited with status [s], no other status is reported. *)
Definition reports (s : Z) (p : Process) : Prop :=
  match p_phase p with
  | Exited st | Closing st => st = Some s ∧ p_done p = false
  | Returned => p_done p = true ∧ p_exitStatus p = s ∧ p_exitErr p = None
  | _ => False
  end.

(** A run in which the link starts and exits with status 42. *)
Definition linked_process : Process :=
  set_linked (set_phase Running (set_stdin (mkFanin true false false []) 0 (open_pty (NewProcess 7 false)))).
Definition exited_process : Process := set_phase (Exited (Some 42)) linked_process.
Definition finished_process : Process :=
  completed 42 None (set_phase Returned (set_stdin (mkFanin true true false []) 0
    (take_unlinked (set_phase (Closing (Some 42)) exited_process)))).

(** * Lemmas *)

Lemma completed_done s e p : p_done (completed s e p) = true.
Proof. unfold completed. by destruct (p_done p) eqn:E. Qed.
Lemma completed_phase s e p : p_phase (completed s e p) = p_phase p.
Proof. unfold completed. by destruct (p_done p). Qed.
Lemma completed_linked s e p : p_linked (completed s e p) = p_linked p.
Proof. unfold completed. by destruct (p_done p). Qed.
Lemma completed_unlinked s e p : p_unlinked (completed s e p) = p_unlinked p.
Proof. unfold completed. by destruct (p_done p). Qed.
Lemma completed_stdin s e p : p_stdin (completed s e p) = p_stdin p.
Proof. unfold completed. by destruct (p_done p). Qed.

Lemma Process_Attach_fields io p :
  p_phase (Process_Attach io p) = p_phase p ∧ p_linked (Process_Attach io p) = p_linked p ∧
  p_unlinked (Process_Attach io p) = p_unlinked p ∧ p_done (Process_Attach io p) = p_done p ∧
  p_stdin (Process_Attach io p) = p_stdin p ∧
  p_exitStatus (Process_Attach io p) = p_exitStatus p ∧ p_exitErr (Process_Attach io p) = p_exitErr p.
Proof. unfold Process_Attach. by destruct (io_stdin io). Qed.

Lemma fw_AddSink_ok w w' :
  fw_AddSink w = (Ok tt, w') → fw_hasSink w = false ∧ fw_hasSink w' = true ∧ fw_locked w' = fw_locked w.
Proof. unfold fw_AddSink. destruct (fw_hasSink w) eqn:E; intros H; [done|]. by injection H as <-. Qed.

Lemma fw_Close_hasSink w r w' : fw_Close w = (r, w') → not_blocked r → fw_hasSink w' = true.
Proof.
  unfold fw_Close. destruct (negb (fw_hasSink w) || fw_locked w); [by intros [= <- <-]|].
  by destruct (fw_closed w); intros [= <- <-].
Qed.

Lemma fw_Write_hasSink d w r w' : fw_Write d w = (r, w') → not_blocked r → fw_hasSink w' = true.
Proof.
  unfold fw_Write. destruct (negb (fw_hasSink w) || fw_locked w); [by intros [= <- <-]|].
  by destruct (fw_closed w); intros [= <- <-].
Qed.

Lemma fw_Close_locked w r w' : fw_locked w = true → fw_Close w = (r, w') → ¬ not_blocked r.
Proof. unfold fw_Close. intros ->. rewrite orb_true_r. intros [= <- <-] []. Qed.

Lemma fw_Write_locked d w r w' : fw_locked w = true → fw_Write d w = (r, w') → ¬ not_blocked r.
Proof. unfold fw_Write. intros ->. rewrite orb_true_r. intros [= <- <-] []. Qed.

(** [SetTTY] touches nothing but the terminal. *)
Lemma SetTTY_frame tty signalled p r p' :
  SetTTY tty signalled p = (r, p') → p' = set_pty (p_pty p') p.
Proof.
  unfold SetTTY. destruct (negb (p_linked p)); [intros [= _ <-]; by destruct p|].
  destruct (p_pty p); [|intros [= _ <-]; by destruct p].
  destruct (match tty_WindowSize tty with Some _ => _ | None => _ end) as [r1 f1]. by intros [= _ <-].
Qed.

Lemma NewProcess_inv id tty : process_inv (NewProcess id tty).
Proof. by split. Qed.

(** The fields of every post-state, reduced. *)
Ltac pfields := repeat (cbn [p_phase p_linked p_unlinked p_done p_stdin p_sources p_exitStatus
    p_exitErr set_phase set_linked take_unlinked set_stdin add_link set_pty open_pty] in *;
  rewrite ?completed_done, ?completed_phase, ?completed_linked, ?completed_unlinked,
    ?completed_stdin in *).

(** A step of [SetTTY], as a change of the terminal. *)
Ltac setTTY_step :=
  match goal with H : SetTTY _ _ _ = _ |- _ => rewrite (SetTTY_frame _ _ _ _ _ H); clear H end; pfields.

Lemma pstep_inv p p' : pstep p p' → process_inv p → process_inv p'.
Proof.
  intros Hst [H1 H2 H3 H4]. inversion Hst; subst; pfields.
  - destruct (Process_Attach_fields io p) as (E1 & E2 & E3 & E4 & E5 & _).
    split; rewrite ?E1, ?E2, ?E3, ?E4, ?E5; auto.
  - by split.
  - split; pfields; [done|done|done|]. destruct H1 as (-> & _); [done|done].
  - split; pfields; [done|done|done|]. destruct H1 as (-> & _); [done|done].
  - match goal with H : fw_AddSink _ = _ |- _ => apply fw_AddSink_ok in H as (? & ? & _) end.
    split; pfields; [done| |done|done]. destruct H1 as (? & ? & ? & ?); done.
  - assert (p_phase p ≠ Idle ∧ p_phase p ≠ Returned) as [] by (split; congruence).
    split; pfields; [done| |done|done]. auto.
  - assert (p_phase p ≠ Idle ∧ p_phase p ≠ Returned) as [] by (split; congruence).
    split; pfields; [done| |done|done]. auto.
  - destruct st; (split; pfields; [done|done|done|]; intros Hl Hu;
      specialize (H4 Hl Hu); match goal with H : p_phase p = _ |- _ => rewrite H in H4; done end).
  - split; pfields; auto. intros Hi. destruct (H1 Hi); congruence.
  - done.
  - match goal with H : fw_Write _ _ = _ |- _ => rename H into Hw end.
    split; pfields; auto.
    + intros Hi. destruct (H1 Hi) as (? & ? & ? & Hs). unfold fw_Write in Hw.
      rewrite Hs in Hw. simpl in Hw. by injection Hw as <- <-.
    + intros Hi Hr. destruct (H2 Hi Hr) as (? & ? & _). split_and!; [done..|].
      by eapply fw_Write_hasSink.
  - match goal with H : fw_Close _ = _ |- _ => rename H into Hw end.
    split; pfields; auto.
    + intros Hi. destruct (H1 Hi) as (? & ? & ? & Hs). unfold fw_Close in Hw.
      rewrite Hs in Hw. simpl in Hw. by injection Hw as <- <-.
    + intros Hi Hr. destruct (H2 Hi Hr) as (? & ? & _). split_and!; [done..|].
      by eapply fw_Close_hasSink.
  - setTTY_step. by split.
Qed.

Lemma rtc_preserves {A} (R : relation A) (I : A → Prop) x y :
  (∀ a b, R a b → I a → I b) → rtc R x y → I x → I y.
Proof. intros H. induction 1; eauto. Qed.

Lemma reachable_inv id tty p : rtc pstep (NewProcess id tty) p → process_inv p.
Proof. intros H. eapply rtc_preserves; [apply pstep_inv|exact H|apply NewProcess_inv]. Qed.

(** Nothing undoes [done] or changes what was reported. *)
Lemma pstep_done p p' :
  pstep p p' → p_done p = true →
  p_done p' = true ∧ p_exitStatus p' = p_exitStatus p ∧ p_exitErr p' = p_exitErr p.
Proof.
  intros Hst Hd. inversion Hst; subst; pfields; try done.
  - destruct (Process_Attach_fields io p) as (_ & _ & _ & E & _ & E1 & E2). by rewrite E, E1, E2.
  - unfold completed. cbn. by rewrite Hd.
  - unfold completed. cbn. by rewrite Hd.
  - destruct st; unfold completed; cbn; by rewrite Hd.
  - by setTTY_step.
Qed.

(** A started link whose [unlinked] value is gone stays pending. *)
Lemma pstep_unlinked p p' :
  pstep p p' → p_unlinked p = false ∧ link_pending (p_phase p) ∧ p_done p = false →
  p_unlinked p' = false ∧ link_pending (p_phase p') ∧ p_done p' = false.
Proof.
  intros Hst (Hu & Hph & Hd). inversion Hst; subst; pfields; try done;
    try (match goal with H : p_phase p = _ |- _ => rewrite H in Hph end; done).
  - destruct (Process_Attach_fields io p) as (E1 & _ & E2 & E3 & _). by rewrite E1, E2, E3.
  - congruence.
  - by setTTY_step.
Qed.

(** With the mutex of [stdin] left locked, a link that has not returned never does. *)
Lemma pstep_locked p p' :
  pstep p p' → fw_locked (p_stdin p) = true ∧ p_phase p ≠ Idle ∧ p_phase p ≠ Returned ∧ p_done p = false →
  fw_locked (p_stdin p') = true ∧ p_phase p' ≠ Idle ∧ p_phase p' ≠ Returned ∧ p_done p' = false.
Proof.
  intros Hst (Hl & Hi & Hr & Hd). inversion Hst; subst; pfields; try done.
  - destruct (Process_Attach_fields io p) as (E1 & _ & _ & E2 & E3 & _). by rewrite E1, E2, E3.
  - by edestruct fw_Close_locked.
  - by edestruct fw_Write_locked.
  - by edestruct fw_Close_locked.
  - by setTTY_step.
Qed.

(** Once the link has exited, no other status is reported. *)
Lemma pstep_reports s p p' : pstep p p' → reports s p → reports s p'.
Proof.
  intros Hst Hp. unfold reports in *. inversion Hst; subst; pfields; try done;
    try (match goal with H : p_phase p = _ |- _ => rewrite H in Hp end; done).
  - destruct (Process_Attach_fields io p) as (-> & _ & _ & -> & _ & -> & ->). done.
  - match goal with H : p_phase p = _ |- _ => rewrite H in Hp end.
    destruct Hp as [-> Hd]. unfold completed. cbn. by rewrite Hd.
  - by setTTY_step.
Qed.

(** ** Properties *)

(** What [Wait] returned once, it returns for ever: [completed] takes effect
    only once whatever goroutines run afterwards. *)
Theorem wait_result_stable p p' r :
  Process_Wait p = Ok r → rtc pstep p p' → Process_Wait p' = Ok r.
Proof.
  intros Hw Hst. revert Hw. induction Hst as [|p q p' Hs _ IH]; [done|]. intros Hw. apply IH.
  unfold Process_Wait in *. destruct (p_done p) eqn:Hd; [|done].
  by destruct (pstep_done p q Hs Hd) as (-> & -> & ->).
Qed.

(** Once [Unlink] has taken the value out of [unlinked] before interrupting
    the link, the exit of the link is never reported: [Wait] keeps blocking, as
    the comment in [runLinker] demands. *)
Theorem unlink_never_completes id tty p p' :
  rtc pstep (NewProcess id tty) p → p_linked p = true → p_unlinked p = true →
  rtc pstep (take_unlinked p) p' → Process_Wait p' = Crash Blocked.
Proof.
  intros Hr Hl Hu Hst. pose proof (reachable_inv _ _ _ Hr) as Hinv.
  pose proof (inv_token _ Hinv Hl Hu) as Hph.
  assert (Hd : p_done p = false).
  { destruct Hinv as [_ H2 _ _]. apply H2; intros E; by rewrite E in Hph. }
  destruct (rtc_preserves _ _ _ _ pstep_unlinked Hst) as (_ & _ & E); [done|].
  unfold Process_Wait. by rewrite E.
Qed.

(** C27: after the link exited with status [s], [Wait] returns [s] without error
    or does not return: no other result is possible. *)
Theorem exit_status_reported id tty p s p' r :
  rtc pstep (NewProcess id tty) p → p_phase p = Exited (Some s) →
  rtc pstep p p' → Process_Wait p' = Ok r → r = (s, None).
Proof.
  intros Hr Hph Hst Hw. pose proof (reachable_inv _ _ _ Hr) as [_ H2 _ _].
  assert (Hp : reports s p).
  { unfold reports. rewrite Hph. split; [done|]. apply H2; congruence. }
  pose proof (rtc_preserves _ _ _ _ (pstep_reports s) Hst Hp) as Hp'.
  unfold reports, Process_Wait in *.
  destruct (p_phase p'); destruct (p_done p'); try naive_solver congruence.
Qed.

(** A link that exited by itself is reported: if its stdin mutex is free and
    nobody unlinked it, [runLinker] can run to its end and [Wait] then returns
    the exit status. *)
Theorem exit_completes id tty p s :
  rtc pstep (NewProcess id tty) p → p_phase p = Exited (Some s) → p_unlinked p = true →
  fw_locked (p_stdin p) = false →
  ∃ p', rtc pstep p p' ∧ Process_Wait p' = Ok (s, None).
Proof.
  intros Hr Hph Hu Hl. pose proof (reachable_inv _ _ _ Hr) as [_ H2 _ _].
  destruct H2 as (_ & Hd & Hs); [congruence..|].
  destruct (fw_Close (p_stdin p)) as [r w] eqn:Hc.
  assert (Hnb : not_blocked r).
  { unfold fw_Close in Hc. rewrite Hs, Hl in Hc. simpl in Hc.
    by destruct (fw_closed (p_stdin p)); injection Hc as <- _. }
  eexists. split.
  - eapply rtc_l; [by apply (ps_token (Some s))|].
    eapply rtc_l; [|apply rtc_refl]. by eapply (ps_finish (Some s)).
  - unfold Process_Wait, completed. cbn. by rewrite Hd.
Qed.

(** Two attached stdins hang [Wait]. When both sources reach end of file, the
    second [Close] returns "closed twice" with [writeL] still locked; then the
    link may exit with any status, nobody having unlinked it, and yet [Wait]
    never returns, because [runLinker] cannot close stdin. *)
Theorem two_stdins_hang_wait id tty st :
  ∃ p, rtc pstep (NewProcess id tty) p ∧ p_phase p = Exited (Some st) ∧ p_unlinked p = true ∧
       ∀ p', rtc pstep p p' → Process_Wait p' = Crash Blocked.
Proof.
  set (io := mkProcessIO true false false).
  set (p1 := Process_Attach io (Process_Attach io (NewProcess id tty))).
  set (p2 := set_linked (set_phase Running (set_stdin (mkFanin true false false []) 2 (open_pty p1)))).
  set (p3 := set_stdin (mkFanin true true false []) 1 p2).
  set (p4 := set_stdin (mkFanin true true true []) 0 p3).
  exists (set_phase (Exited (Some st)) p4). split; [|split; [done|split; [done|]]].
  - do 2 (eapply rtc_l; [apply (ps_attach io)|]).
    eapply rtc_l; [by apply (ps_start (mkFanin true false false []))|].
    eapply rtc_l; [by apply (ps_eof (Ok tt) (mkFanin true true false [])); [simpl; lia|..]|].
    eapply rtc_l; [by apply (ps_eof (Err (errors_New "closed twice")) (mkFanin true true true []));
                     [simpl; lia|..]|].
    eapply rtc_l; [by apply ps_exit|]. apply rtc_refl.
  - intros p' Hst. destruct (rtc_preserves _ _ _ _ pstep_locked Hst) as (_ & _ & _ & E); [done|].
    unfold Process_Wait. by rewrite E.
Qed.

(** Every sink of a [fanoutWriter] receives exactly the writes made after it
    was added, in order, and no call ever finds the writer closed or blocked. *)
Theorem fanout_delivers ops :
  foldl fo_do new_fanoutWriter ops = mkFanout (fo_expected ops) false false.
Proof.
  assert (H : ∀ sinks, foldl fo_do (mkFanout sinks false false) ops =
            mkFanout (map (λ s, s ++ fo_data ops) sinks ++ fo_expected ops) false false).
  { induction ops as [|[|d] ops IH]; intros sinks; simpl.
    - rewrite app_nil_r. f_equal. unfold fo_data. simpl. symmetry.
      rewrite <-(map_id sinks) at 2. apply map_ext. intros s. apply app_nil_r.
    - unfold fo_AddSink. cbn. rewrite IH, map_app, <-app_assoc. done.
    - unfold fo_Write. cbn. rewrite IH, map_map. do 2 f_equal. apply map_ext.
      intros s. by rewrite <-app_assoc. }
  apply (H []).
Qed.

(** ** Witnesses *)

Lemma linked_reachable : rtc pstep (NewProcess 7 false) linked_process.
Proof. eapply rtc_l; [by apply (ps_start (mkFanin true false false []))|]. apply rtc_refl. Qed.

Lemma exited_reachable : rtc pstep (NewProcess 7 false) exited_process.
Proof. eapply rtc_r; [apply linked_reachable|by apply ps_exit]. Qed.

Lemma exited_finishes : rtc pstep exited_process finished_process.
Proof.
  eapply rtc_l; [by apply (ps_token (Some 42))|].
  eapply rtc_l; [|apply rtc_refl].
  by apply (ps_finish (Some 42) (Ok tt) (mkFanin true true false [])).
Qed.

Lemma wait_result_stable_witness : Process_Wait (add_link finished_process) = Ok (42, None).
Proof.
  apply (wait_result_stable finished_process); [reflexivity|].
  eapply rtc_l; [apply ps_link|apply rtc_refl].
Defined.

Lemma unlink_never_completes_witness :
  Process_Wait (set_phase (Exited None) (take_unlinked linked_process)) = Crash Blocked.
Proof.
  apply (unlink_never_completes 7 false linked_process);
    [apply linked_reachable|reflexivity|reflexivity|].
  eapply rtc_l; [by apply ps_exit|apply rtc_refl].
Defined.

Lemma exit_status_reported_witness : (42, @None error) = (42, None).
Proof.
  apply (exit_status_reported 7 false exited_process 42 finished_process);
    [apply exited_reachable|reflexivity|apply exited_finishes|reflexivity].
Defined.

Lemma exit_completes_witness :
  ∃ p', rtc pstep exited_process p' ∧ Process_Wait p' = Ok (42, None).
Proof.
  apply (exit_completes 7 false exited_process 42);
    [apply exited_reachable|reflexivity|reflexivity|reflexivity].
Defined.
