(* ===== verification/ProcessTracker.v ===== *)
(** linux_backend/process_tracker/process_tracker.go: the processes of one
    container. The state pairs the trace of outside calls with the tracker.
    Goroutines ([go t.link(id)]) are counted in the process they link; what
    they do later is [tracker_step]. *)
From S2P Require Import Prelude GoStd OS Warden Process.
From Stdlib Require Import Ascii.

Local Open Scope string_scope.
Local Open Scope list_scope.
Local Open Scope Z_scope.

Record ProcessTracker := mkTracker {
  containerPath : string;
  processes : gmap Z Process;
  nextProcessID : Z
}.

Definition set_processes (ps : gmap Z Process) (t : ProcessTracker) : ProcessTracker :=
  mkTracker (containerPath t) ps (nextProcessID t).

Definition set_next (n : Z) (t : ProcessTracker) : ProcessTracker :=
  mkTracker (containerPath t) (processes t) n.

Definition UnknownProcessError (id : Z) : error :=
  mkError "process_tracker.UnknownProcessError" ("unknown process: " +:+ fmt_d id).

Definition New (containerPath : string) : ProcessTracker := mkTracker containerPath ∅ 1.

Definition EOF : error := mkError "*errors.errorString" "EOF".

(** The lines a spawned [iodaemon] prints before its output ends. *)
Fixpoint count_lines (s : string) : nat :=
  match s with
  | EmptyString => O
  | String c s' => if Ascii.eqb c newline then S (count_lines s') else count_lines s'
  end.

Abbreviation TState := (Trace * ProcessTracker)%type.

Definition trace_lens : Lens TState Trace := mkLens fst (λ h s, (h, s.2)).
Definition tracker_lens : Lens TState ProcessTracker := mkLens snd (λ t s, (s.1, t)).

Definition modify_tracker (f : ProcessTracker → ProcessTracker) : M TState unit :=
  zoom tracker_lens (modify f).

(** Update one process, if it is still registered. *)
Definition modify_process (id : Z) (f : Process → Process) (t : ProcessTracker) : ProcessTracker :=
  set_processes (alter f id (processes t)) t.

(** [t.processes[id] = NewProcess(id, tty)] *)
Definition register (id : Z) (tty : bool) (t : ProcessTracker) : ProcessTracker :=
  set_processes (<[id := NewProcess id tty]> (processes t)) t.

(** [processID := t.nextProcessID; t.nextProcessID++] on [uint32] *)
Definition alloc_id : M TState Z :=
  id ← gets (λ s, nextProcessID s.2);
  modify_tracker (set_next (u32 (id + 1))) ≫= λ _, mret id.

Section tracker.
Context {K : Kernel}.

(** The first line [iodaemon] prints is [ready], the second [active]. An error
    before either leaves the process registered. *)
Definition Run (c : Cmd) (io : ProcessIO) (tty : option TTYSpec) : M TState Z :=
  id ← alloc_id;
  modify_tracker (register id (bool_decide (is_Some tty))) ≫= λ _,
  path ← gets (λ s, containerPath s.2);
  out ← zoom trace_lens (sys (SBackground (spawn_cmd path id c tty)));
  if (count_lines out <? 1)%nat then raise EOF
  else
    modify_tracker (modify_process id (λ p, add_link (Process_Attach io p))) ≫= λ _,
    if (count_lines out <? 2)%nat then raise EOF
    else mret id.

Definition Attach (id : Z) (io : ProcessIO) : M TState Z :=
  t ← gets snd;
  match processes t !! id with
  | None => raise (UnknownProcessError id)
  | Some _ =>
      modify_tracker (modify_process id (λ p, add_link (Process_Attach io p))) ≫= λ _, mret id
  end.

Definition Restore (id : Z) (tty : bool) : M TState unit :=
  modify_tracker (λ t,
    let t1 := register id tty t in
    let t2 := if nextProcessID t1 <=? id then set_next (u32 (id + 1)) t1 else t1 in
    modify_process id add_link t2).

(** In the order of the map; Go's map iteration order is unspecified. *)
Definition ActiveProcesses (t : ProcessTracker) : list Process := (map_to_list (processes t)).*2.

(** [process.Unlink()]: it waits for [linked], and signals the link unless the
    link has exited already. Its error is dropped by the only caller. *)
Definition Unlink (id : Z) : M TState unit :=
  t ← gets snd;
  match processes t !! id with
  | None => mret tt
  | Some p =>
      if negb (p_linked p) then crash Blocked
      else if negb (p_unlinked p) then mret tt
      else modify_tracker (modify_process id take_unlinked) ≫= λ _,
           zoom trace_lens (ignore_err (Signal (link_cmd (containerPath t) p) "interrupt"))
  end.

Definition UnlinkAll : M TState unit :=
  t ← gets snd; for_each Unlink (map_to_list (processes t)).*1.
End tracker.

(** ** What the goroutines do

    [tk_process]: a step of a registered process; only a process that somebody
    links runs [runLinker]. [tk_unregister]: [Link] has returned, its caller
    removes the process. *)
Definition linker_phase (p p' : Process) : Prop := p_phase p' = p_phase p ∨ (0 < p_links p)%nat.

Inductive tracker_step : ProcessTracker → ProcessTracker → Prop :=
  | tk_process id p p' t :
      processes t !! id = Some p → pstep p p' → p_links p' = p_links p → linker_phase p p' →
      tracker_step t (set_processes (<[id := p']> (processes t)) t)
  | tk_unregister id p t :
      processes t !! id = Some p → p_phase p = Returned → (0 < p_links p)%nat →
      tracker_step t (set_processes (delete id (processes t)) t).

(** Every id in use is below the next one. *)
Definition ids_below (t : ProcessTracker) : Prop :=
  ∀ id, is_Some (processes t !! id) → 0 ≤ id < nextProcessID t.

(** A process is registered under its own id. *)
Definition keyed (t : ProcessTracker) : Prop := ∀ id p, processes t !! id = Some p → p_id p = id.

(** Ids are of type [uint32], the next one too. *)
Definition ids_typed (t : ProcessTracker) : Prop :=
  is_u32 (nextProcessID t) ∧ map_Forall (λ id p, is_u32 id ∧ p_id p = id) (processes t).

(** A process that was registered but that nobody links. *)
Definition orphan (id : Z) (t : ProcessTracker) : Prop :=
  ∃ p, processes t !! id = Some p ∧ p_phase p = Idle ∧ p_linked p = false ∧ p_links p = O.

(** [iodaemon] dies before printing its first line. *)
Definition spawn_dies_kernel : Kernel := quiet_kernel.

(** [iodaemon] prints both its lines. *)
Definition spawn_kernel : Kernel := {|
  sys_error _ _ := None;
  sys_output h c := match c with
                    | SBackground _ => "ready" +:+ nl +:+ "pid: 12" +:+ nl
                    | _ => ""
                    end;
  sys_entries _ _ := [];
  getenv _ := "/bin";
  environ := []
|}.

(** * Lemmas *)

Lemma modify_process_lookup id f t id' :
  processes (modify_process id f t) !! id' =
    if decide (id = id') then f <$> processes t !! id' else processes t !! id'.
Proof. simpl. rewrite lookup_alter. by case_decide; simplify_eq. Qed.

Lemma modify_process_next id f t : nextProcessID (modify_process id f t) = nextProcessID t.
Proof. done. Qed.

Lemma modify_process_some id f t id' :
  is_Some (processes (modify_process id f t) !! id') ↔ is_Some (processes t !! id').
Proof. rewrite modify_process_lookup. case_decide; [|done]. by rewrite fmap_is_Some. Qed.

Section tracker_lemmas.
Context {K : Kernel}.

(** The trackers [Run] can leave behind: only the new process differs. *)
Lemma Run_tracker c io tty s :
  let id := nextProcessID s.2 in
  ∃ p, (Run c io tty s).2.2 =
         set_next (u32 (id + 1)) (set_processes (<[id := p]> (processes s.2)) s.2) ∧
       (∀ id', (Run c io tty s).1 = Ok id' → id' = id).
Proof.
  destruct s as [h t]. cbn [snd]. unfold Run, alloc_id.
  set (id := nextProcessID t). set (p := NewProcess id (bool_decide (is_Some tty))).
  set (t1 := register id (bool_decide (is_Some tty)) (set_next (u32 (id + 1)) t)).
  set (sc := SBackground (spawn_cmd (containerPath t) id c tty)).
  destruct (sys_error h sc) as [e|] eqn:He.
  - assert (E : zoom trace_lens (sys sc) (h, t1) = (Err e, (h ++ [sc], t1))).
    { unfold zoom, sys. cbn. by rewrite He. }
    exists p. unfold mbind, M_bind, gets, modify_tracker, zoom in *. cbn in *.
    fold id t1 sc. rewrite He. done.
  - unfold mbind, M_bind, gets, modify_tracker, zoom, sys. cbn. fold id sc. rewrite He. cbn.
    destruct (count_lines (sys_output h sc) <=? 0)%nat; cbn; [exists p; done|].
    assert (Ha : ∀ f (m : gmap Z Process), alter f id (<[id:=p]> m) = <[id:=f p]> m).
    { intros f m. by rewrite alter_insert_eq. }
    destruct (count_lines (sys_output h sc) <=? 1)%nat; cbn; eexists;
      (split; [unfold modify_process, register, set_processes; cbn; by rewrite Ha|naive_solver]).
Qed.

Lemma Unlink_blocked id h t p :
  processes t !! id = Some p → p_linked p = false → Unlink id (h, t) = (Crash Blocked, (h, t)).
Proof. intros Hp Hl. unfold Unlink, mbind, M_bind, gets. cbn. by rewrite Hp, Hl. Qed.

(** Unlinking one process leaves the others alone, and does not fail. *)
Lemma Unlink_other id id' h t :
  id ≠ id' → ∃ r h' t', Unlink id (h, t) = (r, (h', t')) ∧
    processes t' !! id' = processes t !! id' ∧ (r = Ok tt ∨ r = Crash Blocked).
Proof.
  intros Hne. unfold Unlink, mbind at 1, M_bind at 1, gets at 1. cbn [snd].
  destruct (processes t !! id) as [p|] eqn:Hp; [|by (do 3 eexists; split; [done|]; split; [done|by left])].
  destruct (p_linked p); cbn [negb]; [|by (do 3 eexists; split; [done|]; split; [done|by right])].
  destruct (p_unlinked p); cbn [negb]; [|by (do 3 eexists; split; [done|]; split; [done|by left])].
  unfold modify_tracker, zoom, ignore_err, attempt, Signal, sys_, sys, mbind, M_bind. cbn.
  destruct (sys_error _ _); cbn; (do 3 eexists; split; [done|]);
    (split; [rewrite modify_process_lookup; by case_decide|by left]).
Qed.

Lemma for_each_Unlink_blocked id l h t p :
  id ∈ l → processes t !! id = Some p → p_linked p = false →
  (for_each Unlink l (h, t)).1 = Crash Blocked.
Proof.
  intros Hin Hp Hl. revert h t Hp. induction l as [|x l IH]; [by apply elem_of_nil in Hin|].
  intros h t Hp. cbn [for_each]. destruct (decide (x = id)) as [->|Hne].
  - by erewrite bind_Crash by (by eapply Unlink_blocked).
  - apply elem_of_cons in Hin as [->|Hin]; [done|].
    destruct (Unlink_other x id h t Hne) as (r & h' & t' & E & Hp' & [->| ->]).
    + rewrite (bind_Ok _ _ _ _ _ E). apply IH; [done|congruence].
    + by rewrite (bind_Crash _ _ _ _ _ E).
Qed.

(** [UnlinkAll] blocks on a process that is not linked. *)
Lemma UnlinkAll_blocked id h t p :
  processes t !! id = Some p → p_linked p = false → (UnlinkAll (h, t)).1 = Crash Blocked.
Proof.
  intros Hp Hl. unfold UnlinkAll. erewrite bind_Ok by done.
  eapply for_each_Unlink_blocked; [|exact Hp|done]. apply list_elem_of_fmap.
  exists (id, p). split; [done|]. by apply elem_of_map_to_list.
Qed.
End tracker_lemmas.

Lemma pstep_idle_orphan p p' :
  pstep p p' → p_links p' = p_links p → linker_phase p p' →
  p_phase p = Idle → p_linked p = false → p_links p = O →
  p_phase p' = Idle ∧ p_linked p' = false ∧ p_links p' = O.
Proof.
  intros Hst Hk [Hph|Hph] Hi Hl H0; [|lia]. rewrite Hk, Hph. split_and!; [done| |done].
  inversion Hst; subst; pfields; try congruence.
  - by destruct (Process_Attach_fields io p) as (_ & -> & _).
  - by setTTY_step.
Qed.

(** Nobody removes an orphan and nobody links it. *)
Lemma orphan_step id t t' : tracker_step t t' → orphan id t → orphan id t'.
Proof.
  intros Hst (p & Hp & Hi & Hl & H0). inversion Hst as [id1 p1 p1' t1 Hp1 Hs Hk Hph|id1 p1 t1 Hp1 Hr Hk];
    subst; unfold orphan; cbn; destruct (decide (id1 = id)) as [->|Hne].
  - exists p1'. rewrite lookup_insert_eq. split; [done|].
    assert (p1 = p) as -> by congruence. by apply (pstep_idle_orphan p).
  - exists p. by rewrite lookup_insert_ne.
  - assert (p1 = p) as -> by congruence. lia.
  - exists p. by rewrite lookup_delete_ne.
Qed.

Lemma ids_below_step t t' : tracker_step t t' → ids_below t → ids_below t'.
Proof.
  intros Hst Hb. inversion Hst as [id1 p1 p1' t1 Hp1|id1 p1 t1 Hp1]; subst; intros id Hid; apply Hb; cbn in Hid.
  - destruct (decide (id1 = id)) as [->|Hne]; [by rewrite Hp1|by rewrite lookup_insert_ne in Hid].
  - apply lookup_delete_is_Some in Hid as [_ ?]. done.
Qed.

(** ** Ids of registered processes *)

Lemma pstep_id p p' : pstep p p' → p_id p' = p_id p.
Proof.
  intros Hst. destruct Hst; try setTTY_step; try destruct st; unfold Process_Attach, completed;
    repeat case_match; cbn in *; repeat case_match; done.
Qed.

Lemma modify_process_keyed id f t : (∀ p, p_id (f p) = p_id p) → keyed t → keyed (modify_process id f t).
Proof.
  intros Hf Hk id' p. rewrite modify_process_lookup. case_decide; [|apply Hk].
  intros (q & Hq & ->)%fmap_Some. rewrite Hf. by apply Hk.
Qed.

Lemma register_keyed id tty t : keyed t → keyed (register id tty t).
Proof.
  intros Hk id' p. cbn. destruct (decide (id = id')) as [->|Hne].
  - rewrite lookup_insert_eq. by intros [= <-].
  - rewrite lookup_insert_ne by done. apply Hk.
Qed.

Lemma keyed_step t t' : tracker_step t t' → keyed t → keyed t'.
Proof.
  intros Hst Hk. inversion Hst as [id p p' t1 Hp Hs _ _|id p t1 Hp _ _]; subst; intros id' q; cbn.
  - destruct (decide (id = id')) as [->|Hne].
    + rewrite lookup_insert_eq. intros [= <-]. rewrite (pstep_id _ _ Hs). by apply Hk.
    + rewrite lookup_insert_ne by done. apply Hk.
  - intros [_ Hq]%lookup_delete_Some. by apply Hk.
Qed.

Lemma add_attach_id io p : p_id (add_link (Process_Attach io p)) = p_id p.
Proof. unfold Process_Attach. by destruct (io_stdin io). Qed.

(** An invariant of trackers that only the ids of its processes matter to is kept by
    the operations that register no process. *)
Section tracker_invariant.
Context {K : Kernel} (I : ProcessTracker → Prop).
Context (Imodify : ∀ id f t, (∀ p, p_id (f p) = p_id p) → I t → I (modify_process id f t)).
Local Abbreviation I_rel := (inv_rel (λ s : TState, I s.2)).

Lemma modify_tracker_keeps f : (∀ t, I t → I (f t)) → steps I_rel (modify_tracker f).
Proof using Type. intros Hf s Hk. by apply Hf. Qed.

Lemma on_tracker_trace_keeps {A} (m : M Trace A) : steps I_rel (zoom trace_lens m).
Proof using Type. intros s Hk. unfold zoom. by destruct (m _). Qed.

Ltac keeps_leaf := first
  [ apply on_tracker_trace_keeps
  | apply modify_tracker_keeps; intros ? ?; auto using Imodify, add_attach_id ].

Lemma Attach_keeps id io : steps I_rel (Attach id io).
Proof using All. unfold Attach. repeat mstep; try apply inv_rel_preorder; keeps_leaf. Qed.

Lemma UnlinkAll_keeps : steps I_rel UnlinkAll.
Proof using All. unfold UnlinkAll, Unlink. repeat mstep; try apply inv_rel_preorder; keeps_leaf. Qed.

(** [Run] registers the next id, [Restore] the id it is given. *)
Lemma Run_keeps c io tty :
  (∀ id tty t, id = nextProcessID t → I t → I (set_next (u32 (id + 1)) (register id tty t))) →
  steps I_rel (Run c io tty).
Proof using All.
  intros Hr [h t] HI. set (id := nextProcessID t). specialize (Hr id (bool_decide (is_Some tty)) t eq_refl HI).
  unfold Run. rewrite (bind_Ok alloc_id _ _ id (h, set_next (u32 (id + 1)) t)) by done.
  rewrite (bind_Ok _ _ _ tt (h, set_next (u32 (id + 1)) (register id (bool_decide (is_Some tty)) t))) by done.
  match goal with |- I (?m (h, ?t1)).2.2 => assert (Hm : steps I_rel m); [|exact (Hm (h, t1) Hr)] end.
  repeat mstep; try apply inv_rel_preorder; keeps_leaf.
Qed.

Lemma Restore_keeps id tty :
  (∀ t, I t → I (register id tty t)) → (∀ t, I t → I (set_next (u32 (id + 1)) t)) → steps I_rel (Restore id tty).
Proof using All.
  intros Hr Hn. apply modify_tracker_keeps. intros t Ht. apply Imodify; [done|]. destruct (_ <=? _); auto.
Qed.
End tracker_invariant.

Section keyed_ops.
Context {K : Kernel}.

Definition keyed_rel : relation TState := inv_rel (λ s, keyed s.2).

Lemma Run_keyed c io tty : steps keyed_rel (Run c io tty).
Proof. apply Run_keeps; [apply modify_process_keyed|]. intros id tty' t _. apply register_keyed. Qed.

Lemma Attach_keyed id io : steps keyed_rel (Attach id io).
Proof. apply Attach_keeps, modify_process_keyed. Qed.

Lemma UnlinkAll_keyed : steps keyed_rel UnlinkAll.
Proof. apply UnlinkAll_keeps, modify_process_keyed. Qed.

Lemma Restore_keyed id tty : steps keyed_rel (Restore id tty).
Proof. apply Restore_keeps; [apply modify_process_keyed|apply register_keyed|done]. Qed.
End keyed_ops.

(** ** The width of ids *)

Lemma modify_process_typed id f t : (∀ p, p_id (f p) = p_id p) → ids_typed t → ids_typed (modify_process id f t).
Proof.
  intros Hf [Hn Hk]. split; [done|]. intros id' p. rewrite modify_process_lookup. case_decide; [|apply Hk].
  intros (q & Hq & ->)%fmap_Some. rewrite Hf. by apply Hk.
Qed.

Lemma register_typed id tty t : is_u32 id → ids_typed t → ids_typed (register id tty t).
Proof. intros Hid [Hn Hk]. split; [done|]. by apply map_Forall_insert_2. Qed.

Lemma set_next_typed id t : ids_typed t → ids_typed (set_next (u32 (id + 1)) t).
Proof. intros [_ Hk]. split; [apply u32_range|done]. Qed.

Lemma ids_typed_step t t' : tracker_step t t' → ids_typed t → ids_typed t'.
Proof.
  intros Hst [Hn Hk]. inversion Hst as [id p p' t1 Hp Hs _ _|id p t1 Hp _ _]; subst; (split; [done|]); cbn.
  - apply map_Forall_insert_2; [|done]. rewrite (pstep_id _ _ Hs). by apply Hk.
  - by apply map_Forall_delete.
Qed.

Section typed_ops.
Context {K : Kernel}.
Local Abbreviation typed_rel := (inv_rel (λ s : TState, ids_typed s.2)).

Lemma Run_typed c io tty : steps typed_rel (Run c io tty).
Proof.
  apply Run_keeps; [apply modify_process_typed|]. intros id tty' t -> Ht. apply set_next_typed, register_typed, Ht.
  apply Ht.
Qed.

Lemma Attach_typed id io : steps typed_rel (Attach id io).
Proof. apply Attach_keeps, modify_process_typed. Qed.

Lemma UnlinkAll_typed : steps typed_rel UnlinkAll.
Proof. apply UnlinkAll_keeps, modify_process_typed. Qed.

Lemma Restore_typed id tty : is_u32 id → steps typed_rel (Restore id tty).
Proof.
  intros Hid. apply Restore_keeps; [apply modify_process_typed| |apply set_next_typed].
  intros t. by apply register_typed.
Qed.
End typed_ops.

(** ** Restoring the processes of a snapshot *)

Definition relinked (p : Process) : Process := add_link (NewProcess (p_id p) (p_withTty p)).

Lemma Restore_processes id tty h t :
  ∃ t', Restore id tty (h, t) = (Ok tt, (h, t')) ∧
    processes t' = <[id := add_link (NewProcess id tty)]> (processes t).
Proof.
  eexists. split; [done|]. cbn. destruct (_ <=? _); cbn; by rewrite alter_insert_eq.
Qed.

(** Restoring what [ActiveProcesses] lists gives a tracker with the same ids. *)
Definition insert_restored (m : gmap Z Process) (q : Z * bool) : gmap Z Process :=
  <[q.1 := add_link (NewProcess q.1 q.2)]> m.

Lemma restored_processes t :
  keyed t →
  foldl insert_restored ∅ (map (λ p, (p_id p, p_withTty p)) (ActiveProcesses t)) =
    relinked <$> processes t.
Proof.
  intros Hk. unfold ActiveProcesses.
  assert (E : ∀ (l : list (Z * Process)) (m0 : gmap Z Process),
    Forall (λ kp : Z * Process, p_id kp.2 = kp.1) l →
    foldl insert_restored m0 (map (λ p, (p_id p, p_withTty p)) l.*2) =
    foldl (λ (m : gmap Z Process) kv, <[kv.1 := kv.2]> m) m0 (prod_map id relinked <$> l)).
  { induction l as [|[k p] l IH]; intros m0; [done|]. intros [Hkp Hl]%Forall_cons.
    cbn [snd fst] in Hkp. subst k. exact (IH _ Hl). }
  rewrite E.
  - rewrite foldl_insert.
    + by rewrite list_to_map_fmap, list_to_map_to_list, (right_id_L ∅ (∪)).
    + rewrite <-list_fmap_compose. rewrite (list_fmap_ext _ fst); [apply NoDup_fst_map_to_list|].
      by intros ? [] ?.
  - rewrite Forall_forall. intros [k p] Hin%elem_of_map_to_list. by apply Hk.
Qed.

Lemma relinked_active t t' :
  processes t' = relinked <$> processes t →
  map (λ p, (p_id p, p_withTty p)) (ActiveProcesses t') =
    map (λ p, (p_id p, p_withTty p)) (ActiveProcesses t).
Proof.
  intros E. unfold ActiveProcesses. rewrite E, map_to_list_fmap.
  induction (map_to_list (processes t)) as [|[k p] l IH]; [done|]. cbn. by f_equal.
Qed.

(** ** Properties *)

(** [Run] registers its process under an id that no registered process has,
    touches no other process, returns that id if it returns one, and keeps every
    id below the next one, whatever the command runner does; ids repeat only
    when the [uint32] counter wraps. *)
Theorem Run_fresh_id `{Kernel} c io tty s :
  ids_below s.2 → 0 ≤ nextProcessID s.2 → nextProcessID s.2 + 1 < 2 ^ 32 →
  let id := nextProcessID s.2 in
  let s' := (Run c io tty s).2 in
  processes s.2 !! id = None ∧ is_Some (processes s'.2 !! id) ∧
  (∀ id', id' ≠ id → processes s'.2 !! id' = processes s.2 !! id') ∧
  (∀ id', (Run c io tty s).1 = Ok id' → id' = id) ∧
  ids_below s'.2 ∧ nextProcessID s'.2 = id + 1.
Proof.
  intros Hb H0 Hn id s'. destruct (Run_tracker c io tty s) as (p & Hp & Hid). fold id in Hp, Hid.
  subst s'. rewrite Hp. cbn. rewrite u32_small by (unfold is_u32; lia). split_and!.
  - destruct (processes s.2 !! id) eqn:E; [|done].
    destruct (Hb id) as [_ Hlt]; [by rewrite E|]. lia.
  - rewrite lookup_insert_eq. done.
  - intros id' Hne. by rewrite lookup_insert_ne.
  - done.
  - intros id' Hs. cbn in *. destruct (decide (id = id')) as [<-|Hne]; [unfold id; lia|].
    rewrite lookup_insert_ne in Hs by done. apply Hb in Hs. unfold id. lia.
  - done.
Qed.

(** Restoring a process after a restart reserves its id: every id in use stays
    below the next one to be handed out, whatever the order in which snapshots are
    restored, and the restored process is being linked. *)
Theorem Restore_reserves_id id tty s :
  ids_below s.2 → 0 ≤ nextProcessID s.2 → 0 ≤ id → id + 1 < 2 ^ 32 →
  let t' := (Restore id tty s).2.2 in
  (Restore id tty s).1 = Ok tt ∧ ids_below t' ∧ id < nextProcessID t' ∧
  nextProcessID s.2 ≤ nextProcessID t' ∧
  ∃ p, processes t' !! id = Some p ∧ p_id p = id ∧ p_withTty p = tty ∧ p_links p = 1%nat.
Proof.
  intros Hb H0 Hid Hn t'.
  assert (Ht : t' = modify_process id add_link
            (if nextProcessID s.2 <=? id then set_next (id + 1) (register id tty s.2)
             else register id tty s.2)).
  { subst t'. unfold Restore. cbn. by rewrite u32_small by (unfold is_u32; lia). }
  assert (Hnext : nextProcessID t' = if nextProcessID s.2 <=? id then id + 1 else nextProcessID s.2).
  { rewrite Ht. by destruct (nextProcessID s.2 <=? id). }
  assert (Hps : processes t' = <[id := add_link (NewProcess id tty)]> (processes s.2)).
  { rewrite Ht. destruct (nextProcessID s.2 <=? id); cbn; by rewrite alter_insert_eq. }
  split; [done|]. split_and!.
  - intros id' Hs. rewrite Hps in Hs. rewrite Hnext.
    destruct (decide (id = id')) as [<-|Hne]; [destruct (Z.leb_spec (nextProcessID s.2) id); lia|].
    rewrite lookup_insert_ne in Hs by done. apply Hb in Hs.
    destruct (Z.leb_spec (nextProcessID s.2) id); lia.
  - rewrite Hnext. destruct (Z.leb_spec (nextProcessID s.2) id); lia.
  - rewrite Hnext. destruct (Z.leb_spec (nextProcessID s.2) id); lia.
  - exists (add_link (NewProcess id tty)). by rewrite Hps, lookup_insert_eq.
Qed.

(** A process whose [iodaemon] dies before announcing itself is never
    unregistered: [Run] returns an error and yet, whatever the goroutines do
    afterwards, [UnlinkAll] (and so the container's [Cleanup]) blocks waiting for
    a link nobody starts. *)
Theorem failed_spawn_hangs_UnlinkAll `{K : Kernel} c io tty h t :
  let id := nextProcessID t in
  let sc := SBackground (spawn_cmd (containerPath t) id c tty) in
  (∃ e, sys_error h sc = Some e) ∨ count_lines (sys_output h sc) = O →
  ∃ e t', Run c io tty (h, t) = (Err e, (h ++ [sc], t')) ∧
    ∀ t'' h', rtc tracker_step t' t'' → (UnlinkAll (h', t'')).1 = Crash Blocked.
Proof.
  intros id sc Hfail.
  set (t' := register id (bool_decide (is_Some tty)) (set_next (u32 (id + 1)) t)).
  assert (Hrun : ∃ e, Run c io tty (h, t) = (Err e, (h ++ [sc], t'))).
  { unfold Run, alloc_id, mbind, M_bind, gets, modify_tracker, zoom, sys. cbn. fold id sc.
    destruct (sys_error h sc) as [e|] eqn:He; [by exists e|].
    destruct Hfail as [[e He']|H0]; [congruence|]. exists EOF. by rewrite H0. }
  destruct Hrun as [e Hrun]. exists e, t'. split; [done|]. intros t'' h' Hst.
  assert (Ho : orphan id t').
  { exists (NewProcess id (bool_decide (is_Some tty))). cbn. by rewrite lookup_insert_eq. }
  destruct (rtc_preserves _ _ _ _ (orphan_step id) Hst Ho) as (p & Hp & _ & Hl & _).
  by eapply UnlinkAll_blocked.
Qed.

(** ** Witnesses *)

Lemma Run_fresh_id_witness :
  ids_below (Run (K := spawn_kernel) (cmd "ls" [] []) (mkProcessIO true true true) None
               ([], New "/depot/a")).2.2.
Proof.
  apply (Run_fresh_id (H := spawn_kernel) (cmd "ls" [] []) (mkProcessIO true true true) None
           ([], New "/depot/a")); [|vm_compute; congruence|vm_compute; reflexivity].
  intros id [x Hx]. discriminate Hx.
Defined.

Lemma Restore_reserves_id_witness :
  9 < nextProcessID (Restore 9 true (@nil Syscall, New "/depot/a")).2.2.
Proof.
  apply (Restore_reserves_id 9 true ([], New "/depot/a"));
    [|vm_compute; congruence|vm_compute; congruence|vm_compute; reflexivity].
  intros id [x Hx]. discriminate Hx.
Defined.

Lemma failed_spawn_hangs_UnlinkAll_witness :
  ∃ e t', Run (K := spawn_dies_kernel) (cmd "ls" [] []) (mkProcessIO true true true) None
            ([], New "/depot/a") =
          (Err e, ([SBackground (spawn_cmd "/depot/a" 1 (cmd "ls" [] []) None)], t')) ∧
    ∀ t'' h', rtc tracker_step t' t'' → (UnlinkAll (K := spawn_dies_kernel) (h', t'')).1 = Crash Blocked.
Proof.
  apply (failed_spawn_hangs_UnlinkAll (K := spawn_dies_kernel) (cmd "ls" [] [])
           (mkProcessIO true true true) None [] (New "/depot/a")).
  right. reflexivity.
Defined.
