(* ===== verification/Iodaemon.v ===== *)
(** src/iodaemon: the program that holds a container process's pipes, so that the
    process outlives the daemon. [spawn] starts the process and serves one [link]
    after the other; a [link] relays the streams and ends with the exit status.

    [main] reads the arguments, [spawn_setup] is [spawn] up to its first line, and
    [apply_event] is what happens to it then: a link connects, sends, hangs up, or the
    child exits. An event that cannot happen in a state (a second link while one is
    served stays in the listen queue) leaves it alone. *)
From S2P Require Import Prelude GoStd OS Flag Ptyutil Warden Process ProcessTracker.
From Stdlib Require Import Ascii.

Local Open Scope string_scope.
Local Open Scope list_scope.
Local Open Scope Z_scope.

(** * main.go *)

Definition flag_defs (name : string) : option flag_kind :=
  if String.eqb name "timeout" then Some DurationFlag
  else if String.eqb name "tty" then Some BoolFlag
  else if String.eqb name "windowColumns" then Some IntFlag
  else if String.eqb name "windowRows" then Some IntFlag
  else None.

Record spawn_request := mkSpawn {
  sp_socketPath : string;
  sp_path : string;
  sp_argv : list string;
  sp_withTty : bool;
  sp_windowColumns : Z;
  sp_windowRows : Z
}.

Inductive command := DoSpawn (r : spawn_request) | DoLink (socketPath : string) | DoExit (code : Z).

(** [usage] exits with 1, a flag that does not parse with 2; without arguments
    [args[0]] panics. *)
Definition main (os_args : list string) : Result command :=
  match parse_flags flag_defs os_args with
  | Err _ => Ok (DoExit 2)
  | Crash c => Crash c
  | Ok (settings, []) => Crash (Panic "index out of range")
  | Ok (settings, arg0 :: args) =>
      if String.eqb arg0 "spawn" then
        match args with
        | socketPath :: ((path :: _) as argv) =>
            Ok (DoSpawn (mkSpawn socketPath path argv (bool_flag "tty" false settings)
                           (int_flag "windowColumns" 80 settings) (int_flag "windowRows" 24 settings)))
        | _ => Ok (DoExit 1)
        end
      else if String.eqb arg0 "link" then
        match args with
        | socketPath :: _ => Ok (DoLink socketPath)
        | [] => Ok (DoExit 1)
        end
      else Ok (DoExit 1)
  end.

(** * input.go *)

Record Input := mkInput {
  in_Data : string;
  in_EOF : bool;
  in_WindowSize : option WindowSize
}.

(** [inputWriter]: what it encodes. *)
Definition iw_Write (d : string) : Input := mkInput d false None.
Definition iw_Close : Input := mkInput "" true None.
Definition iw_SetWindowSize (cols rows : Z) : Input := mkInput "" false (Some (mkWindowSize cols rows)).

(** * spawn.go *)

(** [syscall.WaitStatus] *)
Definition Exited (w : Z) : bool := Z.land w 127 =? 0.
Definition ExitStatus (w : Z) : Z := if Exited w then Z.land (Z.shiftr w 8) 255 else -1.

Inductive child_state := NotStarted | ChildRunning | ChildExited (w : option Z) | ChildKilled.

(** [d_stdin] is [stdinW], [d_received] what was written to it; on a terminal it is
    [stdoutR] as well. [d_lines] is what was printed before the standard streams were
    closed, [d_status] what is in the status pipe, [d_exit] the daemon's exit code. *)
Record daemon := mkDaemon {
  d_tty : bool;
  d_bin : string;
  d_argv : list string;
  d_stdin : file;
  d_received : list string;
  d_lines : list string;
  d_pid : option Z;
  d_child : child_state;
  d_winches : nat;
  d_conn : bool;
  d_status : string;
  d_exit : option Z
}.

Definition set_d_stdin (f : file) (received : list string) (d : daemon) : daemon :=
  mkDaemon (d_tty d) (d_bin d) (d_argv d) f received (d_lines d) (d_pid d) (d_child d)
    (d_winches d) (d_conn d) (d_status d) (d_exit d).

Definition set_d_conn (conn : bool) (d : daemon) : daemon :=
  mkDaemon (d_tty d) (d_bin d) (d_argv d) (d_stdin d) (d_received d) (d_lines d) (d_pid d) (d_child d)
    (d_winches d) conn (d_status d) (d_exit d).

Definition signal_winch (d : daemon) : daemon :=
  mkDaemon (d_tty d) (d_bin d) (d_argv d) (d_stdin d) (d_received d) (d_lines d) (d_pid d) (d_child d)
    (S (d_winches d)) (d_conn d) (d_status d) (d_exit d).

(** [cmd.Start()] and [fmt.Println("pid:", cmd.Process.Pid)] *)
Definition start_child (pid : Z) (d : daemon) : daemon :=
  mkDaemon (d_tty d) (d_bin d) (d_argv d) (d_stdin d) (d_received d) (d_lines d ++ ["pid: " +:+ fmt_d pid])
    (Some pid) ChildRunning (d_winches d) (d_conn d) (d_status d) (d_exit d).

(** The daemon exits; a child that runs is killed with it ([Pdeathsig] of child_linux.go). *)
Definition exit_with (code : Z) (d : daemon) : daemon :=
  mkDaemon (d_tty d) (d_bin d) (d_argv d) (d_stdin d) (d_received d) (d_lines d) (d_pid d)
    (if d_child d is ChildRunning then ChildKilled else d_child d)
    (d_winches d) (d_conn d) (d_status d) (Some code).

(** The goroutine that waits for the child. *)
Definition child_exits (w : option Z) (d : daemon) : daemon :=
  mkDaemon (d_tty d) (d_bin d) (d_argv d) (d_stdin d) (d_received d) (d_lines d) (d_pid d)
    (ChildExited w) (d_winches d) (d_conn d)
    (d_status d +:+ match w with Some w => fmt_d (ExitStatus w) | None => "255" end +:+ nl) (Some 0).

(** [child] of child_linux.go: the command, with the path found and the arguments given. *)
Definition child (r : spawn_request) (bin : string) (stdin : file) : daemon :=
  mkDaemon (sp_withTty r) bin (sp_argv r) stdin [] [] None NotStarted 0 false "" None.

Section setup.
Context {K : Kernel}.

(** Up to [fmt.Println("ready")]; an error is [fatal]. *)
Definition spawn_setup (r : spawn_request) : M Trace daemon :=
  sys_ (SMkdirAll (Dir (sp_socketPath r))) ≫= λ _,
  sys_ (SListen "unix" (sp_socketPath r)) ≫= λ _,
  bin ← sys (SLookPath (sp_path r));
  sys_ SPipe ≫= λ _,
  stdinW ← (if sp_withTty r then
              sys_ SPtyOpen ≫= λ _,
              mret (SetWinSize (sp_windowColumns r) (sp_windowRows r) (PtyMaster (mkttySize 0 0 0 0))).2
            else sys_ SPipe ≫= λ _, sys_ SPipe ≫= λ _, mret PlainEnd);
  sys_ SPipe ≫= λ _,
  let d := child r bin stdinW in
  mret (mkDaemon (d_tty d) (d_bin d) (d_argv d) (d_stdin d) [] ["ready"] None NotStarted 0 false "" None).
End setup.

(** The descriptors that are sent to a link are valid: on a terminal [stdoutR] is [stdinW]. *)
Definition rights_valid (d : daemon) : bool := negb (d_tty d) || is_open (d_stdin d).

(** The body of the loop over a link's inputs; [ok]: whether closing or writing an open
    [stdinW] succeeds. *)
Definition handle_input (i : Input) (ok : bool) (d : daemon) : daemon :=
  match in_WindowSize i with
  | Some w => signal_winch (set_d_stdin (SetWinSize (Columns w) (Rows w) (d_stdin d)).2 (d_received d) d)
  | None =>
      let done := is_open (d_stdin d) && ok in
      let d' := if in_EOF i then set_d_stdin ClosedFile (d_received d) d
                else if done then set_d_stdin (d_stdin d) (d_received d ++ [in_Data i]) d
                else d in
      if done then d' else set_d_conn false d'
  end.

(** [Connect sent pid]: [Accept] returns; [sent] is whether the greeting can be written,
    [pid] what [cmd.Start] gives. *)
Inductive event :=
  | AcceptFails
  | Connect (sent : bool) (pid : option Z)
  | Receive (i : Input) (ok : bool)
  | Hangup
  | ChildExits (w : option Z).

Definition apply_event (d : daemon) (e : event) : daemon :=
  if d_exit d is Some _ then d
  else match e with
       | AcceptFails => if d_conn d then d else exit_with 1 d
       | Connect sent pid =>
           if d_conn d then d
           else if negb (sent && rights_valid d) then exit_with 0 d
           else match d_pid d, pid with
                | Some _, _ => set_d_conn true d
                | None, Some n => set_d_conn true (start_child n d)
                | None, None => exit_with 1 d
                end
       | Receive i ok => if d_conn d then handle_input i ok d else d
       | Hangup => set_d_conn false d
       | ChildExits w => if d_child d is ChildRunning then child_exits w d else d
       end.

Definition run_events (es : list event) (d : daemon) : daemon := foldl apply_event d es.

(** What the daemon has printed. *)
Definition printed (d : daemon) : string := foldr (λ line s, line +:+ nl +:+ s) "" (d_lines d).

(** * link.go *)

(** [fmt.Fscanf(status, "%d\n", &exitStatus)]: blanks, a sign, digits, then white space or
    the end. *)
Fixpoint skip_blanks (s : string) : string :=
  match s with
  | String c s' => if Ascii.eqb c " " || Ascii.eqb c "009" then skip_blanks s' else s
  | EmptyString => s
  end.

Definition Fscanf_d_newline (s : string) : Result Z :=
  let '(neg, t) := match skip_blanks s with
                   | String "-" t => (true, t)
                   | String "+" t => (false, t)
                   | t => (false, t)
                   end in
  let '(digits, rest) := span_digits t in
  n ← (if String.eqb digits "" then Err (errors_New "expected integer") else ParseUint digits);
  if (neg && (2 ^ 63 <? n)) || (negb neg && (2 ^ 63 <=? n)) then Err (ErrRange digits)
  else match rest with
       | EmptyString => Ok (if neg then - n else n)
       | String c _ => if is_space c then Ok (if neg then - n else n)
                       else Err (errors_New "newline in format does not match input")
       end.

(** What [link] gets to read first: control messages, each the descriptors it carries if it
    carries rights. *)
Inductive greeting :=
  | DialFails
  | ReadFails
  | ParseFails
  | Greeted (scms : list (option (list Z))).

(** The exit code of [link], when the streams have ended and the status pipe holds [status]. *)
Definition link (g : greeting) (status : string) : Z :=
  match g with
  | Greeted (Some fds :: _) =>
      if (length fds =? 3)%nat then
        match Fscanf_d_newline status with Ok n => n mod 256 | _ => 1 end
      else 1
  | _ => 1
  end.

(** What happens to a link: its standard input brings data or ends, its terminal is resized. *)
Inductive link_event := StdinData (d : string) | StdinEOF | Resized (rows cols : Z).

Definition link_sends (e : link_event) : Input :=
  match e with
  | StdinData d => iw_Write d
  | StdinEOF => iw_Close
  | Resized rows cols => iw_SetWindowSize cols rows
  end.

(** * Whole runs *)

(** One link from its connection to its end: it gets its greeting, and the process takes
    everything that is written to it. *)
Definition session (pid : Z) (es : list link_event) : list event :=
  Connect true (Some pid) :: map (λ e, Receive (link_sends e) true) es ++ [Hangup].

Definition sessions (pid : Z) (ls : list (list link_event)) : list event := concat (map (session pid) ls).

(** The data sent before the end of the input. *)
Fixpoint data_until_EOF (es : list link_event) : list string :=
  match es with
  | [] => []
  | StdinData d :: es' => d :: data_until_EOF es'
  | StdinEOF :: _ => []
  | Resized _ _ :: es' => data_until_EOF es'
  end.

Definition no_EOF (es : list link_event) : bool :=
  forallb (λ e, if e is StdinEOF then false else true) es.

(** The program started with [os_args], after [es]: the daemon, if it is one and got ready. *)
Definition iodaemon_run `{K : Kernel} (os_args : list string) (h : Trace) (es : list event) : option daemon :=
  match main os_args with
  | Ok (DoSpawn r) => if spawn_setup r h is (Ok d, _) then Some (run_events es d) else None
  | _ => None
  end.

Definition iodaemon_prints `{K : Kernel} (os_args : list string) (h : Trace) (es : list event) : string :=
  if iodaemon_run os_args h es is Some d then printed d else "".

(** * Lemmas *)

(** ** The loop *)

Lemma run_events_app es es' d : run_events (es ++ es') d = run_events es' (run_events es d).
Proof. apply foldl_app. Qed.

Lemma run_events_inv (I : daemon → Prop) es d :
  (∀ d e, I d → I (apply_event d e)) → I d → I (run_events es d).
Proof. intros Hstep. revert d. induction es as [|e es IH]; intros d Hd; [done|]. apply IH. by apply Hstep. Qed.

Lemma exited_stays code es d : d_exit d = Some code → run_events es d = d.
Proof.
  intros Hd. induction es as [|e es IH]; [done|]. cbn. unfold apply_event. by rewrite Hd.
Qed.

Ltac event_cases d e :=
  unfold apply_event; destruct (d_exit d) as [code|] eqn:?; [|destruct e as [|sent pid|i ok| |w]];
  unfold handle_input; repeat case_match.

(** Nothing is written once [stdinW] is closed. *)
Lemma closed_stays d e :
  is_open (d_stdin d) = false →
  is_open (d_stdin (apply_event d e)) = false ∧ d_received (apply_event d e) = d_received d.
Proof.
  intros Hc. event_cases d e; simplify_eq/=;
    rewrite ?SetWinSize_open; repeat split; try done; by rewrite Hc in *.
Qed.

Lemma closed_runs es d :
  is_open (d_stdin d) = false →
  is_open (d_stdin (run_events es d)) = false ∧ d_received (run_events es d) = d_received d.
Proof.
  intros Hc. apply (run_events_inv (λ d', is_open (d_stdin d') = false ∧ d_received d' = d_received d)).
  - intros d' e [H1 <-]. by apply closed_stays.
  - done.
Qed.

(** The status pipe is empty while the daemon runs. *)
Definition status_empty (d : daemon) : Prop := d_exit d = None → d_status d = "".

Lemma status_empty_step d e : status_empty d → status_empty (apply_event d e).
Proof.
  intros Hs. unfold status_empty in *. event_cases d e; simplify_eq/=; intros; try done; try congruence; auto.
Qed.

(** The lines printed say whether the child has been started, and as what. *)
Definition announced (d : daemon) : Prop :=
  d_lines d = "ready" :: match d_pid d with Some n => ["pid: " +:+ fmt_d n] | None => [] end.

Lemma announced_step d e : announced d → announced (apply_event d e).
Proof.
  intros Ha. unfold announced in *. event_cases d e; simplify_eq/=; rewrite ?Ha; try done.
  all: repeat match goal with H : d_pid _ = _ |- _ => rewrite H in *; clear H end; try done.
Qed.

Lemma same_program_step d e :
  d_bin (apply_event d e) = d_bin d ∧ d_argv (apply_event d e) = d_argv d ∧ d_tty (apply_event d e) = d_tty d.
Proof. event_cases d e; done. Qed.

Section setup_lemmas.
Context {K : Kernel}.

(** What [spawn_setup] makes, when it succeeds. *)
Lemma spawn_setup_fresh r h d h' :
  spawn_setup r h = (Ok d, h') →
  d_tty d = sp_withTty r ∧ d_argv d = sp_argv r ∧ is_open (d_stdin d) = true ∧ d_received d = [] ∧
  announced d ∧ d_pid d = None ∧ d_child d = NotStarted ∧ d_conn d = false ∧ d_status d = "" ∧ d_exit d = None.
Proof.
  unfold spawn_setup. intros H.
  repeat match type of H with
         | (_ ≫= _) _ = _ => apply bind_Ok_inv in H as (? & ? & ? & H)
         end.
  injection H as <- _. cbn. split_and!; try done.
  destruct (sp_withTty r);
    repeat match goal with
           | H : (_ ≫= _) _ = _ |- _ => apply bind_Ok_inv in H as (? & ? & ? & H)
           | H : mret _ _ = _ |- _ => injection H as <- _
           end; done.
Qed.
End setup_lemmas.

(** ** Counting lines *)

Lemma count_lines_app s t : count_lines (s +:+ t) = (count_lines s + count_lines t)%nat.
Proof.
  induction s as [|c s IH]; [done|]. change (String c s +:+ t) with (String c (s +:+ t)). cbn.
  rewrite IH. by destruct (Ascii.eqb c newline).
Qed.

Lemma count_lines_free s : free_of newline s → count_lines s = O.
Proof.
  unfold free_of. induction s as [|c s IH]; [done|]. cbn. destruct (Ascii.eqb c newline); [done|]. auto.
Qed.

Lemma fmt_d_no_newline n : free_of newline (fmt_d n).
Proof.
  destruct (Z.ltb_spec n 0) as [Hn|Hn]; [|by apply fmt_d_free_of].
  unfold fmt_d. replace (n <? 0) with true by lia. unfold free_of. cbn [all_chars].
  change (negb (Ascii.eqb "-" newline)) with true. rewrite andb_true_l.
  apply digits_free_of; [done|]. by apply dec_digits_all_digits.
Qed.

Lemma count_lines_printed d :
  announced d → count_lines (printed d) = if d_pid d is Some _ then 2%nat else 1%nat.
Proof.
  unfold announced, printed. intros ->. destruct (d_pid d) as [n|]; [|done]. cbn [foldr].
  rewrite !count_lines_app. change (count_lines nl) with 1%nat. change (count_lines "") with 0%nat.
  rewrite (count_lines_free (fmt_d n)) by apply fmt_d_no_newline. done.
Qed.

(** ** Sessions *)

Definition receives (es : list link_event) : list event := map (λ e, Receive (link_sends e) true) es.

(** What a link sends changes neither the child nor whether the daemon runs. *)
Lemma receive_frame d i ok :
  let d' := apply_event d (Receive i ok) in
  d_exit d' = d_exit d ∧ d_child d' = d_child d ∧ d_pid d' = d_pid d ∧ d_tty d' = d_tty d.
Proof.
  unfold apply_event. destruct (d_exit d) eqn:E; [done|]. destruct (d_conn d); [|done].
  unfold handle_input. repeat case_match; done.
Qed.

Lemma receives_frame es d :
  let d' := run_events (receives es) d in
  d_exit d' = d_exit d ∧ d_child d' = d_child d ∧ d_pid d' = d_pid d ∧ d_tty d' = d_tty d.
Proof.
  revert d. induction es as [|e es IH]; intros d; [done|].
  destruct (receive_frame d (link_sends e) true) as (E1 & E2 & E3 & E4).
  destruct (IH (apply_event d (Receive (link_sends e) true))) as (F1 & F2 & F3 & F4).
  change (run_events (receives (e :: es)) d)
    with (run_events (receives es) (apply_event d (Receive (link_sends e) true))). cbn zeta. split_and!; congruence.
Qed.

Lemma receives_open es d :
  d_exit d = None → d_conn d = true → is_open (d_stdin d) = true →
  let d' := run_events (receives es) d in
  d_received d' = d_received d ++ data_until_EOF es ∧ is_open (d_stdin d') = no_EOF es.
Proof.
  revert d. induction es as [|e es IH]; intros d He Hc Ho; [by rewrite app_nil_r|].
  change (run_events (receives (e :: es)) d)
    with (run_events (receives es) (apply_event d (Receive (link_sends e) true))).
  unfold apply_event. rewrite He, Hc. destruct e as [data| |rows cols]; cbn [link_sends].
  - unfold handle_input, iw_Write. cbn [in_WindowSize in_EOF in_Data]. rewrite Ho. cbn [andb].
    destruct (IH (set_d_stdin (d_stdin d) (d_received d ++ [data]) d) He Hc Ho) as [-> ->].
    cbn. by rewrite <-app_assoc.
  - unfold handle_input, iw_Close. cbn [in_WindowSize in_EOF]. rewrite Ho. cbn [andb].
    match goal with |- context [run_events _ ?x] => destruct (closed_runs (receives es) x) as [-> ->]; [done|] end.
    cbn. by rewrite app_nil_r.
  - unfold handle_input, iw_SetWindowSize. cbn [in_WindowSize Columns Rows].
    match goal with |- context [run_events _ ?x] => destruct (IH x) as [-> ->] end; try done.
    cbn. by rewrite SetWinSize_open.
Qed.

(** A daemon between two links, its child alive or still to be started. *)
Definition waiting (d : daemon) : Prop :=
  d_exit d = None ∧ d_conn d = false ∧ (d_pid d = None → d_child d = NotStarted) ∧
  (is_Some (d_pid d) → d_child d = ChildRunning).

Lemma connect_waiting pid d :
  waiting d → rights_valid d = true →
  let d' := apply_event d (Connect true (Some pid)) in
  d_exit d' = None ∧ d_conn d' = true ∧ is_Some (d_pid d') ∧ d_child d' = ChildRunning ∧
  d_stdin d' = d_stdin d ∧ d_received d' = d_received d ∧ d_tty d' = d_tty d.
Proof.
  intros (He & Hc & Hn & Hs) Hv. unfold apply_event. rewrite He, Hc, Hv. cbn [andb negb].
  destruct (d_pid d) eqn:Hp; cbn; rewrite ?Hp; split_and!; eauto.
Qed.

(** A session that gets its greeting. *)
Lemma session_runs pid es d :
  waiting d → rights_valid d = true →
  let d' := run_events (session pid es) d in
  waiting d' ∧ is_Some (d_pid d') ∧ d_tty d' = d_tty d ∧
  (is_open (d_stdin d) = true →
     d_received d' = d_received d ++ data_until_EOF es ∧ is_open (d_stdin d') = no_EOF es).
Proof.
  intros Hw Hv. destruct (connect_waiting pid d Hw Hv) as (He & Hc & Hp & Hch & Hst & Hr & Ht).
  unfold session. change (Connect ?a ?b :: ?l ++ ?r) with ([Connect a b] ++ l ++ r).
  rewrite !run_events_app. cbn [run_events foldl].
  set (d1 := apply_event d (Connect true (Some pid))) in *.
  destruct (receives_frame es d1) as (F1 & F2 & F3 & F4).
  set (d2 := run_events (receives es) d1) in *.
  assert (E : apply_event d2 Hangup = set_d_conn false d2) by (unfold apply_event; by rewrite F1, He).
  cbn zeta. fold (receives es) d2. rewrite E. unfold waiting. cbn. rewrite F1, F2, F3, F4, He, Hch, Ht.
  split_and!; [done|done|intros Hn; by rewrite Hn in Hp; destruct Hp|done|done|done|].
  intros Ho. rewrite <-Hst in Ho. rewrite <-Hr. by apply receives_open.
Qed.

Lemma data_until_EOF_app es es' :
  data_until_EOF (es ++ es') = data_until_EOF es ++ (if no_EOF es then data_until_EOF es' else []).
Proof.
  induction es as [|e es IH]; [done|]. destruct e as [data| |rows cols]; cbn; [by rewrite IH|done|exact IH].
Qed.

Lemma no_EOF_app es es' : no_EOF (es ++ es') = no_EOF es && no_EOF es'.
Proof. apply forallb_app. Qed.

Lemma sessions_survive pid ls d :
  waiting d → is_Some (d_pid d) → d_tty d = false →
  let d' := run_events (sessions pid ls) d in waiting d' ∧ d_child d' = ChildRunning.
Proof.
  revert d. induction ls as [|es ls IH]; intros d Hw Hp Ht; [split; [done|by apply Hw]|].
  change (sessions pid (es :: ls)) with (session pid es ++ sessions pid ls). rewrite run_events_app.
  assert (Hv : rights_valid d = true) by (unfold rights_valid; by rewrite Ht).
  destruct (session_runs pid es d Hw Hv) as (Hw2 & Hp2 & Ht2 & _). apply IH; congruence.
Qed.

(** The daemon survives any number of links. *)
Lemma sessions_run pid ls d :
  waiting d → is_open (d_stdin d) = true →
  let d' := run_events (sessions pid ls) d in
  d_received d' = d_received d ++ data_until_EOF (concat ls) ∧
  is_open (d_stdin d') = no_EOF (concat ls) ∧
  (d_tty d = false ∨ no_EOF (concat ls) = true → waiting d' ∧ (ls ≠ [] → d_child d' = ChildRunning)).
Proof.
  revert d. induction ls as [|es ls IH]; intros d Hw Ho; [cbn; by rewrite app_nil_r|].
  change (sessions pid (es :: ls)) with (session pid es ++ sessions pid ls). cbn [concat]. rewrite run_events_app.
  assert (Hv : rights_valid d = true) by (unfold rights_valid; rewrite Ho; apply orb_true_r).
  destruct (session_runs pid es d Hw Hv) as (Hw' & Hp' & Ht' & Hrecv). specialize (Hrecv Ho) as [Hr Ho'].
  set (d1 := run_events (session pid es) d) in *. cbn zeta.
  rewrite data_until_EOF_app, no_EOF_app. destruct (no_EOF es).
  - destruct (IH d1 Hw' Ho') as (Hr2 & Hop & Hlive). rewrite Hr2, Hr, <-app_assoc.
    split; [done|]. split; [done|].
    rewrite Ht' in Hlive. intros Hor. destruct (Hlive Hor) as [Hw2 Hch]. split; [done|]. intros _.
    destruct ls; [apply Hw'; done|by apply Hch].
  - destruct (closed_runs (sessions pid ls) d1 Ho') as [-> ->]. rewrite app_nil_r, Hr.
    split; [done|]. split; [done|]. intros [Ht|?]; [|done].
    destruct (sessions_survive pid ls d1) as [? Hch]; [done..|congruence|]. by split.
Qed.

(** ** Arguments *)

(** The request that the tracker's command stands for. *)
Definition requested (containerPath : string) (id : Z) (c : Cmd) (tty : option TTYSpec) : spawn_request :=
  let size := tty ≫= tty_WindowSize in
  mkSpawn (processSock containerPath id) (Path c) (Path c :: Args c) (bool_decide (is_Some tty))
    (from_option Columns 80 size) (from_option Rows 24 size).

Definition is_int (z : Z) : Prop := - 2 ^ 63 ≤ z < 2 ^ 63.

Definition tty_ints (tty : option TTYSpec) : Prop :=
  ∀ w, tty ≫= tty_WindowSize = Some w → is_int (Columns w) ∧ is_int (Rows w).

Lemma parse_flags_stop args : 
  parse_flags flag_defs ("spawn" :: args) = Ok ([], "spawn" :: args).
Proof. done. Qed.

Lemma parse_tty_flag args :
  parse_flags flag_defs ("-tty" :: args) =
    '(l, rest) ← parse_flags flag_defs args; Ok (("tty", VBool true) :: l, rest).
Proof. done. Qed.

Lemma parse_int_flag name n args :
  name = "windowColumns" ∨ name = "windowRows" → is_int n →
  parse_flags flag_defs (("-" +:+ name +:+ "=" +:+ fmt_d n) :: args) =
    '(l, rest) ← parse_flags flag_defs args; Ok ((name, VInt n) :: l, rest).
Proof.
  intros Hname Hn.
  assert (E : read_arg ("-" +:+ name +:+ "=" +:+ fmt_d n) = AFlag name (Some (fmt_d n))).
  { by destruct Hname as [-> | ->]. }
  cbn [parse_flags]. rewrite E.
  assert (Ed : flag_defs name = Some IntFlag) by (by destruct Hname as [-> | ->]).
  rewrite Ed. cbn [set_flag]. by rewrite ParseInt0_fmt_d.
Qed.

Lemma main_spawn cp id c tty :
  tty_ints tty →
  main (drop 3 (Args (spawn_cmd cp id c tty))) = Ok (DoSpawn (requested cp id c tty)).
Proof.
  intros Hi. destruct tty as [[[[cols rows]|]]|]; [|done..].
  destruct (Hi (mkWindowSize cols rows) eq_refl) as [Hc Hr]. cbn in Hc, Hr.
  change (drop 3 _) with (["-tty"; "-" +:+ "windowColumns" +:+ "=" +:+ fmt_d cols;
    "-" +:+ "windowRows" +:+ "=" +:+ fmt_d rows] ++ "spawn" :: processSock cp id :: Path c :: Args c).
  unfold main. cbn [app]. rewrite parse_tty_flag, !parse_int_flag by (done || by constructor).
  rewrite parse_flags_stop. done.
Qed.

(** ** The exit status *)

Lemma land_255 z : 0 ≤ Z.land z 255 < 256.
Proof. change 255 with (Z.ones 8). rewrite Z.land_ones by lia. by apply Z.mod_pos_bound. Qed.

Lemma ExitStatus_range w : ExitStatus w = -1 ∨ 0 ≤ ExitStatus w < 256.
Proof. unfold ExitStatus. destruct (Exited w); [right; apply land_255|by left]. Qed.

Definition small_status_ok (n : Z) : bool :=
  match Fscanf_d_newline (fmt_d n +:+ nl) with Ok m => m =? n | _ => false end.

Lemma statuses_read : forallb small_status_ok (seqZ (-1) 257) = true.
Proof. by vm_compute. Qed.

(** Every status a process can have is read back. *)
Lemma Fscanf_status w : Fscanf_d_newline (fmt_d (ExitStatus w) +:+ nl) = Ok (ExitStatus w).
Proof.
  assert (H : small_status_ok (ExitStatus w) = true).
  { apply (proj1 (forallb_forall _ _) statuses_read), list_elem_of_In, elem_of_seqZ.
    pose proof (ExitStatus_range w). lia. }
  unfold small_status_ok in H. destruct (Fscanf_d_newline _) as [m|e|f]; [|done..].
  f_equal. lia.
Qed.

(** * Properties *)

(** C18: a process survives its links and gets all of its input. However many links
    attach one after the other, each getting its greeting and relaying data and resizes
    until it hangs up, and as long as the process takes what is written to it, the process
    receives the data they sent, in order, up to the first end of input; and the daemon
    and the process are alive afterwards, unless the process has a terminal and its input
    was closed. (A greeting that fails kills the daemon: [failed_greeting_kills].) *)
Theorem stdin_relayed `{Kernel} r h d h' pid ls :
  spawn_setup r h = (Ok d, h') →
  let d' := run_events (sessions pid ls) d in
  d_received d' = data_until_EOF (concat ls) ∧
  (sp_withTty r = false ∨ no_EOF (concat ls) = true →
   d_exit d' = None ∧ (ls ≠ [] → d_child d' = ChildRunning)).
Proof.
  intros Hs d'. apply spawn_setup_fresh in Hs as (Ht & _ & Ho & Hr & _ & Hp & Hc & Hcn & _ & He).
  assert (Hw : waiting d) by (unfold waiting; rewrite Hp; by split_and!; [..|intros []]).
  destruct (sessions_run pid ls d Hw Ho) as (H1 & _ & H2). rewrite Hr in H1. split; [done|].
  rewrite <-Ht. intros Hor. destruct (H2 Hor) as [[? _] ?]. by split.
Qed.

(** C14: the tracker's [Run] succeeds exactly when [iodaemon] has started the requested
    program: if the spawn command runs, and what it prints is what [iodaemon] prints for its
    arguments, whatever has happened to it so far, [Run] returns an id if and only if
    it got ready and started a child, and the child was asked to run with the
    path and arguments of the request, on a terminal if and only if one was asked for (of a
    size that fits into an [int]). *)
Theorem Run_starts_child `{K : Kernel} c io tty h t h0 es :
  let cp := containerPath t in
  let sc := SBackground (spawn_cmd cp (nextProcessID t) c tty) in
  let args := drop 3 (Args (spawn_cmd cp (nextProcessID t) c tty)) in
  tty_ints tty → sys_error h sc = None → sys_output h sc = iodaemon_prints args h0 es →
  ((Run c io tty (h, t)).1 = Ok (nextProcessID t) ↔
   ∃ d, iodaemon_run args h0 es = Some d ∧ is_Some (d_pid d)) ∧
  (∀ d, iodaemon_run args h0 es = Some d →
   d_argv d = Path c :: Args c ∧ d_tty d = bool_decide (is_Some tty)).
Proof.
  intros cp sc args Hi He Ho.
  assert (Hrun : (Run c io tty (h, t)).1 = Ok (nextProcessID t) ↔ (2 ≤ count_lines (sys_output h sc))%nat).
  { unfold Run, alloc_id, mbind, M_bind, gets, modify_tracker, zoom, sys. cbn. fold cp sc. rewrite He.
    destruct (count_lines (sys_output h sc)) as [|[|n]]; cbn; split; intros; (done || lia). }
  rewrite Hrun, Ho. unfold iodaemon_prints, iodaemon_run, args, cp. rewrite main_spawn by done.
  destruct (spawn_setup _ h0) as [[d0|e|f] h1] eqn:Es; [|split; [split; [cbn; lia|by intros (? & ? & _)]|done]..].
  apply spawn_setup_fresh in Es as (Ht & Ha & _ & _ & Hl & _).
  set (d := run_events es d0).
  assert (Hd : announced d ∧ d_argv d = d_argv d0 ∧ d_tty d = d_tty d0).
  { apply (run_events_inv (λ d', announced d' ∧ d_argv d' = d_argv d0 ∧ d_tty d' = d_tty d0)); [|done].
    intros d1 e (H1 & <- & <-). destruct (same_program_step d1 e) as (_ & -> & ->).
    split; [by apply announced_step|done]. }
  destruct Hd as (Hl' & Ha' & Ht'). rewrite count_lines_printed by done. split.
  - split.
    + intros Hn. exists d. split; [done|]. destruct (d_pid d); [done|lia].
    + intros (? & [= <-] & [n Hn]). rewrite Hn. lia.
  - intros ? [= <-]. by rewrite Ha', Ht', Ha, Ht.
Qed.

(** C19: the exit status of the process reaches the exit code of the link: when the child
    exits, the daemon ends with success, and a link that has got its three descriptors
    exits with the child's status if the child exited by itself, and with 255 if a signal ended
    it or its state is unknown. *)
Theorem exit_status_relayed d w a b c :
  d_exit d = None → d_child d = ChildRunning → d_status d = "" →
  let d' := apply_event d (ChildExits w) in
  d_exit d' = Some 0 ∧
  link (Greeted [Some [a; b; c]]) (d_status d') =
    match w with Some w => if Exited w then Z.land (Z.shiftr w 8) 255 else 255 | None => 255 end.
Proof.
  intros He Hc Hst. unfold apply_event. rewrite He, Hc. unfold child_exits. cbn [d_exit d_status].
  split; [done|]. rewrite Hst. destruct w as [w|]; [|done].
  change ("" +:+ fmt_d (ExitStatus w) +:+ nl) with (fmt_d (ExitStatus w) +:+ nl).
  unfold link. cbn [length Nat.eqb]. rewrite Fscanf_status.
  unfold ExitStatus. destruct (Exited w); [|done]. by apply Z.mod_small, land_255.
Qed.

(** A greeting that cannot be written ends the process. When a link disconnects
    before it got its descriptors, and on a terminal whenever a link connects after the
    input was closed (the descriptor of the output is the one of the input), the daemon
    leaves its loop and exits with success, the process is killed, and no status is
    written: whoever waits for it is told that it exited with 1. *)
Theorem failed_greeting_kills `{Kernel} r h d h' pid ls es sent g :
  spawn_setup r h = (Ok d, h') → no_EOF (concat ls) = true →
  (sent = false ∨ sp_withTty r = true ∧ no_EOF es = false) →
  let d' := run_events (sessions pid ls ++ session pid es ++ [Connect sent (Some pid)]) d in
  d_exit d' = Some 0 ∧ d_child d' = ChildKilled ∧ d_status d' = "" ∧ link g (d_status d') = 1.
Proof.
  intros Hs Hls Hcase d'.
  apply spawn_setup_fresh in Hs as (Ht & _ & Ho & _ & _ & Hp & Hc & Hcn & Hst & He).
  assert (Hw : waiting d) by (unfold waiting; rewrite Hp; by split_and!; [..|intros []]).
  destruct (sessions_run pid ls d Hw Ho) as (_ & Ho1 & Hw1). rewrite Hls in Ho1, Hw1.
  destruct (Hw1 (or_intror eq_refl)) as [Hw1' _]. clear Hw1.
  assert (E : d' = apply_event (run_events (session pid es) (run_events (sessions pid ls) d)) (Connect sent (Some pid))).
  { subst d'. by rewrite !run_events_app. }
  assert (Ht1 : d_tty (run_events (sessions pid ls) d) = d_tty d).
  { apply (run_events_inv (λ x, d_tty x = d_tty d)); [|done]. intros x e <-. apply same_program_step. }
  set (d1 := run_events (sessions pid ls) d) in *.
  assert (Hv : rights_valid d1 = true) by (unfold rights_valid; rewrite Ho1; apply orb_true_r).
  destruct (session_runs pid es d1 Hw1' Hv) as ((He2 & Hc2 & _ & Hch2) & Hp2 & Ht2 & Ho2).
  specialize (Ho2 Ho1) as [_ Ho2].
  assert (Hempty : status_empty (run_events (session pid es) d1)).
  { do 2 (apply run_events_inv; [apply status_empty_step|]). by intros _. }
  specialize (Hch2 Hp2). set (d2 := run_events (session pid es) d1) in *.
  assert (Hs2 : d_status d2 = "") by auto.
  assert (Hbad : sent && rights_valid d2 = false).
  { unfold rights_valid. rewrite Ho2, Ht2, Ht1, Ht. destruct Hcase as [-> | [-> ->]]; [done|]. apply andb_false_r. }
  clearbody d2 d'. rewrite E. unfold apply_event. rewrite He2, Hc2, Hbad. unfold exit_with. cbn. rewrite Hch2, Hs2.
  split_and!; try done. by destruct g as [| | |[|[fds|] scms]]; cbn; repeat case_match.
Qed.

(** Resizing a process's terminal reaches the process. [SetTTY] sets the terminal
    between the daemon and the link to the size asked for, modulo 2^16; the link, told
    of the change, sends the size it reads there; [iodaemon] gives the process's terminal that
    size and signals the process. *)
Theorem resize_reaches_process tty w p d s0 s1 :
  tty_WindowSize tty = Some w → p_linked p = true → p_pty p = Some (PtyMaster s0) →
  fw_closed (p_stdin p) = false →
  d_exit d = None → d_conn d = true → d_stdin d = PtyMaster s1 →
  let size := mkttySize (u16 (Rows w)) (u16 (Columns w)) 0 0 in
  let p' := (SetTTY tty None p).2 in
  let d' := apply_event d (Receive (link_sends (Resized (ts_Rows size) (ts_Cols size))) true) in
  (SetTTY tty None p).1 = Ok tt ∧ p_pty p' = Some (PtyMaster size) ∧
  d_stdin d' = PtyMaster size ∧ d_winches d' = S (d_winches d) ∧ d_conn d' = true.
Proof.
  intros Hw Hl Hp Hc He Hcn Hd size p' d'. subst p' d'. unfold SetTTY, apply_event.
  rewrite Hl, Hp, Hw, Hc, He, Hcn. cbn [negb SetWinSize fst snd]. split_and!; try done.
  cbn -[u16]. rewrite Hd. cbn -[u16]. by rewrite !u16_u16.
Qed.

(** ** Witnesses *)

Definition cat_request (tty : bool) : spawn_request := mkSpawn "/s/1.sock" "cat" ["cat"] tty 80 24.

Definition cat_daemon (tty : bool) : daemon :=
  mkDaemon tty "" ["cat"] (if tty then PtyMaster (mkttySize 24 80 0 0) else PlainEnd) [] ["ready"] None NotStarted
    0 false "" None.

Lemma stdin_relayed_witness :
  d_received (run_events (sessions 12 [[StdinData "a"]; [StdinData "b"; StdinEOF]; [StdinData "c"]]) (cat_daemon false)) =
    ["a"; "b"].
Proof.
  apply (stdin_relayed (H := quiet_kernel) (cat_request false) [] (cat_daemon false)
           [SMkdirAll "/s"; SListen "unix" "/s/1.sock"; SLookPath "cat"; SPipe; SPipe; SPipe; SPipe] 12
           [[StdinData "a"]; [StdinData "b"; StdinEOF]; [StdinData "c"]]).
  vm_compute. reflexivity.
Defined.

Lemma Run_starts_child_witness :
  (Run (K := spawn_kernel) (cmd "ls" ["-l"] []) (mkProcessIO true true true) None ([], New "/depot/a")).1 = Ok 1 ↔
  ∃ d, iodaemon_run (K := quiet_kernel) (drop 3 (Args (spawn_cmd "/depot/a" 1 (cmd "ls" ["-l"] []) None))) []
         [Connect true (Some 12)] = Some d ∧ is_Some (d_pid d).
Proof.
  apply (Run_starts_child (K := spawn_kernel) (cmd "ls" ["-l"] []) (mkProcessIO true true true) None []
           (New "/depot/a") [] [Connect true (Some 12)]).
  - intros w. discriminate.
  - reflexivity.
  - vm_compute. reflexivity.
Defined.

Lemma exit_status_relayed_witness :
  link (Greeted [Some [3; 4; 5]]) (d_status (apply_event (run_events [Connect true (Some 12)] (cat_daemon false))
    (ChildExits (Some (42 * 256))))) = 42.
Proof.
  apply (exit_status_relayed (run_events [Connect true (Some 12)] (cat_daemon false)) (Some (42 * 256)) 3 4 5);
    reflexivity.
Defined.

Lemma failed_greeting_kills_witness :
  d_child (run_events (sessions 12 [] ++ session 12 [StdinData "a"; StdinEOF] ++ [Connect true (Some 12)])
    (cat_daemon true)) = ChildKilled.
Proof.
  apply (failed_greeting_kills (H := quiet_kernel) (cat_request true) [] (cat_daemon true)
           [SMkdirAll "/s"; SListen "unix" "/s/1.sock"; SLookPath "cat"; SPipe; SPtyOpen; SPipe] 12 []
           [StdinData "a"; StdinEOF] true DialFails).
  - vm_compute. reflexivity.
  - reflexivity.
  - right. split; reflexivity.
Defined.

Definition linked_tty_process : Process := set_linked (open_pty (NewProcess 7 true)).

Lemma resize_reaches_process_witness :
  d_stdin (apply_event (run_events [Connect true (Some 12)] (cat_daemon true))
             (Receive (link_sends (Resized 50 200)) true)) = PtyMaster (mkttySize 50 200 0 0).
Proof.
  apply (resize_reaches_process (mkTTYSpec (Some (mkWindowSize 200 50))) (mkWindowSize 200 50) linked_tty_process
           (run_events [Connect true (Some 12)] (cat_daemon true)) (mkttySize 0 0 0 0) (mkttySize 24 80 0 0));
    reflexivity.
Defined.
