(* ===== verification/LinuxContainer.v ===== *)
(** linux_backend/linux_container.go: a container and its operations.

    An operation runs on [CState]: the trace of outside calls, the host port pool
    all containers share, and the container itself. The pool is any
    implementation of the interface [ResourcePool]. Each mutex of the source
    protects one field and is released on every path, so an operation is one
    step; the goroutine that waits for the OOM notifier is [watchForOom], the
    notifiers it waits for are the field [c_oomWatchers]. *)
From S2P Require Import Prelude GoStd OS ResourcePool Net Network Warden MemoryStat Snapshot.
From S2P Require CgroupsManager QuotaManager BandwidthManager PortPool.
From S2P Require Import Process ProcessTracker.

Local Open Scope string_scope.
Local Open Scope list_scope.
Local Open Scope Z_scope.

Abbreviation ContainerCgroupsManager := CgroupsManager.ContainerCgroupsManager.
Abbreviation LinuxQuotaManager := QuotaManager.LinuxQuotaManager.
Abbreviation ContainerBandwidthManager := BandwidthManager.ContainerBandwidthManager.

(** * State *)

(** The fields no operation assigns. *)
Record ContainerConf := mkConf {
  k_id : string;
  k_handle : string;
  k_path : string;
  k_properties : Properties;
  k_graceTime : Z;
  k_cgroupsManager : ContainerCgroupsManager;
  k_quotaManager : LinuxQuotaManager;
  k_bandwidthManager : ContainerBandwidthManager
}.

Record LinuxContainer := mkLinuxContainer {
  c_conf : ContainerConf;
  c_state : string;
  c_events : list string;
  c_resources : Resources;
  c_processTracker : ProcessTracker;
  c_oomNotifier : option Cmd;
  c_oomWatchers : list Cmd;
  c_currentBandwidthLimits : option BandwidthLimits;
  c_currentDiskLimits : option DiskLimits;
  c_currentMemoryLimits : option MemoryLimits;
  c_currentCPULimits : option CPULimits;
  c_netIns : list NetInSpec;
  c_netOuts : list NetOutSpec
}.

Definition c_id (c : LinuxContainer) : string := k_id (c_conf c).
Definition c_handle (c : LinuxContainer) : string := k_handle (c_conf c).
Definition c_path (c : LinuxContainer) : string := k_path (c_conf c).
Definition c_properties (c : LinuxContainer) : Properties := k_properties (c_conf c).
Definition c_graceTime (c : LinuxContainer) : Z := k_graceTime (c_conf c).
Definition c_cgroupsManager (c : LinuxContainer) : ContainerCgroupsManager := k_cgroupsManager (c_conf c).
Definition c_quotaManager (c : LinuxContainer) : LinuxQuotaManager := k_quotaManager (c_conf c).
Definition c_bandwidthManager (c : LinuxContainer) : ContainerBandwidthManager := k_bandwidthManager (c_conf c).

Definition set_state (v : string) (c : LinuxContainer) : LinuxContainer :=
  mkLinuxContainer (c_conf c) v (c_events c) (c_resources c) (c_processTracker c)
    (c_oomNotifier c) (c_oomWatchers c) (c_currentBandwidthLimits c) (c_currentDiskLimits c)
    (c_currentMemoryLimits c) (c_currentCPULimits c) (c_netIns c) (c_netOuts c).
Definition set_events (v : list string) (c : LinuxContainer) : LinuxContainer :=
  mkLinuxContainer (c_conf c) (c_state c) v (c_resources c) (c_processTracker c)
    (c_oomNotifier c) (c_oomWatchers c) (c_currentBandwidthLimits c) (c_currentDiskLimits c)
    (c_currentMemoryLimits c) (c_currentCPULimits c) (c_netIns c) (c_netOuts c).
Definition set_resources (v : Resources) (c : LinuxContainer) : LinuxContainer :=
  mkLinuxContainer (c_conf c) (c_state c) (c_events c) v (c_processTracker c)
    (c_oomNotifier c) (c_oomWatchers c) (c_currentBandwidthLimits c) (c_currentDiskLimits c)
    (c_currentMemoryLimits c) (c_currentCPULimits c) (c_netIns c) (c_netOuts c).
Definition set_processTracker (v : ProcessTracker) (c : LinuxContainer) : LinuxContainer :=
  mkLinuxContainer (c_conf c) (c_state c) (c_events c) (c_resources c) v (c_oomNotifier c)
    (c_oomWatchers c) (c_currentBandwidthLimits c) (c_currentDiskLimits c)
    (c_currentMemoryLimits c) (c_currentCPULimits c) (c_netIns c) (c_netOuts c).
Definition set_oomNotifier (v : option Cmd) (c : LinuxContainer) : LinuxContainer :=
  mkLinuxContainer (c_conf c) (c_state c) (c_events c) (c_resources c)
    (c_processTracker c) v (c_oomWatchers c) (c_currentBandwidthLimits c)
    (c_currentDiskLimits c) (c_currentMemoryLimits c) (c_currentCPULimits c) (c_netIns c)
    (c_netOuts c).
Definition set_oomWatchers (v : list Cmd) (c : LinuxContainer) : LinuxContainer :=
  mkLinuxContainer (c_conf c) (c_state c) (c_events c) (c_resources c) (c_processTracker c)
    (c_oomNotifier c) v (c_currentBandwidthLimits c) (c_currentDiskLimits c)
    (c_currentMemoryLimits c) (c_currentCPULimits c) (c_netIns c) (c_netOuts c).
Definition set_currentBandwidthLimits (v : option BandwidthLimits) (c : LinuxContainer) : LinuxContainer :=
  mkLinuxContainer (c_conf c) (c_state c) (c_events c) (c_resources c) (c_processTracker c)
    (c_oomNotifier c) (c_oomWatchers c) v (c_currentDiskLimits c) (c_currentMemoryLimits c)
    (c_currentCPULimits c) (c_netIns c) (c_netOuts c).
Definition set_currentDiskLimits (v : option DiskLimits) (c : LinuxContainer) : LinuxContainer :=
  mkLinuxContainer (c_conf c) (c_state c) (c_events c) (c_resources c) (c_processTracker c)
    (c_oomNotifier c) (c_oomWatchers c) (c_currentBandwidthLimits c) v
    (c_currentMemoryLimits c) (c_currentCPULimits c) (c_netIns c) (c_netOuts c).
Definition set_currentMemoryLimits (v : option MemoryLimits) (c : LinuxContainer) : LinuxContainer :=
  mkLinuxContainer (c_conf c) (c_state c) (c_events c) (c_resources c) (c_processTracker c)
    (c_oomNotifier c) (c_oomWatchers c) (c_currentBandwidthLimits c)
    (c_currentDiskLimits c) v (c_currentCPULimits c) (c_netIns c) (c_netOuts c).
Definition set_currentCPULimits (v : option CPULimits) (c : LinuxContainer) : LinuxContainer :=
  mkLinuxContainer (c_conf c) (c_state c) (c_events c) (c_resources c) (c_processTracker c)
    (c_oomNotifier c) (c_oomWatchers c) (c_currentBandwidthLimits c) (c_currentDiskLimits c)
    (c_currentMemoryLimits c) v (c_netIns c) (c_netOuts c).
Definition set_netIns (v : list NetInSpec) (c : LinuxContainer) : LinuxContainer :=
  mkLinuxContainer (c_conf c) (c_state c) (c_events c) (c_resources c) (c_processTracker c)
    (c_oomNotifier c) (c_oomWatchers c) (c_currentBandwidthLimits c) (c_currentDiskLimits c)
    (c_currentMemoryLimits c) (c_currentCPULimits c) v (c_netOuts c).
Definition set_netOuts (v : list NetOutSpec) (c : LinuxContainer) : LinuxContainer :=
  mkLinuxContainer (c_conf c) (c_state c) (c_events c) (c_resources c) (c_processTracker c)
    (c_oomNotifier c) (c_oomWatchers c) (c_currentBandwidthLimits c) (c_currentDiskLimits c)
    (c_currentMemoryLimits c) (c_currentCPULimits c) (c_netIns c) v.

Definition StateBorn : string := "born".
Definition StateActive : string := "active".
Definition StateStopped : string := "stopped".

Definition NewLinuxContainer (id handle path : string) (properties : Properties) (graceTime : Z)
    (resources : Resources) (cgroups : ContainerCgroupsManager) (quota : LinuxQuotaManager)
    (bandwidth : ContainerBandwidthManager) (tracker : ProcessTracker) : LinuxContainer :=
  mkLinuxContainer (mkConf id handle path properties graceTime cgroups quota bandwidth)
    StateBorn [] resources tracker None [] None None None None [] [].

Record CState (PP : Type) := mkCState {
  cs_trace : Trace;
  cs_ports : PP;
  cs_container : LinuxContainer
}.
Arguments mkCState {PP} _ _ _.
Arguments cs_trace {PP} _.
Arguments cs_ports {PP} _.
Arguments cs_container {PP} _.

(** * Operations *)

Section container.
Context {K : Kernel} {PP : Type} `{!ResourcePool PP Z Z}.
Local Abbreviation CS := (CState PP).

Definition c_trace_lens : Lens CS Trace :=
  mkLens cs_trace (λ h s, mkCState h (cs_ports s) (cs_container s)).
Definition c_ports_lens : Lens CS PP :=
  mkLens cs_ports (λ p s, mkCState (cs_trace s) p (cs_container s)).
Definition c_lens : Lens CS LinuxContainer :=
  mkLens cs_container (λ c s, mkCState (cs_trace s) (cs_ports s) c).
Definition c_tracker_lens : Lens CS TState :=
  mkLens (λ s, (cs_trace s, c_processTracker (cs_container s)))
    (λ t s, mkCState t.1 (cs_ports s) (set_processTracker t.2 (cs_container s))).

Definition on_trace {A} (m : M Trace A) : M CS A := zoom c_trace_lens m.
Definition on_ports {A} (m : M PP A) : M CS A := zoom c_ports_lens m.
Definition on_tracker {A} (m : M TState A) : M CS A := zoom c_tracker_lens m.
Definition this : M CS LinuxContainer := gets cs_container.
Definition update (f : LinuxContainer → LinuxContainer) : M CS unit := zoom c_lens (modify f).

Definition wshPath (c : LinuxContainer) : string := path_Join [c_path c; "bin"; "wsh"].
Definition sockPath (c : LinuxContainer) : string := path_Join [c_path c; "run"; "wshd.sock"].
Definition env_PATH : string := "PATH=" +:+ getenv "PATH".

Definition setState (state : string) : M CS unit := update (set_state state).
Definition registerEvent (event : string) : M CS unit :=
  update (λ c, set_events (c_events c ++ [event]) c).

(** ** Starting and stopping *)

Definition start_cmd (c : LinuxContainer) : Cmd :=
  cmd (path_Join [c_path c; "start.sh"]) []
    ["id=" +:+ c_id c; "container_iface_mtu=1500"; env_PATH].

Definition Start : M CS unit :=
  c ← this; on_trace (OS.Run (start_cmd c)) ≫= λ _, setState StateActive.

Definition stopOomNotifier : M CS unit :=
  c ← this;
  match c_oomNotifier c with
  | Some oom => on_trace (ignore_err (Kill oom))
  | None => mret tt
  end.

Definition stop_cmd (c : LinuxContainer) (kill : bool) : Cmd :=
  cmd (path_Join [c_path c; "stop.sh"]) (if kill then ["-w"; "0"] else []) [].

Definition Stop (kill : bool) : M CS unit :=
  c ← this;
  on_trace (OS.Run (stop_cmd c kill)) ≫= λ _,
  stopOomNotifier ≫= λ _, setState StateStopped.

Definition Cleanup : M CS unit := stopOomNotifier ≫= λ _, on_tracker UnlinkAll.

(** ** The out-of-memory notifier *)

Definition oom_cmd (c : LinuxContainer) : Cmd :=
  cmd (path_Join [c_path c; "bin"; "oom"])
    [CgroupsManager.SubsystemPath (c_cgroupsManager c) "memory"] [].

(** The field is set before the command is started, and stays set when that fails. *)
Definition startOomNotifier : M CS unit :=
  c ← this;
  match c_oomNotifier c with
  | Some _ => mret tt
  | None =>
      let oom := oom_cmd c in
      update (set_oomNotifier (Some oom)) ≫= λ _,
      on_trace (OS.Start oom) ≫= λ _,
      update (λ c, set_oomWatchers (oom :: c_oomWatchers c) c)
  end.

(** The goroutine: the notifier exits without an error when memory ran out. *)
Definition watchForOom (oom : Cmd) : M CS unit :=
  r ← attempt (on_trace (Wait oom));
  match r with
  | inl _ => registerEvent "out of memory" ≫= λ _, ignore_err (Stop false)
  | inr _ => mret tt
  end.

(** ** Limits *)

Definition LimitBandwidth (limits : BandwidthLimits) : M CS unit :=
  c ← this;
  on_trace (BandwidthManager.SetLimits (c_bandwidthManager c) limits) ≫= λ _,
  update (set_currentBandwidthLimits (Some limits)).

Definition CurrentBandwidthLimits : M CS BandwidthLimits :=
  c ← this; mret (default (mkBandwidthLimits 0 0) (c_currentBandwidthLimits c)).

Definition LimitDisk (limits : DiskLimits) : M CS unit :=
  c ← this;
  on_trace (QuotaManager.SetLimits (c_quotaManager c) (UID (c_resources c)) limits) ≫= λ _,
  update (set_currentDiskLimits (Some limits)).

Definition CurrentDiskLimits : M CS DiskLimits :=
  c ← this; on_trace (QuotaManager.GetLimits (c_quotaManager c) (UID (c_resources c))).

(** [memory.limit_in_bytes] is written before and after [memory.memsw.limit_in_bytes]. *)
Definition LimitMemory (limits : MemoryLimits) : M CS unit :=
  startOomNotifier ≫= λ _,
  c ← this;
  let limit := fmt_d (LimitInBytes limits) in
  let Set_ := CgroupsManager.Set_ (c_cgroupsManager c) "memory" in
  on_trace (ignore_err (Set_ "memory.limit_in_bytes" limit)) ≫= λ _,
  on_trace (ignore_err (Set_ "memory.memsw.limit_in_bytes" limit)) ≫= λ _,
  on_trace (Set_ "memory.limit_in_bytes" limit) ≫= λ _,
  update (set_currentMemoryLimits (Some limits)).

(** Read a number from a file of the container's cgroup. *)
Definition get_number (subsystem name : string) : M CS Z :=
  c ← this;
  text ← on_trace (CgroupsManager.Get (c_cgroupsManager c) subsystem name);
  of_result (ParseUint text).

Definition CurrentMemoryLimits : M CS MemoryLimits :=
  n ← get_number "memory" "memory.limit_in_bytes"; mret (mkMemoryLimits n).

Definition LimitCPU (limits : CPULimits) : M CS unit :=
  c ← this;
  on_trace (CgroupsManager.Set_ (c_cgroupsManager c) "cpu" "cpu.shares"
              (fmt_d (LimitInShares limits))) ≫= λ _,
  update (set_currentCPULimits (Some limits)).

Definition CurrentCPULimits : M CS CPULimits :=
  n ← get_number "cpu" "cpu.shares"; mret (mkCPULimits n).

(** ** Streaming files *)

Definition tar_in_cmd (c : LinuxContainer) (dstPath tarStream : string) : Cmd :=
  mkCmd (wshPath c)
    ["--socket"; sockPath c; "--user"; "vcap"; "bash"; "-c";
     "mkdir -p " +:+ dstPath +:+ " && tar xf - -C " +:+ dstPath] [] (Some tarStream).

Definition StreamIn (dstPath tarStream : string) : M CS unit :=
  c ← this; on_trace (OS.Run (tar_in_cmd c dstPath tarStream)).

Definition tar_out_cmd (c : LinuxContainer) (srcPath : string) : Cmd :=
  let '(workingDir, compressArg) :=
    if HasSuffix srcPath slash then (srcPath, ".") else (Dir srcPath, Base srcPath) in
  cmd (wshPath c)
    ["--socket"; sockPath c; "--user"; "vcap"; "tar"; "cf"; "-"; "-C"; workingDir; compressArg] [].

(** The reader returned is the output of the command. *)
Definition StreamOut (srcPath : string) : M CS Cmd :=
  c ← this;
  let tar := tar_out_cmd c srcPath in
  on_trace (Background tar) ≫= λ _, mret tar.

(** ** Processes *)

Definition rlimit (name : string) (v : option Z) : list string :=
  match v with Some n => ["RLIMIT_" +:+ name +:+ "=" +:+ fmt_d n] | None => [] end.

Definition setRLimitsEnv (l : ResourceLimits) : list string :=
  rlimit "AS" (As l) ++ rlimit "CORE" (Core l) ++ rlimit "CPU" (Cpu l) ++
  rlimit "DATA" (Data l) ++ rlimit "FSIZE" (Fsize l) ++ rlimit "LOCKS" (Locks l) ++
  rlimit "MEMLOCK" (Memlock l) ++ rlimit "MSGQUEUE" (Msgqueue l) ++ rlimit "NICE" (Nice l) ++
  rlimit "NOFILE" (Nofile l) ++ rlimit "NPROC" (Nproc l) ++ rlimit "RSS" (Rss l) ++
  rlimit "RTPRIO" (Rtprio l) ++ rlimit "SIGPENDING" (Sigpending l) ++ rlimit "STACK" (Stack l).

Definition wsh_cmd (c : LinuxContainer) (spec : ProcessSpec) : Cmd :=
  let user := if Privileged spec then "root" else "vcap" in
  cmd (wshPath c)
    (["--socket"; sockPath c; "--user"; user] ++
     flat_map (λ envVar, ["--env"; envVar]) (proc_Env spec) ++
     (if String.eqb (proc_Dir spec) "" then [] else ["--dir"; proc_Dir spec]) ++
     [proc_Path spec] ++ proc_Args spec)
    (setRLimitsEnv (proc_Limits spec)).

Definition Run (spec : ProcessSpec) (io : ProcessIO) : M CS Z :=
  c ← this; on_tracker (ProcessTracker.Run (wsh_cmd c spec) io (TTY spec)).

Definition Attach (processID : Z) (io : ProcessIO) : M CS Z :=
  on_tracker (ProcessTracker.Attach processID io).

(** ** Network *)

Definition net_in_cmd (c : LinuxContainer) (hostPort containerPort : Z) : Cmd :=
  cmd (path_Join [c_path c; "net.sh"]) ["in"]
    ["HOST_PORT=" +:+ fmt_d hostPort; "CONTAINER_PORT=" +:+ fmt_d containerPort; env_PATH].

(** A port for a mapping that names none: it becomes the container's. *)
Definition acquire_port : M CS Z :=
  randomPort ← on_ports rp_acquire;
  update (λ c, set_resources (AddPort randomPort (c_resources c)) c) ≫= λ _,
  mret randomPort.

Definition NetIn (hostPort containerPort : Z) : M CS (Z * Z) :=
  hostPort' ← (if hostPort =? 0 then acquire_port else mret hostPort);
  let containerPort' := if containerPort =? 0 then hostPort' else containerPort in
  c ← this;
  on_trace (OS.Run (net_in_cmd c hostPort' containerPort')) ≫= λ _,
  update (λ c, set_netIns (c_netIns c ++ [mkNetIn hostPort' containerPort']) c) ≫= λ _,
  mret (hostPort', containerPort').

Definition net_out_cmd (c : LinuxContainer) (network : string) (port : Z) : Cmd :=
  cmd (path_Join [c_path c; "net.sh"]) ["out"]
    ["NETWORK=" +:+ network; "PORT=" +:+ (if port =? 0 then "" else fmt_d port); env_PATH].

Definition NetOut (network : string) (port : Z) : M CS unit :=
  if (port =? 0) && String.eqb network ""
  then raise (errors_New "network and/or port must be provided")
  else
    c ← this;
    on_trace (OS.Run (net_out_cmd c network port)) ≫= λ _,
    update (λ c, set_netOuts (c_netOuts c ++ [mkNetOut network port]) c).

(** ** Info *)

(** [c.resources.Network.HostIP()] and the like, on a pointer that may be nil *)
Definition network_of (c : LinuxContainer) : Result Network :=
  match res_Network (c_resources c) with
  | Some n => Ok n
  | None => Crash NilDereference
  end.

Definition Info : M CS ContainerInfo :=
  c ← this;
  memoryStat ← on_trace (CgroupsManager.Get (c_cgroupsManager c) "memory" "memory.stat");
  cpuUsage ← on_trace (CgroupsManager.Get (c_cgroupsManager c) "cpuacct" "cpuacct.usage");
  cpuStat ← on_trace (CgroupsManager.Get (c_cgroupsManager c) "cpuacct" "cpuacct.stat");
  diskStat ← on_trace (QuotaManager.GetUsage (c_quotaManager c) (UID (c_resources c)));
  bandwidthStat ← on_trace (BandwidthManager.GetLimits (c_bandwidthManager c));
  n ← of_result (network_of c);
  mret (mkContainerInfo (c_state c) (c_events c) (IP_String (HostIP n)) (IP_String (ContainerIP n))
          (c_path c) (map p_id (ActiveProcesses (c_processTracker c)))
          (parseMemoryStat memoryStat) (parseCPUStat cpuUsage cpuStat) diskStat bandwidthStat
          (c_properties c)
          (map (λ i, mkPortMapping (in_HostPort i) (in_ContainerPort i)) (c_netIns c))).

(** ** Snapshots *)

(** The value [Snapshot] encodes. *)
Definition Snapshot (c : LinuxContainer) : ContainerSnapshot :=
  mkContainerSnapshot (c_id c) (c_handle c) (c_graceTime c) (c_state c) (c_events c)
    (mkLimitsSnapshot (c_currentMemoryLimits c) (c_currentDiskLimits c)
       (c_currentBandwidthLimits c) (c_currentCPULimits c))
    (c_resources c)
    (map (λ p, mkProcessSnapshot (p_id p) (p_withTty p)) (ActiveProcesses (c_processTracker c)))
    (c_netIns c) (c_netOuts c) (c_properties c).

Definition net_setup_cmd (c : LinuxContainer) : Cmd :=
  cmd (path_Join [c_path c; "net.sh"]) ["setup"] [].

(** Only the memory limit is applied again. *)
Definition Restore (snapshot : ContainerSnapshot) : M CS unit :=
  setState (snap_State snapshot) ≫= λ _,
  for_each registerEvent (snap_Events snapshot) ≫= λ _,
  match lim_Memory (snap_Limits snapshot) with
  | Some limits => LimitMemory limits
  | None => mret tt
  end ≫= λ _,
  for_each (λ p, on_tracker (ProcessTracker.Restore (ps_ID p) (ps_TTY p)))
    (snap_Processes snapshot) ≫= λ _,
  c ← this;
  on_trace (OS.Run (net_setup_cmd c)) ≫= λ _,
  for_each (λ i, NetIn (in_HostPort i) (in_ContainerPort i) ≫= λ _, mret tt)
    (snap_NetIns snapshot) ≫= λ _,
  for_each (λ o, NetOut (out_Network o) (out_Port o)) (snap_NetOuts snapshot).

(** ** Every operation *)

Inductive op :=
  | OStart
  | OStop (kill : bool)
  | OCleanup
  | OInfo
  | OStreamIn (dstPath tarStream : string)
  | OStreamOut (srcPath : string)
  | OLimitBandwidth (limits : BandwidthLimits)
  | OCurrentBandwidthLimits
  | OLimitDisk (limits : DiskLimits)
  | OCurrentDiskLimits
  | OLimitMemory (limits : MemoryLimits)
  | OCurrentMemoryLimits
  | OLimitCPU (limits : CPULimits)
  | OCurrentCPULimits
  | ORun (spec : ProcessSpec) (io : ProcessIO)
  | OAttach (processID : Z) (io : ProcessIO)
  | ONetIn (hostPort containerPort : Z)
  | ONetOut (network : string) (port : Z)
  | OWatchForOom (oom : Cmd).

Definition discard {A} (m : M CS A) : M CS unit := m ≫= λ _, mret tt.

Definition do_op (o : op) : M CS unit :=
  match o with
  | OStart => Start
  | OStop kill => Stop kill
  | OCleanup => Cleanup
  | OInfo => discard Info
  | OStreamIn d t => StreamIn d t
  | OStreamOut p => discard (StreamOut p)
  | OLimitBandwidth l => LimitBandwidth l
  | OCurrentBandwidthLimits => discard CurrentBandwidthLimits
  | OLimitDisk l => LimitDisk l
  | OCurrentDiskLimits => discard CurrentDiskLimits
  | OLimitMemory l => LimitMemory l
  | OCurrentMemoryLimits => discard CurrentMemoryLimits
  | OLimitCPU l => LimitCPU l
  | OCurrentCPULimits => discard CurrentCPULimits
  | ORun spec io => discard (Run spec io)
  | OAttach id io => discard (Attach id io)
  | ONetIn h c => discard (NetIn h c)
  | ONetOut n p => NetOut n p
  | OWatchForOom oom => watchForOom oom
  end.
End container.

(** * Specifications *)

(** What an operation may do to a container: its identity, uid and network stay;
    ports, events and network rules are only added. *)
Record evolves (c c' : LinuxContainer) : Prop := {
  ev_conf : c_conf c' = c_conf c;
  ev_uid : UID (c_resources c') = UID (c_resources c);
  ev_network : res_Network (c_resources c') = res_Network (c_resources c);
  ev_ports : Ports (c_resources c) `prefix_of` Ports (c_resources c');
  ev_events : c_events c `prefix_of` c_events c';
  ev_netIns : c_netIns c `prefix_of` c_netIns c';
  ev_netOuts : c_netOuts c `prefix_of` c_netOuts c'
}.

(** The rules a container has recorded are those [NetIn] and [NetOut] record; a
    process is registered under its own id. *)
Definition net_in_ok (i : NetInSpec) : Prop := in_HostPort i ≠ 0 ∧ in_ContainerPort i ≠ 0.
Definition net_out_ok (o : NetOutSpec) : Prop := ¬ (out_Port o = 0 ∧ out_Network o = "").

Record container_ok (c : LinuxContainer) : Prop := {
  ok_netIns : Forall net_in_ok (c_netIns c);
  ok_netOuts : Forall net_out_ok (c_netOuts c);
  ok_keyed : keyed (c_processTracker c)
}.

(** The state of the life cycle after an operation that returned [r]. *)
Definition next_state {A} (o : op) (r : Result A) (state : string) : string :=
  match o, r with
  | OStart, Ok _ => StateActive
  | OStop _, Ok _ => StateStopped
  | _, _ => state
  end.

(** What happens to a container: an operation is called, or a goroutine of one of
    its processes makes a step. *)
Inductive c_step {K : Kernel} {PP} `{!ResourcePool PP Z Z} : CState PP → CState PP → Prop :=
  | c_op o s : c_step s (do_op o s).2
  | c_goroutine t' s :
      tracker_step (c_processTracker (cs_container s)) t' →
      c_step s (mkCState (cs_trace s) (cs_ports s) (set_processTracker t' (cs_container s))).

(** ** The memory controller of Linux

    [memory.limit_in_bytes] and [memory.memsw.limit_in_bytes] hold a pair of limits
    of which the first never exceeds the second: a write that would break this
    fails. The kernel stores [round v] for [v] (whole pages). *)
Section memcg.
Context (lp sp : string) (round : Z → Z).

Definition memcg_apply (st : Z * Z) (c : Syscall) : Z * Z :=
  match c with
  | SWriteFile p d =>
      match ParseUint d with
      | Ok v =>
          if decide (p = lp) then (if round v <=? st.2 then (round v, st.2) else st)
          else if decide (p = sp) then (if st.1 <=? round v then (st.1, round v) else st)
          else st
      | _ => st
      end
  | _ => st
  end.

Definition memcg (st : Z * Z) (h : Trace) : Z * Z := foldl memcg_apply st h.

Record MemoryController {K : Kernel} (st : Z * Z) : Prop := {
  mc_limit h v : is_u64 v →
    sys_error h (SWriteFile lp (fmt_d v)) = None ↔ round v ≤ (memcg st h).2;
  mc_read h : sys_error h (SReadFile lp) = None ∧
    sys_output h (SReadFile lp) = fmt_d (memcg st h).1 +:+ nl
}.
End memcg.

(** What a snapshot keeps of the limits once the container was restored from it. *)
Definition only_memory (l : LimitsSnapshot) : LimitsSnapshot :=
  mkLimitsSnapshot (lim_Memory l) None None None.

Definition with_limits (l : LimitsSnapshot) (s : ContainerSnapshot) : ContainerSnapshot :=
  mkContainerSnapshot (snap_ID s) (snap_Handle s) (snap_GraceTime s) (snap_State s)
    (snap_Events s) l (snap_Resources s) (snap_Processes s) (snap_NetIns s) (snap_NetOuts s)
    (snap_Properties s).

(** A kernel with that controller: pages of 4096 bytes; nothing else fails. *)
Definition page_round (v : Z) : Z := v / 4096 * 4096.

Definition memcg_kernel (lp sp : string) (st : Z * Z) : Kernel := {|
  sys_error h c :=
    match c with
    | SWriteFile p d =>
        match ParseUint d with
        | Ok v =>
            if decide (p = lp) then
              if page_round v <=? (memcg lp sp page_round st h).2 then None
              else Some (mkError "*os.PathError" "device or resource busy")
            else None
        | _ => None
        end
    | _ => None
    end;
  sys_output h c :=
    match c with
    | SReadFile p => if decide (p = lp) then fmt_d (memcg lp sp page_round st h).1 +:+ nl else ""
    | _ => ""
    end;
  sys_entries _ _ := [];
  getenv _ := "/bin";
  environ := []
|}.

(** A kernel on which exactly the calls that [bad] selects fail. *)
Definition failing_kernel (bad : Syscall → bool) : Kernel := {|
  sys_error _ c := if bad c then Some (mkError "*exec.ExitError" "exit status 1") else None;
  sys_output _ _ := "";
  sys_entries _ _ := [];
  getenv _ := "/bin";
  environ := []
|}.

Definition example_network : Network := Network.New (net4 (10 * 2 ^ 24 + 254 * 2 ^ 16) 30).

(** A container with a process, a mapped port and a memory limit. *)
Definition example_container : LinuxContainer :=
  mkLinuxContainer
    (mkConf "some-id" "some-handle" "/depot/some-id" {["owner" := "alice"]} 300000000000
       (CgroupsManager.New "/cgroups" "some-id") (QuotaManager.mkQuotaManager true "/bin" "/mnt")
       (BandwidthManager.New "/depot/some-id" "some-id"))
    StateActive ["started"] (mkResources 10000 (Some example_network) [61001])
    (mkTracker "/depot/some-id" {[1 := NewProcess 1 true]} 2) None []
    (Some (mkBandwidthLimits 1024 65536)) None (Some (mkMemoryLimits 1048576)) None
    [mkNetIn 61001 8080] [mkNetOut "10.0.0.0/8" 0].

(** * Lemmas *)

(** Break an operation into its calls. *)
Ltac op_step := first [progress unfold this, discard | mstep].

Section container_lemmas.
Context {K : Kernel} {PP : Type} `{!ResourcePool PP Z Z}.
Local Abbreviation CS := (CState PP).
Implicit Types (s : CS) (h : Trace) (p : PP) (c : LinuxContainer).

(** ** Calls on the components of the state *)

Lemma on_trace_sys_ sc h p c :
  on_trace (sys_ sc) (mkCState h p c) =
    (match sys_error h sc with Some e => Err e | None => Ok tt end, mkCState (h ++ [sc]) p c).
Proof. unfold on_trace, zoom. cbn. by rewrite sys__eq. Qed.

Lemma on_trace_ignore_sys_ sc h p c :
  on_trace (ignore_err (sys_ sc)) (mkCState h p c) = (Ok tt, mkCState (h ++ [sc]) p c).
Proof.
  unfold on_trace, zoom, ignore_err, attempt, mbind, M_bind. cbn. rewrite sys__eq.
  by destruct (sys_error h sc).
Qed.

Lemma on_trace_frame {A} (m : M Trace A) s :
  cs_ports (on_trace m s).2 = cs_ports s ∧ cs_container (on_trace m s).2 = cs_container s.
Proof. unfold on_trace, zoom. cbn. by destruct (m (cs_trace s)). Qed.

Lemma update_eq f h p c : update f (mkCState h p c) = (Ok tt, mkCState h p (f c)).
Proof. done. Qed.

Section op_relation.
Context (R : relation CS) `{!PreOrder R}.

(** To hold of an operation, a relation has to hold of the few ways in which
    operations change the state. *)
Context (Htrace : ∀ A (m : M Trace A), steps R (on_trace m)).
Context (Htracker_run : ∀ cm io tty, steps R (on_tracker (ProcessTracker.Run cm io tty))).
Context (Htracker_attach : ∀ id io, steps R (on_tracker (ProcessTracker.Attach id io))).
Context (Htracker_unlink : steps R (on_tracker UnlinkAll)).
Context (Hoom : ∀ v, steps R (update (set_oomNotifier v))).
Context (Hwatch : ∀ f, steps R (update (λ c, set_oomWatchers (f c) c))).

Lemma stopOomNotifier_steps : steps R stopOomNotifier.
Proof using All. unfold stopOomNotifier. repeat op_step; auto. Qed.

Lemma startOomNotifier_steps : steps R startOomNotifier.
Proof using All. unfold startOomNotifier. repeat op_step; cbn zeta; repeat op_step; auto. Qed.

Context (o : op).
Context (Hbandwidth : ∀ v, o = OLimitBandwidth v → steps R (update (set_currentBandwidthLimits (Some v)))).
Context (Hdisk : ∀ v, o = OLimitDisk v → steps R (update (set_currentDiskLimits (Some v)))).
Context (Hmemory : ∀ v, o = OLimitMemory v → steps R (update (set_currentMemoryLimits (Some v)))).
Context (Hcpu : ∀ v, o = OLimitCPU v → steps R (update (set_currentCPULimits (Some v)))).
Context (Hin : ∀ hp cp, o = ONetIn hp cp → steps R (NetIn hp cp)).
Context (Hout : ∀ n port, o = ONetOut n port → steps R (NetOut n port)).

Lemma op_steps_quiet :
  match o with OStart | OStop _ | OWatchForOom _ => False | _ => True end → steps R (do_op o).
Proof using All.
  intros Ho. destruct o eqn:Eo; cbn [do_op]; try done; try (by repeat op_step; auto).
  - unfold Cleanup. repeat op_step; [apply stopOomNotifier_steps|auto].
  - unfold Info. repeat op_step; auto.
  - unfold StreamIn. repeat op_step; auto.
  - unfold StreamOut. repeat op_step; auto.
  - unfold LimitBandwidth. repeat op_step; auto.
  - unfold CurrentBandwidthLimits. repeat op_step; auto.
  - unfold LimitDisk. repeat op_step; auto.
  - unfold CurrentDiskLimits. repeat op_step; auto.
  - unfold LimitMemory. repeat op_step; [apply startOomNotifier_steps|auto..].
  - unfold CurrentMemoryLimits, get_number. repeat op_step; auto.
  - unfold LimitCPU. repeat op_step; auto.
  - unfold CurrentCPULimits, get_number. repeat op_step; auto.
  - unfold Run. repeat op_step; auto.
  - unfold Attach. repeat op_step; auto.
Qed.

Context (Hstate : ∀ v, v = StateActive ∨ v = StateStopped → steps R (setState v)).
Context (Hevent : steps R (registerEvent "out of memory")).

Lemma Stop_steps kill : steps R (Stop kill).
Proof using ResourcePool0 PreOrder0 Htrace Htracker_run Htracker_attach Htracker_unlink Hoom Hwatch Hstate.
  unfold Stop. repeat op_step; auto using stopOomNotifier_steps.
Qed.

Lemma op_steps : steps R (do_op o).
Proof using All.
  pose proof op_steps_quiet as Hq. destruct o; try (by apply Hq); cbn [do_op].
  - unfold Start. repeat op_step; auto.
  - apply Stop_steps.
  - unfold watchForOom. repeat op_step; auto using Stop_steps.
Qed.
End op_relation.

(** ** What every operation keeps *)

Definition evolves_rel : relation CS := λ s s', evolves (cs_container s) (cs_container s').

#[local] Instance evolves_preorder : PreOrder evolves_rel.
Proof using Type.
  split; [intros s; by constructor|].
  intros s1 s2 s3 [] []. constructor; etrans; eauto.
Qed.

Lemma on_trace_evolves {A} (m : M Trace A) : steps evolves_rel (on_trace m).
Proof using Type. intros s. unfold evolves_rel. rewrite (proj2 (on_trace_frame m s)). by constructor. Qed.

Lemma on_tracker_evolves {A} (m : M TState A) : steps evolves_rel (on_tracker m).
Proof using Type. intros s. unfold on_tracker, zoom. destruct (m _) as [r t]. by constructor. Qed.

Lemma NetIn_evolves hp cp : steps evolves_rel (NetIn hp cp).
Proof using Type.
  unfold NetIn, acquire_port. repeat op_step.
  - intros s. unfold on_ports, zoom. destruct (rp_acquire _). by constructor.
  - intros s. constructor; try done. cbn. by apply prefix_app_r.
  - apply on_trace_evolves.
  - intros s. constructor; try done. cbn. by apply prefix_app_r.
Qed.

Lemma NetOut_evolves n port : steps evolves_rel (NetOut n port).
Proof using Type.
  unfold NetOut. repeat op_step; [apply on_trace_evolves|].
  intros s. constructor; try done. cbn. by apply prefix_app_r.
Qed.

Lemma registerEvent_evolves e : steps evolves_rel (registerEvent e).
Proof using Type. intros s. constructor; try done. cbn. by apply prefix_app_r. Qed.

Lemma op_evolves o : steps evolves_rel (do_op o).
Proof using Type.
  apply op_steps; try apply _; intros; try (intros s; by constructor);
    auto using on_trace_evolves, on_tracker_evolves, NetIn_evolves, NetOut_evolves,
      registerEvent_evolves.
Qed.

Lemma Restore_evolves snapshot : steps evolves_rel (Restore snapshot).
Proof using Type.
  unfold Restore. repeat op_step; try (intros s; by constructor);
    auto using on_trace_evolves, on_tracker_evolves, NetIn_evolves, NetOut_evolves,
      registerEvent_evolves.
  apply (op_evolves (OLimitMemory _)).
Qed.

(** ** The life cycle *)

Definition same_state : relation CS := λ s s', c_state (cs_container s') = c_state (cs_container s).

#[local] Instance same_state_preorder : PreOrder same_state.
Proof using Type. split; [done|]. intros s1 s2 s3 H1 H2. unfold same_state in *. congruence. Qed.

Lemma on_trace_same_state {A} (m : M Trace A) : steps same_state (on_trace m).
Proof using Type. intros s. unfold same_state. by rewrite (proj2 (on_trace_frame m s)). Qed.

Lemma on_tracker_same_state {A} (m : M TState A) : steps same_state (on_tracker m).
Proof using Type. intros s. unfold on_tracker, zoom. by destruct (m _) as [r t]. Qed.

Lemma stopOomNotifier_same_state : steps same_state stopOomNotifier.
Proof using Type. unfold stopOomNotifier. repeat op_step; apply on_trace_same_state. Qed.

Lemma NetIn_same_state hp cp : steps same_state (NetIn hp cp).
Proof using Type.
  unfold NetIn, acquire_port. repeat op_step; try apply on_trace_same_state; try done.
  intros s. unfold on_ports, zoom. by destruct (rp_acquire _).
Qed.

Lemma op_same_state o :
  match o with OStart | OStop _ | OWatchForOom _ => False | _ => True end →
  steps same_state (do_op o).
Proof using Type.
  apply op_steps_quiet; try apply _; intros; try done;
    auto using on_trace_same_state, on_tracker_same_state, NetIn_same_state.
  unfold NetOut. repeat op_step; [apply on_trace_same_state|done].
Qed.

(** ** Host ports *)

(** A port that leaves the pool goes to the container: with the ports held by
    others fixed, the pool's ledger stays balanced. *)
Definition owns_ports : relation CS := λ s s', ∀ init others,
  Ledger init (cs_ports s) (Ports (c_resources (cs_container s)) ++ others) →
  Ledger init (cs_ports s') (Ports (c_resources (cs_container s')) ++ others).

#[local] Instance owns_ports_preorder : PreOrder owns_ports.
Proof using Type. split; [by intros ????|]. intros s1 s2 s3 H1 H2 init others H. by apply H2, H1. Qed.

Lemma on_trace_owns {A} (m : M Trace A) : steps owns_ports (on_trace m).
Proof using Type.
  intros s init others. destruct (on_trace_frame m s) as [-> ->]. done.
Qed.

Lemma on_tracker_owns {A} (m : M TState A) : steps owns_ports (on_tracker m).
Proof using Type. intros s init others. unfold on_tracker, zoom. by destruct (m _) as [r t]. Qed.

Lemma update_owns f : (∀ c, c_resources (f c) = c_resources c) → steps owns_ports (update f).
Proof using Type. intros Hf [h p c] init others. cbn. by rewrite Hf. Qed.

Section with_laws.
Context `{!ResourcePoolLaws PP Z Z}.

Lemma acquire_port_owns : steps owns_ports acquire_port.
Proof using All.
  intros [h p c] init others HL. unfold acquire_port, on_ports, zoom, mbind, M_bind, update. cbn in *.
  destruct (rp_acquire p) as [[x|e|f] p'] eqn:E; cbn.
  - eapply ledger_change; [done| |by eapply ledger_acquire].
    apply Permutation_app_head. rewrite <-app_assoc. cbn. by rewrite Permutation_middle.
  - destruct (rp_free p) as [|x l] eqn:Hf.
    + destruct (rp_acquire_nil p Hf) as [e' He']. congruence.
    + destruct (rp_acquire_cons p x l Hf) as (? & ? & _). congruence.
  - destruct (rp_free p) as [|x l] eqn:Hf.
    + destruct (rp_acquire_nil p Hf) as [e' He']. congruence.
    + destruct (rp_acquire_cons p x l Hf) as (? & ? & _). congruence.
Qed.

Lemma NetIn_owns hp cp : steps owns_ports (NetIn hp cp).
Proof using All.
  unfold NetIn. repeat op_step; auto using on_trace_owns, acquire_port_owns, update_owns.
Qed.

Lemma NetOut_owns n port : steps owns_ports (NetOut n port).
Proof using Type. unfold NetOut. repeat op_step; auto using on_trace_owns, update_owns. Qed.

Lemma op_owns_ports o : steps owns_ports (do_op o).
Proof using All.
  apply op_steps; try apply _; intros; try (by apply update_owns);
    auto using on_trace_owns, on_tracker_owns, NetIn_owns, NetOut_owns.
Qed.

Lemma Restore_owns_ports snapshot : steps owns_ports (Restore snapshot).
Proof using All.
  unfold Restore. repeat op_step; try (by apply update_owns);
    auto using on_trace_owns, on_tracker_owns, NetIn_owns, NetOut_owns.
  apply (op_owns_ports (OLimitMemory _)).
Qed.

(** Restoring always returns, whatever the snapshot holds. *)
Lemma Restore_returns snapshot : returns (Restore snapshot).
Proof using All.
  unfold Restore, LimitMemory, startOomNotifier, NetIn, acquire_port, NetOut, setState,
    registerEvent, this, update, on_trace, on_ports, on_tracker, OS.Run, OS.Start,
    CgroupsManager.Set_, WriteFile.
  repeat first [rstep | apply returns_zoom, returns_acquire | progress cbn zeta]; done.
Qed.

(** ** [NetIn], by where the host port comes from *)

Lemma NetIn_given hp cp h p c :
  hp ≠ 0 →
  let cp' := if cp =? 0 then hp else cp in
  let sc := SRun (net_in_cmd c hp cp') in
  NetIn hp cp (mkCState h p c) =
    match sys_error h sc with
    | Some e => (Err e, mkCState (h ++ [sc]) p c)
    | None => (Ok (hp, cp'), mkCState (h ++ [sc]) p (set_netIns (c_netIns c ++ [mkNetIn hp cp']) c))
    end.
Proof using Type.
  intros Hhp cp' sc. unfold NetIn. rewrite (proj2 (Z.eqb_neq hp 0) Hhp).
  unfold mbind at 1, M_bind at 1, mret at 1, M_ret at 1. cbn beta iota zeta. fold cp'.
  unfold mbind, M_bind, this, gets. cbn [cs_container]. unfold OS.Run.
  rewrite on_trace_sys_. fold sc. by destruct (sys_error h sc).
Qed.

Lemma NetIn_random cp h p c x l :
  rp_free p = x :: l → x ≠ 0 → ∃ p', rp_free p' = l ∧ rp_managed p' = rp_managed p ∧
    NetIn 0 cp (mkCState h p c) =
      NetIn x cp (mkCState h p' (set_resources (AddPort x (c_resources c)) c)).
Proof using All.
  intros Hf Hx. destruct (rp_acquire_cons p x l Hf) as (p' & Ha & Hf' & Hm).
  exists p'. split_and!; [done..|]. unfold NetIn. rewrite (proj2 (Z.eqb_neq x 0) Hx).
  unfold acquire_port, on_ports, zoom, mbind, M_bind. cbn. by rewrite Ha.
Qed.

Lemma NetIn_exhausted cp h p c :
  rp_free p = [] → ∃ e, NetIn 0 cp (mkCState h p c) = (Err e, mkCState h p c).
Proof using All.
  intros Hf. destruct (rp_acquire_nil p Hf) as [e He]. exists e.
  unfold NetIn, acquire_port, on_ports, zoom, mbind, M_bind. cbn. by rewrite He.
Qed.

(** ** Well-formed containers *)

Definition state_ok s : Prop :=
  container_ok (cs_container s) ∧ Forall (λ x : Z, x ≠ 0) (rp_free (cs_ports s)).
Definition ok_rel : relation CS := inv_rel state_ok.

Lemma on_trace_ok {A} (m : M Trace A) : steps ok_rel (on_trace m).
Proof using Type. intros s. unfold ok_rel, inv_rel, state_ok. by destruct (on_trace_frame m s) as [-> ->]. Qed.

Lemma on_tracker_ok {A} (m : M TState A) : steps keyed_rel m → steps ok_rel (on_tracker m).
Proof using Type.
  intros Hm s [[H1 H2 H3] H4]. unfold on_tracker, zoom. specialize (Hm (view c_tracker_lens s) H3).
  destruct (m _) as [r t]. by split.
Qed.

Lemma update_ok f :
  (∀ c, c_netIns (f c) = c_netIns c ∧ c_netOuts (f c) = c_netOuts c ∧
        c_processTracker (f c) = c_processTracker c) → steps ok_rel (update f).
Proof using Type.
  intros Hf [h p c] [[H1 H2 H3] H4]. cbn in *. destruct (Hf c) as (E1 & E2 & E3).
  split; [|done]. cbn. split; by rewrite ?E1, ?E2, ?E3.
Qed.

Lemma NetIn_given_ok hp cp s : hp ≠ 0 → state_ok s → state_ok (NetIn hp cp s).2.
Proof using Type.
  destruct s as [h p c]. intros Hhp [[H1 H2 H3] H4]. rewrite NetIn_given by done. cbn zeta.
  destruct (sys_error _ _); (split; [|done]); cbn in *; [done|].
  split; try done. apply Forall_app. split; [done|]. repeat constructor; cbn; [done|].
  destruct (Z.eqb_spec cp 0); done.
Qed.

Lemma NetIn_ok hp cp : steps ok_rel (NetIn hp cp).
Proof using All.
  intros [h p c] Hok. destruct (decide (hp = 0)) as [->|Hhp]; [|by apply NetIn_given_ok].
  destruct (rp_free p) as [|x l] eqn:Hf.
  - destruct (NetIn_exhausted cp h p c Hf) as [e ->]. done.
  - destruct Hok as [[H1 H2 H3] H4]. cbn in H1, H2, H3, H4. rewrite Hf in H4. apply Forall_cons in H4 as [Hx Hl].
    destruct (NetIn_random cp h p c x l Hf Hx) as (p' & Hf' & _ & ->).
    apply NetIn_given_ok; [done|]. split; [done|]. cbn. by rewrite Hf'.
Qed.

Lemma NetOut_ok n port : steps ok_rel (NetOut n port).
Proof using Type.
  intros [h p c] [[H1 H2 H3] H4]. unfold NetOut.
  destruct ((port =? 0) && String.eqb n "") eqn:E; [done|].
  unfold mbind, M_bind, this, gets. cbn [cs_container]. unfold OS.Run. rewrite on_trace_sys_.
  destruct (sys_error _ _); [done|]. split; [|done]. cbn in *. split; [done| |done].
  apply Forall_app. split; [done|]. repeat constructor. unfold net_out_ok. cbn.
  intros [-> ->]. done.
Qed.

Lemma op_ok o : steps ok_rel (do_op o).
Proof using All.
  apply op_steps; try apply _; intros; try (by apply update_ok);
    auto using on_trace_ok, on_tracker_ok, NetIn_ok, NetOut_ok, Run_keyed, Attach_keyed,
      UnlinkAll_keyed.
Qed.
End with_laws.

(** ** Sequences of steps *)

Lemma c_step_evolves s s' : c_step s s' → evolves_rel s s'.
Proof using Type. intros []; [apply op_evolves|by constructor]. Qed.

Lemma c_steps_evolve s s' : rtc c_step s s' → evolves_rel s s'.
Proof using Type. induction 1 as [|s1 s2 s3 H _ IH]; [reflexivity|]. etrans; [by apply c_step_evolves|done]. Qed.

Lemma c_step_owns `{!ResourcePoolLaws PP Z Z} s s' : c_step s s' → owns_ports s s'.
Proof using All. intros [o s0|t' s0 Ht]; [apply op_owns_ports|]. by intros init others. Qed.

Lemma c_steps_own `{!ResourcePoolLaws PP Z Z} s s' : rtc c_step s s' → owns_ports s s'.
Proof using All. induction 1 as [|s1 s2 s3 H _ IH]; [reflexivity|]. etrans; [by apply c_step_owns|done]. Qed.

Lemma c_step_ok `{!ResourcePoolLaws PP Z Z} s s' : c_step s s' → state_ok s → state_ok s'.
Proof using All.
  intros [o s0|t' s0 Ht]; [apply op_ok|]. intros [[H1 H2 H3] H4]. split; [|done].
  split; [done..|]. by eapply keyed_step.
Qed.

Lemma c_steps_ok `{!ResourcePoolLaws PP Z Z} s s' : rtc c_step s s' → state_ok s → state_ok s'.
Proof using All. induction 1 as [|s1 s2 s3 H _ IH]; [done|]. intros Hok. by apply IH, (c_step_ok s1). Qed.

(** ** Restoring *)

Lemma wp_this (Q : LinuxContainer → CS → Prop) s : Q (cs_container s) s → wp this Q s.
Proof using Type. done. Qed.

Lemma wp_on_trace_sys_ sc h p c (Q : unit → CS → Prop) :
  Q tt (mkCState (h ++ [sc]) p c) → wp (on_trace (sys_ sc)) Q (mkCState h p c).
Proof using Type.
  intros HQ. unfold wp. rewrite on_trace_sys_. destruct (sys_error h sc) as [e|] eqn:E; [|done].
  by exists h, sc.
Qed.

Lemma wp_on_trace_ignore_sys_ sc h p c (Q : unit → CS → Prop) :
  Q tt (mkCState (h ++ [sc]) p c) → wp (on_trace (ignore_err (sys_ sc))) Q (mkCState h p c).
Proof using Type. intros HQ. unfold wp. by rewrite on_trace_ignore_sys_. Qed.

Lemma wp_startOomNotifier h p c :
  wp startOomNotifier (λ _ s', ∃ h' v w, s' = mkCState h' p (set_oomWatchers v (set_oomNotifier w c)))
    (mkCState h p c).
Proof using Type.
  unfold startOomNotifier. apply wp_bind, wp_this. cbn [cs_container].
  destruct (c_oomNotifier c) as [oom|] eqn:E; [apply wp_ret|].
  - exists h, (c_oomWatchers c), (Some oom). f_equal. destruct c; cbn in *. by subst.
  - cbn zeta. apply wp_bind. unfold wp at 1. rewrite update_eq.
    apply wp_bind, wp_on_trace_sys_. unfold wp. rewrite update_eq. by do 3 eexists.
Qed.

Lemma wp_LimitMemory l h p c :
  wp (LimitMemory l) (λ _ s', ∃ h' v w,
      s' = mkCState h' p (set_currentMemoryLimits (Some l) (set_oomWatchers v (set_oomNotifier w c))))
    (mkCState h p c).
Proof using Type.
  unfold LimitMemory. apply wp_bind. eapply wp_mono; [apply wp_startOomNotifier|].
  intros _ s' (h' & v & w & ->). apply wp_bind, wp_this. cbn zeta.
  apply wp_bind, wp_on_trace_ignore_sys_. apply wp_bind, wp_on_trace_ignore_sys_.
  apply wp_bind, wp_on_trace_sys_. unfold wp. rewrite update_eq. by do 3 eexists.
Qed.

Lemma wp_registerEvents evs h p c :
  wp (for_each registerEvent evs)
    (λ _ s', s' = mkCState h p (set_events (c_events c ++ evs) c)) (mkCState h p c).
Proof using Type.
  apply (wp_for_each registerEvent (λ l s', s' = mkCState h p (set_events (c_events c ++ l) c))).
  - f_equal. rewrite app_nil_r. by destruct c.
  - intros dn x rest s' _ ->. unfold wp, registerEvent. rewrite update_eq. cbn.
    by rewrite app_assoc.
Qed.

Lemma wp_NetIns l h p c :
  Forall net_in_ok l →
  wp (for_each (λ i, NetIn (in_HostPort i) (in_ContainerPort i) ≫= λ _, mret tt) l)
    (λ _ s', ∃ h', s' = mkCState h' p (set_netIns (c_netIns c ++ l) c)) (mkCState h p c).
Proof using Type.
  intros Hl. eapply (wp_for_each _ (λ l s', ∃ h', s' = mkCState h' p (set_netIns (c_netIns c ++ l) c))).
  - exists h. f_equal. rewrite app_nil_r. by destruct c.
  - intros dn [hp cp] rest s' -> [h' ->]. rewrite Forall_app, Forall_cons in Hl.
    destruct Hl as (_ & [Hhp Hcp] & _). cbn in *. apply wp_bind. unfold wp at 1.
    rewrite NetIn_given by done. cbn zeta. rewrite (proj2 (Z.eqb_neq cp 0) Hcp).
    destruct (sys_error _ _) as [e|] eqn:E; [by do 2 eexists|]. apply wp_ret.
    eexists. cbn. by rewrite app_assoc.
Qed.

Lemma wp_NetOuts l h p c :
  Forall net_out_ok l →
  wp (for_each (λ o, NetOut (out_Network o) (out_Port o)) l)
    (λ _ s', ∃ h', s' = mkCState h' p (set_netOuts (c_netOuts c ++ l) c)) (mkCState h p c).
Proof using Type.
  intros Hl. eapply (wp_for_each _ (λ l s', ∃ h', s' = mkCState h' p (set_netOuts (c_netOuts c ++ l) c))).
  - exists h. f_equal. rewrite app_nil_r. by destruct c.
  - intros dn [n port] rest s' -> [h' ->]. rewrite Forall_app, Forall_cons in Hl.
    destruct Hl as (_ & Ho & _). unfold net_out_ok in Ho. cbn in *. unfold NetOut.
    destruct ((port =? 0) && String.eqb n "") eqn:E.
    { apply andb_true_iff in E as [->%Z.eqb_eq ->%String.eqb_eq]. tauto. }
    apply wp_bind, wp_this, wp_bind, wp_on_trace_sys_. unfold wp. rewrite update_eq.
    eexists. cbn. by rewrite app_assoc.
Qed.

Lemma wp_restore_processes (l : list (Z * bool)) h p c :
  wp (for_each (λ q, on_tracker (ProcessTracker.Restore (ps_ID q) (ps_TTY q)))
        (map (λ q, mkProcessSnapshot q.1 q.2) l))
    (λ _ s', ∃ t', s' = mkCState h p (set_processTracker t' c) ∧
       processes t' = foldl insert_restored (processes (c_processTracker c)) l)
    (mkCState h p c).
Proof using Type.
  revert c. induction l as [|[id tty] l IH]; intros c; cbn [map for_each].
  - apply wp_ret. exists (c_processTracker c). split; [|done]. f_equal. by destruct c.
  - apply wp_bind. unfold wp at 1, on_tracker, zoom. cbn [view c_tracker_lens cs_trace cs_container].
    destruct (Restore_processes id tty h (c_processTracker c)) as (t' & E & Hps). cbn [ps_ID ps_TTY fst snd].
    rewrite E. cbn [over c_tracker_lens cs_ports fst snd]. eapply wp_mono; [apply IH|].
    cbn. intros _ s' (t2 & -> & Ht2). exists t2. split; [done|]. rewrite Ht2, Hps. done.
Qed.

(** What a container restored into [c0] from the snapshot of [c] looks like. *)
Definition restored c c0 c' : Prop :=
  c_conf c' = c_conf c0 ∧ c_state c' = c_state c ∧ c_events c' = c_events c ∧
  c_resources c' = c_resources c0 ∧
  c_currentMemoryLimits c' =
    match c_currentMemoryLimits c with Some l => Some l | None => c_currentMemoryLimits c0 end ∧
  c_currentDiskLimits c' = c_currentDiskLimits c0 ∧
  c_currentBandwidthLimits c' = c_currentBandwidthLimits c0 ∧
  c_currentCPULimits c' = c_currentCPULimits c0 ∧
  processes (c_processTracker c') = relinked <$> processes (c_processTracker c) ∧
  c_netIns c' = c_netIns c ∧ c_netOuts c' = c_netOuts c.

(** Restored into a fresh container object, a snapshot gives itself back, but for the
    limits. *)
Lemma restored_snapshot c path cgroups quota bandwidth tracker c' :
  restored c (NewLinuxContainer (c_id c) (c_handle c) path (c_properties c) (c_graceTime c)
                (c_resources c) cgroups quota bandwidth tracker) c' →
  Snapshot c' = with_limits (only_memory (snap_Limits (Snapshot c))) (Snapshot c).
Proof using Type.
  intros (Hconf & Hst & Hev & Hres & Hm & Hd & Hb & Hcpu & Hps & Hi & Ho).
  unfold Snapshot, with_limits, only_memory. cbn.
  rewrite Hst, Hev, Hres, Hm, Hd, Hb, Hcpu, Hi, Ho.
  unfold c_id, c_handle, c_graceTime, c_properties. rewrite Hconf.
  f_equal.
  - cbn. by destruct (c_currentMemoryLimits c).
  - rewrite <-!(map_map (λ x : Process, (p_id x, p_withTty x)) (λ q, mkProcessSnapshot q.1 q.2)).
    by rewrite (relinked_active _ _ Hps).
Qed.

(** Restoring a snapshot into a new container: whatever fails outside, the call
    returns, and what it returns without an error is the container that was saved,
    up to the limits that are not restored. *)
Lemma wp_Restore c c0 h p :
  container_ok c → c_events c0 = [] → c_netIns c0 = [] → c_netOuts c0 = [] →
  processes (c_processTracker c0) = ∅ →
  wp (Restore (Snapshot c))
    (λ _ s', cs_ports s' = p ∧ restored c c0 (cs_container s'))
    (mkCState h p c0).
Proof using Type.
  intros [Hi Ho Hk] He0 Hi0 Ho0 Ht0. unfold Restore.
  cbn [Snapshot snap_State snap_Events snap_Limits lim_Memory snap_Processes snap_NetIns snap_NetOuts].
  apply wp_bind. unfold wp at 1, setState. rewrite update_eq.
  apply wp_bind. eapply wp_mono; [apply wp_registerEvents|]. cbn. intros _ s1 ->.
  apply wp_bind. eapply wp_mono with (P := λ _ s', ∃ h' v w m,
    s' = mkCState h' p (set_currentMemoryLimits m (set_oomWatchers v (set_oomNotifier w
           (set_events (c_events c0 ++ c_events c) (set_state (c_state c) c0))))) ∧
    m = match c_currentMemoryLimits c with Some l => Some l | None => c_currentMemoryLimits c0 end).
  { destruct (c_currentMemoryLimits c) as [l|].
    - eapply wp_mono; [apply wp_LimitMemory|]. cbn. intros _ s' (h' & v & w & ->). by do 4 eexists.
    - apply wp_ret. exists h, (c_oomWatchers c0), (c_oomNotifier c0), (c_currentMemoryLimits c0).
      done. }
  cbn. intros _ s2 (h2 & v & w & m & -> & Hm).
  apply wp_bind.
  rewrite <-(map_map (λ x : Process, (p_id x, p_withTty x)) (λ q, mkProcessSnapshot q.1 q.2)).
  eapply wp_mono; [apply wp_restore_processes|]. cbn. intros _ s3 (t' & -> & Ht').
  apply wp_bind, wp_this, wp_bind, wp_on_trace_sys_.
  apply wp_bind. eapply wp_mono; [by apply wp_NetIns|]. cbn. intros _ s4 [h4 ->].
  eapply wp_mono; [by apply wp_NetOuts|]. cbn. intros _ s5 [h5 ->]. cbn. unfold restored. cbn.
  rewrite He0, Hi0, Ho0, Ht', Ht0. split_and!; try done. by apply restored_processes.
Qed.

(** ** The memory controller *)

Lemma memcg_app lp sp round st h sc :
  memcg lp sp round st (h ++ [sc]) = memcg_apply lp sp round (memcg lp sp round st h) sc.
Proof using Type. unfold memcg. by rewrite foldl_app. Qed.

(** The first limit never exceeds the second. *)
Lemma memcg_le lp sp round st h : st.1 ≤ st.2 → (memcg lp sp round st h).1 ≤ (memcg lp sp round st h).2.
Proof using Type.
  intros H0. induction h as [|sc h IH] using rev_ind; [done|]. rewrite memcg_app.
  unfold memcg_apply. destruct sc; try done. destruct (ParseUint data); try done.
  case_decide.
  - destruct (Z.leb_spec (round a) (memcg lp sp round st h).2); done.
  - case_decide; [|done]. destruct (Z.leb_spec (memcg lp sp round st h).1 (round a)); done.
Qed.

(** The three writes of [LimitMemory] set both limits, whatever they were. *)
Lemma memcg_three_writes lp sp round st h v :
  is_u64 v → lp ≠ sp → st.1 ≤ st.2 →
  let w1 := SWriteFile lp (fmt_d v) in
  let w2 := SWriteFile sp (fmt_d v) in
  let st2 := memcg lp sp round st (h ++ [w1; w2]) in
  st2.2 = round v ∧ memcg lp sp round st (h ++ [w1; w2; w1]) = (round v, round v).
Proof using Type.
  intros Hv Hne H0 w1 w2 st2. pose proof (memcg_le lp sp round st h H0) as Hle.
  assert (E2 : st2 = memcg_apply lp sp round (memcg_apply lp sp round (memcg lp sp round st h) w1) w2).
  { subst st2. change [w1; w2] with ([w1] ++ [w2]). by rewrite app_assoc, !memcg_app. }
  assert (Hs : st2.2 = round v ∧ st2.1 ≤ round v).
  { rewrite E2. unfold memcg_apply, w1, w2. rewrite ParseUint_fmt_d by done.
    rewrite (decide_True _ _ (eq_refl lp)), (decide_False _ _ (not_eq_sym Hne)),
      (decide_True _ _ (eq_refl sp)).
    destruct (Z.leb_spec (round v) (memcg lp sp round st h).2); cbn [fst snd].
    - rewrite Z.leb_refl. cbn. lia.
    - destruct (Z.leb_spec (memcg lp sp round st h).1 (round v)); cbn [fst snd]; lia. }
  split; [apply Hs|]. change [w1; w2; w1] with ([w1; w2] ++ [w1]). rewrite app_assoc, memcg_app.
  fold st2. unfold memcg_apply, w1. rewrite ParseUint_fmt_d by done.
  rewrite (decide_True _ _ (eq_refl lp)), (proj1 Hs), Z.leb_refl. done.
Qed.

(** ** Starting and stopping, call by call *)

Definition kill_oom c : Trace :=
  match c_oomNotifier c with Some oom => [SKill oom] | None => [] end.

Lemma Start_eq h p c :
  let sc := SRun (start_cmd c) in
  Start (mkCState h p c) =
    match sys_error h sc with
    | Some e => (Err e, mkCState (h ++ [sc]) p c)
    | None => (Ok tt, mkCState (h ++ [sc]) p (set_state StateActive c))
    end.
Proof using Type.
  unfold Start, mbind, M_bind, this, gets, OS.Run. cbn [cs_container]. rewrite on_trace_sys_.
  by destruct (sys_error _ _).
Qed.

Lemma stopOomNotifier_eq h p c :
  stopOomNotifier (mkCState h p c) = (Ok tt, mkCState (h ++ kill_oom c) p c).
Proof using Type.
  unfold stopOomNotifier, kill_oom. unfold mbind, M_bind, this, gets. cbn [cs_container].
  destruct (c_oomNotifier c); [apply on_trace_ignore_sys_|]. by rewrite app_nil_r.
Qed.

Lemma Stop_eq kill h p c :
  let sc := SRun (stop_cmd c kill) in
  Stop kill (mkCState h p c) =
    match sys_error h sc with
    | Some e => (Err e, mkCState (h ++ [sc]) p c)
    | None => (Ok tt, mkCState (h ++ [sc] ++ kill_oom c) p (set_state StateStopped c))
    end.
Proof using Type.
  cbn zeta. unfold Stop. unfold mbind, M_bind, this, gets, OS.Run. cbn [cs_container].
  rewrite on_trace_sys_. destruct (sys_error _ _); [done|].
  rewrite stopOomNotifier_eq. by rewrite <-app_assoc.
Qed.

Definition limit_path c : string :=
  CgroupsManager.file_path (c_cgroupsManager c) "memory" "memory.limit_in_bytes".
Definition memsw_path c : string :=
  CgroupsManager.file_path (c_cgroupsManager c) "memory" "memory.memsw.limit_in_bytes".

(** [LimitMemory] once the notifier runs. *)
Lemma LimitMemory_running l h p c oom :
  c_oomNotifier c = Some oom →
  let w1 := SWriteFile (limit_path c) (fmt_d (LimitInBytes l)) in
  let w2 := SWriteFile (memsw_path c) (fmt_d (LimitInBytes l)) in
  LimitMemory l (mkCState h p c) =
    match sys_error (h ++ [w1; w2]) w1 with
    | Some e => (Err e, mkCState (h ++ [w1; w2; w1]) p c)
    | None => (Ok tt, mkCState (h ++ [w1; w2; w1]) p (set_currentMemoryLimits (Some l) c))
    end.
Proof using Type.
  intros Ho w1 w2. unfold LimitMemory, startOomNotifier.
  unfold mbind, M_bind, this, gets. cbn [cs_container]. rewrite Ho.
  unfold CgroupsManager.Set_, WriteFile. cbn [mret M_ret]. unfold mret, M_ret. cbn [cs_container].
  fold (limit_path c) (memsw_path c). rewrite !on_trace_ignore_sys_. fold w1 w2.
  rewrite on_trace_sys_. fold w1. rewrite <-!app_assoc. cbn [app].
  by destruct (sys_error (h ++ [w1; w2]) w1).
Qed.

(** The first [LimitMemory] starts it. *)
Lemma LimitMemory_starts l h p c :
  c_oomNotifier c = None →
  let oom := oom_cmd c in
  LimitMemory l (mkCState h p c) =
    match sys_error h (SStart oom) with
    | Some e => (Err e, mkCState (h ++ [SStart oom]) p (set_oomNotifier (Some oom) c))
    | None => LimitMemory l (mkCState (h ++ [SStart oom]) p
                (set_oomWatchers (oom :: c_oomWatchers c) (set_oomNotifier (Some oom) c)))
    end.
Proof using Type.
  intros Ho oom. unfold LimitMemory at 1, startOomNotifier.
  unfold mbind at 1, M_bind at 1. unfold mbind at 1, M_bind at 1. unfold this at 1, gets at 1.
  cbn [cs_container]. rewrite Ho. fold oom.
  unfold mbind at 1, M_bind at 1. rewrite update_eq.
  unfold mbind at 1, M_bind at 1. unfold OS.Start. rewrite on_trace_sys_.
  by destruct (sys_error h (SStart oom)).
Qed.

(** What [LimitMemory] achieves under the memory controller's rules. *)
Definition memory_limited round st (l : MemoryLimits) (c : LinuxContainer) (s' : CS) : Prop :=
  let v := LimitInBytes l in
  memcg (limit_path c) (memsw_path c) round st (cs_trace s') = (round v, round v) ∧
  c_currentMemoryLimits (cs_container s') = Some l ∧
  is_Some (c_oomNotifier (cs_container s')) ∧
  (CurrentMemoryLimits s').1 = Ok (mkMemoryLimits (round v)).

Lemma get_number_eq subsystem name h p c text h' :
  CgroupsManager.Get (c_cgroupsManager c) subsystem name h = (Ok text, h') →
  get_number subsystem name (mkCState h p c) = (ParseUint text, mkCState h' p c).
Proof using Type.
  intros H. unfold get_number, on_trace, zoom, mbind, M_bind, this, gets. cbn [cs_container].
  change (view c_trace_lens _) with h. by rewrite H.
Qed.

Lemma CurrentMemoryLimits_reads h p c v :
  is_u64 v → sys_error h (SReadFile (limit_path c)) = None →
  sys_output h (SReadFile (limit_path c)) = fmt_d v +:+ nl →
  (CurrentMemoryLimits (mkCState h p c)).1 = Ok (mkMemoryLimits v).
Proof using Type.
  intros Hv He Ho. unfold is_u64 in Hv. unfold CurrentMemoryLimits, mbind, M_bind.
  rewrite (get_number_eq _ _ _ _ _ _ _ (CgroupsManager.Get_reads _ _ _ _ _ He Ho)).
  rewrite Trim_line by lia. by rewrite ParseUint_fmt_d.
Qed.

Lemma LimitMemory_running_applies round st l h p c oom :
  MemoryController (limit_path c) (memsw_path c) round st → limit_path c ≠ memsw_path c →
  st.1 ≤ st.2 → is_u64 (LimitInBytes l) → is_u64 (round (LimitInBytes l)) →
  c_oomNotifier c = Some oom →
  ∃ s', LimitMemory l (mkCState h p c) = (Ok tt, s') ∧ memory_limited round st l c s'.
Proof using Type.
  intros [Hlim Hread] Hne Hst Hv Hr Ho. rewrite (LimitMemory_running _ _ _ _ _ Ho). cbn zeta.
  destruct (memcg_three_writes (limit_path c) (memsw_path c) round st h _ Hv Hne Hst) as [H2 H3].
  rewrite (proj2 (Hlim _ _ Hv)) by (rewrite H2; lia). eexists. split; [done|].
  split_and!; cbn [cs_trace cs_container]; [exact H3|done|by cbn; rewrite Ho|].
  apply CurrentMemoryLimits_reads; [done|apply Hread|].
  change (limit_path (set_currentMemoryLimits (Some l) c)) with (limit_path c).
  rewrite (proj2 (Hread _)). by rewrite H3.
Qed.
End container_lemmas.

(** * Properties *)

Section properties.
Context {K : Kernel} {PP : Type} `{!ResourcePool PP Z Z}.
Local Abbreviation CS := (CState PP).

(** C26: setting a memory limit works from any previous limit, higher or lower. With the
    memory controller's rule that the plain limit never exceeds the limit that
    includes swap, the three writes of [LimitMemory] end with both limits at the new
    value, [LimitMemory] returns no error, the notifier runs, and
    [CurrentMemoryLimits] reads the value back (rounded as the kernel does). *)
Theorem LimitMemory_applies round st l h p c :
  let s : CS := mkCState h p c in
  MemoryController (limit_path c) (memsw_path c) round st → limit_path c ≠ memsw_path c →
  st.1 ≤ st.2 → is_u64 (LimitInBytes l) → is_u64 (round (LimitInBytes l)) →
  (is_Some (c_oomNotifier c) ∨ sys_error h (SStart (oom_cmd c)) = None) →
  ∃ s', LimitMemory l s = (Ok tt, s') ∧
    memcg (limit_path c) (memsw_path c) round st (cs_trace s') =
      (round (LimitInBytes l), round (LimitInBytes l)) ∧
    c_currentMemoryLimits (cs_container s') = Some l ∧ is_Some (c_oomNotifier (cs_container s')) ∧
    (CurrentMemoryLimits s').1 = Ok (mkMemoryLimits (round (LimitInBytes l))).
Proof.
  intros s Hmc Hne Hst Hv Hr Hoom. destruct (c_oomNotifier c) as [oom|] eqn:Ho.
  - by eapply LimitMemory_running_applies.
  - destruct Hoom as [[? ?]|Hs]; [done|]. unfold s. rewrite LimitMemory_starts by done. cbn zeta.
    rewrite Hs. by apply (LimitMemory_running_applies round st l _ _
      (set_oomWatchers (oom_cmd c :: c_oomWatchers c) (set_oomNotifier (Some (oom_cmd c)) c)) (oom_cmd c)).
Qed.

(** What a CPU limit sets is read back: after a [LimitCPU] that returned no error,
    [CurrentCPULimits] returns the shares that were set. *)
Theorem LimitCPU_roundtrip l (s s' : CS) :
  PlainFile (CgroupsManager.file_path (c_cgroupsManager (cs_container s)) "cpu" "cpu.shares") →
  is_u64 (LimitInShares l) → LimitCPU l s = (Ok tt, s') →
  (CurrentCPULimits s').1 = Ok l ∧ c_currentCPULimits (cs_container s') = Some l.
Proof.
  destruct s as [h p c]. intros Hpf Hv H. unfold LimitCPU in H.
  unfold mbind, M_bind, this, gets in H. cbn [cs_container] in H, Hpf.
  unfold CgroupsManager.Set_, WriteFile in H. rewrite on_trace_sys_ in H.
  destruct (sys_error _ _) eqn:E; [done|]. rewrite update_eq in H. injection H as <-.
  split; [|done]. unfold is_u64 in Hv.
  set (path := CgroupsManager.file_path (c_cgroupsManager c) "cpu" "cpu.shares") in *.
  set (h' := h ++ [SWriteFile path (fmt_d (LimitInShares l))]) in *.
  destruct (Hpf h' (fmt_d (LimitInShares l))) as [He Ho].
  { unfold h'. rewrite last_write_app. by rewrite decide_True. }
  unfold CurrentCPULimits, mbind, M_bind.
  rewrite (get_number_eq _ _ _ p (set_currentCPULimits (Some l) c) _ _
             (CgroupsManager.Get_reads (c_cgroupsManager c) _ _ _ _ He Ho)).
  rewrite Trim_fmt_d by lia. rewrite ParseUint_fmt_d by done. by destruct l.
Qed.

(** C24: whatever happens to a container (its operations in any order, failing at any
    point, and the goroutines of its processes), a host port is either in the pool
    or among the container's ports, never both and never lost, and the container
    gives none of its ports away. The pool is any that keeps the pool laws. *)
Theorem container_keeps_ports `{!ResourcePoolLaws PP Z Z} init others (s s' : CS) :
  rtc c_step s s' →
  Ledger init (cs_ports s) (Ports (c_resources (cs_container s)) ++ others) →
  Ledger init (cs_ports s') (Ports (c_resources (cs_container s')) ++ others) ∧
  Ports (c_resources (cs_container s)) `prefix_of` Ports (c_resources (cs_container s')).
Proof.
  intros Hst HL. split; [by eapply c_steps_own|]. apply (c_steps_evolve s s' Hst).
Qed.

(** A container keeps its identity, uid, network, properties and managers for ever,
    and only gains ports, events and network rules; the rules it records stay the
    kind that can be applied again and its processes registered under their own
    ids, whatever happens to it. *)
Theorem container_evolves `{!ResourcePoolLaws PP Z Z} (s s' : CS) :
  rtc c_step s s' → state_ok s →
  evolves (cs_container s) (cs_container s') ∧ container_ok (cs_container s').
Proof. intros Hst Hok. split; [by apply c_steps_evolve|by apply (c_steps_ok s s')]. Qed.

(** The life cycle: a successful [Start] makes a container active, a successful
    [Stop] makes it stopped, and no other operation, and none that fails, changes
    the state. *)
Theorem lifecycle o (s : CS) :
  (∀ oom, o ≠ OWatchForOom oom) →
  c_state (cs_container (do_op o s).2) = next_state o (do_op o s).1 (c_state (cs_container s)).
Proof.
  intros Ho.
  pose proof (op_same_state o) as Hq.
  destruct o; try (by destruct (Ho oom)); try (by apply (Hq I s)); clear Hq;
    destruct s as [h p c]; cbn [do_op].
  - rewrite Start_eq. cbn zeta. by destruct (sys_error _ _).
  - rewrite Stop_eq. cbn zeta. by destruct (sys_error _ _).
Qed.

(** C25: a snapshot restores the container: restored into a fresh container object, it
    yields a container whose own snapshot is the one it came from, process list and
    network rules included, except for the limits: only the memory limit is kept.
    [Restore] takes nothing from the port pool, never panics or hangs, and fails
    only when a command or a file fails. *)
Theorem restore_snapshot c cgroups quota bandwidth h (p : PP) :
  container_ok c →
  let c0 := NewLinuxContainer (c_id c) (c_handle c) (c_path c) (c_properties c) (c_graceTime c)
              (c_resources c) cgroups quota bandwidth (ProcessTracker.New (c_path c)) in
  wp (Restore (Snapshot c))
    (λ _ s', Snapshot (cs_container s') =
               with_limits (only_memory (snap_Limits (Snapshot c))) (Snapshot c) ∧
             cs_ports s' = p)
    (mkCState h p c0).
Proof.
  intros Hok c0. eapply wp_mono; [by apply (wp_Restore c c0)|]. cbn beta.
  intros _ s' [Hp Hr]. split; [|done]. by eapply restored_snapshot.
Qed.

(** When starting the OOM notifier fails, [LimitMemory] reports it and sets no
    limit; but the notifier stays recorded as running, so that the next [LimitMemory]
    starts none and succeeds: the container then runs under a limit that nobody
    watches. *)
Theorem oom_notifier_lost l l' h (p : PP) c e :
  c_oomNotifier c = None → sys_error h (SStart (oom_cmd c)) = Some e →
  (∀ h' f d, sys_error h' (SWriteFile f d) = None) →
  ∃ s1 s2, LimitMemory l (mkCState h p c) = (Err e, s1) ∧
    cs_trace s1 = h ++ [SStart (oom_cmd c)] ∧
    c_currentMemoryLimits (cs_container s1) = c_currentMemoryLimits c ∧
    LimitMemory l' s1 = (Ok tt, s2) ∧
    c_currentMemoryLimits (cs_container s2) = Some l' ∧
    c_oomWatchers (cs_container s2) = c_oomWatchers c ∧
    Forall (λ sc, ∀ cm, sc ≠ SStart cm) (drop (length (cs_trace s1)) (cs_trace s2)).
Proof.
  intros Ho He Hw. rewrite LimitMemory_starts by done. cbn zeta. rewrite He.
  eexists _, _. split_and!; [done..| | | |].
  - rewrite (LimitMemory_running _ _ _ _ (oom_cmd c)) by done. cbn zeta. rewrite Hw. done.
  - done.
  - done.
  - cbn [cs_trace]. rewrite drop_app_length. by repeat constructor.
Qed.

(** When the kernel reports that memory ran out (the notifier exits without an
    error), the container records the event, stops and kills its notifier; when the
    notifier itself fails, nothing changes. *)
Theorem oom_stops_container oom h (p : PP) c :
  (sys_error h (SWait oom) = None →
   sys_error (h ++ [SWait oom]) (SRun (stop_cmd c false)) = None →
   let s' := (watchForOom oom (mkCState h p c)).2 in
   (watchForOom oom (mkCState h p c)).1 = Ok tt ∧
   c_events (cs_container s') = c_events c ++ ["out of memory"] ∧
   c_state (cs_container s') = StateStopped ∧
   cs_trace s' = h ++ [SWait oom; SRun (stop_cmd c false)] ++
                 match c_oomNotifier c with Some o => [SKill o] | None => [] end) ∧
  (∀ e, sys_error h (SWait oom) = Some e →
   watchForOom oom (mkCState h p c) = (Ok tt, mkCState (h ++ [SWait oom]) p c)).
Proof.
  split.
  - intros H1 H2. unfold watchForOom, registerEvent, ignore_err, attempt, mbind, M_bind, Wait.
    rewrite on_trace_sys_, H1, update_eq, Stop_eq. cbn zeta.
    change (stop_cmd (set_events _ c) false) with (stop_cmd c false). rewrite H2. cbn.
    by rewrite <-!app_assoc.
  - intros e He. unfold watchForOom, mbind, M_bind, attempt, Wait. by rewrite on_trace_sys_, He.
Qed.

(** A mapping that names no host port gets the oldest free port of the pool; the
    port is the container's from then on, even when [net.sh] fails, so that
    destroying the container gives it back. A mapping that names no container port
    maps the port to itself. The rule is recorded exactly when [net.sh] succeeded. *)
Theorem NetIn_random_port `{!ResourcePoolLaws PP Z Z} cp h p c x l :
  rp_free p = x :: l → x ≠ 0 →
  let cp' := if cp =? 0 then x else cp in
  let sc := SRun (net_in_cmd c x cp') in
  let c1 := set_resources (AddPort x (c_resources c)) c in
  ∃ p', rp_free p' = l ∧
    NetIn 0 cp (mkCState h p c) =
      match sys_error h sc with
      | Some e => (Err e, mkCState (h ++ [sc]) p' c1)
      | None => (Ok (x, cp'),
                 mkCState (h ++ [sc]) p' (set_netIns (c_netIns c ++ [mkNetIn x cp']) c1))
      end.
Proof.
  intros Hf Hx cp' sc c1. destruct (NetIn_random cp h p c x l Hf Hx) as (p' & Hf' & _ & E).
  exists p'. split; [done|]. rewrite E. by rewrite NetIn_given.
Qed.
End properties.

(** * Witnesses *)

#[local] Existing Instances PortPool.port_rp PortPool.port_laws.

Lemma memcg_kernel_ok lp sp st :
  lp ≠ sp → MemoryController (K := memcg_kernel lp sp st) lp sp page_round st.
Proof.
  intros Hne. split.
  - intros h v Hv. cbn. rewrite ParseUint_fmt_d by done. rewrite decide_True by done.
    destruct (Z.leb_spec (page_round v) (memcg lp sp page_round st h).2); split; (done || lia).
  - intros h. cbn. by rewrite decide_True.
Qed.

Lemma example_container_ok : container_ok example_container.
Proof.
  split.
  - repeat constructor; discriminate.
  - repeat constructor. intros [_ [=]].
  - intros id q. cbn. rewrite lookup_singleton_Some. by intros [<- <-].
Qed.

Definition fresh_container : LinuxContainer :=
  NewLinuxContainer "some-id" "some-handle" "/depot/some-id" ∅ 0
    (NewResources 10000 (Some example_network) [])
    (CgroupsManager.New "/cgroups" "some-id") (QuotaManager.mkQuotaManager true "/bin" "/mnt")
    (BandwidthManager.New "/depot/some-id" "some-id") (ProcessTracker.New "/depot/some-id").

Definition example_state : CState PortPool.PortPool :=
  mkCState [] (PortPool.New 61001 3) fresh_container.

Lemma LimitMemory_applies_witness :
  let lp := limit_path example_container in
  let sp := memsw_path example_container in
  let K := memcg_kernel lp sp (8192, 8192) in
  ∃ s', LimitMemory (K := K) (mkMemoryLimits 1048577)
          (mkCState [] (PortPool.New 61001 3) example_container) = (Ok tt, s') ∧
    (CurrentMemoryLimits (K := K) s').1 = Ok (mkMemoryLimits 1048576).
Proof.
  intros lp sp K.
  destruct (LimitMemory_applies (K := K) page_round (8192, 8192) (mkMemoryLimits 1048577) []
              (PortPool.New 61001 3) example_container) as (s' & H1 & _ & _ & _ & H2).
  - apply memcg_kernel_ok. vm_compute. discriminate.
  - vm_compute. discriminate.
  - discriminate.
  - split; [discriminate|reflexivity].
  - split; [discriminate|reflexivity].
  - right. reflexivity.
  - exists s'. split; [exact H1|exact H2].
Defined.

Lemma LimitCPU_roundtrip_witness :
  (CurrentCPULimits (K := quiet_kernel)
     (LimitCPU (K := quiet_kernel) (mkCPULimits 512) example_state).2).1 = Ok (mkCPULimits 512).
Proof.
  apply (LimitCPU_roundtrip (K := quiet_kernel) (mkCPULimits 512) example_state).
  - apply quiet_plain.
  - split; [discriminate|reflexivity].
  - reflexivity.
Defined.

Lemma container_keeps_ports_witness :
  let s' := (do_op (K := quiet_kernel) (ONetIn 0 8080) example_state).2 in
  Ledger (seqZ 61001 3) (cs_ports s') (Ports (c_resources (cs_container s')) ++ []) ∧
  Ports (c_resources (cs_container s')) = [61001].
Proof.
  intros s'. split; [|reflexivity].
  apply (container_keeps_ports (K := quiet_kernel) (seqZ 61001 3) [] example_state s').
  - apply rtc_once, c_op.
  - exact (PortPool.port_ledger_New 61001 3 ltac:(split; [discriminate|reflexivity])).
Defined.

Lemma container_evolves_witness :
  let s' := (do_op (K := quiet_kernel) (ONetIn 0 8080) example_state).2 in
  evolves fresh_container (cs_container s') ∧ container_ok (cs_container s').
Proof.
  intros s'. apply (container_evolves (K := quiet_kernel) example_state s').
  - apply rtc_once, c_op.
  - split; [split; [by constructor|by constructor|intros id q H; discriminate H]|].
    repeat constructor; discriminate.
Defined.

Lemma lifecycle_witness :
  c_state (cs_container (do_op (K := quiet_kernel) OStart example_state).2) = "active".
Proof. rewrite (lifecycle (K := quiet_kernel) OStart example_state); [reflexivity|discriminate]. Defined.

Lemma restore_snapshot_witness :
  wp (K := quiet_kernel) (Restore (K := quiet_kernel) (Snapshot example_container))
    (λ _ s', snap_Limits (Snapshot (cs_container s')) =
               mkLimitsSnapshot (Some (mkMemoryLimits 1048576)) None None None)
    (mkCState [] (PortPool.New 61001 3)
       (NewLinuxContainer "some-id" "some-handle" "/depot/some-id" {["owner" := "alice"]} 300000000000
          (mkResources 10000 (Some example_network) [61001])
          (CgroupsManager.New "/cgroups" "some-id") (QuotaManager.mkQuotaManager true "/bin" "/mnt")
          (BandwidthManager.New "/depot/some-id" "some-id") (ProcessTracker.New "/depot/some-id"))).
Proof.
  apply (wp_mono _ _ _ _ (restore_snapshot (K := quiet_kernel) example_container
           (CgroupsManager.New "/cgroups" "some-id") (QuotaManager.mkQuotaManager true "/bin" "/mnt")
           (BandwidthManager.New "/depot/some-id" "some-id") [] (PortPool.New 61001 3)
           example_container_ok)).
  intros _ s' [H _]. rewrite H. reflexivity.
Defined.

Definition no_start_kernel : Kernel :=
  failing_kernel (λ c, match c with SStart _ => true | _ => false end).

Lemma oom_notifier_lost_witness :
  ∃ e s1 s2, LimitMemory (K := no_start_kernel) (mkMemoryLimits 4096) example_state = (Err e, s1) ∧
    LimitMemory (K := no_start_kernel) (mkMemoryLimits 4096) s1 = (Ok tt, s2) ∧
    c_oomWatchers (cs_container s2) = [].
Proof.
  destruct (oom_notifier_lost (K := no_start_kernel) (mkMemoryLimits 4096) (mkMemoryLimits 4096) []
              (PortPool.New 61001 3) fresh_container (mkError "*exec.ExitError" "exit status 1"))
    as (s1 & s2 & H1 & _ & _ & H2 & _ & H3 & _).
  - reflexivity.
  - reflexivity.
  - intros h' f d. reflexivity.
  - exists (mkError "*exec.ExitError" "exit status 1"), s1, s2. split; [exact H1|split; [exact H2|exact H3]].
Defined.

Lemma oom_stops_container_witness :
  c_state (cs_container (watchForOom (K := quiet_kernel) (oom_cmd fresh_container) example_state).2) =
    "stopped".
Proof.
  apply (proj1 (oom_stops_container (K := quiet_kernel) (oom_cmd fresh_container) []
                  (PortPool.New 61001 3) fresh_container)); reflexivity.
Defined.

Lemma NetIn_random_port_witness :
  (NetIn (K := quiet_kernel) 0 0 example_state).1 = Ok (61001, 61001).
Proof.
  destruct (NetIn_random_port (K := quiet_kernel) 0 [] (PortPool.New 61001 3) fresh_container
              61001 [61002; 61003]) as (p' & _ & E); [reflexivity|discriminate|].
  unfold example_state. rewrite E. reflexivity.
Defined.
