(* ===== verification/ContainerPool.v ===== *)
(** linux_backend/container_pool/container_pool.go: creating, restoring, destroying
    and pruning containers, and who owns the uids, networks and host ports.

    The pools are any implementations of the interface [ResourcePool]; the state
    [PState] holds them with the trace of outside calls and the number the
    generator of container ids has reached. *)
From S2P Require Import Prelude GoStd OS ResourcePool Net Network Warden Snapshot Url SysConfig.
From S2P Require Import RootFSProvider.
From S2P Require CgroupsManager QuotaManager BandwidthManager ProcessTracker.
From S2P Require UIDPool NetworkPool PortPool.
From S2P Require Import LinuxContainer.
From Stdlib Require Import Ascii.

Local Open Scope string_scope.
Local Open Scope list_scope.
Local Open Scope Z_scope.

(** * State *)

Definition ErrUnknownRootFSProvider : error :=
  mkError "*errors.errorString" "unknown rootfs provider".

(** The fields of [LinuxContainerPool] that never change. *)
Record PoolConf := mkPoolConf {
  binPath : string;
  depotPath : string;
  sysconfig : Config;
  denyNetworks : list string;
  allowNetworks : list string;
  rootfsProviders : gmap string RootFSProvider;
  quotaManager : LinuxQuotaManager
}.

(** What the pool asks of the uid and network pools beyond [ResourcePool]. *)
Class SizedPool (P : Type) := initial_size : P → nat.
Class NetworkedPool (P : Type) := pool_network : P → IPNet.

Record PState (UP NP PP : Type) := mkPState {
  ps_trace : Trace;
  ps_uids : UP;
  ps_networks : NP;
  ps_ports : PP;
  ps_containerNum : Z
}.
Arguments mkPState {UP NP PP} _ _ _ _ _.
Arguments ps_trace {UP NP PP} _.
Arguments ps_uids {UP NP PP} _.
Arguments ps_networks {UP NP PP} _.
Arguments ps_ports {UP NP PP} _.
Arguments ps_containerNum {UP NP PP} _.

(** * Container ids *)

(** [strconv.AppendInt(b, d, 32)] for one digit *)
Definition base32_digit (d : Z) : ascii :=
  if d <? 10 then ascii_of_N (Z.to_N (48 + d)) else ascii_of_N (Z.to_N (87 + d)).

Fixpoint string_of_chars (l : list ascii) : string :=
  match l with [] => "" | c :: l' => String c (string_of_chars l') end.

(** Eleven digits of five bits, the highest first. *)
Definition id_digits (containerNum : Z) : list Z :=
  map (λ i, Z.land (Z.shiftr containerNum (55 - (Z.of_nat i + 1) * 5)) 31) (seq 0 11).

Definition containerID (containerNum : Z) : string :=
  string_of_chars (map base32_digit (id_digits containerNum)).

(** [containerNum++] on [int64] *)
Definition i64_succ (n : Z) : Z := (n + 1 + 2 ^ 63) mod 2 ^ 64 - 2 ^ 63.

(** * Operations *)

Definition formatNetworks (networks : list string) : string := Join networks " ".

Section pool.
Context {K : Kernel} {UP NP PP : Type}.
Context `{!ResourcePool UP Z Z, !ResourcePool NP Network string, !ResourcePool PP Z Z}.
Context `{!SizedPool UP, !SizedPool NP, !NetworkedPool NP}.
Context (p : PoolConf).
Local Abbreviation PS := (PState UP NP PP).

Definition p_trace_lens : Lens PS Trace := mkLens ps_trace
  (λ h s, mkPState h (ps_uids s) (ps_networks s) (ps_ports s) (ps_containerNum s)).
Definition p_uids_lens : Lens PS UP := mkLens ps_uids
  (λ u s, mkPState (ps_trace s) u (ps_networks s) (ps_ports s) (ps_containerNum s)).
Definition p_networks_lens : Lens PS NP := mkLens ps_networks
  (λ n s, mkPState (ps_trace s) (ps_uids s) n (ps_ports s) (ps_containerNum s)).
Definition p_ports_lens : Lens PS PP := mkLens ps_ports
  (λ q s, mkPState (ps_trace s) (ps_uids s) (ps_networks s) q (ps_containerNum s)).

Definition p_on_trace {A} (m : M Trace A) : M PS A := zoom p_trace_lens m.
Definition on_uids {A} (m : M UP A) : M PS A := zoom p_uids_lens m.
Definition on_networks {A} (m : M NP A) : M PS A := zoom p_networks_lens m.
Definition p_on_ports {A} (m : M PP A) : M PS A := zoom p_ports_lens m.

(** Run an operation of a container; the container it leaves is returned. *)
Definition on_container {A} (c : LinuxContainer) (m : M (CState PP) A) : M PS (A * LinuxContainer) :=
  λ s, let '(r, cs) := m (mkCState (ps_trace s) (ps_ports s) c) in
       (match r with Ok a => Ok (a, cs_container cs) | Err e => Err e | Crash f => Crash f end,
        mkPState (cs_trace cs) (ps_uids s) (ps_networks s) (cs_ports cs) (ps_containerNum s)).

Definition MaxContainers : M PS nat :=
  maxNet ← gets (λ s, initial_size (ps_networks s));
  maxUid ← gets (λ s, initial_size (ps_uids s));
  mret (if (maxNet <? maxUid)%nat then maxNet else maxUid).

Definition setup_cmd (network : IPNet) : Cmd :=
  cmd (path_Join [binPath p; "setup.sh"]) []
    ["POOL_NETWORK=" +:+ IPNet_String network;
     "DENY_NETWORKS=" +:+ formatNetworks (denyNetworks p);
     "ALLOW_NETWORKS=" +:+ formatNetworks (allowNetworks p);
     "CONTAINER_DEPOT_PATH=" +:+ depotPath p;
     "CONTAINER_DEPOT_MOUNT_POINT_PATH=" +:+ QuotaManager.MountPoint (quotaManager p);
     "DISK_QUOTA_ENABLED=" +:+ fmt_bool (QuotaManager.IsEnabled (quotaManager p));
     env_PATH].

Definition Setup : M PS unit :=
  n ← gets (λ s, pool_network (ps_networks s)); p_on_trace (OS.Run (setup_cmd n)).

(** [<-p.containerIDs] *)
Definition next_id : M PS string :=
  n ← gets ps_containerNum;
  modify (λ s, mkPState (ps_trace s) (ps_uids s) (ps_networks s) (ps_ports s) (i64_succ n)) ≫= λ _,
  mret (containerID n).

Definition containerPath (id : string) : string := path_Join [depotPath p; id].
Definition provider_file (id : string) : string := path_Join [depotPath p; id; "rootfs-provider"].

(** ** Creating *)

Definition saveRootFSProvider (id provider : string) : M Trace unit :=
  sys_ (SMkdirAll (Dir (provider_file id))) ≫= λ _, WriteFile (provider_file id) provider.

(** The shell commands that append one bind mount to the container's hook. *)
Definition bind_mount_cmds (path : string) (bm : BindMount) : list Cmd :=
  let hook := path_Join [path; "lib"; "hook-child-before-pivot.sh"] in
  let dstMount := path_Join [path; "mnt"; DstPath bm] in
  let srcPath := match Origin bm with
                 | BindMountOriginContainer => path_Join [path; "tmp"; "rootfs"; SrcPath bm]
                 | BindMountOriginHost => SrcPath bm
                 end in
  let mode := match Mode bm with BindMountModeRW => "rw" | BindMountModeRO => "ro" end in
  let bash text := cmd "bash" ["-c"; text] [] in
  [bash ("echo >> " +:+ hook);
   bash ("echo mkdir -p " +:+ dstMount +:+ " >> " +:+ hook);
   bash ("echo mount -n --bind " +:+ srcPath +:+ " " +:+ dstMount +:+ " >> " +:+ hook);
   bash ("echo mount -n --bind -o remount," +:+ mode +:+ " " +:+ srcPath +:+ " " +:+ dstMount +:+
         " >> " +:+ hook)].

Definition writeBindMounts (path : string) (bindMounts : list BindMount) : M Trace unit :=
  for_each (λ bm, for_each OS.Run (bind_mount_cmds path bm)) bindMounts.

Definition create_cmd (id rootfsPath : string) (uid : Z) (network : Network) : Cmd :=
  cmd (path_Join [binPath p; "create.sh"]) [containerPath id]
    ["id=" +:+ id; "rootfs_path=" +:+ rootfsPath; "user_uid=" +:+ fmt_d uid;
     "network_host_ip=" +:+ IP_String (HostIP network);
     "network_container_ip=" +:+ IP_String (ContainerIP network); env_PATH].

(** The container object [Create] and [Restore] build. *)
Definition make_container (id handle : string) (properties : Properties) (graceTime : Z)
    (resources : Resources) : LinuxContainer :=
  NewLinuxContainer id handle (containerPath id) properties graceTime resources
    (CgroupsManager.New (CgroupPath (sysconfig p)) id) (quotaManager p)
    (BandwidthManager.New (containerPath id) id) (ProcessTracker.New (containerPath id)).

(** What follows once a uid, a network and an id are at hand. *)
Definition create_with (spec : ContainerSpec) (uid : Z) (network : Network) (id : string) :
    M PS LinuxContainer :=
  let handle := if String.eqb (spec_Handle spec) "" then id else spec_Handle spec in
  rootfsURL ← of_result (Parse (RootFSPath spec));
  match rootfsProviders p !! Scheme rootfsURL with
  | None => raise ErrUnknownRootFSProvider
  | Some provider =>
      rootfsPath ← p_on_trace (ProvideRootFS provider id rootfsURL);
      let container := make_container id handle (spec_Properties spec) (spec_GraceTime spec)
                         (NewResources uid (Some network) []) in
      r ← attempt (p_on_trace (OS.Run (create_cmd id rootfsPath uid network)));
      match r with
      | inr e =>
          on_uids (rp_release uid) ≫= λ _, on_networks (rp_release network) ≫= λ _, raise e
      | inl _ =>
          p_on_trace (saveRootFSProvider id (Scheme rootfsURL)) ≫= λ _,
          p_on_trace (writeBindMounts (containerPath id) (BindMounts spec)) ≫= λ _,
          mret container
      end
  end.

Definition Create (spec : ContainerSpec) : M PS LinuxContainer :=
  uid ← on_uids rp_acquire;
  r ← attempt (on_networks rp_acquire);
  match r with
  | inr e => on_uids (rp_release uid) ≫= λ _, raise e
  | inl network => id ← next_id; create_with spec uid network id
  end.

(** ** Restoring *)

(** [p.networkPool.Remove(n)], [p.networkPool.Release(n)] on a pointer that may be nil *)
Definition remove_network (n : option Network) : M PS unit :=
  match n with Some n => on_networks (rp_remove n) | None => crash NilDereference end.
Definition release_network (n : option Network) : M PS unit :=
  match n with Some n => on_networks (rp_release n) | None => crash NilDereference end.

(** On a port that is taken everything in the snapshot is released, whether it was
    removed from its pool before or not. *)
Definition claim_port (resources : Resources) (port : Z) : M PS unit :=
  r ← attempt (p_on_ports (rp_remove port));
  match r with
  | inl _ => mret tt
  | inr e =>
      on_uids (rp_release (UID resources)) ≫= λ _,
      release_network (res_Network resources) ≫= λ _,
      for_each (λ port, p_on_ports (rp_release port)) (Ports resources) ≫= λ _,
      raise e
  end.

(** The pool's part of [Restore]: after decoding the snapshot. *)
Definition RestoreSnapshot (snapshot : ContainerSnapshot) : M PS LinuxContainer :=
  let id := snap_ID snapshot in
  let resources := snap_Resources snapshot in
  on_uids (rp_remove (UID resources)) ≫= λ _,
  r ← attempt (remove_network (res_Network resources));
  match r with
  | inr e => on_uids (rp_release (UID resources)) ≫= λ _, raise e
  | inl _ =>
      for_each (claim_port resources) (Ports resources) ≫= λ _,
      let container := make_container id (snap_Handle snapshot) (snap_Properties snapshot)
                         (snap_GraceTime snapshot)
                         (NewResources (UID resources) (res_Network resources) (Ports resources)) in
      '(_, container') ← on_container container (LinuxContainer.Restore snapshot);
      mret container'
  end.

(** ** Destroying *)

Definition destroy_cmd (id : string) : Cmd :=
  cmd (path_Join [binPath p; "destroy.sh"]) [path_Join [depotPath p; id]] [].

(** The file that names the provider may be missing: the name is then empty. *)
Definition destroy (id : string) : M Trace unit :=
  r ← attempt (ReadFile (provider_file id));
  let rootfsProvider := match r with inl text => text | inr _ => "" end in
  match rootfsProviders p !! rootfsProvider with
  | None => raise ErrUnknownRootFSProvider
  | Some provider => OS.Run (destroy_cmd id) ≫= λ _, CleanupRootFS provider id
  end.

Definition Destroy (c : LinuxContainer) : M PS unit :=
  p_on_trace (destroy (c_id c)) ≫= λ _,
  let resources := c_resources c in
  for_each (λ port, p_on_ports (rp_release port)) (Ports resources) ≫= λ _,
  on_uids (rp_release (UID resources)) ≫= λ _,
  release_network (res_Network resources).

(** The ids of [keep] stay, and the directory [tmp]. *)
Definition prune_entry (keep : gset string) (id : string) : M Trace unit :=
  if String.eqb id "tmp" then mret tt
  else if decide (id ∈ keep) then mret tt
  else destroy id.

Definition Prune (keep : gset string) : M PS unit :=
  entries ← p_on_trace (ReadDir (depotPath p));
  p_on_trace (for_each (prune_entry keep) entries).
End pool.

(** * Specifications *)

(** Each pool and the resources of [rs] partition what the pool was made with. *)
Record accounts {UP NP PP}
    `{!ResourcePool UP Z Z, !ResourcePool NP Network string, !ResourcePool PP Z Z}
    (iu : list Z) (nets : list string) (ip : list Z) (s : PState UP NP PP) (rs : list Resources) : Prop := {
  acc_uids : Ledger iu (ps_uids s) (map UID rs);
  acc_networks : Ledger nets (ps_networks s) (omap res_Network rs);
  acc_ports : Ledger ip (ps_ports s) (flat_map Ports rs)
}.

(** [f] is a panic of a root file system provider, or a wait of one that does not end. *)
Definition provide_fault (p : PoolConf) (f : fault) : Prop := ∃ scheme pv id url h,
  rootfsProviders p !! scheme = Some pv ∧ (ProvideRootFS pv id url h).1 = Crash f.
Definition cleanup_fault (p : PoolConf) (f : fault) : Prop := ∃ scheme pv id h,
  rootfsProviders p !! scheme = Some pv ∧ (CleanupRootFS pv id h).1 = Crash f.

(** What [Create] takes before it knows whether it succeeds. *)
Definition taken (uid : Z) (n : Network) : Resources := mkResources uid (Some n) [].

(** * Lemmas *)

Section pool_lemmas.
Context {K : Kernel} {UP NP PP : Type}.
Context `{!ResourcePool UP Z Z, !ResourcePool NP Network string, !ResourcePool PP Z Z}.
Context `{!ResourcePoolLaws UP Z Z, !ResourcePoolLaws NP Network string, !ResourcePoolLaws PP Z Z}.
Context `{!SizedPool UP, !SizedPool NP, !NetworkedPool NP}.
Context (p : PoolConf) (iu : list Z) (nets : list string) (ip : list Z).
Local Abbreviation PS := (PState UP NP PP).
Local Abbreviation accounts := (accounts iu nets ip).
Implicit Types (s : PS) (rs : list Resources).

Lemma saveRootFSProvider_returns id sch : returns (saveRootFSProvider p id sch).
Proof. unfold saveRootFSProvider, WriteFile. repeat rstep. Qed.

Lemma writeBindMounts_returns path bms : returns (writeBindMounts path bms).
Proof. unfold writeBindMounts, OS.Run. repeat rstep. Qed.

Lemma destroy_fault id h f : (destroy p id h).1 = Crash f → cleanup_fault p f.
Proof.
  unfold destroy, ReadFile, OS.Run, sys, attempt, mbind, M_bind. cbn zeta.
  set (r := match sys_error h _ with Some e => Err e | None => _ end).
  assert (Hr : ∀ c, r ≠ Crash c) by (intros c; unfold r; by destruct (sys_error h _)).
  destruct r as [text|e|c]; [| |by destruct (Hr c)].
  all: destruct (rootfsProviders p !! _) as [pv|] eqn:E; [|done]; rewrite sys__eq; destruct (sys_error _ (SRun _)); [done|]; intros H.
  all: eexists _, pv, id, _; by split.
Qed.

Lemma accounts_perm s rs rs' : rs ≡ₚ rs' → accounts s rs → accounts s rs'.
Proof.
  intros Hp [H1 H2 H3]. split.
  - eapply ledger_change; [done| |exact H1]. by rewrite Hp.
  - eapply ledger_change; [done| |exact H2]. by rewrite Hp.
  - eapply ledger_change; [done| |exact H3]. by rewrite Hp.
Qed.

(** The order of the accounts does not matter. *)
#[export] Instance accounts_proper s : Proper (Permutation ==> iff) (accounts s).
Proof. intros rs rs' Hp. split; by apply accounts_perm. Qed.

(** Nobody shares a uid, a network or a host port. *)
Lemma accounts_disjoint s rs :
  accounts s rs → NoDup (map UID rs) ∧ NoDup (omap res_Network rs) ∧ NoDup (flat_map Ports rs).
Proof.
  intros [H1 H2 H3].
  exact (conj (ledger_held_nodup _ _ _ H1)
           (conj (ledger_held_nodup _ _ _ H2) (ledger_held_nodup _ _ _ H3))).
Qed.

Lemma p_on_trace_eq {A} (m : M Trace A) h (u : UP) (n : NP) (q : PP) k :
  p_on_trace m (mkPState h u n q k : PS) = ((m h).1, mkPState (m h).2 u n q k).
Proof. unfold p_on_trace, zoom. cbn. by destruct (m h). Qed.

Lemma accounts_trace h h' (u : UP) (n : NP) (q : PP) k k' rs :
  accounts (mkPState h u n q k) rs → accounts (mkPState h' u n q k') rs.
Proof. by intros [H1 H2 H3]. Qed.

Lemma accounts_take h (u : UP) (n : NP) (q : PP) k rs uid u' x n' :
  accounts (mkPState h u n q k) rs → rp_acquire u = (Ok uid, u') → rp_acquire n = (Ok x, n') →
  accounts (mkPState h u' n' q k) (taken uid x :: rs).
Proof.
  intros [H1 H2 H3] Hu Hn. split; cbn; [by eapply ledger_acquire|by eapply ledger_acquire|done].
Qed.

Lemma accounts_give h (u : UP) (n : NP) (q : PP) k rs uid x :
  accounts (mkPState h u n q k) (taken uid x :: rs) →
  ∃ u' n', rp_release uid u = (Ok tt, u') ∧ rp_release x n = (Ok tt, n') ∧
    accounts (mkPState h u' n' q k) rs.
Proof.
  intros [H1 H2 H3]. cbn in *.
  destruct (rp_release uid u) as [r1 u'] eqn:E1. destruct (rp_release x n) as [r2 n'] eqn:E2.
  destruct (ledger_release _ _ _ _ (map UID rs) _ _ H1 (Permutation_refl _) E1) as (-> & L1 & _).
  destruct (ledger_release _ _ _ _ (omap res_Network rs) _ _ H2 (Permutation_refl _) E2) as (-> & L2 & _).
  exists u', n'. by split_and!.
Qed.

(** ** What [Create] does with the resources *)

(** The state after [create_with] from [s], where [mine] was taken for it. *)
Definition create_outcome rs (mine : Resources) (x : Result LinuxContainer * PS) : Prop :=
  match x with
  | (Ok c, s') => accounts s' (c_resources c :: rs) ∧ c_resources c = mine ∧ c_state c = StateBorn
  | (Err _, s') => accounts s' rs ∨ accounts s' (mine :: rs)
  | (Crash f, s') => provide_fault p f ∧ accounts s' (mine :: rs)
  end.

Lemma create_with_accounts spec uid n id s rs :
  accounts s (taken uid n :: rs) → create_outcome rs (taken uid n) (create_with p spec uid n id s).
Proof.
  destruct s as [h u nt q k]. intros HL. unfold create_with.
  pose proof (Parse_returns (RootFSPath spec)) as Hparse.
  destruct (Parse (RootFSPath spec)) as [url|e|f]; [|by right|by destruct (Hparse f)].
  change ((of_result (Ok url) ≫= ?f) ?s) with (f url s). cbv beta.
  destruct (rootfsProviders p !! Scheme url) as [pv|] eqn:Epv; [|by right].
  unfold mbind at 1, M_bind at 1. rewrite p_on_trace_eq.
  destruct (ProvideRootFS pv id url h) as [[root|e|f] h1] eqn:Eprov; [|by right; eapply accounts_trace|].
  2: { split; [|by eapply accounts_trace]. exists (Scheme url), pv, id, url, h. by rewrite Eprov. }
  cbn [fst snd]. unfold mbind at 1, M_bind at 1, attempt. rewrite p_on_trace_eq. unfold OS.Run.
  rewrite sys__eq. cbn [fst snd].
  destruct (sys_error h1 _) as [e|].
  - destruct (accounts_give h u nt q k rs uid n HL) as (u' & n' & E1 & E2 & HL').
    unfold on_uids, on_networks, zoom, mbind, M_bind. cbn. rewrite E1. cbn. rewrite E2. left.
    by eapply accounts_trace.
  - unfold mbind at 1, M_bind at 1. rewrite p_on_trace_eq.
    pose proof (saveRootFSProvider_returns id (Scheme url) (h1 ++ [SRun (create_cmd p id root uid n)])) as Hs.
    destruct (saveRootFSProvider _ _ _ _) as [[[]|e|f] h2];
      [|by right; eapply accounts_trace|by destruct (Hs f)].
    unfold mbind at 1, M_bind at 1. cbn [fst snd]. rewrite p_on_trace_eq.
    pose proof (writeBindMounts_returns (containerPath p id) (BindMounts spec) h2) as Hw.
    destruct (writeBindMounts _ _ _) as [[[]|e|f] h3];
      [|by right; eapply accounts_trace|by destruct (Hw f)].
    cbn. split_and!; [by eapply accounts_trace|done..].
Qed.

(** [Create] in a state with a free uid and a free network, and in one without. *)
Lemma Create_takes spec s rs uid lu n ln :
  accounts s rs → rp_free (ps_uids s) = uid :: lu → rp_free (ps_networks s) = n :: ln →
  ∃ u' n' , rp_free u' = lu ∧ rp_free n' = ln ∧
    let s1 := mkPState (ps_trace s) u' n' (ps_ports s) (i64_succ (ps_containerNum s)) in
    Create p spec s = create_with p spec uid n (containerID (ps_containerNum s)) s1 ∧
    accounts s1 (taken uid n :: rs).
Proof.
  destruct s as [h u nt q k]. cbn. intros HL Hu Hn.
  destruct (rp_acquire_cons u uid lu Hu) as (u' & Eu & Hu' & _).
  destruct (rp_acquire_cons nt n ln Hn) as (n' & En & Hn' & _).
  exists u', n'. split_and!; [done..| |].
  - unfold Create, on_uids, on_networks, attempt, zoom, mbind, M_bind. cbn. rewrite Eu. cbn.
    by rewrite En.
  - eapply accounts_trace, accounts_take; done.
Qed.

Lemma Create_exhausted spec s rs :
  accounts s rs → rp_free (ps_uids s) = [] ∨ rp_free (ps_networks s) = [] →
  ∃ e s', Create p spec s = (Err e, s') ∧ accounts s' rs ∧
    length (rp_free (ps_uids s')) = length (rp_free (ps_uids s)) ∧
    rp_free (ps_networks s') = rp_free (ps_networks s) ∧ ps_trace s' = ps_trace s.
Proof.
  destruct s as [h u nt q k]. cbn. intros HL Hex.
  destruct (acquire_cases u) as [(uid & lu & u' & Hu & Eu & Hu' & _)|[Hu [e Eu]]].
  - destruct Hex as [Hu2|Hn]; [congruence|]. destruct (rp_acquire_nil nt Hn) as [e En].
    destruct HL as [H1 H2 H3]. cbn in *.
    destruct (rp_release uid u') as [r u2] eqn:E.
    destruct (ledger_release _ _ _ _ (map UID rs) _ _ (ledger_acquire _ _ _ _ _ H1 Eu)
                (Permutation_refl _) E) as (-> & L & Hf).
    exists e, (mkPState h u2 nt q k). split_and!; [|done| |done|done].
    + unfold Create, on_uids, on_networks, attempt, zoom, mbind, M_bind. cbn. rewrite Eu. cbn.
      rewrite En. cbn. by rewrite E.
    + cbn. rewrite Hf, Hu', Hu, length_app. cbn. lia.
  - exists e, (mkPState h u nt q k). split_and!; [|done..].
    unfold Create, on_uids, attempt, zoom, mbind, M_bind. cbn. by rewrite Eu.
Qed.

(** What [Create] leaves, whatever it returns. *)
Lemma Create_outcome spec s rs :
  accounts s rs →
  match Create p spec s with
  | (Ok c, s') => accounts s' (c_resources c :: rs) ∧
      (∃ uid n, c_resources c = taken uid n) ∧ c_state c = StateBorn
  | (Err _, s') => accounts s' rs ∨ ∃ uid n, accounts s' (taken uid n :: rs)
  | (Crash f, s') => provide_fault p f ∧ ∃ uid n, accounts s' (taken uid n :: rs)
  end.
Proof.
  intros HA. destruct (rp_free (ps_uids s)) as [|uid lu] eqn:Eu;
    [|destruct (rp_free (ps_networks s)) as [|n ln] eqn:En].
  - destruct (Create_exhausted spec s rs HA) as (e & s' & -> & HA' & _); [by left|by left].
  - destruct (Create_exhausted spec s rs HA) as (e & s' & -> & HA' & _); [by right|by left].
  - destruct (Create_takes spec s rs uid lu n ln HA Eu En) as (u' & n' & _ & _ & E & HA1).
    cbn zeta in *. rewrite E.
    pose proof (create_with_accounts spec uid n (containerID (ps_containerNum s)) _ _ HA1) as Ho.
    destruct (create_with _ _ _ _ _ _) as [[c|e|f] s']; cbn in Ho.
    + destruct Ho as (HA' & Hr & Hst). split_and!; [done|by exists uid, n|done].
    + destruct Ho as [Ho|Ho]; [by left|right; by exists uid, n].
    + destruct Ho as [Hf Ho]. split; [done|by exists uid, n].
Qed.

(** ** Giving resources back *)

Lemma release_ports_eq xs h (u : UP) (n : NP) (q q' : PP) k :
  for_each rp_release xs q = (Ok tt, q') →
  for_each (λ port, p_on_ports (rp_release port)) xs (mkPState h u n q k) =
    (Ok tt, mkPState h u n q' k).
Proof.
  revert q. induction xs as [|x xs IH]; intros q; cbn [for_each]; [by intros [= ->]|].
  unfold mbind, M_bind. unfold p_on_ports at 1, zoom at 1. cbn [view p_ports_lens ps_ports].
  destruct (rp_release x q) as [[[]|e|f] q1]; [|done..]. intros H. cbn. by apply IH.
Qed.

Definition destroy_outcome rs (mine : Resources) (x : Result unit * PS) : Prop :=
  match x with
  | (Ok _, s') => accounts s' rs
  | (Err _, s') => accounts s' (mine :: rs)
  | (Crash f, s') => cleanup_fault p f ∧ accounts s' (mine :: rs)
  end.

Lemma Destroy_outcome c n s rs :
  accounts s (c_resources c :: rs) → res_Network (c_resources c) = Some n →
  destroy_outcome rs (c_resources c) (Destroy p c s).
Proof.
  destruct s as [h u nt q k]. intros [H1 H2 H3] Hn. unfold Destroy, mbind at 1, M_bind at 1.
  rewrite p_on_trace_eq. cbn [ps_uids ps_networks ps_ports map omap list_omap flat_map] in *.
  pose proof (destroy_fault (c_id c) h) as Hd.
  destruct (destroy p (c_id c) h) as [[[]|e|f] h']; [|by split|by split; [apply Hd|]]. cbn [fst snd].
  rewrite Hn in H2.
  destruct (ledger_release_all _ _ _ (Ports (c_resources c)) (flat_map Ports rs) H3
              (Permutation_refl _)) as (q' & Eq & L3).
  destruct (rp_release (UID (c_resources c)) u) as [r1 u'] eqn:E1.
  destruct (ledger_release _ _ _ _ (map UID rs) _ _ H1 (Permutation_refl _) E1) as (-> & L1 & _).
  destruct (rp_release n nt) as [r2 n'] eqn:E2.
  destruct (ledger_release _ _ _ _ (omap res_Network rs) _ _ H2 (Permutation_refl _) E2) as (-> & L2 & _).
  unfold mbind, M_bind. rewrite (release_ports_eq _ _ _ _ _ _ _ Eq).
  unfold on_uids, zoom. cbn. rewrite E1, Hn. unfold release_network, on_networks, zoom. cbn. rewrite E2. by split.
Qed.

(** ** Claiming the resources of a snapshot *)

Lemma claim_ports_eq r xs h (u : UP) (n : NP) (q : PP) k held :
  Ledger ip q held → Forall (rp_valid (P := PP)) xs → NoDup (rp_key (P := PP) <$> xs) →
  (∀ x, x ∈ xs → rp_key (P := PP) x ∈ rp_key (P := PP) <$> rp_free q) →
  ∃ q', for_each (claim_port r) xs (mkPState h u n q k) = (Ok tt, mkPState h u n q' k) ∧
    Ledger ip q' (xs ++ held).
Proof.
  revert q held. induction xs as [|x xs IH]; intros q held HL Hv Hnd Hin; [by exists q|].
  apply Forall_cons in Hv as [Hx Hv]. apply NoDup_cons in Hnd as [Hxn Hnd].
  destruct (rp_remove_in q x Hx) as (y & q1 & Er & Hk & Hp & _); [apply Hin; left|].
  pose proof (ledger_remove _ _ _ _ _ HL Hx Er) as HL1.
  destruct (IH q1 (x :: held) HL1 Hv Hnd) as (q' & E & HL').
  { intros z Hz. assert (Hz' : rp_key z ∈ rp_key (P := PP) <$> rp_free q) by (apply Hin; by right).
    rewrite Hp in Hz'. cbn in Hz'. apply elem_of_cons in Hz' as [Hzy|Hz']; [|done].
    exfalso. apply Hxn. rewrite <-Hk, <-Hzy. by apply list_elem_of_fmap_2. }
  exists q'. split.
  - cbn [for_each]. unfold mbind at 1, M_bind at 1. unfold claim_port at 1, attempt, mbind at 1, M_bind at 1.
    unfold p_on_ports at 1, zoom at 1. cbn [view p_ports_lens ps_ports]. rewrite Er. exact E.
  - eapply ledger_change; [done| |exact HL']. cbn. by rewrite Permutation_middle.
Qed.

(** The uid and the network of a snapshot are free. *)
Definition claimable (s : PS) (r : Resources) (n : Network) : Prop :=
  rp_key (P := UP) (UID r) ∈ rp_key (P := UP) <$> rp_free (ps_uids s) ∧
  rp_key (P := NP) n ∈ rp_key (P := NP) <$> rp_free (ps_networks s).

(** [r] are the resources [mine], and further ports, if any. *)
Definition grown (mine r : Resources) : Prop :=
  UID r = UID mine ∧ res_Network r = res_Network mine ∧ Ports mine `prefix_of` Ports r.

Definition restore_outcome rs (free : Prop) (mine : Resources) (x : Result LinuxContainer * PS) : Prop :=
  match x with
  | (Ok c, s') => free ∧ accounts s' (c_resources c :: rs) ∧ grown mine (c_resources c)
  | (Err _, s') => (¬ free ∧ accounts s' rs) ∨ (free ∧ ∃ abandoned, grown mine abandoned ∧ accounts s' (abandoned :: rs))
  | (Crash _, _) => False
  end.

Lemma on_container_accounts c (m : M (CState PP) unit) h u n q k rs :
  steps owns_ports m → steps evolves_rel m → returns m →
  accounts (mkPState h u n q k) (c_resources c :: rs) →
  match on_container c m (mkPState h u n q k : PS) with
  | (Ok (_, c'), s') => accounts s' (c_resources c' :: rs) ∧ evolves c c'
  | (Err _, s') => ∃ c', accounts s' (c_resources c' :: rs) ∧ evolves c c'
  | (Crash _, _) => False
  end.
Proof.
  intros Ho He Hr [H1 H2 H3]. unfold on_container. cbn [ps_trace ps_ports] in *.
  specialize (Hr (mkCState h q c)). specialize (Ho (mkCState h q c)). specialize (He (mkCState h q c)).
  destruct (m (mkCState h q c)) as [rt [h' q' c']]. unfold owns_ports, evolves_rel in *.
  cbn in Ho, He. specialize (Ho _ _ H3). destruct He as [Ec Eu En Ep Eev Ei Eo].
  assert (HA : accounts (mkPState h' u n q' k) (c_resources c' :: rs)).
  { split; [|cbn|done].
    - cbn. rewrite Eu. exact H1.
    - rewrite En. exact H2. }
  destruct rt as [[]|e|f]; [| |by destruct (Hr f)]; [|exists c']; (split; [exact HA|by constructor]).
Qed.

Lemma RestoreSnapshot_outcome snapshot n s rs :
  let r := snap_Resources snapshot in
  accounts s rs → res_Network r = Some n → rp_valid (P := UP) (UID r) → rp_valid (P := NP) n →
  Forall (rp_valid (P := PP)) (Ports r) → NoDup (rp_key (P := PP) <$> Ports r) →
  (∀ x, x ∈ Ports r → rp_key (P := PP) x ∈ rp_key (P := PP) <$> rp_free (ps_ports s)) →
  restore_outcome rs (claimable s r n) r (RestoreSnapshot p snapshot s).
Proof.
  intros r. destruct s as [h u nt q k]. intros HA Hn Hvu Hvn Hvp Hnd Hin. pose proof HA as [H1 H2 H3].
  cbn in H1, H2, H3, Hin. unfold RestoreSnapshot. cbn zeta. fold r.
  unfold mbind at 1, M_bind at 1. unfold on_uids at 1, zoom at 1. cbn [view p_uids_lens ps_uids].
  unfold claimable. cbn [ps_uids ps_networks].
  destruct (remove_free u (UID r) Hvu) as [[Fu [u' Eu]]|[Fu [e Eu]]]; rewrite Eu; [|left; split; [by intros []|done]].
  pose proof (ledger_remove _ _ _ _ _ H1 Hvu Eu) as L1. cbn [over p_uids_lens].
  unfold mbind at 1, M_bind at 1. unfold attempt at 1. rewrite Hn. unfold remove_network, on_networks at 1, zoom at 1.
  cbn [view p_networks_lens ps_networks ps_trace ps_uids ps_ports ps_containerNum over].
  destruct (remove_free nt n Hvn) as [[Fn [n' En]]|[Fn [e En]]]; rewrite En.
  - pose proof (ledger_remove _ _ _ _ _ H2 Hvn En) as L2.
    destruct (claim_ports_eq r (Ports r) h u' n' q k _ H3 Hvp Hnd Hin) as (q' & Eq & L3).
    cbn [ps_trace ps_uids ps_ports ps_containerNum]. unfold mbind at 1, M_bind at 1. rewrite Eq.
    unfold mbind, M_bind. rewrite <-Hn.
    pose proof (on_container_accounts
      (make_container p (snap_ID snapshot) (snap_Handle snapshot) (snap_Properties snapshot)
        (snap_GraceTime snapshot) (NewResources (UID r) (res_Network r) (Ports r)))
      (LinuxContainer.Restore snapshot) h u' n' q' k rs (Restore_owns_ports snapshot) (Restore_evolves snapshot)
      (Restore_returns snapshot)) as Hc.
    destruct (on_container _ _ _) as [[[[] c']|e|f] s'].
    + destruct Hc as [Hacc Hev]; [split; cbn; by rewrite ?Hn|].
      destruct Hev. cbn in *. by split_and!.
    + right. split; [done|]. destruct Hc as (c' & Hacc & Hev); [split; cbn; by rewrite ?Hn|].
      exists (c_resources c'). destruct Hev. cbn in *. by split_and!.
    + apply Hc. split; cbn; by rewrite ?Hn.
  - destruct (rp_release (UID r) u') as [r1 u2] eqn:E.
    destruct (ledger_release _ _ _ _ (map UID rs) _ _ L1 (Permutation_refl _) E) as (-> & L & _).
    unfold mbind, M_bind, on_uids, zoom. cbn. rewrite E. left. split; [by intros []|done].
Qed.

(** ** A request that cannot be served *)

Lemma create_with_unknown spec url uid n id s :
  Parse (RootFSPath spec) = Ok url → rootfsProviders p !! Scheme url = None →
  create_with p spec uid n id s = (Err ErrUnknownRootFSProvider, s).
Proof. intros Hu Hp. unfold create_with, mbind, M_bind, of_result. by rewrite Hu, Hp. Qed.

Lemma unknown_requests_exhaust k spec url s rs :
  accounts s rs → Parse (RootFSPath spec) = Ok url → rootfsProviders p !! Scheme url = None →
  (length (rp_free (ps_uids s)) `min` length (rp_free (ps_networks s)) ≤ k)%nat →
  let s' := Nat.iter k (λ s, (Create p spec s).2) s in
  ps_trace s' = ps_trace s ∧ (∃ leaked, accounts s' (leaked ++ rs)) ∧
  ∀ spec', ∃ e, (Create p spec' s').1 = Err e.
Proof.
  intros HA Hu Hp. revert s rs HA. induction k as [|k IH]; intros s rs HA Hk.
  - cbn. split_and!; [done|by exists []|]. intros spec'.
    destruct (Create_exhausted spec' s rs HA) as (e & s' & -> & _); [|by exists e].
    destruct (rp_free (ps_uids s)); [by left|]. destruct (rp_free (ps_networks s)); [by right|].
    cbn in Hk. lia.
  - rewrite Nat.iter_succ_r.
    destruct (rp_free (ps_uids s)) as [|uid lu] eqn:Eu; [|destruct (rp_free (ps_networks s)) as [|n ln] eqn:En].
    + destruct (Create_exhausted spec s rs HA) as (e & s1 & E & HA1 & L1 & L2 & <-); [by left|].
      rewrite E. apply IH; [done|]. cbn [snd]. rewrite L1, Eu. cbn. lia.
    + destruct (Create_exhausted spec s rs HA) as (e & s1 & E & HA1 & L1 & L2 & <-); [by right|].
      rewrite E. apply IH; [done|]. cbn [snd]. rewrite L2, En, Nat.min_0_r. lia.
    + destruct (Create_takes spec s rs uid lu n ln HA Eu En) as (u' & n' & Hu' & Hn' & E & HA1).
      cbn zeta in *. rewrite E, (create_with_unknown spec url) by done. cbn [snd].
      destruct (IH _ _ HA1) as (Ht & [leaked Hl] & Hex).
      { cbn. rewrite Hu', Hn'. cbn in Hk. lia. }
      split_and!; [exact Ht| |exact Hex]. exists (leaked ++ [taken uid n]). by rewrite <-app_assoc.
Qed.

(** ** The provider file *)

Lemma for_each_Run_trace l h : ∃ cs, (for_each OS.Run l h).2 = h ++ map SRun cs.
Proof.
  revert h. induction l as [|c l IH]; intros h; [exists []; by rewrite app_nil_r|].
  cbn [for_each]. unfold mbind, M_bind, OS.Run at 1. rewrite sys__eq.
  destruct (sys_error h (SRun c)); [by exists [c]|].
  destruct (IH (h ++ [SRun c])) as [cs ->]. exists (c :: cs). by rewrite <-app_assoc.
Qed.

Lemma writeBindMounts_trace path bms h :
  ∃ cs, (writeBindMounts path bms h).2 = h ++ map SRun cs.
Proof.
  revert h. induction bms as [|bm bms IH]; intros h; [exists []; by rewrite app_nil_r|].
  unfold writeBindMounts in *. cbn [for_each].
  destruct (for_each_Run_trace (bind_mount_cmds path bm) h) as [cs1 E1]. unfold mbind, M_bind.
  destruct (for_each OS.Run (bind_mount_cmds path bm) h) as [[[]|e|f] h1]; cbn in E1; subst h1;
    [|by exists cs1..].
  destruct (IH (h ++ map SRun cs1)) as [cs2 ->]. exists (cs1 ++ cs2).
  by rewrite map_app, app_assoc.
Qed.

Lemma last_write_runs f h cs : last_write f (h ++ map SRun cs) = last_write f h.
Proof.
  induction cs as [|c cs IH] using rev_ind; [by rewrite app_nil_r|].
  rewrite map_app, app_assoc. cbn [map]. rewrite last_write_app. exact IH.
Qed.

(** A container that was created has its provider's name on file. *)
Lemma create_with_saved spec url uid n id s c s' :
  Parse (RootFSPath spec) = Ok url → create_with p spec uid n id s = (Ok c, s') →
  c_id c = id ∧ is_Some (rootfsProviders p !! Scheme url) ∧
  last_write (provider_file p id) (ps_trace s') = Some (Scheme url).
Proof.
  destruct s as [h u nt q k]. intros Hu H. unfold create_with in H. unfold mbind at 1, M_bind at 1 in H.
  unfold of_result in H. rewrite Hu in H.
  destruct (rootfsProviders p !! Scheme url) as [pv|]; [|done].
  apply bind_Ok_inv in H as (root & s1 & H1 & H). rewrite p_on_trace_eq in H1.
  destruct (ProvideRootFS pv id url h) as [rt h1]. cbn in H1. injection H1 as -> <-. cbn zeta in H.
  unfold mbind at 1, M_bind at 1, attempt in H. rewrite p_on_trace_eq in H. unfold OS.Run in H.
  rewrite sys__eq in H. cbn [fst snd] in H. destruct (sys_error h1 _) as [e|].
  { apply bind_Ok_inv in H as (? & ? & _ & H). apply bind_Ok_inv in H as (? & ? & _ & H). done. }
  apply bind_Ok_inv in H as ([] & s2 & H2 & H). rewrite p_on_trace_eq in H2.
  apply bind_Ok_inv in H as ([] & s3 & H3 & H). injection H as <- <-.
  injection H2 as H2 <-. rewrite p_on_trace_eq in H3. injection H3 as _ <-.
  split_and!; [done..|]. cbn [ps_trace].
  destruct (writeBindMounts_trace (containerPath p id) (BindMounts spec)
    (saveRootFSProvider p id (Scheme url) (h1 ++ [SRun (create_cmd p id root uid n)])).2) as [cs ->].
  rewrite last_write_runs. unfold saveRootFSProvider, WriteFile in *. unfold mbind, M_bind in *.
  rewrite sys__eq in *. destruct (sys_error _ (SMkdirAll _)); [done|].
  rewrite sys__trace, last_write_app. by rewrite decide_True.
Qed.

(** What a created container is made of. *)
Lemma Create_conf spec s c s' :
  Create p spec s = (Ok c, s') →
  c_handle c = (if String.eqb (spec_Handle spec) "" then c_id c else spec_Handle spec) ∧
  c_properties c = spec_Properties spec ∧ c_graceTime c = spec_GraceTime spec.
Proof.
  intros H. unfold Create in H.
  apply bind_Ok_inv in H as (uid & s1 & _ & H). apply bind_Ok_inv in H as ([n|e] & s2 & _ & H).
  2:{ by apply bind_Ok_inv in H as (? & ? & _ & H). }
  apply bind_Ok_inv in H as (id & s3 & _ & H). unfold create_with in H.
  apply bind_Ok_inv in H as (url & s4 & _ & H).
  destruct (rootfsProviders p !! Scheme url) as [pv|]; [|done].
  apply bind_Ok_inv in H as (root & s5 & _ & H). apply bind_Ok_inv in H as ([[]|e] & s6 & _ & H).
  - apply bind_Ok_inv in H as (? & ? & _ & H). apply bind_Ok_inv in H as (? & ? & _ & H).
    by injection H as <- _.
  - apply bind_Ok_inv in H as (? & ? & _ & H). by apply bind_Ok_inv in H as (? & ? & _ & H).
Qed.

(** ** Pruning *)

Lemma prune_entry_eq keep id h :
  prune_entry p keep id h =
    if decide (id ≠ "tmp" ∧ id ∉ keep) then destroy p id h else (Ok tt, h).
Proof.
  unfold prune_entry. destruct (String.eqb_spec id "tmp") as [->|Ht].
  - by rewrite decide_False by naive_solver.
  - case_decide; [by rewrite decide_False by naive_solver|by rewrite decide_True].
Qed.

Lemma prune_filter keep entries h :
  for_each (prune_entry p keep) entries h =
    for_each (destroy p) (filter (λ id, id ≠ "tmp" ∧ id ∉ keep) entries) h.
Proof.
  revert h. induction entries as [|id entries IH]; intros h; [done|].
  rewrite filter_cons. cbn [for_each]. unfold mbind at 1, M_bind at 1. rewrite prune_entry_eq.
  case_decide; [|apply IH]. cbn [for_each]. unfold mbind, M_bind.
  destruct (destroy p id h) as [[[]|e|f] h']; [apply IH|done..].
Qed.
End pool_lemmas.

(** ** Container ids *)

Lemma base32_digit_inj a b :
  0 ≤ a < 32 → 0 ≤ b < 32 → base32_digit a = base32_digit b → a = b.
Proof.
  intros Ha Hb. unfold base32_digit.
  destruct (Z.ltb_spec a 10), (Z.ltb_spec b 10); intros E%(f_equal N_of_ascii);
    rewrite !N_ascii_embedding in E by lia; lia.
Qed.

Lemma string_of_chars_inj l l' : string_of_chars l = string_of_chars l' → l = l'.
Proof.
  revert l'. induction l as [|c l IH]; intros [|c' l']; cbn; try done.
  intros [= -> H]. by rewrite (IH _ H).
Qed.

Lemma id_digits_range n d : d ∈ id_digits n → 0 ≤ d < 32.
Proof.
  unfold id_digits. intros (i & -> & _)%list_elem_of_fmap. change 31 with (Z.ones 5).
  rewrite Z.land_ones by lia. apply Z.mod_pos_bound. lia.
Qed.

Lemma id_digits_inj n m : id_digits n = id_digits m → n mod 2 ^ 55 = m mod 2 ^ 55.
Proof.
  intros E. apply Z.bits_inj'. intros j Hj. destruct (Z.ltb_spec j 55).
  2:{ by rewrite !Z.mod_pow2_bits_high by lia. }
  rewrite !Z.mod_pow2_bits_low by lia.
  set (i := Z.to_nat (10 - j / 5)).
  pose proof (Z.div_mod j 5 ltac:(lia)). pose proof (Z.mod_pos_bound j 5 ltac:(lia)).
  assert (Hi : id_digits n !! i = id_digits m !! i) by (by rewrite E).
  unfold id_digits in Hi. rewrite !list_lookup_fmap in Hi.
  rewrite !lookup_seq_lt in Hi by (subst i; lia). cbn [fmap option_fmap option_map Nat.add] in Hi.
  injection Hi as Hi. apply (f_equal (λ z, Z.testbit z (j mod 5))) in Hi. cbn beta in Hi.
  change 31 with (Z.ones 5) in Hi. rewrite !Z.land_spec, Z.ones_spec_low in Hi by lia.
  rewrite !andb_true_r, !Z.shiftr_spec in Hi by lia.
  replace (j mod 5 + (55 - (Z.of_nat i + 1) * 5)) with j in Hi by (subst i; lia). done.
Qed.

Lemma containerID_inj n m : containerID n = containerID m → n mod 2 ^ 55 = m mod 2 ^ 55.
Proof.
  intros E%string_of_chars_inj. apply id_digits_inj.
  pose proof (id_digits_range n) as Hn. pose proof (id_digits_range m) as Hm.
  revert E Hn Hm. generalize (id_digits n), (id_digits m). intros l.
  induction l as [|a l IH]; intros [|b l'] E Hn Hm; try done. cbn in E. injection E as E1 E2.
  f_equal.
  - apply base32_digit_inj; [apply Hn; left|apply Hm; left|done].
  - apply IH; [done|..]; intros d Hd; [apply Hn|apply Hm]; by right.
Qed.

Lemma i64_succ_mod n k : Nat.iter k i64_succ n mod 2 ^ 55 = (n + Z.of_nat k) mod 2 ^ 55.
Proof.
  induction k as [|k IH]; [by rewrite Z.add_0_r|]. cbn [Nat.iter nat_rect].
  assert (Hs : ∀ m, i64_succ m mod 2 ^ 55 = (m mod 2 ^ 55 + 1) mod 2 ^ 55).
  { intros m. unfold i64_succ. rewrite (Z.mod_eq _ (2 ^ 64)) by lia.
    replace (m + 1 + 2 ^ 63 - 2 ^ 64 * ((m + 1 + 2 ^ 63) / 2 ^ 64) - 2 ^ 63)
      with (m + 1 + (- (2 ^ 9 * ((m + 1 + 2 ^ 63) / 2 ^ 64))) * 2 ^ 55) by lia.
    rewrite Z.mod_add by lia. by rewrite Z.add_mod_idemp_l by lia. }
  change (nat_rect _ n _ k) with (Nat.iter k i64_succ n).
  rewrite Hs, IH, Z.add_mod_idemp_l by lia. f_equal. lia.
Qed.

(** * Properties *)

Section properties.
Context {K : Kernel} {UP NP PP : Type}.
Context `{!ResourcePool UP Z Z, !ResourcePool NP Network string, !ResourcePool PP Z Z}.
Context `{!ResourcePoolLaws UP Z Z, !ResourcePoolLaws NP Network string, !ResourcePoolLaws PP Z Z}.
Context `{!SizedPool UP, !SizedPool NP, !NetworkedPool NP}.
Local Abbreviation PS := (PState UP NP PP).

(** C15: [Create] never hands out what somebody has: if the pools and the resources
    [rs] of the existing containers account for everything, then a created container
    is in state born, has no ports and a uid and a network that no other container
    has, and everything is still accounted for. A [Create] that fails has either given
    everything back or kept one uid and one network aside. It panics or blocks only when the
    provider of root file systems does, and has then kept one uid and one network aside. All
    this holds whatever the commands, the files, the providers and the request are. *)
Theorem Create_accounts p iu nets ip spec (s : PS) rs :
  accounts iu nets ip s rs →
  match Create p spec s with
  | (Ok c, s') =>
      accounts iu nets ip s' (c_resources c :: rs) ∧
      NoDup (map UID (c_resources c :: rs)) ∧
      NoDup (omap res_Network (c_resources c :: rs)) ∧
      is_Some (res_Network (c_resources c)) ∧ Ports (c_resources c) = [] ∧ c_state c = StateBorn
  | (Err _, s') => accounts iu nets ip s' rs ∨
      ∃ uid n, accounts iu nets ip s' (taken uid n :: rs)
  | (Crash f, s') => provide_fault p f ∧ ∃ uid n, accounts iu nets ip s' (taken uid n :: rs)
  end.
Proof.
  intros HA. pose proof (Create_outcome p iu nets ip spec s rs HA) as Ho.
  destruct (Create p spec s) as [[c|e|f] s']; [|done..].
  destruct Ho as (HA' & (uid & n & Hr) & Hst).
  destruct (accounts_disjoint iu nets ip _ _ HA') as (H1 & H2 & _). rewrite Hr in *. by split_and!.
Qed.

(** C16: [Destroy] gives back exactly what the container had: when it succeeds, its uid,
    its network and all its ports are free again and the others' untouched; when it
    fails, nothing was given back, so that it can be tried again. It panics or blocks only when
    the provider does as it cleans up, and has given back nothing then, either. *)
Theorem Destroy_accounts p iu nets ip c n (s : PS) rs :
  accounts iu nets ip s (c_resources c :: rs) →
  res_Network (c_resources c) = Some n →
  match Destroy p c s with
  | (Ok _, s') => accounts iu nets ip s' rs
  | (Err _, s') => accounts iu nets ip s' (c_resources c :: rs)
  | (Crash f, s') => cleanup_fault p f ∧ accounts iu nets ip s' (c_resources c :: rs)
  end.
Proof. intros HA Hn. exact (Destroy_outcome p iu nets ip c n s rs HA Hn). Qed.

(** C17: restoring a snapshot claims the resources it names. The snapshot has a network (one
    without makes the daemon panic), its uid, network and ports are such as the pools manage,
    and its ports are distinct and free. Then [Restore] never panics or blocks. If the uid or
    the network is taken, it fails and claims nothing: all of what it had claimed is given
    back. If both are free, a restored container has them and at least the ports of the
    snapshot, nobody else has any of them, and everything stays accounted for; and when
    restoring the container itself fails, just what it had, the uid, the network and at least
    the ports, is lost. *)
Theorem Restore_accounts p iu nets ip snapshot n (s : PS) rs :
  let r := snap_Resources snapshot in
  accounts iu nets ip s rs → res_Network r = Some n →
  rp_valid (P := UP) (UID r) → rp_valid (P := NP) n → Forall (rp_valid (P := PP)) (Ports r) →
  NoDup (rp_key (P := PP) <$> Ports r) →
  (∀ x, x ∈ Ports r → rp_key (P := PP) x ∈ rp_key (P := PP) <$> rp_free (ps_ports s)) →
  match RestoreSnapshot p snapshot s with
  | (Ok c, s') => claimable s r n ∧ accounts iu nets ip s' (c_resources c :: rs) ∧
      NoDup (map UID (c_resources c :: rs)) ∧ NoDup (omap res_Network (c_resources c :: rs)) ∧
      NoDup (flat_map Ports (c_resources c :: rs)) ∧ grown r (c_resources c)
  | (Err _, s') => (¬ claimable s r n ∧ accounts iu nets ip s' rs) ∨
      (claimable s r n ∧ ∃ abandoned, grown r abandoned ∧ accounts iu nets ip s' (abandoned :: rs))
  | (Crash _, _) => False
  end.
Proof.
  intros r HA Hn H1 H2 H3 H4 H5.
  pose proof (RestoreSnapshot_outcome p iu nets ip snapshot n s rs HA Hn H1 H2 H3 H4 H5) as Ho.
  destruct (RestoreSnapshot p snapshot s) as [[c|e|f] s']; cbn in Ho; [|done..].
  destruct Ho as (Hfree & HA' & Hg). destruct (accounts_disjoint iu nets ip _ _ HA') as (N1 & N2 & N3).
  by split_and!.
Qed.

(** The pool can hold as many containers as [MaxContainers] says: while fewer
    containers exist, [Create] gets a uid and a network. *)
Theorem MaxContainers_suffices p iu nets ip spec (s : PS) rs :
  accounts iu nets ip s rs →
  initial_size (ps_uids s) = length iu → initial_size (ps_networks s) = length nets →
  (length rs < match (MaxContainers s).1 with Ok n => n | _ => 0 end)%nat →
  ∃ uid n s1, Create p spec s = create_with p spec uid n (containerID (ps_containerNum s)) s1 ∧
    accounts iu nets ip s1 (taken uid n :: rs).
Proof.
  intros HA Hu Hn Hlt. pose proof HA as [H1 H2 _].
  change ((MaxContainers s).1) with (Ok (if (initial_size (ps_networks s) <? initial_size (ps_uids s))%nat
    then initial_size (ps_networks s) else initial_size (ps_uids s))) in Hlt. rewrite Hu, Hn in Hlt.
  assert (Hm : (length rs < length iu ∧ length rs < length nets)%nat).
  { destruct (Nat.ltb_spec (length nets) (length iu)); lia. }
  destruct (ledger_acquire_total iu (ps_uids s) (map UID rs) H1) as (uid & u' & Eu).
  { rewrite length_map. lia. }
  destruct (ledger_acquire_total nets (ps_networks s) (omap res_Network rs) H2) as (n & n' & En).
  { eapply Nat.le_lt_trans; [apply length_omap_le|]. lia. }
  destruct (acquire_cases (ps_uids s)) as [(uid2 & lu & u2 & Fu & _)|[_ [e ?]]]; [|congruence].
  destruct (acquire_cases (ps_networks s)) as [(n2 & ln & nn2 & Fn & _)|[_ [e ?]]]; [|congruence].
  destruct (Create_takes p iu nets ip spec s rs uid2 lu n2 ln HA Fu Fn) as (u3 & n3 & _ & _ & E & HA1).
  by eexists _, _, _.
Qed.

(** Container ids do not repeat: among 2^55 consecutive ids no two are equal,
    whatever number the generator starts from, and even when its counter wraps. *)
Theorem container_ids_distinct n k l :
  (k < l)%nat → Z.of_nat (l - k) < 2 ^ 55 →
  containerID (Nat.iter k i64_succ n) ≠ containerID (Nat.iter l i64_succ n).
Proof.
  intros Hkl Hd E%containerID_inj. rewrite !i64_succ_mod in E.
  replace (n + Z.of_nat l) with (n + Z.of_nat k + Z.of_nat (l - k)) in E by lia.
  pose proof (Z.mod_pos_bound (n + Z.of_nat k) (2 ^ 55) ltac:(lia)) as Hb.
  rewrite (Z.mod_eq (n + Z.of_nat k)) in E by lia. rewrite Z.mod_eq in E by lia.
  set (a := n + Z.of_nat k) in *. set (d := Z.of_nat (l - k)) in *.
  assert (0 < d) by (subst d; lia).
  assert (d = 2 ^ 55 * ((a + d) / 2 ^ 55 - a / 2 ^ 55)) by lia.
  set (t := (a + d) / 2 ^ 55 - a / 2 ^ 55) in *. nia.
Qed.

(** A container's root file system is cleaned up by the provider that made it: the
    name [Create] files is the one the pool finds when it destroys the container, as
    long as the file is a plain file. *)
Theorem destroy_uses_creating_provider p spec url (s s' : PS) c pv :
  Create p spec s = (Ok c, s') → Parse (RootFSPath spec) = Ok url →
  rootfsProviders p !! Scheme url = Some pv → PlainFile (provider_file p (c_id c)) →
  destroy p (c_id c) (ps_trace s') =
    (OS.Run (destroy_cmd p (c_id c)) ≫= λ _, CleanupRootFS pv (c_id c))
      (ps_trace s' ++ [SReadFile (provider_file p (c_id c))]).
Proof.
  intros H Hu Hpv Hpf. unfold Create in H.
  apply bind_Ok_inv in H as (uid & s1 & _ & H). apply bind_Ok_inv in H as ([n|e] & s2 & _ & H).
  2:{ by apply bind_Ok_inv in H as (? & ? & _ & H). }
  apply bind_Ok_inv in H as (id & s3 & _ & H).
  destruct (create_with_saved p spec url uid n id s3 c s' Hu H) as (Hid & _ & Hw). subst id.
  destruct (Hpf _ _ Hw) as [He Ho]. unfold destroy, mbind at 1, M_bind at 1, attempt, ReadFile, sys.
  rewrite He, Ho. by rewrite Hpv.
Qed.

(** Pruning spares what it is told to keep and the directory [tmp], and destroys
    every other entry of the depot in turn, stopping at the first that fails. *)
Theorem Prune_destroys_the_rest p keep (s : PS) :
  (∀ e, sys_error (ps_trace s) (SReadDir (depotPath p)) = Some e → (Prune p keep s).1 = Err e) ∧
  (sys_error (ps_trace s) (SReadDir (depotPath p)) = None →
   let entries := sys_entries (ps_trace s) (depotPath p) in
   let h1 := ps_trace s ++ [SReadDir (depotPath p)] in
   let done := for_each (destroy p) (filter (λ id, id ≠ "tmp" ∧ id ∉ keep) entries) h1 in
   (Prune p keep s).1 = done.1 ∧ ps_trace (Prune p keep s).2 = done.2).
Proof.
  destruct s as [h u nt q k]. cbn [ps_trace]. unfold Prune, mbind, M_bind.
  rewrite p_on_trace_eq.
  rewrite ReadDir_eq. cbn [fst snd]. split.
  - intros e He. by rewrite He.
  - intros He. cbn zeta. rewrite He. cbn [fst snd]. rewrite p_on_trace_eq. cbn. by rewrite prune_filter.
Qed.

(** A request that names an unknown rootfs provider uses up a uid and a network
    for ever: nothing is run and nothing is given back, and after as many such
    requests as there are free uids or networks every [Create] fails. *)
Theorem unknown_providers_exhaust_pool p iu nets ip spec url k (s : PS) rs :
  accounts iu nets ip s rs → Parse (RootFSPath spec) = Ok url → rootfsProviders p !! Scheme url = None →
  (length (rp_free (ps_uids s)) `min` length (rp_free (ps_networks s)) ≤ k)%nat →
  let s' := Nat.iter k (λ s, (Create p spec s).2) s in
  ps_trace s' = ps_trace s ∧ ∀ spec', ∃ e, (Create p spec' s').1 = Err e.
Proof.
  intros HA Hu Hp Hk. by destruct (unknown_requests_exhaust p iu nets ip k spec url s rs HA Hu Hp Hk)
    as (H1 & _ & H2).
Qed.

(** A snapshot that names a port some container has does more than fail to restore:
    the pool releases the port, which is then free to be handed out again while that
    container still uses it. *)
Theorem restore_conflict_frees_taken_port p iu nets ip snapshot n port (s : PS) rs :
  let r := snap_Resources snapshot in
  accounts iu nets ip s rs → res_Network r = Some n → Ports r = [port] →
  port ∈ flat_map Ports rs →
  rp_valid (P := UP) (UID r) → rp_valid (P := NP) n →
  rp_key (P := UP) (UID r) ∈ rp_key (P := UP) <$> rp_free (ps_uids s) →
  rp_key (P := NP) n ∈ rp_key (P := NP) <$> rp_free (ps_networks s) →
  ∃ e s', RestoreSnapshot p snapshot s = (Err e, s') ∧
    port ∈ rp_free (ps_ports s') ∧ ¬ accounts iu nets ip s' rs.
Proof.
  intros r. destruct s as [h u nt q k]. cbn [ps_uids ps_networks].
  intros HA Hn Hps Hport Hvu Hvn Hfu Hfn. pose proof HA as [H1 H2 H3]. cbn in H1, H2, H3.
  destruct (remove_cases u (UID r) Hvu) as [[u1 Eu]|[e Eu]].
  2:{ destruct (rp_remove_in u (UID r) Hvu Hfu) as (? & ? & ? & _). congruence. }
  destruct (remove_cases nt n Hvn) as [[n1 En]|[e En]].
  2:{ destruct (rp_remove_in nt n Hvn Hfn) as (? & ? & ? & _). congruence. }
  destruct (remove_held _ _ _ _ H3 Hport) as [e Eq].
  destruct (rp_release (UID r) u1) as [ru u2] eqn:E1.
  destruct (ledger_release _ _ _ _ (map UID rs) _ _ (ledger_remove _ _ _ _ _ H1 Hvu Eu)
              (Permutation_refl _) E1) as (-> & L1 & _).
  destruct (rp_release n n1) as [rn n2] eqn:E2.
  destruct (ledger_release _ _ _ _ (omap res_Network rs) _ _ (ledger_remove _ _ _ _ _ H2 Hvn En)
              (Permutation_refl _) E2) as (-> & L2 & _).
  apply elem_of_Permutation in Hport as [rest Hrest].
  destruct (rp_release port q) as [rq q2] eqn:E3.
  destruct (ledger_release _ _ _ _ rest _ _ H3 Hrest E3) as (-> & L3 & Hf).
  exists e, (mkPState h u2 n2 q2 k). split_and!.
  - unfold RestoreSnapshot. fold r. rewrite Hn, Hps.
    unfold on_uids, remove_network, on_networks, attempt, zoom, mbind, M_bind. cbn. rewrite Eu. cbn.
    rewrite En. cbn. unfold claim_port, p_on_ports, on_uids, on_networks, attempt, zoom, mbind, M_bind. cbn.
    rewrite Eq. cbn. rewrite E1, Hn, Hps. unfold release_network, on_networks, zoom. cbn. rewrite E2. cbn.
    unfold mbind, M_bind. cbn. by rewrite E3.
  - cbn. rewrite Hf. apply elem_of_app. right. by left.
  - intros [_ _ H3']. cbn in H3'. pose proof (ledger_keys_nodup _ _ _ H3') as Hnd.
    rewrite fmap_app in Hnd. apply NoDup_app in Hnd as (_ & Hnd & _).
    apply (Hnd (rp_key port)); apply list_elem_of_fmap_2.
    + rewrite Hf. apply elem_of_app. right. by left.
    + rewrite Hrest. by left.
Qed.
End properties.

(** * Witnesses *)

#[export] Instance uid_sized : SizedPool UIDPool.UnixUIDPool := UIDPool.InitialSize.
#[export] Instance network_sized : SizedPool NetworkPool.RealNetworkPool := NetworkPool.InitialSize.
#[export] Instance network_networked : NetworkedPool NetworkPool.RealNetworkPool := NetworkPool.Network_.

#[local] Existing Instances UIDPool.uid_rp UIDPool.uid_laws NetworkPool.network_rp
  NetworkPool.network_laws PortPool.port_rp PortPool.port_laws.

Definition example_base : Z := 10 * 2 ^ 24 + 254 * 2 ^ 16.
Definition example_nets : list Network := NetworkPool.nth_subnet example_base <$> seqZ 0 (2 ^ (30 - 28)).

(** Three uids, four networks, three ports. *)
Abbreviation RealPools := (PState UIDPool.UnixUIDPool NetworkPool.RealNetworkPool PortPool.PortPool).

Definition example_pools : RealPools :=
  mkPState [] (UIDPool.New 10000 3)
    (NetworkPool.mkNetworkPool (net4 example_base 28) example_nets (Z.to_nat (2 ^ (30 - 28))))
    (PortPool.New 61001 3) 1400000000000000000.

Definition example_iu : list Z := seqZ 10000 (UIDPool.bound 10000 3 - 10000).
Definition example_ip : list Z := seqZ 61001 (PortPool.bound 61001 3 - 61001).
Definition example_accounts : RealPools → list Resources → Prop :=
  accounts example_iu (String_ <$> example_nets) example_ip.

Lemma example_balanced : example_accounts example_pools [].
Proof.
  split.
  - apply (UIDPool.uid_ledger_New 10000 3). split; [discriminate|reflexivity].
  - apply (NetworkPool.network_ledger_New example_base 28); [lia|unfold example_base; lia|reflexivity].
  - apply (PortPool.port_ledger_New 61001 3). split; [discriminate|reflexivity].
Qed.

Definition example_conf : PoolConf :=
  mkPoolConf "/bin" "/depot" (NewConfig "0") ["10.0.0.0/8"] []
    {["" := NewOverlay (K := quiet_kernel) "/bin" "/overlays" "/rootfs"]}
    (QuotaManager.mkQuotaManager true "/bin" "/mnt").

Definition example_spec (rootfs : string) : ContainerSpec :=
  mkContainerSpec "my-handle" 0 rootfs [mkBindMount "/src" "/dst" BindMountModeRW BindMountOriginHost] "" ∅.

Definition created : Result LinuxContainer * RealPools :=
  Create (K := quiet_kernel) example_conf (example_spec "") example_pools.

Lemma Create_accounts_witness :
  match created with
  | (Ok c, s') => example_accounts s' [c_resources c] ∧ UID (c_resources c) = 10000
  | _ => False
  end.
Proof.
  pose proof (Create_accounts (K := quiet_kernel) example_conf _ _ _ (example_spec "") example_pools []
                example_balanced) as H.
  fold created in H. destruct created as [[c|e|f] s'] eqn:E; [|exfalso; vm_compute in E; discriminate E..].
  split; [exact (proj1 H)|]. vm_compute in E. injection E as <- _. reflexivity.
Defined.

Definition example_net (k : Z) : Network := NetworkPool.nth_subnet example_base k.

(** One container has the first uid, network and port. *)
Definition example_held : Resources := mkResources 10000 (Some (example_net 0)) [61001].

Definition held_pools : RealPools :=
  mkPState [] (UIDPool.Acquire (ps_uids example_pools)).2 (NetworkPool.Acquire (ps_networks example_pools)).2
    (PortPool.Acquire (ps_ports example_pools)).2 0.

Lemma held_balanced : example_accounts held_pools [example_held].
Proof.
  destruct example_balanced as [H1 H2 H3]. split.
  - by apply (ledger_acquire _ _ _ 10000 _ H1).
  - by apply (ledger_acquire _ _ _ (example_net 0) _ H2).
  - by apply (ledger_acquire _ _ _ 61001 _ H3).
Qed.

Lemma Destroy_accounts_witness :
  match Destroy (K := quiet_kernel) example_conf (make_container example_conf "some-id" "h" ∅ 0 example_held)
          held_pools with
  | (Ok _, s') => example_accounts s' []
  | _ => False
  end.
Proof.
  pose proof (Destroy_accounts (K := quiet_kernel) example_conf _ _ _
                (make_container example_conf "some-id" "h" ∅ 0 example_held) (example_net 0) held_pools []
                held_balanced eq_refl) as H.
  destruct (Destroy _ _ _) as [[c'|e|f] s''] eqn:E; [exact H|exfalso; vm_compute in E; discriminate E..].
Defined.

Definition example_snapshot (uid : Z) (n : Network) (ports : list Z) : ContainerSnapshot :=
  mkContainerSnapshot "some-id" "some-handle" 0 "active" [] (mkLimitsSnapshot None None None None)
    (mkResources uid (Some n) ports) [] [] [] ∅.

Lemma example_net_valid k : 0 ≤ k < 4 → NetworkPool.is_subnet (example_net k).
Proof. intros Hk. exists (example_base + 4 * k). split; [unfold example_base; lia|done]. Qed.

Lemma Restore_accounts_witness :
  match RestoreSnapshot (K := quiet_kernel) example_conf
          (example_snapshot 10001 (example_net 2) [61002]) example_pools with
  | (Ok c, s') => example_accounts s' [c_resources c] ∧ UID (c_resources c) = 10001
  | _ => False
  end.
Proof.
  pose proof (Restore_accounts (K := quiet_kernel) example_conf _ _ _
                (example_snapshot 10001 (example_net 2) [61002]) (example_net 2) example_pools []
                example_balanced eq_refl I (example_net_valid 2 ltac:(lia))
                ltac:(repeat constructor)) as H.
  destruct (RestoreSnapshot _ _ _) as [[c|e|f] s'] eqn:E;
    [|exfalso; vm_compute in E; discriminate E..].
  destruct H as (_ & H1 & _ & _ & _ & H2 & _).
  - repeat constructor; vm_compute; intros H'; inversion H'.
  - intros x ->%list_elem_of_singleton. apply (bool_decide_eq_true_1 _). vm_compute. reflexivity.
  - split; [exact H1|exact H2].
Defined.

Lemma MaxContainers_suffices_witness :
  ∃ uid n s1, Create (K := quiet_kernel) example_conf (example_spec "docker:x") example_pools =
    create_with (K := quiet_kernel) example_conf (example_spec "docker:x") uid n
      (containerID 1400000000000000000) s1.
Proof.
  destruct (MaxContainers_suffices (K := quiet_kernel) example_conf _ _ _ (example_spec "docker:x")
              example_pools [] example_balanced) as (uid & n & s1 & E & _);
    [reflexivity|reflexivity|vm_compute; lia|].
  exists uid, n, s1. exact E.
Defined.

Lemma container_ids_distinct_witness :
  containerID (Nat.iter 3 i64_succ 1400000000000000000) ≠
  containerID (Nat.iter 7 i64_succ 1400000000000000000).
Proof. apply container_ids_distinct; [lia|reflexivity]. Defined.

Lemma destroy_uses_creating_provider_witness :
  match created with
  | (Ok c, s') => (destroy (K := quiet_kernel) example_conf (c_id c) (ps_trace s')).1 = Ok tt
  | _ => False
  end.
Proof.
  destruct created as [[c|e|f] s'] eqn:E; [|exfalso; vm_compute in E; discriminate E..].
  rewrite (destroy_uses_creating_provider (K := quiet_kernel) example_conf (example_spec "")
             (mkURL "" "" "" "") example_pools s' c _ E eq_refl eq_refl (quiet_plain _)).
  reflexivity.
Defined.

Lemma unknown_providers_exhaust_pool_witness :
  ∃ e, (Create (K := quiet_kernel) example_conf (example_spec "")
          (Nat.iter 3 (λ s, (Create (K := quiet_kernel) example_conf (example_spec "docker:x") s).2)
             example_pools)).1 = Err e.
Proof.
  apply (unknown_providers_exhaust_pool (K := quiet_kernel) example_conf _ _ _ (example_spec "docker:x")
           (mkURL "docker" "" "" "") 3 example_pools [] example_balanced);
    [reflexivity|reflexivity|vm_compute; lia].
Defined.

Lemma restore_conflict_frees_taken_port_witness :
  ∃ e s', RestoreSnapshot (K := quiet_kernel) example_conf
            (example_snapshot 10001 (example_net 2) [61001]) held_pools = (Err e, s') ∧
    61001 ∈ rp_free (ps_ports s').
Proof.
  destruct (restore_conflict_frees_taken_port (K := quiet_kernel) example_conf _ _ _
              (example_snapshot 10001 (example_net 2) [61001]) (example_net 2) 61001 held_pools
              [example_held] held_balanced eq_refl eq_refl) as (e & s' & H1 & H2 & _).
  - left.
  - exact I.
  - apply (example_net_valid 2). lia.
  - apply (bool_decide_eq_true_1 _). vm_compute. reflexivity.
  - apply (bool_decide_eq_true_1 _). vm_compute. reflexivity.
  - exists e, s'. split; [exact H1|exact H2].
Defined.
