(* ===== verification/LinuxBackend.v ===== *)
(** linux_backend/linux_backend.go: the backend the garden server drives: containers
    by handle, snapshots on disk, start and stop of the daemon.

    The mutex around the map of containers is held for single map operations, each
    of which is one step. A container is only reached through the map, so the map
    holds its current value. *)
From S2P Require Import Prelude GoStd OS ResourcePool Net Network Warden Snapshot.
From S2P Require ProcessTracker.
From S2P Require Import LinuxContainer ContainerPool.

Local Open Scope string_scope.
Local Open Scope list_scope.
Local Open Scope Z_scope.

(** * Snapshots as text: what [encoding/json] does to a [ContainerSnapshot] *)

Class SnapshotCodec := {
  encode : ContainerSnapshot → string;
  decode : string → Result ContainerSnapshot;
  (** the snapshots that survive the round trip *)
  encodable : ContainerSnapshot → Prop
}.

Class SnapshotCodecLaws `{SnapshotCodec} := {
  decode_encode s : encodable s → decode (encode s) = Ok s;
  decode_returns text f : decode text ≠ Crash f
}.

(** * State *)

Record BackendConf := mkBackendConf {
  pool_conf : PoolConf;
  snapshotsPath : string;
  TotalMemory : M Trace Z;
  TotalDisk : M Trace Z
}.

Record BState (UP NP PP : Type) := mkBState {
  b_pool : PState UP NP PP;
  b_containers : gmap string LinuxContainer
}.
Arguments mkBState {UP NP PP} _ _.
Arguments b_pool {UP NP PP} _.
Arguments b_containers {UP NP PP} _.

Definition UnknownHandleError (handle : string) : error :=
  mkError "linux_backend.UnknownHandleError" ("unknown handle: " +:+ handle).

Definition FailedToSnapshotError (e : error) : error :=
  mkError "*linux_backend.FailedToSnapshotError" ("failed to save snapshot: " +:+ err_msg e).

(** * Operations *)

(** Every key of the filter is a property with that value. *)
Definition containerHasProperties (c : LinuxContainer) (filter : Properties) : bool :=
  forallb (λ kv, match c_properties c !! kv.1 with
                 | Some cval => String.eqb cval kv.2
                 | None => false
                 end) (map_to_list filter).

Section backend.
Context {K : Kernel} {UP NP PP : Type} {codec : SnapshotCodec}.
Context `{!ResourcePool UP Z Z, !ResourcePool NP Network string, !ResourcePool PP Z Z}.
Context `{!SizedPool UP, !SizedPool NP, !NetworkedPool NP}.
Context (b : BackendConf).
Local Abbreviation BS := (BState UP NP PP).
Local Abbreviation PS := (PState UP NP PP).

Definition b_pool_lens : Lens BS PS :=
  mkLens b_pool (λ s bs, mkBState s (b_containers bs)).
Definition b_containers_lens : Lens BS (gmap string LinuxContainer) :=
  mkLens b_containers (λ m bs, mkBState (b_pool bs) m).

Definition on_pool {A} (m : M PS A) : M BS A := zoom b_pool_lens m.
Definition b_on_trace {A} (m : M Trace A) : M BS A := on_pool (p_on_trace m).
Definition modify_containers (f : gmap string LinuxContainer → gmap string LinuxContainer) : M BS unit :=
  zoom b_containers_lens (modify f).

Definition Setup : M BS unit := on_pool (ContainerPool.Setup (pool_conf b)).

Definition Ping : M BS unit := mret tt.

Definition Capacity : M BS Warden.Capacity :=
  totalMemory ← b_on_trace (TotalMemory b);
  totalDisk ← b_on_trace (TotalDisk b);
  n ← on_pool MaxContainers;
  mret (mkCapacity totalMemory totalDisk (u64 (Z.of_nat n))).

(** [b.containers[container.Handle()] = container] *)
Definition add_container (c : LinuxContainer) : M BS unit :=
  modify_containers (λ m, <[c_handle c := c]> m).

Definition Create (spec : ContainerSpec) : M BS LinuxContainer :=
  c ← on_pool (ContainerPool.Create (pool_conf b) spec);
  '(_, c') ← on_pool (on_container c LinuxContainer.Start);
  add_container c' ≫= λ _, mret c'.

Definition Lookup (handle : string) : M BS LinuxContainer :=
  m ← gets b_containers;
  match m !! handle with
  | Some c => mret c
  | None => raise (UnknownHandleError handle)
  end.

Definition Destroy (handle : string) : M BS unit :=
  c ← Lookup handle;
  on_pool (ContainerPool.Destroy (pool_conf b) c) ≫= λ _,
  modify_containers (base.delete (c_handle c)).

Definition Containers (filter : Properties) : M BS (list LinuxContainer) :=
  m ← gets b_containers;
  mret (List.filter (λ c, containerHasProperties c filter) (map_to_list m).*2).

Definition GraceTime (c : LinuxContainer) : Z := c_graceTime c.

(** An operation of the container with the given handle; what it changed stays
    changed when it fails. *)
Definition with_container {A} (handle : string) (m : M (CState PP) A) : M BS A := λ bs,
  match b_containers bs !! handle with
  | None => (Err (UnknownHandleError handle), bs)
  | Some c =>
      let s := b_pool bs in
      let '(r, cs) := m (mkCState (ps_trace s) (ps_ports s) c) in
      (r, mkBState (mkPState (cs_trace cs) (ps_uids s) (ps_networks s) (cs_ports cs) (ps_containerNum s))
            (<[handle := cs_container cs]> (b_containers bs)))
  end.

(** ** Snapshots *)

Definition snapshot_path (id : string) : string := path_Join [snapshotsPath b; id].

Definition failed_to_snapshot {A} (m : M Trace A) : M Trace A :=
  r ← attempt m;
  match r with inl a => mret a | inr e => raise (FailedToSnapshotError e) end.

Definition saveSnapshot (c : LinuxContainer) : M Trace unit :=
  if String.eqb (snapshotsPath b) "" then mret tt
  else
    let p := snapshot_path (c_id c) in
    failed_to_snapshot (sys_ (SCreate p)) ≫= λ _,
    failed_to_snapshot (sys_ (SWrite p (encode (LinuxContainer.Snapshot c)))) ≫= λ _,
    sys_ (SClose p).

(** [restore] of what an open snapshot file holds *)
Definition restore (text : string) : M BS LinuxContainer :=
  snapshot ← of_result (decode text);
  c ← on_pool (RestoreSnapshot (pool_conf b) snapshot);
  add_container c ≫= λ _, mret c.

(** A file that does not open is read as a nil file: decoding it fails. *)
Definition restore_entry (name : string) : M BS unit :=
  r ← attempt (b_on_trace (sys (SOpen (snapshot_path name))));
  match r with
  | inl text => ignore_err (restore text)
  | inr _ => mret tt
  end.

Definition restoreSnapshots : M BS unit :=
  r ← attempt (b_on_trace (ReadDir (snapshotsPath b)));
  for_each restore_entry (match r with inl entries => entries | inr _ => [] end).

(** ** Starting and stopping the daemon *)

Definition container_ids (m : gmap string LinuxContainer) : gset string :=
  list_to_set (c_id <$> (map_to_list m).*2).

Definition Start : M BS unit :=
  (if String.eqb (snapshotsPath b) "" then mret tt
   else
     r ← attempt (b_on_trace (sys_ (SStat (snapshotsPath b))));
     match r with
     | inl _ => restoreSnapshots ≫= λ _, b_on_trace (ignore_err (sys_ (SRemoveAll (snapshotsPath b))))
     | inr _ => mret tt
     end ≫= λ _,
     b_on_trace (sys_ (SMkdirAll (snapshotsPath b)))) ≫= λ _,
  m ← gets b_containers;
  on_pool (Prune (pool_conf b) (container_ids m)).

(** The error of a snapshot is logged only. *)
Definition stop_container (handle : string) : M BS unit :=
  with_container handle Cleanup ≫= λ _,
  c ← Lookup handle;
  b_on_trace (ignore_err (saveSnapshot c)).

Definition Stop : M BS unit :=
  m ← gets b_containers; for_each stop_container (map_to_list m).*1.
End backend.

(** * Specifications *)

(** The containers in the map, in its order. *)
Definition live (m : gmap string LinuxContainer) : list LinuxContainer := (map_to_list m).*2.

Section spec.
Context {K : Kernel} {UP NP PP : Type} {codec : SnapshotCodec}.
Context `{!ResourcePool UP Z Z, !ResourcePool NP Network string, !ResourcePool PP Z Z}.
Context `{!SizedPool UP, !SizedPool NP, !NetworkedPool NP}.
Context (b : BackendConf) (iu : list Z) (nets : list string) (ip : list Z).
Local Abbreviation BS := (BState UP NP PP).

(** Containers are filed under their handles, have a network, and together with what
    was lost ([leaked]) account for all that was taken from the pools. *)
Record backend_ok (bs : BS) (leaked : list Resources) : Prop := {
  bok_accounts : accounts iu nets ip (b_pool bs) (map c_resources (live (b_containers bs)) ++ leaked);
  bok_handle handle c : b_containers bs !! handle = Some c → c_handle c = handle;
  bok_network handle c : b_containers bs !! handle = Some c → is_Some (res_Network (c_resources c))
}.

(** What a snapshot must be like for its container to be restored without harm. *)
Definition restorable (snapshot : ContainerSnapshot) (bs : BS) : Prop :=
  let r := snap_Resources snapshot in
  ∃ n, res_Network r = Some n ∧ rp_valid (P := UP) (UID r) ∧ rp_valid (P := NP) n ∧
    Forall (rp_valid (P := PP)) (Ports r) ∧ NoDup (rp_key (P := PP) <$> Ports r) ∧
    ∀ x, x ∈ Ports r → rp_key (P := PP) x ∈ rp_key (P := PP) <$> rp_free (ps_ports (b_pool bs)).

(** What happens to a backend: requests, restored snapshots, steps of goroutines. *)
Inductive b_step : BS → BS → Prop :=
  | bs_create spec bs : b_step bs (Create b spec bs).2
  | bs_destroy handle bs : b_step bs (Destroy b handle bs).2
  | bs_op handle o bs : b_step bs (with_container handle (do_op o) bs).2
  | bs_restore text snapshot bs :
      decode text = Ok snapshot → restorable snapshot bs → b_step bs (restore b text bs).2
  | bs_goroutine handle c t' bs :
      b_containers bs !! handle = Some c → ProcessTracker.tracker_step (c_processTracker c) t' →
      b_step bs (mkBState (b_pool bs) (<[handle := set_processTracker t' c]> (b_containers bs))).
End spec.

(** * Lemmas *)

Lemma live_insert (m : gmap string LinuxContainer) h c c0 :
  m !! h = Some c0 → live m ≡ₚ c0 :: live (base.delete h m) ∧
    live (<[h := c]> m) ≡ₚ c :: live (base.delete h m).
Proof.
  intros H. unfold live. split.
  - by rewrite <-(map_to_list_delete m h c0 H).
  - rewrite <-insert_delete_eq, map_to_list_insert by apply lookup_delete_eq. done.
Qed.

Lemma live_insert_new (m : gmap string LinuxContainer) h c :
  m !! h = None → live (<[h := c]> m) ≡ₚ c :: live m.
Proof. intros H. unfold live. by rewrite map_to_list_insert. Qed.

Lemma live_lookup (m : gmap string LinuxContainer) c :
  c ∈ live m ↔ ∃ h, m !! h = Some c.
Proof.
  unfold live. rewrite list_elem_of_fmap. split.
  - intros ([h c'] & -> & H%elem_of_map_to_list). by exists h.
  - intros [h H]. exists (h, c). split; [done|]. by apply elem_of_map_to_list.
Qed.

Section backend_lemmas.
Context {K : Kernel} {UP NP PP : Type} {codec : SnapshotCodec}.
Context `{!ResourcePool UP Z Z, !ResourcePool NP Network string, !ResourcePool PP Z Z}.
Context `{!ResourcePoolLaws UP Z Z, !ResourcePoolLaws NP Network string, !ResourcePoolLaws PP Z Z}.
Context `{!SizedPool UP, !SizedPool NP, !NetworkedPool NP}.
Context (b : BackendConf) (iu : list Z) (nets : list string) (ip : list Z).
Local Abbreviation BS := (BState UP NP PP).
Local Abbreviation backend_ok := (backend_ok iu nets ip).
Local Abbreviation accounts := (accounts iu nets ip).
Implicit Types (bs : BS) (m : gmap string LinuxContainer).

Lemma accounts_rotate (s : PState UP NP PP) x l1 l2 :
  accounts s (x :: l1 ++ l2) → accounts s (l1 ++ x :: l2).
Proof. apply accounts_perm. by rewrite Permutation_middle. Qed.

(** Filing a container under its handle: one that had the handle before is lost. *)
Lemma add_container_ok bs leaked c (s : PState UP NP PP) :
  backend_ok bs leaked → is_Some (res_Network (c_resources c)) →
  accounts s (c_resources c :: map c_resources (live (b_containers bs)) ++ leaked) →
  ∃ leaked', backend_ok (add_container c (mkBState s (b_containers bs))).2 leaked' ∧
    (∀ c0, b_containers bs !! c_handle c = Some c0 → leaked' = c_resources c0 :: leaked) ∧
    (b_containers bs !! c_handle c = None → leaked' = leaked).
Proof.
  intros [H1 H2 H3] Hn HA. set (m := b_containers bs) in *.
  assert (Hrest : ∀ leaked', accounts s (map c_resources (live (<[c_handle c := c]> m)) ++ leaked') →
            backend_ok (add_container c (mkBState s m)).2 leaked').
  { intros leaked' HA'. split; [exact HA'|..]; cbn; intros h c'.
    - destruct (decide (c_handle c = h)) as [<-|Hne];
        [rewrite lookup_insert_eq; by intros [= <-]|rewrite lookup_insert_ne by done; apply H2].
    - destruct (decide (c_handle c = h)) as [<-|Hne];
        [rewrite lookup_insert_eq; by intros [= <-]|rewrite lookup_insert_ne by done; apply H3]. }
  destruct (m !! c_handle c) as [c0|] eqn:E.
  - exists (c_resources c0 :: leaked). split_and!; [|by intros ? [= ->]|done].
    apply Hrest. destruct (live_insert m (c_handle c) c c0 E) as [P1 P2]. rewrite P2.
    eapply accounts_perm; [|exact HA]. rewrite P1. cbn. by rewrite Permutation_middle.
  - exists leaked. split_and!; [|done|done]. apply Hrest. by rewrite (live_insert_new m _ c E).
Qed.

Lemma Create_ok spec bs leaked :
  backend_ok bs leaked →
  match Create b spec bs with
  | (Ok c, bs') => ∃ leaked', backend_ok bs' leaked' ∧
      (∀ c0, b_containers bs !! c_handle c = Some c0 → leaked' = c_resources c0 :: leaked)
  | (_, bs') => ∃ leaked', backend_ok bs' leaked'
  end.
Proof.
  intros Hok. pose proof Hok as [H1 H2 H3]. destruct bs as [s m]. cbn [b_pool b_containers] in *.
  unfold Create, mbind at 1, M_bind at 1, on_pool at 1, zoom at 1. cbn [view over b_pool_lens b_pool b_containers].
  pose proof (Create_outcome (pool_conf b) iu nets ip spec s _ H1) as HC.
  destruct (ContainerPool.Create (pool_conf b) spec s) as [[c|e|f] s1].
  - destruct HC as (HA & (uid & n & Hr) & _). destruct s1 as [h u nt q k].
    unfold mbind at 1, M_bind at 1, on_pool at 1, zoom at 1. cbn [view over b_pool_lens b_pool b_containers].
    pose proof (on_container_accounts iu nets ip c LinuxContainer.Start h u nt q k
      (map c_resources (live m) ++ leaked) (op_owns_ports OStart) (op_evolves OStart)) as HS.
    assert (Hret : returns (LinuxContainer.Start (PP := PP))).
    { intros [h' p' c'] f. rewrite Start_eq. cbn. by destruct (sys_error _ _). }
    specialize (HS Hret HA).
    destruct (on_container c LinuxContainer.Start (mkPState h u nt q k)) as [[[[] c']|e|f] s2]; [| |done].
    + destruct HS as [HA' Hev].
      destruct (add_container_ok (mkBState s m) leaked c' s2 Hok) as (leaked' & Hok' & Hdup & _); [|done|].
      * by rewrite (ev_network _ _ Hev), Hr.
      * by exists leaked'.
    + destruct HS as (c' & HA' & _). exists (c_resources c' :: leaked). split; [|done..].
      by apply accounts_rotate.
  - destruct HC as [HA|(uid & n & HA)]; [by exists leaked|].
    exists (taken uid n :: leaked). split; [|done..]. by apply accounts_rotate.
  - destruct HC as (_ & uid & n & HA). exists (taken uid n :: leaked). split; [|done..]. by apply accounts_rotate.
Qed.

Lemma Destroy_ok handle bs leaked :
  backend_ok bs leaked → backend_ok (Destroy b handle bs).2 leaked.
Proof.
  intros Hok. pose proof Hok as [H1 H2 H3]. destruct bs as [s m]. cbn [b_pool b_containers] in *.
  unfold Destroy, Lookup, mbind, M_bind, gets. cbn [b_containers].
  destruct (m !! handle) as [c|] eqn:E; [|done]. cbn [mret M_ret]. unfold mret, M_ret.
  unfold on_pool, zoom. cbn [view over b_pool_lens b_pool b_containers].
  destruct (H3 _ _ E) as [n Hn].
  destruct (live_insert m handle c c E) as [P1 _].
  assert (HA : accounts s (c_resources c :: map c_resources (live (base.delete handle m)) ++ leaked)).
  { eapply accounts_perm; [|exact H1]. by rewrite P1. }
  pose proof (Destroy_outcome (pool_conf b) iu nets ip c n s _ HA Hn) as HD.
  unfold destroy_outcome in HD.
  destruct (ContainerPool.Destroy (pool_conf b) c s) as [[[]|e|f] s']; [| |destruct HD as [_ HD]].
  - cbn. rewrite (H2 _ _ E). split; [done|..]; cbn; intros h c' [_ Hc']%lookup_delete_Some; eauto.
  - split; [|done..]. cbn. eapply accounts_perm; [|exact HD]. by rewrite P1.
  - split; [|done..]. cbn. eapply accounts_perm; [|exact HD]. by rewrite P1.
Qed.

(** Whatever an operation of a container does to its resources, the others' stay. *)
Lemma with_container_ok {A} handle (mo : M (CState PP) A) bs leaked :
  steps owns_ports mo → steps evolves_rel mo → backend_ok bs leaked →
  backend_ok (with_container handle mo bs).2 leaked.
Proof.
  intros Ho He Hok. pose proof Hok as [H1 H2 H3]. destruct bs as [[h u nt q k] m].
  unfold with_container. cbn [b_pool b_containers ps_trace ps_ports ps_uids ps_networks ps_containerNum] in *.
  destruct (m !! handle) as [c|] eqn:E; [|done].
  specialize (Ho (mkCState h q c)). specialize (He (mkCState h q c)).
  destruct (mo (mkCState h q c)) as [r [h' q' c']]. unfold owns_ports, evolves_rel in *.
  cbn in Ho, He. destruct He as [Ec Eu En _ _ _ _].
  destruct (live_insert m handle c' c E) as [P1 P2]. split; cbn.
  - eapply accounts_perm; [by rewrite P2|].
    assert (HA : accounts (mkPState h u nt q k)
                   (c_resources c :: map c_resources (live (base.delete handle m)) ++ leaked)).
    { eapply accounts_perm; [|exact H1]. by rewrite P1. }
    destruct HA as [A1 A2 A3]. cbn in *. split; cbn.
    + by rewrite Eu.
    + by rewrite En.
    + by apply Ho.
  - intros h1 c1. destruct (decide (handle = h1)) as [<-|Hne].
    + rewrite lookup_insert_eq. intros [= <-]. unfold c_handle. rewrite Ec. by apply H2.
    + rewrite lookup_insert_ne by done. apply H2.
  - intros h1 c1. destruct (decide (handle = h1)) as [<-|Hne].
    + rewrite lookup_insert_eq. intros [= <-]. rewrite En. by eapply H3.
    + rewrite lookup_insert_ne by done. apply H3.
Qed.

Lemma restore_ok text snapshot bs leaked :
  decode text = Ok snapshot → restorable snapshot bs → backend_ok bs leaked →
  ∃ leaked', backend_ok (restore b text bs).2 leaked'.
Proof.
  intros Hd (n & Hn & V1 & V2 & V3 & V4 & V5) Hok. pose proof Hok as [H1 H2 H3].
  destruct bs as [s m]. cbn [b_pool b_containers] in *.
  unfold restore, mbind at 1, M_bind at 1, of_result. rewrite Hd.
  unfold mbind at 1, M_bind at 1, on_pool, zoom. cbn [view over b_pool_lens b_pool b_containers].
  pose proof (RestoreSnapshot_outcome (pool_conf b) iu nets ip snapshot n s _ H1 Hn V1 V2 V3 V4 V5) as HR.
  unfold restore_outcome in HR.
  destruct (RestoreSnapshot (pool_conf b) snapshot s) as [[c|e|f] s']; [| |done].
  - destruct HR as (_ & HA & _ & En & _).
    destruct (add_container_ok (mkBState s m) leaked c s' Hok) as (leaked' & Hok' & _);
      [by rewrite En, Hn|done|by exists leaked'].
  - destruct HR as [[_ HA]|(_ & ab & _ & HA)]; [by exists leaked|]. exists (ab :: leaked). split; [|done..].
    by apply accounts_rotate.
Qed.

Lemma b_step_ok bs bs' leaked :
  b_step b bs bs' → backend_ok bs leaked → ∃ leaked', backend_ok bs' leaked'.
Proof.
  intros Hst Hok. destruct Hst as [spec bs|handle bs|handle o bs|text snapshot bs Hd Hr|handle c t' bs E Ht].
  - pose proof (Create_ok spec bs leaked Hok) as H.
    destruct (Create b spec bs) as [[c|e|f] bs']; [|exact H..]. destruct H as (leaked' & H & _). by exists leaked'.
  - exists leaked. by apply Destroy_ok.
  - exists leaked. apply with_container_ok; [apply op_owns_ports|apply op_evolves|done].
  - by apply (restore_ok text snapshot bs leaked).
  - exists leaked. destruct Hok as [H1 H2 H3]. destruct (live_insert _ handle (set_processTracker t' c) c E) as [P1 P2].
    split; cbn.
    + eapply accounts_perm; [|exact H1]. by rewrite P1, P2.
    + intros h1 c1. destruct (decide (handle = h1)) as [<-|Hne].
      * rewrite lookup_insert_eq. intros [= <-]. exact (H2 _ _ E).
      * rewrite lookup_insert_ne by done. apply H2.
    + intros h1 c1. destruct (decide (handle = h1)) as [<-|Hne].
      * rewrite lookup_insert_eq. intros [= <-]. exact (H3 _ _ E).
      * rewrite lookup_insert_ne by done. apply H3.
Qed.

Lemma b_steps_ok bs bs' leaked :
  rtc (b_step b) bs bs' → backend_ok bs leaked → ∃ leaked', backend_ok bs' leaked'.
Proof.
  intros Hst. revert leaked. induction Hst as [|b1 b2 b3 H _ IH]; intros leaked Hok; [by exists leaked|].
  destruct (b_step_ok _ _ _ H Hok) as [leaked' Hok']. by eapply IH.
Qed.
End backend_lemmas.

(** ** Isolation *)

(** No two containers share a uid, a network or a host port. *)
Definition isolated (m : gmap string LinuxContainer) : Prop := ∀ h1 h2 c1 c2,
  m !! h1 = Some c1 → m !! h2 = Some c2 → h1 ≠ h2 →
  UID (c_resources c1) ≠ UID (c_resources c2) ∧
  res_Network (c_resources c1) ≠ res_Network (c_resources c2) ∧
  ∀ port, port ∈ Ports (c_resources c1) → port ∉ Ports (c_resources c2).

Lemma live_two (m : gmap string LinuxContainer) h1 h2 c1 c2 :
  m !! h1 = Some c1 → m !! h2 = Some c2 → h1 ≠ h2 →
  live m ≡ₚ c1 :: c2 :: live (base.delete h2 (base.delete h1 m)).
Proof.
  intros E1 E2 Hne. destruct (live_insert m h1 c1 c1 E1) as [-> _].
  destruct (live_insert (base.delete h1 m) h2 c2 c2) as [-> _]; [by rewrite lookup_delete_ne|done].
Qed.

Lemma nodup_isolated (m : gmap string LinuxContainer) :
  let rs := map c_resources (live m) in
  NoDup (map UID rs) → NoDup (omap res_Network rs) → NoDup (flat_map Ports rs) →
  (∀ h c, m !! h = Some c → is_Some (res_Network (c_resources c))) → isolated m.
Proof.
  cbn zeta. intros N1 N2 N3 Hnet h1 h2 c1 c2 E1 E2 Hne.
  rewrite (live_two _ h1 h2 c1 c2 E1 E2 Hne) in N1, N2, N3. cbn in N1, N2, N3.
  destruct (Hnet _ _ E1) as [n1 Hn1], (Hnet _ _ E2) as [n2 Hn2]. rewrite Hn1, Hn2 in *.
  apply NoDup_cons in N1 as [N1 _], N2 as [N2 _]. split_and!.
  - intros E. apply N1. rewrite E. by left.
  - intros [= E]. apply N2. rewrite E. by left.
  - intros port H1 H2. apply NoDup_app in N3 as (_ & N3 & _). apply (N3 port H1).
    apply elem_of_app. by left.
Qed.

Lemma backend_ok_isolated {K : Kernel} {UP NP PP}
    `{!ResourcePool UP Z Z, !ResourcePool NP Network string, !ResourcePool PP Z Z}
    iu nets ip (bs : BState UP NP PP) leaked :
  backend_ok iu nets ip bs leaked → isolated (b_containers bs).
Proof.
  intros [HA _ Hnet]. destruct (accounts_disjoint iu nets ip _ _ HA) as (N1 & N2 & N3).
  rewrite map_app in N1. rewrite omap_app in N2. rewrite flat_map_app in N3.
  apply NoDup_app in N1 as [N1 _], N2 as [N2 _], N3 as [N3 _]. by apply nodup_isolated.
Qed.

(** ** Creating, as seen in the map *)

Lemma Create_files {K : Kernel} {UP NP PP}
    `{!ResourcePool UP Z Z, !ResourcePool NP Network string, !ResourcePool PP Z Z}
    b spec (bs bs' : BState UP NP PP) c :
  Create b spec bs = (Ok c, bs') →
  c_handle c = (if String.eqb (spec_Handle spec) "" then c_id c else spec_Handle spec) ∧
  c_properties c = spec_Properties spec ∧ c_graceTime c = spec_GraceTime spec ∧
  c_state c = StateActive ∧ b_containers bs' = <[c_handle c := c]> (b_containers bs).
Proof.
  intros H. unfold Create in H. apply bind_Ok_inv in H as (c0 & b1 & H1 & H).
  apply bind_Ok_inv in H as ([[] c'] & b2 & H2 & H). cbn in H. injection H as <- <-.
  destruct bs as [s m]. unfold on_pool, zoom in H1, H2. cbn in H1, H2.
  destruct (ContainerPool.Create (pool_conf b) spec s) as [r1 s1] eqn:E1. injection H1 as -> <-.
  destruct (on_container c0 LinuxContainer.Start s1) as [r2 s2] eqn:E2.
  cbn in H2. rewrite E2 in H2. injection H2 as -> <-.
  unfold on_container in E2. rewrite Start_eq in E2. cbn zeta in E2.
  destruct (sys_error _ _); [done|]. cbn in E2. injection E2 as <- _.
  apply (Create_conf (pool_conf b)) in E1 as (Hh & Hp & Hg). by split_and!.
Qed.


(** * Properties *)

Section properties.
Context {K : Kernel} {UP NP PP : Type} {codec : SnapshotCodec}.
Context `{!ResourcePool UP Z Z, !ResourcePool NP Network string, !ResourcePool PP Z Z}.
Context `{!SizedPool UP, !SizedPool NP, !NetworkedPool NP}.
Local Abbreviation BS := (BState UP NP PP).

(** C2: containers are isolated: whatever requests the backend serves one after the other, whatever
    calls to the outside fail, even if a provider of root file systems panics or never returns,
    and whatever the processes do, no two containers in its map ever share a uid, a network or
    a host port of the pool, every container is filed under its handle, and every uid, network
    and port of the pools is free, in one container, or lost for good. (Host ports that a
    request to map a port names itself are not the pool's, and nothing keeps them apart. A
    snapshot that is restored has to be [restorable].) *)
Theorem containers_stay_isolated
    `{!ResourcePoolLaws UP Z Z, !ResourcePoolLaws NP Network string, !ResourcePoolLaws PP Z Z}
    b iu nets ip (bs bs' : BS) leaked :
  backend_ok iu nets ip bs leaked → rtc (b_step b) bs bs' →
  isolated (b_containers bs') ∧ ∃ leaked', backend_ok iu nets ip bs' leaked'.
Proof.
  intros Hok Hst. destruct (b_steps_ok b iu nets ip bs bs' leaked Hst Hok) as [leaked' Hok'].
  split; [by eapply backend_ok_isolated|by exists leaked'].
Qed.

(** A created container is running and can be looked up under its handle (the one
    asked for, or its id); the other containers are not touched. *)
Theorem Create_then_Lookup b spec (bs bs' : BS) c :
  Create b spec bs = (Ok c, bs') →
  Lookup (c_handle c) bs' = (Ok c, bs') ∧ c_state c = StateActive ∧
  c_handle c = (if String.eqb (spec_Handle spec) "" then c_id c else spec_Handle spec) ∧
  c_properties c = spec_Properties spec ∧ c_graceTime c = spec_GraceTime spec ∧
  ∀ h, h ≠ c_handle c → b_containers bs' !! h = b_containers bs !! h.
Proof.
  intros H. destruct (Create_files b spec bs bs' c H) as (H1 & H2 & H3 & H4 & H5).
  unfold Lookup, mbind, M_bind, gets. rewrite H5, lookup_insert_eq. split_and!; try done.
  intros h Hne. by rewrite lookup_insert_ne.
Qed.

(** [Destroy] of an unknown handle is an error that changes nothing; a successful
    [Destroy] removes exactly that container from the map. *)
Theorem Destroy_then_Lookup b handle (bs : BS) :
  (b_containers bs !! handle = None → Destroy b handle bs = (Err (UnknownHandleError handle), bs)) ∧
  (∀ c bs', b_containers bs !! handle = Some c → c_handle c = handle →
   Destroy b handle bs = (Ok tt, bs') →
   b_containers bs' = base.delete handle (b_containers bs) ∧
   Lookup handle bs' = (Err (UnknownHandleError handle), bs')).
Proof.
  destruct bs as [s m]. cbn [b_containers]. unfold Destroy, Lookup, mbind, M_bind, gets. cbn [b_containers].
  split.
  - intros ->. done.
  - intros c bs' -> Hc H. unfold mret, M_ret in H. unfold on_pool, zoom in H. cbn in H.
    destruct (ContainerPool.Destroy (pool_conf b) c s) as [[[]|e|f] s']; [|done..].
    injection H as <-. cbn. rewrite Hc. split; [done|]. by rewrite lookup_delete_eq.
Qed.

(** [Containers] lists exactly the containers that have all the properties of the
    filter, and changes nothing. *)
Theorem Containers_filter filter (bs : BS) :
  ∃ l, Containers filter bs = (Ok l, bs) ∧
    ∀ c, c ∈ l ↔ (∃ h, b_containers bs !! h = Some c) ∧ filter ⊆ c_properties c.
Proof.
  eexists. split; [done|]. intros c. rewrite list_elem_of_In, List.filter_In, <-list_elem_of_In.
  fold (live (b_containers bs)). rewrite live_lookup. f_equiv. unfold containerHasProperties.
  rewrite forallb_forall, map_subseteq_spec. split.
  - intros H k v Hk. specialize (H (k, v)). cbn in H.
    destruct (c_properties c !! k) as [cv|].
    + f_equal. apply String.eqb_eq, H. apply list_elem_of_In. by apply elem_of_map_to_list.
    + assert (false = true); [|done]. apply H. apply list_elem_of_In. by apply elem_of_map_to_list.
  - intros H [k v] Hk%list_elem_of_In%elem_of_map_to_list. cbn. rewrite (H _ _ Hk). apply String.eqb_refl.
Qed.

(** C38: a second container with a handle that is in use replaces the first in the map:
    both stay allocated, but the first can no longer be looked up or destroyed, so its
    uid, network and ports are lost, even after the handle is destroyed. *)
Theorem duplicate_handle_loses_container
    `{!ResourcePoolLaws UP Z Z, !ResourcePoolLaws NP Network string, !ResourcePoolLaws PP Z Z}
    b iu nets ip spec (bs bs' bs'' : BS) leaked c1 c2 :
  backend_ok iu nets ip bs leaked →
  b_containers bs !! spec_Handle spec = Some c1 → spec_Handle spec ≠ "" →
  Create b spec bs = (Ok c2, bs') → Destroy b (spec_Handle spec) bs' = (Ok tt, bs'') →
  b_containers bs'' !! spec_Handle spec = None ∧
  backend_ok iu nets ip bs'' (c_resources c1 :: leaked) ∧
  UID (c_resources c1) ∉ rp_free (ps_uids (b_pool bs'')).
Proof.
  intros Hok E1 Hne HC HD.
  pose proof (Create_ok b iu nets ip spec bs leaked Hok) as Hcr. rewrite HC in Hcr.
  destruct Hcr as (leaked' & Hdup & Hl). destruct (Create_files b spec bs bs' c2 HC) as (Hh & _).
  rewrite (proj2 (String.eqb_neq _ _) Hne) in Hh. rewrite Hh in Hl. rewrite (Hl c1 E1) in Hdup.
  assert (Hok2 : backend_ok iu nets ip bs'' (c_resources c1 :: leaked)).
  { replace bs'' with (Destroy b (spec_Handle spec) bs').2 by (by rewrite HD). by apply Destroy_ok. }
  split_and!; [|done|].
  - destruct (b_containers bs' !! spec_Handle spec) as [c|] eqn:E.
    + assert (Hc : c_handle c = spec_Handle spec) by (by apply (bok_handle _ _ _ _ _ Hdup)).
      revert HD. unfold Destroy, Lookup, mbind, M_bind, gets. cbn. rewrite E. cbn.
      unfold on_pool, zoom. cbn. destruct (ContainerPool.Destroy _ _ _) as [[[]|e|f] s']; [|done..].
      intros [= <-]. cbn. rewrite Hc. by rewrite lookup_delete_eq.
    + revert HD. unfold Destroy, Lookup, mbind, M_bind, gets. cbn. by rewrite E.
  - destruct Hok2 as [[HA _ _] _ _]. pose proof (ledger_keys_nodup _ _ _ HA) as Hnd.
    rewrite map_app, fmap_app in Hnd. apply NoDup_app in Hnd as (_ & Hnd & _).
    intros Hin. apply (Hnd (rp_key (P := UP) (UID (c_resources c1)))); [by apply list_elem_of_fmap_2|].
    rewrite fmap_app. apply elem_of_app. right. cbn. by left.
Qed.
End properties.

(** * Witnesses *)

#[local] Existing Instances UIDPool.uid_rp UIDPool.uid_laws NetworkPool.network_rp
  NetworkPool.network_laws PortPool.port_rp PortPool.port_laws.
#[local] Existing Instance quiet_kernel.

Definition stored : ContainerSnapshot := example_snapshot 10001 (example_net 2) [61002].

(** A codec for one snapshot. *)
Definition one_codec : SnapshotCodec := {|
  encode s := if decide (s = stored) then "stored" else "other";
  decode text := if String.eqb text "stored" then Ok stored else Err (mkError "json" "invalid");
  encodable s := s = stored
|}.
#[local] Existing Instance one_codec.

Lemma one_codec_laws : SnapshotCodecLaws.
Proof.
  split.
  - intros s ->. cbn. by rewrite decide_True.
  - intros text f. cbn. by destruct (String.eqb text "stored").
Qed.

Definition example_backend : BackendConf :=
  mkBackendConf example_conf "/snapshots" (mret 1024) (mret 2048).

Abbreviation RealBackend := (BState UIDPool.UnixUIDPool NetworkPool.RealNetworkPool PortPool.PortPool).

Definition example_start : RealBackend :=
  mkBState example_pools ∅.

Definition example_ok (bs : RealBackend) : list Resources → Prop :=
  backend_ok example_iu (String_ <$> example_nets) example_ip bs.

Lemma example_start_ok : example_ok example_start [].
Proof. split; [exact example_balanced|done..]. Qed.

Definition spec_named (handle : string) : ContainerSpec :=
  mkContainerSpec handle 0 "" [] "" {["owner" := "me"]}.

(** Two containers, one of which got a port. *)
Definition two_containers : RealBackend :=
  (with_container "b" (do_op (ONetIn 0 8080))
    (Create example_backend (spec_named "b") (Create example_backend (spec_named "a") example_start).2).2).2.

Lemma containers_stay_isolated_witness :
  isolated (b_containers two_containers) ∧ size (b_containers two_containers) = 2%nat.
Proof.
  split; [|vm_compute; reflexivity].
  refine (proj1 (containers_stay_isolated example_backend _ _ _ example_start two_containers []
                   example_start_ok _)).
  do 2 (eapply rtc_l; [apply bs_create|]). apply rtc_once. apply (bs_op _ "b" (ONetIn 0 8080)).
Defined.

Lemma Create_then_Lookup_witness :
  match Create example_backend (spec_named "") example_start with
  | (Ok c, bs') => Lookup (c_id c) bs' = (Ok c, bs')
  | _ => False
  end.
Proof.
  destruct (Create example_backend (spec_named "") example_start) as [[c|e|f] bs'] eqn:E;
    [|exfalso; vm_compute in E; discriminate E..].
  destruct (Create_then_Lookup example_backend (spec_named "") example_start bs' c E) as (H & _ & Hh & _).
  rewrite Hh in H. exact H.
Defined.

Lemma Destroy_then_Lookup_witness :
  Destroy example_backend "c" two_containers = (Err (UnknownHandleError "c"), two_containers) ∧
  Lookup "a" (Destroy example_backend "a" two_containers).2 =
    (Err (UnknownHandleError "a"), (Destroy example_backend "a" two_containers).2).
Proof.
  split.
  - apply (proj1 (Destroy_then_Lookup example_backend "c" two_containers)). vm_compute. reflexivity.
  - destruct (Destroy example_backend "a" two_containers) as [r bs'] eqn:E.
    destruct (b_containers two_containers !! "a") as [c|] eqn:Ec;
      [|exfalso; vm_compute in Ec; discriminate Ec].
    apply (proj2 (Destroy_then_Lookup example_backend "a" two_containers) c bs' Ec).
    + assert (H : c_handle <$> (b_containers two_containers !! "a") = Some "a") by (vm_compute; reflexivity).
      rewrite Ec in H. injection H. exact (λ E, E).
    + rewrite E. f_equal. apply (f_equal fst) in E. cbn [fst] in E. rewrite <-E. vm_compute. reflexivity.
Defined.

Lemma duplicate_handle_loses_container_witness :
  let bs := (Create example_backend (spec_named "a") example_start).2 in
  let bs' := (Create example_backend (spec_named "a") bs).2 in
  10000 ∉ rp_free (ps_uids (b_pool (Destroy example_backend "a" bs').2)).
Proof.
  intros bs bs'.
  destruct (Create example_backend (spec_named "a") example_start) as [[c1|e|f] b1] eqn:E1;
    [|exfalso; vm_compute in E1; discriminate E1..].
  cbn [snd] in bs.
  destruct (Create example_backend (spec_named "a") bs) as [[c2|e|f] b2] eqn:E2;
    [|exfalso; subst bs; vm_compute in E1; injection E1 as _ <-; vm_compute in E2; discriminate E2..].
  cbn [snd] in bs'.
  destruct (Destroy example_backend "a" bs') as [[[]|e|f] b3] eqn:E3;
    [|exfalso; subst bs bs'; vm_compute in E1; injection E1 as _ <-; vm_compute in E2; injection E2 as _ <-;
      vm_compute in E3; discriminate E3..].
  pose proof (Create_files example_backend (spec_named "a") example_start b1 c1 E1) as (H1 & _ & _ & _ & H2).
  pose proof (Create_ok example_backend _ _ _ (spec_named "a")
                example_start [] example_start_ok) as H3.
  rewrite E1 in H3. destruct H3 as (leaked & H3 & _).
  assert (HU : UID (c_resources c1) = 10000) by (vm_compute in E1; injection E1 as <- _; reflexivity).
  rewrite <-HU. cbn [snd].
  apply (duplicate_handle_loses_container example_backend _ _ _ (spec_named "a") bs bs' b3 leaked c1 c2
           H3); [|discriminate|exact E2|exact E3].
  subst bs. rewrite H2, H1. apply lookup_insert_eq.
Defined.
