(* ===== verification/SnapshotJson.v ===== *)
(** The text of a snapshot: the JSON that linux_container.go's [Snapshot] writes and
    container_pool.go's [Restore] reads, with network.go's [MarshalJSON] and
    [UnmarshalJSON]. It is an instance of the interface [SnapshotCodec] of the backend. *)
From S2P Require Import Prelude GoStd Json JsonCodec Net NetParse Network Warden Snapshot LinuxBackend.
From S2P Require NetworkPool.
From Stdlib Require Import Ascii.

Local Open Scope string_scope.
Local Open Scope list_scope.
Local Open Scope Z_scope.

(** * network.go *)

(** [net.IP] as text *)
Definition MarshalText (ip : IP) : Result string :=
  if decide (ip = []) then Ok ""
  else if decide (length ip = 4%nat ∨ length ip = 16%nat) then Ok (IP_String ip)
  else Err (errors_New "invalid IP address").

Definition UnmarshalText (text : string) : Result IP :=
  if String.eqb text "" then Ok []
  else match ParseIP text with Some ip => Ok ip | None => Err (ParseError text) end.

(** The keys of the map are printed in order. *)
Definition MarshalJSON (n : Network) : Result json :=
  c ← MarshalText (ContainerIP n);
  h ← MarshalText (HostIP n);
  Ok (JObject [("ContainerIP", JString c); ("HostIP", JString h); ("IPNet", JString (String_ n))]).

Record network_tmp := mkTmp { tmp_IPNet : string; tmp_HostIP : IP; tmp_ContainerIP : IP }.

(** A value with [UnmarshalText] is decoded from a string only. *)
Definition ip_field (name : string) (set : IP → network_tmp → network_tmp) : Field network_tmp :=
  mkField name (λ _, JNull) (λ t j, match j with
                                    | JString s => ip ← UnmarshalText s; Ok (set ip t)
                                    | _ => Err UnmarshalTypeError
                                    end).

Definition tmp_fields : list (Field network_tmp) :=
  [field "IPNet" string_codec tmp_IPNet (λ s t, mkTmp s (tmp_HostIP t) (tmp_ContainerIP t));
   ip_field "HostIP" (λ ip t, mkTmp (tmp_IPNet t) ip (tmp_ContainerIP t));
   ip_field "ContainerIP" (λ ip t, mkTmp (tmp_IPNet t) (tmp_HostIP t) ip)].

Definition UnmarshalJSON (data : json) : Result Network :=
  tmp ← dec_struct tmp_fields (mkTmp "" [] []) data;
  '(_, ipNet) ← ParseCIDR (tmp_IPNet tmp);
  Ok (mkNetwork ipNet (tmp_HostIP tmp) (tmp_ContainerIP tmp)).

(** A network of the pool has addresses that can be printed: [MarshalJSON] does not fail. *)
Definition network_codec : Codec Network := {|
  c_zero := mkNetwork (mkIPNet [] []) [] [];
  c_enc n := match MarshalJSON n with Ok j => j | _ => JNull end;
  c_dec _ j := UnmarshalJSON j;
  c_ok n := ∃ a, 0 ≤ a ∧ a + 2 < 2 ^ 32 ∧ a mod 4 = 0 ∧ n = Network.New (net4 a 30)
|}.

(** * snapshot.go *)

Abbreviation u32_json := (uint_codec 32).
Abbreviation u64_json := (uint_codec 64).

Definition memory_codec : Codec MemoryLimits := struct_codec (mkMemoryLimits 0)
  [field "LimitInBytes" u64_json LimitInBytes (λ v _, mkMemoryLimits v)]
  (λ l, is_u64 (LimitInBytes l)).

Definition cpu_codec : Codec CPULimits := struct_codec (mkCPULimits 0)
  [field "LimitInShares" u64_json LimitInShares (λ v _, mkCPULimits v)]
  (λ l, is_u64 (LimitInShares l)).

Definition bandwidth_codec : Codec BandwidthLimits := struct_codec (mkBandwidthLimits 0 0)
  [field "RateInBytesPerSecond" u64_json RateInBytesPerSecond (λ v l, mkBandwidthLimits v (BurstRateInBytesPerSecond l));
   field "BurstRateInBytesPerSecond" u64_json BurstRateInBytesPerSecond (λ v l, mkBandwidthLimits (RateInBytesPerSecond l) v)]
  (λ l, is_u64 (RateInBytesPerSecond l) ∧ is_u64 (BurstRateInBytesPerSecond l)).

Definition disk_codec : Codec DiskLimits := struct_codec (mkDiskLimits 0 0 0 0 0 0)
  [field "BlockSoft" u64_json BlockSoft (λ v l, mkDiskLimits v (BlockHard l) (InodeSoft l) (InodeHard l) (ByteSoft l) (ByteHard l));
   field "BlockHard" u64_json BlockHard (λ v l, mkDiskLimits (BlockSoft l) v (InodeSoft l) (InodeHard l) (ByteSoft l) (ByteHard l));
   field "InodeSoft" u64_json InodeSoft (λ v l, mkDiskLimits (BlockSoft l) (BlockHard l) v (InodeHard l) (ByteSoft l) (ByteHard l));
   field "InodeHard" u64_json InodeHard (λ v l, mkDiskLimits (BlockSoft l) (BlockHard l) (InodeSoft l) v (ByteSoft l) (ByteHard l));
   field "ByteSoft" u64_json ByteSoft (λ v l, mkDiskLimits (BlockSoft l) (BlockHard l) (InodeSoft l) (InodeHard l) v (ByteHard l));
   field "ByteHard" u64_json ByteHard (λ v l, mkDiskLimits (BlockSoft l) (BlockHard l) (InodeSoft l) (InodeHard l) (ByteSoft l) v)]
  (λ l, is_u64 (BlockSoft l) ∧ is_u64 (BlockHard l) ∧ is_u64 (InodeSoft l) ∧ is_u64 (InodeHard l) ∧
        is_u64 (ByteSoft l) ∧ is_u64 (ByteHard l)).

Definition limits_codec : Codec LimitsSnapshot := struct_codec (mkLimitsSnapshot None None None None)
  [field "Memory" (pointer_codec memory_codec) lim_Memory
     (λ v l, mkLimitsSnapshot v (lim_Disk l) (lim_Bandwidth l) (lim_CPU l));
   field "Disk" (pointer_codec disk_codec) lim_Disk
     (λ v l, mkLimitsSnapshot (lim_Memory l) v (lim_Bandwidth l) (lim_CPU l));
   field "Bandwidth" (pointer_codec bandwidth_codec) lim_Bandwidth
     (λ v l, mkLimitsSnapshot (lim_Memory l) (lim_Disk l) v (lim_CPU l));
   field "CPU" (pointer_codec cpu_codec) lim_CPU
     (λ v l, mkLimitsSnapshot (lim_Memory l) (lim_Disk l) (lim_Bandwidth l) v)]
  (λ l, c_ok (pointer_codec memory_codec) (lim_Memory l) ∧ c_ok (pointer_codec disk_codec) (lim_Disk l) ∧
        c_ok (pointer_codec bandwidth_codec) (lim_Bandwidth l) ∧ c_ok (pointer_codec cpu_codec) (lim_CPU l)).

Definition resources_codec : Codec ResourcesSnapshot := struct_codec (mkResources 0 None [])
  [field "UID" u32_json UID (λ v r, mkResources v (res_Network r) (Ports r));
   field "Network" (pointer_codec network_codec) res_Network (λ v r, mkResources (UID r) v (Ports r));
   field "Ports" (slice_codec false u32_json) Ports (λ v r, mkResources (UID r) (res_Network r) v)]
  (λ r, is_u32 (UID r) ∧ c_ok (pointer_codec network_codec) (res_Network r) ∧ Forall is_u32 (Ports r)).

Definition process_codec : Codec ProcessSnapshot := struct_codec (mkProcessSnapshot 0 false)
  [field "ID" u32_json ps_ID (λ v p, mkProcessSnapshot v (ps_TTY p));
   field "TTY" bool_codec ps_TTY (λ v p, mkProcessSnapshot (ps_ID p) v)]
  (λ p, is_u32 (ps_ID p)).

Definition net_in_codec : Codec NetInSpec := struct_codec (mkNetIn 0 0)
  [field "HostPort" u32_json in_HostPort (λ v n, mkNetIn v (in_ContainerPort n));
   field "ContainerPort" u32_json in_ContainerPort (λ v n, mkNetIn (in_HostPort n) v)]
  (λ n, is_u32 (in_HostPort n) ∧ is_u32 (in_ContainerPort n)).

Definition net_out_codec : Codec NetOutSpec := struct_codec (mkNetOut "" 0)
  [field "Network" string_codec out_Network (λ v n, mkNetOut v (out_Port n));
   field "Port" u32_json out_Port (λ v n, mkNetOut (out_Network n) v)]
  (λ n, valid_utf8 (out_Network n) = true ∧ is_u32 (out_Port n)).

(** The values that setting one field of a snapshot needs of the others. *)
Definition snapshot_zero : ContainerSnapshot :=
  mkContainerSnapshot "" "" 0 "" [] (mkLimitsSnapshot None None None None) (mkResources 0 None []) [] [] [] ∅.

(** The slices of network rules are nil until a rule is added; the others and the map of
    properties are made empty. *)
Definition snapshot_fields : list (Field ContainerSnapshot) :=
  [field "ID" string_codec snap_ID (λ v s, mkContainerSnapshot v (snap_Handle s) (snap_GraceTime s) (snap_State s)
     (snap_Events s) (snap_Limits s) (snap_Resources s) (snap_Processes s) (snap_NetIns s) (snap_NetOuts s) (snap_Properties s));
   field "Handle" string_codec snap_Handle (λ v s, mkContainerSnapshot (snap_ID s) v (snap_GraceTime s) (snap_State s)
     (snap_Events s) (snap_Limits s) (snap_Resources s) (snap_Processes s) (snap_NetIns s) (snap_NetOuts s) (snap_Properties s));
   field "GraceTime" int64_codec snap_GraceTime (λ v s, mkContainerSnapshot (snap_ID s) (snap_Handle s) v (snap_State s)
     (snap_Events s) (snap_Limits s) (snap_Resources s) (snap_Processes s) (snap_NetIns s) (snap_NetOuts s) (snap_Properties s));
   field "State" string_codec snap_State (λ v s, mkContainerSnapshot (snap_ID s) (snap_Handle s) (snap_GraceTime s) v
     (snap_Events s) (snap_Limits s) (snap_Resources s) (snap_Processes s) (snap_NetIns s) (snap_NetOuts s) (snap_Properties s));
   field "Events" (slice_codec false string_codec) snap_Events (λ v s, mkContainerSnapshot (snap_ID s) (snap_Handle s)
     (snap_GraceTime s) (snap_State s) v (snap_Limits s) (snap_Resources s) (snap_Processes s) (snap_NetIns s)
     (snap_NetOuts s) (snap_Properties s));
   field "Limits" limits_codec snap_Limits (λ v s, mkContainerSnapshot (snap_ID s) (snap_Handle s) (snap_GraceTime s)
     (snap_State s) (snap_Events s) v (snap_Resources s) (snap_Processes s) (snap_NetIns s) (snap_NetOuts s) (snap_Properties s));
   field "Resources" resources_codec snap_Resources (λ v s, mkContainerSnapshot (snap_ID s) (snap_Handle s)
     (snap_GraceTime s) (snap_State s) (snap_Events s) (snap_Limits s) v (snap_Processes s) (snap_NetIns s)
     (snap_NetOuts s) (snap_Properties s));
   field "Processes" (slice_codec false process_codec) snap_Processes (λ v s, mkContainerSnapshot (snap_ID s)
     (snap_Handle s) (snap_GraceTime s) (snap_State s) (snap_Events s) (snap_Limits s) (snap_Resources s) v
     (snap_NetIns s) (snap_NetOuts s) (snap_Properties s));
   field "NetIns" (slice_codec true net_in_codec) snap_NetIns (λ v s, mkContainerSnapshot (snap_ID s) (snap_Handle s)
     (snap_GraceTime s) (snap_State s) (snap_Events s) (snap_Limits s) (snap_Resources s) (snap_Processes s) v
     (snap_NetOuts s) (snap_Properties s));
   field "NetOuts" (slice_codec true net_out_codec) snap_NetOuts (λ v s, mkContainerSnapshot (snap_ID s) (snap_Handle s)
     (snap_GraceTime s) (snap_State s) (snap_Events s) (snap_Limits s) (snap_Resources s) (snap_Processes s)
     (snap_NetIns s) v (snap_Properties s));
   field "Properties" string_map_codec snap_Properties (λ v s, mkContainerSnapshot (snap_ID s) (snap_Handle s)
     (snap_GraceTime s) (snap_State s) (snap_Events s) (snap_Limits s) (snap_Resources s) (snap_Processes s)
     (snap_NetIns s) (snap_NetOuts s) v)].

(** What a snapshot is like that survives: integers in their width, strings in UTF-8, a
    network of an IPv4 pool. *)
Record snapshot_ok (s : ContainerSnapshot) : Prop := {
  ok_ID : valid_utf8 (snap_ID s) = true;
  ok_Handle : valid_utf8 (snap_Handle s) = true;
  ok_GraceTime : - 2 ^ 63 ≤ snap_GraceTime s < 2 ^ 63;
  ok_State : valid_utf8 (snap_State s) = true;
  ok_Events : Forall (λ e, valid_utf8 e = true) (snap_Events s);
  ok_Limits : c_ok limits_codec (snap_Limits s);
  ok_Resources : c_ok resources_codec (snap_Resources s);
  ok_Processes : Forall (c_ok process_codec) (snap_Processes s);
  ok_NetIns : Forall (c_ok net_in_codec) (snap_NetIns s);
  ok_NetOuts : Forall (c_ok net_out_codec) (snap_NetOuts s);
  ok_Properties : c_ok string_map_codec (snap_Properties s)
}.

Definition snapshot_codec : Codec ContainerSnapshot := struct_codec snapshot_zero snapshot_fields snapshot_ok.

(** [json.NewEncoder(out).Encode] and [json.NewDecoder(snapshot).Decode] *)
Definition encode_snapshot (s : ContainerSnapshot) : string := print_json (c_enc snapshot_codec s) +:+ nl.

Definition decode_snapshot (text : string) : Result ContainerSnapshot :=
  '(j, _) ← parse_json text; c_dec snapshot_codec snapshot_zero j.

#[export] Instance json_codec : SnapshotCodec := {|
  encode := encode_snapshot;
  decode := decode_snapshot;
  encodable := snapshot_ok
|}.

(** * Lemmas *)

Lemma MarshalJSON_subnet a :
  0 ≤ a → a + 2 < 2 ^ 32 →
  MarshalJSON (Network.New (net4 a 30)) =
    Ok (JObject [("ContainerIP", JString (ipv4_String (ip4 (a + 2)))); ("HostIP", JString (ipv4_String (ip4 (a + 1))));
                 ("IPNet", JString (ipv4_String (ip4 a) +:+ "/30"))]).
Proof.
  intros H0 H2. rewrite New_v4 by done. unfold MarshalJSON, MarshalText, ContainerIP, HostIP, String_.
  cbn [Network.containerIP Network.hostIP Network.ipNet].
  rewrite !(decide_False (P := mapped _ = [])) by done. rewrite !decide_True by (by right).
  by rewrite !IP_String_mapped, IPNet_String_30.
Qed.

(** [network.go]'s own text is read back as the network it came from. *)
Lemma UnmarshalJSON_subnet a :
  0 ≤ a → a + 2 < 2 ^ 32 → a mod 4 = 0 →
  UnmarshalJSON (c_enc network_codec (Network.New (net4 a 30))) = Ok (Network.New (net4 a 30)).
Proof.
  intros H0 H2 H4. cbn [c_enc network_codec]. rewrite MarshalJSON_subnet by done. unfold UnmarshalJSON.
  assert (Hp : ∀ b, UnmarshalText (ipv4_String (ip4 b)) = Ok (mapped b)).
  { intros b. rewrite <-IP_String_mapped. unfold UnmarshalText. pose proof (ParseIP_mapped b) as Hb.
    destruct (String.eqb_spec (IP_String (mapped b)) "") as [E|_]; [by rewrite E in Hb|by rewrite Hb]. }
  assert (Hc : ParseCIDR (ipv4_String (ip4 a) +:+ "/30") = Ok (mapped a, net4 a 30)).
  { pose proof (ParseCIDR_print a 30 ltac:(lia) ltac:(lia)) as E. rewrite IP_String_ip4 in E.
    change ("/" +:+ fmt_d 30) with "/30" in E. rewrite E. do 3 f_equal.
    change (2 ^ (32 - 30)) with 4. pose proof (Z.div_mod a 4). lia. }
  cbn -[ipv4_String UnmarshalText ParseCIDR mapped net4]. rewrite Hp. cbn -[ipv4_String UnmarshalText ParseCIDR mapped net4].
  rewrite Hp. cbn -[ipv4_String UnmarshalText ParseCIDR mapped net4]. rewrite Hc. by rewrite New_v4.
Qed.

Lemma ipv4_ascii a : valid_utf8 (ipv4_String (ip4 a)) = true ∧ valid_utf8 (ipv4_String (ip4 a) +:+ "/30") = true.
Proof.
  assert (H : all_chars (λ c, byte_of c <? 128) (ipv4_String (ip4 a)) = true).
  { apply all_chars_Join; [done|]. apply Forall_fmap. eapply Forall_impl; [apply ip4_bytes|]. intros b Hb.
    eapply all_chars_impl; [|apply fmt_d_digits, Hb]. by intros [[] [] [] [] [] [] [] []]. }
  split; apply ascii_valid_utf8; [done|]. by rewrite all_chars_app, H.
Qed.

#[export] Instance network_laws : CodecLaws network_codec.
Proof.
  split; intros n (a & H0 & H2 & H4 & ->); [|by apply UnmarshalJSON_subnet].
  cbn [c_enc network_codec]. rewrite MarshalJSON_subnet by done. cbn -[valid_utf8 ip4].
  pose proof (ipv4_ascii a). pose proof (ipv4_ascii (a + 1)). pose proof (ipv4_ascii (a + 2)). naive_solver.
Qed.

(** ** Records *)


#[export] Instance memory_laws : CodecLaws memory_codec.
Proof. solve_struct. Qed.
#[export] Instance cpu_laws : CodecLaws cpu_codec.
Proof. solve_struct. Qed.
#[export] Instance bandwidth_laws : CodecLaws bandwidth_codec.
Proof. solve_struct. Qed.
#[export] Instance disk_laws : CodecLaws disk_codec.
Proof. solve_struct. Qed.
#[export] Instance limits_laws : CodecLaws limits_codec.
Proof. solve_struct. Qed.
#[export] Instance resources_laws : CodecLaws resources_codec.
Proof. solve_struct. Qed.
#[export] Instance process_laws : CodecLaws process_codec.
Proof. solve_struct. Qed.
#[export] Instance net_in_laws : CodecLaws net_in_codec.
Proof. solve_struct. Qed.
#[export] Instance net_out_laws : CodecLaws net_out_codec.
Proof. solve_struct. Qed.
Ltac snapshot_field_ok :=
  first [apply ok_ID|apply ok_Handle|apply ok_GraceTime|apply ok_State|apply ok_Events|apply ok_Limits
        |apply ok_Resources|apply ok_Processes|apply ok_NetIns|apply ok_NetOuts|apply ok_Properties]; assumption.

Ltac snapshot_norm :=
  cbn [snap_ID snap_Handle snap_GraceTime snap_State snap_Events snap_Limits snap_Resources snap_Processes snap_NetIns
       snap_NetOuts snap_Properties snapshot_zero].

#[export] Instance snapshot_laws : CodecLaws snapshot_codec.
Proof.
  apply struct_laws; intros a Ha; unfold snapshot_fields; destruct a.
  - solve_fields snapshot_field_ok.
  - solve_members snapshot_norm snapshot_field_ok.
Qed.

(** ** What is read never panics *)

Lemma ParseCIDR_returns s : no_crash (ParseCIDR s).
Proof. unfold ParseCIDR. repeat case_match; done. Qed.

Lemma UnmarshalText_returns s : no_crash (UnmarshalText s).
Proof. unfold UnmarshalText. by repeat case_match. Qed.

#[export] Instance network_decodes : Decodes network_codec.
Proof.
  intros old j. apply no_crash_bind.
  - apply (struct_decodes tmp_fields (mkTmp "" [] []) (λ _, True)).
    constructor; [intros; apply field_decodes; apply _|].
    repeat (constructor; [intros a [| | |s| |]; try done; apply no_crash_bind; [apply UnmarshalText_returns|done]|]).
    constructor.
  - intros tmp. apply no_crash_bind; [apply ParseCIDR_returns|]. by intros [].
Qed.

#[export] Instance memory_decodes : Decodes memory_codec.
Proof. solve_struct_decodes. Qed.
#[export] Instance cpu_decodes : Decodes cpu_codec.
Proof. solve_struct_decodes. Qed.
#[export] Instance bandwidth_decodes : Decodes bandwidth_codec.
Proof. solve_struct_decodes. Qed.
#[export] Instance disk_decodes : Decodes disk_codec.
Proof. solve_struct_decodes. Qed.
#[export] Instance limits_decodes : Decodes limits_codec.
Proof. solve_struct_decodes. Qed.
#[export] Instance resources_decodes : Decodes resources_codec.
Proof. solve_struct_decodes. Qed.
#[export] Instance process_decodes : Decodes process_codec.
Proof. solve_struct_decodes. Qed.
#[export] Instance net_in_decodes : Decodes net_in_codec.
Proof. solve_struct_decodes. Qed.
#[export] Instance net_out_decodes : Decodes net_out_codec.
Proof. solve_struct_decodes. Qed.
#[export] Instance snapshot_decodes : Decodes snapshot_codec.
Proof. solve_struct_decodes. Qed.

(** The backend's interface *)
#[export] Instance json_codec_laws : SnapshotCodecLaws.
Proof.
  split.
  - intros s Hs. cbn in Hs |- *. unfold decode_snapshot, encode_snapshot.
    rewrite parse_json_print; [|by apply c_wf|done]. cbn [mbind Result_bind]. by apply (c_roundtrip (c := snapshot_codec)).
  - intros text. change (no_crash (decode_snapshot text)). apply no_crash_bind.
    + unfold parse_json. by case_match.
    + intros [j rest]. apply snapshot_decodes.
Qed.

(** * Properties *)

(** C6: a snapshot round trip: the text [Snapshot] writes for a container is read back by
    [Restore] as the snapshot it was written for, whatever follows it in the file. *)
Theorem snapshot_json_roundtrip s rest :
  snapshot_ok s → decode_snapshot (encode_snapshot s +:+ rest) = Ok s.
Proof.
  intros Hs. unfold decode_snapshot, encode_snapshot. rewrite string_app_assoc.
  rewrite parse_json_print; [|by apply c_wf|done]. cbn [mbind Result_bind]. by apply (c_roundtrip (c := snapshot_codec)).
Qed.

(** A snapshot with something in every field. *)
Definition full_snapshot : ContainerSnapshot :=
  mkContainerSnapshot "some-id" "a<b" (-1) "active" ["out of memory"]
    (mkLimitsSnapshot (Some (mkMemoryLimits (2 ^ 64 - 1))) None (Some (mkBandwidthLimits 1024 65536)) None)
    (mkResources 10000 (Some (Network.New (net4 (10 * 2 ^ 24 + 254 * 2 ^ 16) 30))) [61001])
    [mkProcessSnapshot 1 true] [mkNetIn 61001 8080] [] {["owner" := "me"]}.

Lemma full_snapshot_ok : snapshot_ok full_snapshot.
Proof.
  split; try done.
  - by constructor.
  - split_and!; [done| |by constructor]. split; [|done]. by exists (10 * 2 ^ 24 + 254 * 2 ^ 16).
  - by constructor.
  - by constructor.
  - by apply map_Forall_singleton.
Qed.

Lemma snapshot_json_roundtrip_witness :
  decode_snapshot (encode_snapshot full_snapshot +:+ "{}") = Ok full_snapshot.
Proof. apply snapshot_json_roundtrip. exact full_snapshot_ok. Defined.
