(* ===== verification/Typed.v ===== *)
(** The types of a container's values: integers stay in their width and strings in UTF-8
    whatever is done to the container, so every snapshot it writes is read back. *)
From S2P Require Import Prelude GoStd OS Json JsonCodec ResourcePool Net Network Warden Snapshot Process.
From S2P Require UIDPool PortPool.
From S2P Require Import ProcessTracker LinuxContainer LinuxBackend SnapshotJson.

Local Open Scope string_scope.
Local Open Scope list_scope.
Local Open Scope Z_scope.

(** What a request's arguments are: the fields of its message. *)
Definition op_typed (o : op) : Prop :=
  match o with
  | OLimitBandwidth l => c_ok bandwidth_codec l
  | OLimitDisk l => c_ok disk_codec l
  | OLimitMemory l => c_ok memory_codec l
  | OLimitCPU l => c_ok cpu_codec l
  | ONetIn hp cp => c_ok net_in_codec (mkNetIn hp cp)
  | ONetOut n port => c_ok net_out_codec (mkNetOut n port)
  | _ => True
  end.

Record container_typed (c : LinuxContainer) : Prop := {
  ct_id : valid_utf8 (c_id c) = true;
  ct_handle : valid_utf8 (c_handle c) = true;
  ct_properties : c_ok string_map_codec (c_properties c);
  ct_graceTime : c_ok int64_codec (c_graceTime c);
  ct_state : valid_utf8 (c_state c) = true;
  ct_events : Forall (λ e, valid_utf8 e = true) (c_events c);
  ct_limits : c_ok limits_codec (mkLimitsSnapshot (c_currentMemoryLimits c) (c_currentDiskLimits c)
                                   (c_currentBandwidthLimits c) (c_currentCPULimits c));
  ct_resources : c_ok resources_codec (c_resources c);
  ct_processes : ids_typed (c_processTracker c);
  ct_netIns : Forall (c_ok net_in_codec) (c_netIns c);
  ct_netOuts : Forall (c_ok net_out_codec) (c_netOuts c)
}.

Lemma typed_snapshot c : container_typed c → snapshot_ok (Snapshot c).
Proof.
  intros []. split; try done. cbn. apply Forall_fmap, Forall_forall. intros p Hp. unfold ActiveProcesses in Hp.
  apply list_elem_of_fmap in Hp as ([id q] & -> & Hq%elem_of_map_to_list). cbn.
  destruct (proj2 ct_processes0 id q Hq) as [Hid ->]. exact Hid.
Qed.

(** A new container *)
Lemma NewLinuxContainer_typed id handle path props grace res cg q bw tr :
  valid_utf8 id = true → valid_utf8 handle = true → c_ok string_map_codec props → c_ok int64_codec grace →
  c_ok resources_codec res → ids_typed tr →
  container_typed (NewLinuxContainer id handle path props grace res cg q bw tr).
Proof. intros. by split. Qed.

Section typed.
Context {K : Kernel} {PP : Type} `{!ResourcePool PP Z Z}.
Local Abbreviation CS := (CState PP).
Implicit Types (s : CS) (c : LinuxContainer).

(** The pool's ports are of type [uint32], and none is 0. *)
Definition state_typed s : Prop :=
  container_typed (cs_container s) ∧ Forall (λ x, is_u32 x ∧ x ≠ 0) (rp_free (cs_ports s)).
Definition typed_rel : relation CS := inv_rel state_typed.

(** What may happen to a container: typed requests and its goroutines' steps. *)
Inductive typed_step : CS → CS → Prop :=
  | typed_op o s : op_typed o → typed_step s (do_op o s).2
  | typed_goroutine t' s :
      tracker_step (c_processTracker (cs_container s)) t' →
      typed_step s (mkCState (cs_trace s) (cs_ports s) (set_processTracker t' (cs_container s))).

Lemma on_trace_typed {A} (m : M Trace A) : steps typed_rel (on_trace m).
Proof. intros s. unfold typed_rel, inv_rel, state_typed. by destruct (on_trace_frame m s) as [-> ->]. Qed.

Lemma on_tracker_typed {A} (m : M TState A) :
  steps (inv_rel (λ s : TState, ids_typed s.2)) m → steps typed_rel (on_tracker m).
Proof.
  intros Hm s [[] Hp]. unfold on_tracker, zoom. specialize (Hm (view c_tracker_lens s) ct_processes0).
  destruct (m _) as [r t]. split; [|done]. by split.
Qed.

Lemma update_typed f : (∀ c, container_typed c → container_typed (f c)) → steps typed_rel (update f).
Proof. intros Hf [h p c] [Hc Hp]. split; [|done]. by apply Hf. Qed.

(** Where one limit is replaced. *)
Ltac limits_typed :=
  apply update_typed; intros c Hc; pose proof (ct_limits c Hc) as (? & ? & ? & ?); destruct Hc;
  split; try done; by split_and!.

(** A rule is added. *)
Lemma netIns_typed i c :
  c_ok net_in_codec i → container_typed c → container_typed (set_netIns (c_netIns c ++ [i]) c).
Proof. intros Hi []. split; try done. apply Forall_app. split; [done|]. by constructor. Qed.

Lemma netOuts_typed o c :
  c_ok net_out_codec o → container_typed c → container_typed (set_netOuts (c_netOuts c ++ [o]) c).
Proof. intros Hi []. split; try done. apply Forall_app. split; [done|]. by constructor. Qed.

Lemma AddPort_typed x c : is_u32 x → container_typed c → container_typed (set_resources (AddPort x (c_resources c)) c).
Proof.
  intros Hx Hc. pose proof (ct_resources c Hc) as (? & ? & ?). destruct Hc. split; try done.
  split_and!; [done..|]. cbn. apply Forall_app. split; [done|]. by constructor.
Qed.

Lemma event_typed e : valid_utf8 e = true → steps typed_rel (registerEvent e).
Proof.
  intros He. apply update_typed. intros c []. split; try done. apply Forall_app. split; [done|]. by constructor.
Qed.

Lemma setState_typed v : valid_utf8 v = true → steps typed_rel (setState v).
Proof. intros Hv. apply update_typed. intros c []. by split. Qed.

Lemma NetIn_given_typed hp cp s :
  hp ≠ 0 → is_u32 hp → is_u32 cp → state_typed s → state_typed (NetIn hp cp s).2.
Proof.
  destruct s as [h p c]. intros Hne Hhp Hcp [Hc Hp]. rewrite NetIn_given by done. cbn zeta.
  destruct (sys_error _ _); (split; [|done]); [done|]. apply netIns_typed; [|done]. split; [done|]. by case_match.
Qed.

Lemma NetOut_typed n port : c_ok net_out_codec (mkNetOut n port) → steps typed_rel (NetOut n port).
Proof.
  intros Hn. unfold NetOut. repeat op_step; [apply on_trace_typed|]. apply update_typed. intros c. by apply netOuts_typed.
Qed.

Section with_laws.
Context `{!ResourcePoolLaws PP Z Z}.

Lemma NetIn_typed hp cp : is_u32 hp → is_u32 cp → steps typed_rel (NetIn hp cp).
Proof using All.
  intros Hhp Hcp [h p c] Hs. destruct (decide (hp = 0)) as [->|Hne]; [|by apply NetIn_given_typed].
  destruct (rp_free p) as [|x l] eqn:Hf.
  - destruct (NetIn_exhausted cp h p c Hf) as [e ->]. done.
  - destruct Hs as [Hc Hp]. cbn in Hc, Hp. rewrite Hf in Hp. apply Forall_cons in Hp as [[Hx Hx0] Hl].
    destruct (NetIn_random cp h p c x l Hf Hx0) as (p' & Hf' & _ & ->).
    apply NetIn_given_typed; [done..|]. split; [by apply AddPort_typed|]. cbn. by rewrite Hf'.
Qed.

Lemma op_keeps_types o : op_typed o → steps typed_rel (do_op o).
Proof using All.
  intros Ho. apply op_steps; try apply _; intros; subst; cbn in Ho;
    eauto using on_trace_typed, on_tracker_typed, Run_typed, Attach_typed, UnlinkAll_typed, NetOut_typed, event_typed.
  - apply update_typed. intros c []. by split.
  - apply update_typed. intros c []. by split.
  - limits_typed.
  - limits_typed.
  - limits_typed.
  - limits_typed.
  - apply NetIn_typed; apply Ho.
  - apply setState_typed. by destruct H as [->| ->].
Qed.

Lemma typed_step_keeps s s' : typed_step s s' → typed_rel s s'.
Proof using All.
  intros [o s0 Ho|t' s0 Ht]; [by apply op_keeps_types|]. intros [[] Hp]. split; [|done].
  split; try done. by eapply ids_typed_step.
Qed.

Lemma typed_steps_keep s s' : rtc typed_step s s' → typed_rel s s'.
Proof using All. induction 1 as [|s1 s2 s3 H _ IH]; [by intros ?|]. intros Hs. by apply IH, (typed_step_keeps s1). Qed.

(** What a snapshot restores is typed as well. *)
Lemma Restore_keeps_types snapshot : snapshot_ok snapshot → steps typed_rel (Restore snapshot).
Proof using All.
  intros Hs. pose proof (ok_Limits _ Hs) as (Hm & _). cbn in Hm. unfold Restore.
  repeat op_step; auto using on_trace_typed, setState_typed, ok_State.
  - apply event_typed. by apply (proj1 (Forall_forall _ _) (ok_Events _ Hs)).
  - apply (op_keeps_types (OLimitMemory _)). apply Hm.
  - apply on_tracker_typed, Restore_typed. by apply (proj1 (Forall_forall _ _) (ok_Processes _ Hs)).
  - pose proof (proj1 (Forall_forall _ _) (ok_NetIns _ Hs) x ltac:(done)) as [??]. by apply NetIn_typed.
  - apply NetOut_typed. destruct x. by apply (proj1 (Forall_forall _ _) (ok_NetOuts _ Hs)).
Qed.

(** C7: types: a container whose values are of their types keeps them so through any
    sequence of requests whose arguments are of theirs (and of steps of its processes), so
    the snapshot it then writes as JSON is read back as it was written. *)
Theorem snapshots_readable s s' :
  state_typed s → rtc typed_step s s' →
  state_typed s' ∧ decode_snapshot (encode_snapshot (Snapshot (cs_container s'))) = Ok (Snapshot (cs_container s')).
Proof using All.
  intros Hs Hst. assert (Hs' : state_typed s') by (by eapply typed_steps_keep). split; [done|].
  apply (decode_encode (H := json_codec)). by apply typed_snapshot, Hs'.
Qed.
End with_laws.
End typed.

(** * Witnesses *)

Lemma example_snapshot_ok : snapshot_ok (Snapshot example_container).
Proof.
  split; try done.
  - by repeat constructor.
  - split_and!; [done| |by constructor]. split; [|done]. by exists (10 * 2 ^ 24 + 254 * 2 ^ 16).
  - by constructor.
  - by constructor.
  - by constructor.
  - by apply map_Forall_singleton.
Qed.

Lemma example_container_typed : container_typed example_container.
Proof.
  destruct example_snapshot_ok. split; try done. split; [done|]. by apply map_Forall_singleton.
Qed.

#[local] Existing Instances PortPool.port_rp PortPool.port_laws.

Lemma snapshots_readable_witness :
  let s := mkCState [] (PortPool.New 61001 3) example_container in
  let s' := (do_op (K := quiet_kernel) (OLimitCPU (mkCPULimits 512)) s).2 in
  decode_snapshot (encode_snapshot (Snapshot (cs_container s'))) = Ok (Snapshot (cs_container s')).
Proof.
  intros s s'. apply (snapshots_readable (K := quiet_kernel) s s').
  - split; [apply example_container_typed|]. change (rp_free _) with [61001; 61002; 61003].
    by repeat (constructor; [done|]).
  - by apply rtc_once, typed_op.
Defined.
