(* ===== verification/Protocol.v ===== *)
(** The messages of the garden protocol (garden/protocol, generated from .proto files): the
    requests and responses that server and client write to each other. *)
From S2P Require Import Prelude GoStd Json JsonCodec MessageCodec.

Local Open Scope string_scope.
Local Open Scope list_scope.
Local Open Scope Z_scope.

Definition mode_values : list (string * Z) := [("RO", 0); ("RW", 1)].
Definition origin_values : list (string * Z) := [("Host", 0); ("Container", 1)].
Definition source_values : list (string * Z) := [("stdin", 0); ("stdout", 1); ("stderr", 2)].

Abbreviation u32_pointer := (pointer_codec (uint_codec 32)).
Abbreviation u64_pointer := (pointer_codec (uint_codec 64)).
Abbreviation bool_pointer := (pointer_codec bool_codec).
Abbreviation string_pointer := (pointer_codec string_codec).

(** * Messages *)

(** [TTY_WindowSize] *)
Record WindowSizeMsg := mkWindowSizeMsg {
  ws_Columns : option Z;
  ws_Rows : option Z
}.

Definition WindowSizeMsg_fields : list (Field WindowSizeMsg) :=
  [field "columns" u32_pointer ws_Columns
     (λ v m, mkWindowSizeMsg v (ws_Rows m));
   field "rows" u32_pointer ws_Rows
     (λ v m, mkWindowSizeMsg (ws_Columns m) v)].

Definition no_WindowSizeMsg : WindowSizeMsg := mkWindowSizeMsg None None.

Definition WindowSizeMsg_codec : Codec WindowSizeMsg := message_codec no_WindowSizeMsg WindowSizeMsg_fields (λ m,
  c_ok u32_pointer (ws_Columns m) ∧ c_ok u32_pointer (ws_Rows m)).

(** [TTY] *)
Record TTYMsg := mkTTYMsg {
  tm_WindowSize : option WindowSizeMsg
}.

Definition TTYMsg_fields : list (Field TTYMsg) :=
  [field "window_size" (pointer_codec WindowSizeMsg_codec) tm_WindowSize
     (λ v _, mkTTYMsg v)].

Definition no_TTYMsg : TTYMsg := mkTTYMsg None.

Definition TTYMsg_codec : Codec TTYMsg := message_codec no_TTYMsg TTYMsg_fields (λ m,
  c_ok (pointer_codec WindowSizeMsg_codec) (tm_WindowSize m)).

(** [Property] *)
Record PropertyMsg := mkPropertyMsg {
  pm_Key : option string;
  pm_Value : option string
}.

Definition PropertyMsg_fields : list (Field PropertyMsg) :=
  [field "Key" string_pointer pm_Key
     (λ v m, mkPropertyMsg v (pm_Value m));
   field "Value" string_pointer pm_Value
     (λ v m, mkPropertyMsg (pm_Key m) v)].

Definition no_PropertyMsg : PropertyMsg := mkPropertyMsg None None.

Definition PropertyMsg_codec : Codec PropertyMsg := message_codec no_PropertyMsg PropertyMsg_fields (λ m,
  c_ok string_pointer (pm_Key m) ∧ c_ok string_pointer (pm_Value m)).

Record EnvironmentVariable := mkEnvironmentVariable {
  ev_Key : option string;
  ev_Value : option string
}.

Definition EnvironmentVariable_fields : list (Field EnvironmentVariable) :=
  [field "Key" string_pointer ev_Key
     (λ v m, mkEnvironmentVariable v (ev_Value m));
   field "Value" string_pointer ev_Value
     (λ v m, mkEnvironmentVariable (ev_Key m) v)].

Definition no_EnvironmentVariable : EnvironmentVariable := mkEnvironmentVariable None None.

Definition EnvironmentVariable_codec : Codec EnvironmentVariable := message_codec no_EnvironmentVariable EnvironmentVariable_fields (λ m,
  c_ok string_pointer (ev_Key m) ∧ c_ok string_pointer (ev_Value m)).

(** [CreateRequest_BindMount] *)
Record BindMountMsg := mkBindMountMsg {
  bm_SrcPath : option string;
  bm_DstPath : option string;
  bm_Mode : option Z;
  bm_Origin : option Z
}.

Definition BindMountMsg_fields : list (Field BindMountMsg) :=
  [field "src_path" string_pointer bm_SrcPath
     (λ v m, mkBindMountMsg v (bm_DstPath m) (bm_Mode m) (bm_Origin m));
   field "dst_path" string_pointer bm_DstPath
     (λ v m, mkBindMountMsg (bm_SrcPath m) v (bm_Mode m) (bm_Origin m));
   field "mode" (pointer_codec (enum_codec mode_values)) bm_Mode
     (λ v m, mkBindMountMsg (bm_SrcPath m) (bm_DstPath m) v (bm_Origin m));
   field "origin" (pointer_codec (enum_codec origin_values)) bm_Origin
     (λ v m, mkBindMountMsg (bm_SrcPath m) (bm_DstPath m) (bm_Mode m) v)].

Definition no_BindMountMsg : BindMountMsg := mkBindMountMsg None None None None.

Definition BindMountMsg_codec : Codec BindMountMsg := message_codec no_BindMountMsg BindMountMsg_fields (λ m,
  c_ok string_pointer (bm_SrcPath m) ∧ c_ok string_pointer (bm_DstPath m) ∧ c_ok (pointer_codec (enum_codec
  mode_values)) (bm_Mode m) ∧ c_ok (pointer_codec (enum_codec origin_values)) (bm_Origin m)).

Record CreateRequest := mkCreateRequest {
  cr_BindMounts : list (option BindMountMsg);
  cr_GraceTime : option Z;
  cr_Handle : option string;
  cr_Network : option string;
  cr_Rootfs : option string;
  cr_Properties : list (option PropertyMsg)
}.

Definition CreateRequest_fields : list (Field CreateRequest) :=
  [field "bind_mounts" (slice_codec true (pointer_codec BindMountMsg_codec)) cr_BindMounts
     (λ v m, mkCreateRequest v (cr_GraceTime m) (cr_Handle m) (cr_Network m) (cr_Rootfs m) (cr_Properties m));
   field "grace_time" u32_pointer cr_GraceTime
     (λ v m, mkCreateRequest (cr_BindMounts m) v (cr_Handle m) (cr_Network m) (cr_Rootfs m) (cr_Properties m));
   field "handle" string_pointer cr_Handle
     (λ v m, mkCreateRequest (cr_BindMounts m) (cr_GraceTime m) v (cr_Network m) (cr_Rootfs m) (cr_Properties
        m));
   field "network" string_pointer cr_Network
     (λ v m, mkCreateRequest (cr_BindMounts m) (cr_GraceTime m) (cr_Handle m) v (cr_Rootfs m) (cr_Properties m));
   field "rootfs" string_pointer cr_Rootfs
     (λ v m, mkCreateRequest (cr_BindMounts m) (cr_GraceTime m) (cr_Handle m) (cr_Network m) v (cr_Properties
        m));
   field "properties" (slice_codec true (pointer_codec PropertyMsg_codec)) cr_Properties
     (λ v m, mkCreateRequest (cr_BindMounts m) (cr_GraceTime m) (cr_Handle m) (cr_Network m) (cr_Rootfs m) v)].

Definition no_CreateRequest : CreateRequest := mkCreateRequest [] None None None None [].

Definition CreateRequest_codec : Codec CreateRequest := message_codec no_CreateRequest CreateRequest_fields (λ m,
  c_ok (slice_codec true (pointer_codec BindMountMsg_codec)) (cr_BindMounts m) ∧ c_ok u32_pointer (cr_GraceTime
  m) ∧ c_ok string_pointer (cr_Handle m) ∧ c_ok string_pointer (cr_Network m) ∧ c_ok string_pointer (cr_Rootfs
  m) ∧ c_ok (slice_codec true (pointer_codec PropertyMsg_codec)) (cr_Properties m)).

Record StopRequest := mkStopRequest {
  sr_Handle : option string;
  sr_Kill : option bool
}.

Definition StopRequest_fields : list (Field StopRequest) :=
  [field "handle" string_pointer sr_Handle
     (λ v m, mkStopRequest v (sr_Kill m));
   field "kill" bool_pointer sr_Kill
     (λ v m, mkStopRequest (sr_Handle m) v)].

Definition no_StopRequest : StopRequest := mkStopRequest None None.

Definition StopRequest_codec : Codec StopRequest := message_codec no_StopRequest StopRequest_fields (λ m,
  c_ok string_pointer (sr_Handle m) ∧ c_ok bool_pointer (sr_Kill m)).

Record LimitBandwidthRequest := mkLimitBandwidthRequest {
  lb_Handle : option string;
  lb_Rate : option Z;
  lb_Burst : option Z
}.

Definition LimitBandwidthRequest_fields : list (Field LimitBandwidthRequest) :=
  [field "handle" string_pointer lb_Handle
     (λ v m, mkLimitBandwidthRequest v (lb_Rate m) (lb_Burst m));
   field "rate" u64_pointer lb_Rate
     (λ v m, mkLimitBandwidthRequest (lb_Handle m) v (lb_Burst m));
   field "burst" u64_pointer lb_Burst
     (λ v m, mkLimitBandwidthRequest (lb_Handle m) (lb_Rate m) v)].

Definition no_LimitBandwidthRequest : LimitBandwidthRequest := mkLimitBandwidthRequest None None None.

Definition LimitBandwidthRequest_codec : Codec LimitBandwidthRequest := message_codec no_LimitBandwidthRequest LimitBandwidthRequest_fields (λ m,
  c_ok string_pointer (lb_Handle m) ∧ c_ok u64_pointer (lb_Rate m) ∧ c_ok u64_pointer (lb_Burst m)).

Record LimitMemoryRequest := mkLimitMemoryRequest {
  lm_Handle : option string;
  lm_LimitInBytes : option Z
}.

Definition LimitMemoryRequest_fields : list (Field LimitMemoryRequest) :=
  [field "handle" string_pointer lm_Handle
     (λ v m, mkLimitMemoryRequest v (lm_LimitInBytes m));
   field "limit_in_bytes" u64_pointer lm_LimitInBytes
     (λ v m, mkLimitMemoryRequest (lm_Handle m) v)].

Definition no_LimitMemoryRequest : LimitMemoryRequest := mkLimitMemoryRequest None None.

Definition LimitMemoryRequest_codec : Codec LimitMemoryRequest := message_codec no_LimitMemoryRequest LimitMemoryRequest_fields (λ m,
  c_ok string_pointer (lm_Handle m) ∧ c_ok u64_pointer (lm_LimitInBytes m)).

Record LimitDiskRequest := mkLimitDiskRequest {
  ld_Handle : option string;
  ld_BlockSoft : option Z;
  ld_BlockHard : option Z;
  ld_InodeSoft : option Z;
  ld_InodeHard : option Z;
  ld_ByteSoft : option Z;
  ld_ByteHard : option Z
}.

Definition LimitDiskRequest_fields : list (Field LimitDiskRequest) :=
  [field "handle" string_pointer ld_Handle
     (λ v m, mkLimitDiskRequest v (ld_BlockSoft m) (ld_BlockHard m) (ld_InodeSoft m) (ld_InodeHard m)
        (ld_ByteSoft m) (ld_ByteHard m));
   field "block_soft" u64_pointer ld_BlockSoft
     (λ v m, mkLimitDiskRequest (ld_Handle m) v (ld_BlockHard m) (ld_InodeSoft m) (ld_InodeHard m) (ld_ByteSoft
        m) (ld_ByteHard m));
   field "block_hard" u64_pointer ld_BlockHard
     (λ v m, mkLimitDiskRequest (ld_Handle m) (ld_BlockSoft m) v (ld_InodeSoft m) (ld_InodeHard m) (ld_ByteSoft
        m) (ld_ByteHard m));
   field "inode_soft" u64_pointer ld_InodeSoft
     (λ v m, mkLimitDiskRequest (ld_Handle m) (ld_BlockSoft m) (ld_BlockHard m) v (ld_InodeHard m) (ld_ByteSoft
        m) (ld_ByteHard m));
   field "inode_hard" u64_pointer ld_InodeHard
     (λ v m, mkLimitDiskRequest (ld_Handle m) (ld_BlockSoft m) (ld_BlockHard m) (ld_InodeSoft m) v (ld_ByteSoft
        m) (ld_ByteHard m));
   field "byte_soft" u64_pointer ld_ByteSoft
     (λ v m, mkLimitDiskRequest (ld_Handle m) (ld_BlockSoft m) (ld_BlockHard m) (ld_InodeSoft m) (ld_InodeHard
        m) v (ld_ByteHard m));
   field "byte_hard" u64_pointer ld_ByteHard
     (λ v m, mkLimitDiskRequest (ld_Handle m) (ld_BlockSoft m) (ld_BlockHard m) (ld_InodeSoft m) (ld_InodeHard
        m) (ld_ByteSoft m) v)].

Definition no_LimitDiskRequest : LimitDiskRequest := mkLimitDiskRequest None None None None None None None.

Definition LimitDiskRequest_codec : Codec LimitDiskRequest := message_codec no_LimitDiskRequest LimitDiskRequest_fields (λ m,
  c_ok string_pointer (ld_Handle m) ∧ c_ok u64_pointer (ld_BlockSoft m) ∧ c_ok u64_pointer (ld_BlockHard m) ∧
  c_ok u64_pointer (ld_InodeSoft m) ∧ c_ok u64_pointer (ld_InodeHard m) ∧ c_ok u64_pointer (ld_ByteSoft m) ∧
  c_ok u64_pointer (ld_ByteHard m)).

Record LimitCpuRequest := mkLimitCpuRequest {
  lc_Handle : option string;
  lc_LimitInShares : option Z
}.

Definition LimitCpuRequest_fields : list (Field LimitCpuRequest) :=
  [field "handle" string_pointer lc_Handle
     (λ v m, mkLimitCpuRequest v (lc_LimitInShares m));
   field "limit_in_shares" u64_pointer lc_LimitInShares
     (λ v m, mkLimitCpuRequest (lc_Handle m) v)].

Definition no_LimitCpuRequest : LimitCpuRequest := mkLimitCpuRequest None None.

Definition LimitCpuRequest_codec : Codec LimitCpuRequest := message_codec no_LimitCpuRequest LimitCpuRequest_fields (λ m,
  c_ok string_pointer (lc_Handle m) ∧ c_ok u64_pointer (lc_LimitInShares m)).

Record NetInRequest := mkNetInRequest {
  ni_Handle : option string;
  ni_HostPort : option Z;
  ni_ContainerPort : option Z
}.

Definition NetInRequest_fields : list (Field NetInRequest) :=
  [field "handle" string_pointer ni_Handle
     (λ v m, mkNetInRequest v (ni_HostPort m) (ni_ContainerPort m));
   field "host_port" u32_pointer ni_HostPort
     (λ v m, mkNetInRequest (ni_Handle m) v (ni_ContainerPort m));
   field "container_port" u32_pointer ni_ContainerPort
     (λ v m, mkNetInRequest (ni_Handle m) (ni_HostPort m) v)].

Definition no_NetInRequest : NetInRequest := mkNetInRequest None None None.

Definition NetInRequest_codec : Codec NetInRequest := message_codec no_NetInRequest NetInRequest_fields (λ m,
  c_ok string_pointer (ni_Handle m) ∧ c_ok u32_pointer (ni_HostPort m) ∧ c_ok u32_pointer (ni_ContainerPort m)).

Record NetOutRequest := mkNetOutRequest {
  no_Handle : option string;
  no_Network : option string;
  no_Port : option Z
}.

Definition NetOutRequest_fields : list (Field NetOutRequest) :=
  [field "handle" string_pointer no_Handle
     (λ v m, mkNetOutRequest v (no_Network m) (no_Port m));
   field "network" string_pointer no_Network
     (λ v m, mkNetOutRequest (no_Handle m) v (no_Port m));
   field "port" u32_pointer no_Port
     (λ v m, mkNetOutRequest (no_Handle m) (no_Network m) v)].

Definition no_NetOutRequest : NetOutRequest := mkNetOutRequest None None None.

Definition NetOutRequest_codec : Codec NetOutRequest := message_codec no_NetOutRequest NetOutRequest_fields (λ m,
  c_ok string_pointer (no_Handle m) ∧ c_ok string_pointer (no_Network m) ∧ c_ok u32_pointer (no_Port m)).

(** [ResourceLimits] *)
Record ResourceLimitsMsg := mkResourceLimitsMsg {
  rl_As : option Z;
  rl_Core : option Z;
  rl_Cpu : option Z;
  rl_Data : option Z;
  rl_Fsize : option Z;
  rl_Locks : option Z;
  rl_Memlock : option Z;
  rl_Msgqueue : option Z;
  rl_Nice : option Z;
  rl_Nofile : option Z;
  rl_Nproc : option Z;
  rl_Rss : option Z;
  rl_Rtprio : option Z;
  rl_Sigpending : option Z;
  rl_Stack : option Z
}.

Definition ResourceLimitsMsg_fields : list (Field ResourceLimitsMsg) :=
  [field "as" u64_pointer rl_As
     (λ v m, mkResourceLimitsMsg v (rl_Core m) (rl_Cpu m) (rl_Data m) (rl_Fsize m) (rl_Locks m) (rl_Memlock m)
        (rl_Msgqueue m) (rl_Nice m) (rl_Nofile m) (rl_Nproc m) (rl_Rss m) (rl_Rtprio m) (rl_Sigpending m)
        (rl_Stack m));
   field "core" u64_pointer rl_Core
     (λ v m, mkResourceLimitsMsg (rl_As m) v (rl_Cpu m) (rl_Data m) (rl_Fsize m) (rl_Locks m) (rl_Memlock m)
        (rl_Msgqueue m) (rl_Nice m) (rl_Nofile m) (rl_Nproc m) (rl_Rss m) (rl_Rtprio m) (rl_Sigpending m)
        (rl_Stack m));
   field "cpu" u64_pointer rl_Cpu
     (λ v m, mkResourceLimitsMsg (rl_As m) (rl_Core m) v (rl_Data m) (rl_Fsize m) (rl_Locks m) (rl_Memlock m)
        (rl_Msgqueue m) (rl_Nice m) (rl_Nofile m) (rl_Nproc m) (rl_Rss m) (rl_Rtprio m) (rl_Sigpending m)
        (rl_Stack m));
   field "data" u64_pointer rl_Data
     (λ v m, mkResourceLimitsMsg (rl_As m) (rl_Core m) (rl_Cpu m) v (rl_Fsize m) (rl_Locks m) (rl_Memlock m)
        (rl_Msgqueue m) (rl_Nice m) (rl_Nofile m) (rl_Nproc m) (rl_Rss m) (rl_Rtprio m) (rl_Sigpending m)
        (rl_Stack m));
   field "fsize" u64_pointer rl_Fsize
     (λ v m, mkResourceLimitsMsg (rl_As m) (rl_Core m) (rl_Cpu m) (rl_Data m) v (rl_Locks m) (rl_Memlock m)
        (rl_Msgqueue m) (rl_Nice m) (rl_Nofile m) (rl_Nproc m) (rl_Rss m) (rl_Rtprio m) (rl_Sigpending m)
        (rl_Stack m));
   field "locks" u64_pointer rl_Locks
     (λ v m, mkResourceLimitsMsg (rl_As m) (rl_Core m) (rl_Cpu m) (rl_Data m) (rl_Fsize m) v (rl_Memlock m)
        (rl_Msgqueue m) (rl_Nice m) (rl_Nofile m) (rl_Nproc m) (rl_Rss m) (rl_Rtprio m) (rl_Sigpending m)
        (rl_Stack m));
   field "memlock" u64_pointer rl_Memlock
     (λ v m, mkResourceLimitsMsg (rl_As m) (rl_Core m) (rl_Cpu m) (rl_Data m) (rl_Fsize m) (rl_Locks m) v
        (rl_Msgqueue m) (rl_Nice m) (rl_Nofile m) (rl_Nproc m) (rl_Rss m) (rl_Rtprio m) (rl_Sigpending m)
        (rl_Stack m));
   field "msgqueue" u64_pointer rl_Msgqueue
     (λ v m, mkResourceLimitsMsg (rl_As m) (rl_Core m) (rl_Cpu m) (rl_Data m) (rl_Fsize m) (rl_Locks m)
        (rl_Memlock m) v (rl_Nice m) (rl_Nofile m) (rl_Nproc m) (rl_Rss m) (rl_Rtprio m) (rl_Sigpending m)
        (rl_Stack m));
   field "nice" u64_pointer rl_Nice
     (λ v m, mkResourceLimitsMsg (rl_As m) (rl_Core m) (rl_Cpu m) (rl_Data m) (rl_Fsize m) (rl_Locks m)
        (rl_Memlock m) (rl_Msgqueue m) v (rl_Nofile m) (rl_Nproc m) (rl_Rss m) (rl_Rtprio m) (rl_Sigpending m)
        (rl_Stack m));
   field "nofile" u64_pointer rl_Nofile
     (λ v m, mkResourceLimitsMsg (rl_As m) (rl_Core m) (rl_Cpu m) (rl_Data m) (rl_Fsize m) (rl_Locks m)
        (rl_Memlock m) (rl_Msgqueue m) (rl_Nice m) v (rl_Nproc m) (rl_Rss m) (rl_Rtprio m) (rl_Sigpending m)
        (rl_Stack m));
   field "nproc" u64_pointer rl_Nproc
     (λ v m, mkResourceLimitsMsg (rl_As m) (rl_Core m) (rl_Cpu m) (rl_Data m) (rl_Fsize m) (rl_Locks m)
        (rl_Memlock m) (rl_Msgqueue m) (rl_Nice m) (rl_Nofile m) v (rl_Rss m) (rl_Rtprio m) (rl_Sigpending m)
        (rl_Stack m));
   field "rss" u64_pointer rl_Rss
     (λ v m, mkResourceLimitsMsg (rl_As m) (rl_Core m) (rl_Cpu m) (rl_Data m) (rl_Fsize m) (rl_Locks m)
        (rl_Memlock m) (rl_Msgqueue m) (rl_Nice m) (rl_Nofile m) (rl_Nproc m) v (rl_Rtprio m) (rl_Sigpending m)
        (rl_Stack m));
   field "rtprio" u64_pointer rl_Rtprio
     (λ v m, mkResourceLimitsMsg (rl_As m) (rl_Core m) (rl_Cpu m) (rl_Data m) (rl_Fsize m) (rl_Locks m)
        (rl_Memlock m) (rl_Msgqueue m) (rl_Nice m) (rl_Nofile m) (rl_Nproc m) (rl_Rss m) v (rl_Sigpending m)
        (rl_Stack m));
   field "sigpending" u64_pointer rl_Sigpending
     (λ v m, mkResourceLimitsMsg (rl_As m) (rl_Core m) (rl_Cpu m) (rl_Data m) (rl_Fsize m) (rl_Locks m)
        (rl_Memlock m) (rl_Msgqueue m) (rl_Nice m) (rl_Nofile m) (rl_Nproc m) (rl_Rss m) (rl_Rtprio m) v
        (rl_Stack m));
   field "stack" u64_pointer rl_Stack
     (λ v m, mkResourceLimitsMsg (rl_As m) (rl_Core m) (rl_Cpu m) (rl_Data m) (rl_Fsize m) (rl_Locks m)
        (rl_Memlock m) (rl_Msgqueue m) (rl_Nice m) (rl_Nofile m) (rl_Nproc m) (rl_Rss m) (rl_Rtprio m)
        (rl_Sigpending m) v)].

Definition no_ResourceLimitsMsg : ResourceLimitsMsg := mkResourceLimitsMsg None None None None None None None None None None None None None None None.

Definition ResourceLimitsMsg_codec : Codec ResourceLimitsMsg := message_codec no_ResourceLimitsMsg ResourceLimitsMsg_fields (λ m,
  c_ok u64_pointer (rl_As m) ∧ c_ok u64_pointer (rl_Core m) ∧ c_ok u64_pointer (rl_Cpu m) ∧ c_ok u64_pointer
  (rl_Data m) ∧ c_ok u64_pointer (rl_Fsize m) ∧ c_ok u64_pointer (rl_Locks m) ∧ c_ok u64_pointer (rl_Memlock m)
  ∧ c_ok u64_pointer (rl_Msgqueue m) ∧ c_ok u64_pointer (rl_Nice m) ∧ c_ok u64_pointer (rl_Nofile m) ∧ c_ok
  u64_pointer (rl_Nproc m) ∧ c_ok u64_pointer (rl_Rss m) ∧ c_ok u64_pointer (rl_Rtprio m) ∧ c_ok u64_pointer
  (rl_Sigpending m) ∧ c_ok u64_pointer (rl_Stack m)).

Record RunRequest := mkRunRequest {
  rr_Handle : option string;
  rr_Path : option string;
  rr_Privileged : option bool;
  rr_Rlimits : option ResourceLimitsMsg;
  rr_Env : list (option EnvironmentVariable);
  rr_Args : list string;
  rr_Dir : option string;
  rr_Tty : option TTYMsg
}.

Definition RunRequest_fields : list (Field RunRequest) :=
  [field "handle" string_pointer rr_Handle
     (λ v m, mkRunRequest v (rr_Path m) (rr_Privileged m) (rr_Rlimits m) (rr_Env m) (rr_Args m) (rr_Dir m)
        (rr_Tty m));
   field "path" string_pointer rr_Path
     (λ v m, mkRunRequest (rr_Handle m) v (rr_Privileged m) (rr_Rlimits m) (rr_Env m) (rr_Args m) (rr_Dir m)
        (rr_Tty m));
   field "privileged" bool_pointer rr_Privileged
     (λ v m, mkRunRequest (rr_Handle m) (rr_Path m) v (rr_Rlimits m) (rr_Env m) (rr_Args m) (rr_Dir m) (rr_Tty
        m));
   field "rlimits" (pointer_codec ResourceLimitsMsg_codec) rr_Rlimits
     (λ v m, mkRunRequest (rr_Handle m) (rr_Path m) (rr_Privileged m) v (rr_Env m) (rr_Args m) (rr_Dir m)
        (rr_Tty m));
   field "env" (slice_codec true (pointer_codec EnvironmentVariable_codec)) rr_Env
     (λ v m, mkRunRequest (rr_Handle m) (rr_Path m) (rr_Privileged m) (rr_Rlimits m) v (rr_Args m) (rr_Dir m)
        (rr_Tty m));
   field "args" (slice_codec true string_codec) rr_Args
     (λ v m, mkRunRequest (rr_Handle m) (rr_Path m) (rr_Privileged m) (rr_Rlimits m) (rr_Env m) v (rr_Dir m)
        (rr_Tty m));
   field "dir" string_pointer rr_Dir
     (λ v m, mkRunRequest (rr_Handle m) (rr_Path m) (rr_Privileged m) (rr_Rlimits m) (rr_Env m) (rr_Args m) v
        (rr_Tty m));
   field "tty" (pointer_codec TTYMsg_codec) rr_Tty
     (λ v m, mkRunRequest (rr_Handle m) (rr_Path m) (rr_Privileged m) (rr_Rlimits m) (rr_Env m) (rr_Args m)
        (rr_Dir m) v)].

Definition no_RunRequest : RunRequest := mkRunRequest None None None None [] [] None None.

Definition RunRequest_codec : Codec RunRequest := message_codec no_RunRequest RunRequest_fields (λ m,
  c_ok string_pointer (rr_Handle m) ∧ c_ok string_pointer (rr_Path m) ∧ c_ok bool_pointer (rr_Privileged m) ∧
  c_ok (pointer_codec ResourceLimitsMsg_codec) (rr_Rlimits m) ∧ c_ok (slice_codec true (pointer_codec
  EnvironmentVariable_codec)) (rr_Env m) ∧ c_ok (slice_codec true string_codec) (rr_Args m) ∧ c_ok
  string_pointer (rr_Dir m) ∧ c_ok (pointer_codec TTYMsg_codec) (rr_Tty m)).

Record AttachRequest := mkAttachRequest {
  ar_Handle : option string;
  ar_ProcessId : option Z
}.

Definition AttachRequest_fields : list (Field AttachRequest) :=
  [field "handle" string_pointer ar_Handle
     (λ v m, mkAttachRequest v (ar_ProcessId m));
   field "process_id" u32_pointer ar_ProcessId
     (λ v m, mkAttachRequest (ar_Handle m) v)].

Definition no_AttachRequest : AttachRequest := mkAttachRequest None None.

Definition AttachRequest_codec : Codec AttachRequest := message_codec no_AttachRequest AttachRequest_fields (λ m,
  c_ok string_pointer (ar_Handle m) ∧ c_ok u32_pointer (ar_ProcessId m)).

Record ProcessPayload := mkProcessPayload {
  pp_ProcessId : option Z;
  pp_Source : option Z;
  pp_Data : option string;
  pp_ExitStatus : option Z;
  pp_Error : option string;
  pp_Tty : option TTYMsg
}.

Definition ProcessPayload_fields : list (Field ProcessPayload) :=
  [field "process_id" u32_pointer pp_ProcessId
     (λ v m, mkProcessPayload v (pp_Source m) (pp_Data m) (pp_ExitStatus m) (pp_Error m) (pp_Tty m));
   field "source" (pointer_codec (enum_codec source_values)) pp_Source
     (λ v m, mkProcessPayload (pp_ProcessId m) v (pp_Data m) (pp_ExitStatus m) (pp_Error m) (pp_Tty m));
   field "data" string_pointer pp_Data
     (λ v m, mkProcessPayload (pp_ProcessId m) (pp_Source m) v (pp_ExitStatus m) (pp_Error m) (pp_Tty m));
   field "exit_status" u32_pointer pp_ExitStatus
     (λ v m, mkProcessPayload (pp_ProcessId m) (pp_Source m) (pp_Data m) v (pp_Error m) (pp_Tty m));
   field "error" string_pointer pp_Error
     (λ v m, mkProcessPayload (pp_ProcessId m) (pp_Source m) (pp_Data m) (pp_ExitStatus m) v (pp_Tty m));
   field "tty" (pointer_codec TTYMsg_codec) pp_Tty
     (λ v m, mkProcessPayload (pp_ProcessId m) (pp_Source m) (pp_Data m) (pp_ExitStatus m) (pp_Error m) v)].

Definition no_ProcessPayload : ProcessPayload := mkProcessPayload None None None None None None.

Definition ProcessPayload_codec : Codec ProcessPayload := message_codec no_ProcessPayload ProcessPayload_fields (λ m,
  c_ok u32_pointer (pp_ProcessId m) ∧ c_ok (pointer_codec (enum_codec source_values)) (pp_Source m) ∧ c_ok
  string_pointer (pp_Data m) ∧ c_ok u32_pointer (pp_ExitStatus m) ∧ c_ok string_pointer (pp_Error m) ∧ c_ok
  (pointer_codec TTYMsg_codec) (pp_Tty m)).

Record CapacityResponse := mkCapacityResponse {
  cap_MemoryInBytes : option Z;
  cap_DiskInBytes : option Z;
  cap_MaxContainers : option Z
}.

Definition CapacityResponse_fields : list (Field CapacityResponse) :=
  [field "memory_in_bytes" u64_pointer cap_MemoryInBytes
     (λ v m, mkCapacityResponse v (cap_DiskInBytes m) (cap_MaxContainers m));
   field "disk_in_bytes" u64_pointer cap_DiskInBytes
     (λ v m, mkCapacityResponse (cap_MemoryInBytes m) v (cap_MaxContainers m));
   field "max_containers" u64_pointer cap_MaxContainers
     (λ v m, mkCapacityResponse (cap_MemoryInBytes m) (cap_DiskInBytes m) v)].

Definition no_CapacityResponse : CapacityResponse := mkCapacityResponse None None None.

Definition CapacityResponse_codec : Codec CapacityResponse := message_codec no_CapacityResponse CapacityResponse_fields (λ m,
  c_ok u64_pointer (cap_MemoryInBytes m) ∧ c_ok u64_pointer (cap_DiskInBytes m) ∧ c_ok u64_pointer
  (cap_MaxContainers m)).

Record CreateResponse := mkCreateResponse {
  crr_Handle : option string
}.

Definition CreateResponse_fields : list (Field CreateResponse) :=
  [field "handle" string_pointer crr_Handle
     (λ v _, mkCreateResponse v)].

Definition no_CreateResponse : CreateResponse := mkCreateResponse None.

Definition CreateResponse_codec : Codec CreateResponse := message_codec no_CreateResponse CreateResponse_fields (λ m,
  c_ok string_pointer (crr_Handle m)).

Record ListResponse := mkListResponse {
  lr_Handles : list string
}.

Definition ListResponse_fields : list (Field ListResponse) :=
  [field "handles" (slice_codec true string_codec) lr_Handles
     (λ v _, mkListResponse v)].

Definition no_ListResponse : ListResponse := mkListResponse [].

Definition ListResponse_codec : Codec ListResponse := message_codec no_ListResponse ListResponse_fields (λ m,
  c_ok (slice_codec true string_codec) (lr_Handles m)).

Record LimitBandwidthResponse := mkLimitBandwidthResponse {
  lbr_Rate : option Z;
  lbr_Burst : option Z
}.

Definition LimitBandwidthResponse_fields : list (Field LimitBandwidthResponse) :=
  [field "rate" u64_pointer lbr_Rate
     (λ v m, mkLimitBandwidthResponse v (lbr_Burst m));
   field "burst" u64_pointer lbr_Burst
     (λ v m, mkLimitBandwidthResponse (lbr_Rate m) v)].

Definition no_LimitBandwidthResponse : LimitBandwidthResponse := mkLimitBandwidthResponse None None.

Definition LimitBandwidthResponse_codec : Codec LimitBandwidthResponse := message_codec no_LimitBandwidthResponse LimitBandwidthResponse_fields (λ m,
  c_ok u64_pointer (lbr_Rate m) ∧ c_ok u64_pointer (lbr_Burst m)).

Record LimitMemoryResponse := mkLimitMemoryResponse {
  lmr_LimitInBytes : option Z
}.

Definition LimitMemoryResponse_fields : list (Field LimitMemoryResponse) :=
  [field "limit_in_bytes" u64_pointer lmr_LimitInBytes
     (λ v _, mkLimitMemoryResponse v)].

Definition no_LimitMemoryResponse : LimitMemoryResponse := mkLimitMemoryResponse None.

Definition LimitMemoryResponse_codec : Codec LimitMemoryResponse := message_codec no_LimitMemoryResponse LimitMemoryResponse_fields (λ m,
  c_ok u64_pointer (lmr_LimitInBytes m)).

Record LimitDiskResponse := mkLimitDiskResponse {
  ldr_BlockSoft : option Z;
  ldr_BlockHard : option Z;
  ldr_InodeSoft : option Z;
  ldr_InodeHard : option Z;
  ldr_ByteSoft : option Z;
  ldr_ByteHard : option Z
}.

Definition LimitDiskResponse_fields : list (Field LimitDiskResponse) :=
  [field "block_soft" u64_pointer ldr_BlockSoft
     (λ v m, mkLimitDiskResponse v (ldr_BlockHard m) (ldr_InodeSoft m) (ldr_InodeHard m) (ldr_ByteSoft m)
        (ldr_ByteHard m));
   field "block_hard" u64_pointer ldr_BlockHard
     (λ v m, mkLimitDiskResponse (ldr_BlockSoft m) v (ldr_InodeSoft m) (ldr_InodeHard m) (ldr_ByteSoft m)
        (ldr_ByteHard m));
   field "inode_soft" u64_pointer ldr_InodeSoft
     (λ v m, mkLimitDiskResponse (ldr_BlockSoft m) (ldr_BlockHard m) v (ldr_InodeHard m) (ldr_ByteSoft m)
        (ldr_ByteHard m));
   field "inode_hard" u64_pointer ldr_InodeHard
     (λ v m, mkLimitDiskResponse (ldr_BlockSoft m) (ldr_BlockHard m) (ldr_InodeSoft m) v (ldr_ByteSoft m)
        (ldr_ByteHard m));
   field "byte_soft" u64_pointer ldr_ByteSoft
     (λ v m, mkLimitDiskResponse (ldr_BlockSoft m) (ldr_BlockHard m) (ldr_InodeSoft m) (ldr_InodeHard m) v
        (ldr_ByteHard m));
   field "byte_hard" u64_pointer ldr_ByteHard
     (λ v m, mkLimitDiskResponse (ldr_BlockSoft m) (ldr_BlockHard m) (ldr_InodeSoft m) (ldr_InodeHard m)
        (ldr_ByteSoft m) v)].

Definition no_LimitDiskResponse : LimitDiskResponse := mkLimitDiskResponse None None None None None None.

Definition LimitDiskResponse_codec : Codec LimitDiskResponse := message_codec no_LimitDiskResponse LimitDiskResponse_fields (λ m,
  c_ok u64_pointer (ldr_BlockSoft m) ∧ c_ok u64_pointer (ldr_BlockHard m) ∧ c_ok u64_pointer (ldr_InodeSoft m) ∧
  c_ok u64_pointer (ldr_InodeHard m) ∧ c_ok u64_pointer (ldr_ByteSoft m) ∧ c_ok u64_pointer (ldr_ByteHard m)).

Record LimitCpuResponse := mkLimitCpuResponse {
  lcr_LimitInShares : option Z
}.

Definition LimitCpuResponse_fields : list (Field LimitCpuResponse) :=
  [field "limit_in_shares" u64_pointer lcr_LimitInShares
     (λ v _, mkLimitCpuResponse v)].

Definition no_LimitCpuResponse : LimitCpuResponse := mkLimitCpuResponse None.

Definition LimitCpuResponse_codec : Codec LimitCpuResponse := message_codec no_LimitCpuResponse LimitCpuResponse_fields (λ m,
  c_ok u64_pointer (lcr_LimitInShares m)).

Record NetInResponse := mkNetInResponse {
  nir_HostPort : option Z;
  nir_ContainerPort : option Z
}.

Definition NetInResponse_fields : list (Field NetInResponse) :=
  [field "host_port" u32_pointer nir_HostPort
     (λ v m, mkNetInResponse v (nir_ContainerPort m));
   field "container_port" u32_pointer nir_ContainerPort
     (λ v m, mkNetInResponse (nir_HostPort m) v)].

Definition no_NetInResponse : NetInResponse := mkNetInResponse None None.

Definition NetInResponse_codec : Codec NetInResponse := message_codec no_NetInResponse NetInResponse_fields (λ m,
  c_ok u32_pointer (nir_HostPort m) ∧ c_ok u32_pointer (nir_ContainerPort m)).

(** [InfoResponse_MemoryStat]: its fields are all [*uint64]s. *)
Definition MemoryStat_names : list string :=
  ["cache"; "rss"; "mapped_file"; "pgpgin"; "pgpgout"; "swap"; "pgfault"; "pgmajfault"; "inactive_anon";
   "active_anon"; "inactive_file"; "active_file"; "unevictable"; "hierarchical_memory_limit";
   "hierarchical_memsw_limit"; "total_cache"; "total_rss"; "total_mapped_file"; "total_pgpgin";
   "total_pgpgout"; "total_swap"; "total_pgfault"; "total_pgmajfault"; "total_inactive_anon";
   "total_active_anon"; "total_inactive_file"; "total_active_file"; "total_unevictable"].

Abbreviation MemoryStatMsg := (list (option Z)).

Definition MemoryStatMsg_codec : Codec MemoryStatMsg := array_codec MemoryStat_names u64_pointer.

(** [InfoResponse_CpuStat] *)
Record CpuStatMsg := mkCpuStatMsg {
  cm_Usage : option Z;
  cm_User : option Z;
  cm_System : option Z
}.

Definition CpuStatMsg_fields : list (Field CpuStatMsg) :=
  [field "usage" u64_pointer cm_Usage
     (λ v m, mkCpuStatMsg v (cm_User m) (cm_System m));
   field "user" u64_pointer cm_User
     (λ v m, mkCpuStatMsg (cm_Usage m) v (cm_System m));
   field "system" u64_pointer cm_System
     (λ v m, mkCpuStatMsg (cm_Usage m) (cm_User m) v)].

Definition no_CpuStatMsg : CpuStatMsg := mkCpuStatMsg None None None.

Definition CpuStatMsg_codec : Codec CpuStatMsg := message_codec no_CpuStatMsg CpuStatMsg_fields (λ m,
  c_ok u64_pointer (cm_Usage m) ∧ c_ok u64_pointer (cm_User m) ∧ c_ok u64_pointer (cm_System m)).

(** [InfoResponse_DiskStat] *)
Record DiskStatMsg := mkDiskStatMsg {
  dm_BytesUsed : option Z;
  dm_InodesUsed : option Z
}.

Definition DiskStatMsg_fields : list (Field DiskStatMsg) :=
  [field "bytes_used" u64_pointer dm_BytesUsed
     (λ v m, mkDiskStatMsg v (dm_InodesUsed m));
   field "inodes_used" u64_pointer dm_InodesUsed
     (λ v m, mkDiskStatMsg (dm_BytesUsed m) v)].

Definition no_DiskStatMsg : DiskStatMsg := mkDiskStatMsg None None.

Definition DiskStatMsg_codec : Codec DiskStatMsg := message_codec no_DiskStatMsg DiskStatMsg_fields (λ m,
  c_ok u64_pointer (dm_BytesUsed m) ∧ c_ok u64_pointer (dm_InodesUsed m)).

(** [InfoResponse_BandwidthStat] *)
Record BandwidthStatMsg := mkBandwidthStatMsg {
  bsm_InRate : option Z;
  bsm_InBurst : option Z;
  bsm_OutRate : option Z;
  bsm_OutBurst : option Z
}.

Definition BandwidthStatMsg_fields : list (Field BandwidthStatMsg) :=
  [field "in_rate" u64_pointer bsm_InRate
     (λ v m, mkBandwidthStatMsg v (bsm_InBurst m) (bsm_OutRate m) (bsm_OutBurst m));
   field "in_burst" u64_pointer bsm_InBurst
     (λ v m, mkBandwidthStatMsg (bsm_InRate m) v (bsm_OutRate m) (bsm_OutBurst m));
   field "out_rate" u64_pointer bsm_OutRate
     (λ v m, mkBandwidthStatMsg (bsm_InRate m) (bsm_InBurst m) v (bsm_OutBurst m));
   field "out_burst" u64_pointer bsm_OutBurst
     (λ v m, mkBandwidthStatMsg (bsm_InRate m) (bsm_InBurst m) (bsm_OutRate m) v)].

Definition no_BandwidthStatMsg : BandwidthStatMsg := mkBandwidthStatMsg None None None None.

Definition BandwidthStatMsg_codec : Codec BandwidthStatMsg := message_codec no_BandwidthStatMsg BandwidthStatMsg_fields (λ m,
  c_ok u64_pointer (bsm_InRate m) ∧ c_ok u64_pointer (bsm_InBurst m) ∧ c_ok u64_pointer (bsm_OutRate m) ∧ c_ok
  u64_pointer (bsm_OutBurst m)).

(** [InfoResponse_PortMapping] *)
Record PortMappingMsg := mkPortMappingMsg {
  pmm_HostPort : option Z;
  pmm_ContainerPort : option Z
}.

Definition PortMappingMsg_fields : list (Field PortMappingMsg) :=
  [field "host_port" u32_pointer pmm_HostPort
     (λ v m, mkPortMappingMsg v (pmm_ContainerPort m));
   field "container_port" u32_pointer pmm_ContainerPort
     (λ v m, mkPortMappingMsg (pmm_HostPort m) v)].

Definition no_PortMappingMsg : PortMappingMsg := mkPortMappingMsg None None.

Definition PortMappingMsg_codec : Codec PortMappingMsg := message_codec no_PortMappingMsg PortMappingMsg_fields (λ m,
  c_ok u32_pointer (pmm_HostPort m) ∧ c_ok u32_pointer (pmm_ContainerPort m)).

Record InfoResponse := mkInfoResponse {
  ir_State : option string;
  ir_Events : list string;
  ir_HostIp : option string;
  ir_ContainerIp : option string;
  ir_ContainerPath : option string;
  ir_MemoryStat : option MemoryStatMsg;
  ir_CpuStat : option CpuStatMsg;
  ir_DiskStat : option DiskStatMsg;
  ir_BandwidthStat : option BandwidthStatMsg;
  ir_ProcessIds : list Z;
  ir_Properties : list (option PropertyMsg);
  ir_MappedPorts : list (option PortMappingMsg)
}.

Definition InfoResponse_fields : list (Field InfoResponse) :=
  [field "state" string_pointer ir_State
     (λ v m, mkInfoResponse v (ir_Events m) (ir_HostIp m) (ir_ContainerIp m) (ir_ContainerPath m) (ir_MemoryStat
        m) (ir_CpuStat m) (ir_DiskStat m) (ir_BandwidthStat m) (ir_ProcessIds m) (ir_Properties m)
        (ir_MappedPorts m));
   field "events" (slice_codec true string_codec) ir_Events
     (λ v m, mkInfoResponse (ir_State m) v (ir_HostIp m) (ir_ContainerIp m) (ir_ContainerPath m) (ir_MemoryStat
        m) (ir_CpuStat m) (ir_DiskStat m) (ir_BandwidthStat m) (ir_ProcessIds m) (ir_Properties m)
        (ir_MappedPorts m));
   field "host_ip" string_pointer ir_HostIp
     (λ v m, mkInfoResponse (ir_State m) (ir_Events m) v (ir_ContainerIp m) (ir_ContainerPath m) (ir_MemoryStat
        m) (ir_CpuStat m) (ir_DiskStat m) (ir_BandwidthStat m) (ir_ProcessIds m) (ir_Properties m)
        (ir_MappedPorts m));
   field "container_ip" string_pointer ir_ContainerIp
     (λ v m, mkInfoResponse (ir_State m) (ir_Events m) (ir_HostIp m) v (ir_ContainerPath m) (ir_MemoryStat m)
        (ir_CpuStat m) (ir_DiskStat m) (ir_BandwidthStat m) (ir_ProcessIds m) (ir_Properties m) (ir_MappedPorts
        m));
   field "container_path" string_pointer ir_ContainerPath
     (λ v m, mkInfoResponse (ir_State m) (ir_Events m) (ir_HostIp m) (ir_ContainerIp m) v (ir_MemoryStat m)
        (ir_CpuStat m) (ir_DiskStat m) (ir_BandwidthStat m) (ir_ProcessIds m) (ir_Properties m) (ir_MappedPorts
        m));
   field "memory_stat" (pointer_codec MemoryStatMsg_codec) ir_MemoryStat
     (λ v m, mkInfoResponse (ir_State m) (ir_Events m) (ir_HostIp m) (ir_ContainerIp m) (ir_ContainerPath m) v
        (ir_CpuStat m) (ir_DiskStat m) (ir_BandwidthStat m) (ir_ProcessIds m) (ir_Properties m) (ir_MappedPorts
        m));
   field "cpu_stat" (pointer_codec CpuStatMsg_codec) ir_CpuStat
     (λ v m, mkInfoResponse (ir_State m) (ir_Events m) (ir_HostIp m) (ir_ContainerIp m) (ir_ContainerPath m)
        (ir_MemoryStat m) v (ir_DiskStat m) (ir_BandwidthStat m) (ir_ProcessIds m) (ir_Properties m)
        (ir_MappedPorts m));
   field "disk_stat" (pointer_codec DiskStatMsg_codec) ir_DiskStat
     (λ v m, mkInfoResponse (ir_State m) (ir_Events m) (ir_HostIp m) (ir_ContainerIp m) (ir_ContainerPath m)
        (ir_MemoryStat m) (ir_CpuStat m) v (ir_BandwidthStat m) (ir_ProcessIds m) (ir_Properties m)
        (ir_MappedPorts m));
   field "bandwidth_stat" (pointer_codec BandwidthStatMsg_codec) ir_BandwidthStat
     (λ v m, mkInfoResponse (ir_State m) (ir_Events m) (ir_HostIp m) (ir_ContainerIp m) (ir_ContainerPath m)
        (ir_MemoryStat m) (ir_CpuStat m) (ir_DiskStat m) v (ir_ProcessIds m) (ir_Properties m) (ir_MappedPorts
        m));
   field "process_ids" (slice_codec true (uint_codec 64)) ir_ProcessIds
     (λ v m, mkInfoResponse (ir_State m) (ir_Events m) (ir_HostIp m) (ir_ContainerIp m) (ir_ContainerPath m)
        (ir_MemoryStat m) (ir_CpuStat m) (ir_DiskStat m) (ir_BandwidthStat m) v (ir_Properties m)
        (ir_MappedPorts m));
   field "properties" (slice_codec true (pointer_codec PropertyMsg_codec)) ir_Properties
     (λ v m, mkInfoResponse (ir_State m) (ir_Events m) (ir_HostIp m) (ir_ContainerIp m) (ir_ContainerPath m)
        (ir_MemoryStat m) (ir_CpuStat m) (ir_DiskStat m) (ir_BandwidthStat m) (ir_ProcessIds m) v
        (ir_MappedPorts m));
   field "mapped_ports" (slice_codec true (pointer_codec PortMappingMsg_codec)) ir_MappedPorts
     (λ v m, mkInfoResponse (ir_State m) (ir_Events m) (ir_HostIp m) (ir_ContainerIp m) (ir_ContainerPath m)
        (ir_MemoryStat m) (ir_CpuStat m) (ir_DiskStat m) (ir_BandwidthStat m) (ir_ProcessIds m) (ir_Properties
        m) v)].

Definition no_InfoResponse : InfoResponse := mkInfoResponse None [] None None None None None None None [] [] [].

Definition InfoResponse_codec : Codec InfoResponse := message_codec no_InfoResponse InfoResponse_fields (λ m,
  c_ok string_pointer (ir_State m) ∧ c_ok (slice_codec true string_codec) (ir_Events m) ∧ c_ok string_pointer
  (ir_HostIp m) ∧ c_ok string_pointer (ir_ContainerIp m) ∧ c_ok string_pointer (ir_ContainerPath m) ∧ c_ok
  (pointer_codec MemoryStatMsg_codec) (ir_MemoryStat m) ∧ c_ok (pointer_codec CpuStatMsg_codec) (ir_CpuStat m) ∧
  c_ok (pointer_codec DiskStatMsg_codec) (ir_DiskStat m) ∧ c_ok (pointer_codec BandwidthStatMsg_codec)
  (ir_BandwidthStat m) ∧ c_ok (slice_codec true (uint_codec 64)) (ir_ProcessIds m) ∧ c_ok (slice_codec true
  (pointer_codec PropertyMsg_codec)) (ir_Properties m) ∧ c_ok (slice_codec true (pointer_codec
  PortMappingMsg_codec)) (ir_MappedPorts m)).

(** A response without fields: [PingResponse], [StopResponse], [DestroyResponse],
    [NetOutResponse] *)
Definition no_fields_codec : Codec unit := message_codec tt [] (λ _, True).

(** * Lemmas *)

#[export] Instance WindowSizeMsg_laws : CodecLaws WindowSizeMsg_codec.
Proof. solve_message. Qed.
#[export] Instance WindowSizeMsg_decodes : Decodes WindowSizeMsg_codec.
Proof. solve_message_decodes. Qed.
#[export] Instance WindowSizeMsg_never_null : NeverNull WindowSizeMsg_codec.
Proof. done. Qed.
#[export] Instance TTYMsg_laws : CodecLaws TTYMsg_codec.
Proof. solve_message. Qed.
#[export] Instance TTYMsg_decodes : Decodes TTYMsg_codec.
Proof. solve_message_decodes. Qed.
#[export] Instance TTYMsg_never_null : NeverNull TTYMsg_codec.
Proof. done. Qed.
#[export] Instance PropertyMsg_laws : CodecLaws PropertyMsg_codec.
Proof. solve_message. Qed.
#[export] Instance PropertyMsg_decodes : Decodes PropertyMsg_codec.
Proof. solve_message_decodes. Qed.
#[export] Instance PropertyMsg_never_null : NeverNull PropertyMsg_codec.
Proof. done. Qed.
#[export] Instance EnvironmentVariable_laws : CodecLaws EnvironmentVariable_codec.
Proof. solve_message. Qed.
#[export] Instance EnvironmentVariable_decodes : Decodes EnvironmentVariable_codec.
Proof. solve_message_decodes. Qed.
#[export] Instance EnvironmentVariable_never_null : NeverNull EnvironmentVariable_codec.
Proof. done. Qed.
#[export] Instance BindMountMsg_laws : CodecLaws BindMountMsg_codec.
Proof. solve_message. Qed.
#[export] Instance BindMountMsg_decodes : Decodes BindMountMsg_codec.
Proof. solve_message_decodes. Qed.
#[export] Instance BindMountMsg_never_null : NeverNull BindMountMsg_codec.
Proof. done. Qed.
#[export] Instance CreateRequest_laws : CodecLaws CreateRequest_codec.
Proof. solve_message. Qed.
#[export] Instance CreateRequest_decodes : Decodes CreateRequest_codec.
Proof. solve_message_decodes. Qed.
#[export] Instance CreateRequest_never_null : NeverNull CreateRequest_codec.
Proof. done. Qed.
#[export] Instance StopRequest_laws : CodecLaws StopRequest_codec.
Proof. solve_message. Qed.
#[export] Instance StopRequest_decodes : Decodes StopRequest_codec.
Proof. solve_message_decodes. Qed.
#[export] Instance StopRequest_never_null : NeverNull StopRequest_codec.
Proof. done. Qed.
#[export] Instance LimitBandwidthRequest_laws : CodecLaws LimitBandwidthRequest_codec.
Proof. solve_message. Qed.
#[export] Instance LimitBandwidthRequest_decodes : Decodes LimitBandwidthRequest_codec.
Proof. solve_message_decodes. Qed.
#[export] Instance LimitBandwidthRequest_never_null : NeverNull LimitBandwidthRequest_codec.
Proof. done. Qed.
#[export] Instance LimitMemoryRequest_laws : CodecLaws LimitMemoryRequest_codec.
Proof. solve_message. Qed.
#[export] Instance LimitMemoryRequest_decodes : Decodes LimitMemoryRequest_codec.
Proof. solve_message_decodes. Qed.
#[export] Instance LimitMemoryRequest_never_null : NeverNull LimitMemoryRequest_codec.
Proof. done. Qed.
#[export] Instance LimitDiskRequest_laws : CodecLaws LimitDiskRequest_codec.
Proof. solve_message. Qed.
#[export] Instance LimitDiskRequest_decodes : Decodes LimitDiskRequest_codec.
Proof. solve_message_decodes. Qed.
#[export] Instance LimitDiskRequest_never_null : NeverNull LimitDiskRequest_codec.
Proof. done. Qed.
#[export] Instance LimitCpuRequest_laws : CodecLaws LimitCpuRequest_codec.
Proof. solve_message. Qed.
#[export] Instance LimitCpuRequest_decodes : Decodes LimitCpuRequest_codec.
Proof. solve_message_decodes. Qed.
#[export] Instance LimitCpuRequest_never_null : NeverNull LimitCpuRequest_codec.
Proof. done. Qed.
#[export] Instance NetInRequest_laws : CodecLaws NetInRequest_codec.
Proof. solve_message. Qed.
#[export] Instance NetInRequest_decodes : Decodes NetInRequest_codec.
Proof. solve_message_decodes. Qed.
#[export] Instance NetInRequest_never_null : NeverNull NetInRequest_codec.
Proof. done. Qed.
#[export] Instance NetOutRequest_laws : CodecLaws NetOutRequest_codec.
Proof. solve_message. Qed.
#[export] Instance NetOutRequest_decodes : Decodes NetOutRequest_codec.
Proof. solve_message_decodes. Qed.
#[export] Instance NetOutRequest_never_null : NeverNull NetOutRequest_codec.
Proof. done. Qed.
#[export] Instance ResourceLimitsMsg_laws : CodecLaws ResourceLimitsMsg_codec.
Proof. solve_message. Qed.
#[export] Instance ResourceLimitsMsg_decodes : Decodes ResourceLimitsMsg_codec.
Proof. solve_message_decodes. Qed.
#[export] Instance ResourceLimitsMsg_never_null : NeverNull ResourceLimitsMsg_codec.
Proof. done. Qed.
#[export] Instance RunRequest_laws : CodecLaws RunRequest_codec.
Proof. solve_message. Qed.
#[export] Instance RunRequest_decodes : Decodes RunRequest_codec.
Proof. solve_message_decodes. Qed.
#[export] Instance RunRequest_never_null : NeverNull RunRequest_codec.
Proof. done. Qed.
#[export] Instance AttachRequest_laws : CodecLaws AttachRequest_codec.
Proof. solve_message. Qed.
#[export] Instance AttachRequest_decodes : Decodes AttachRequest_codec.
Proof. solve_message_decodes. Qed.
#[export] Instance AttachRequest_never_null : NeverNull AttachRequest_codec.
Proof. done. Qed.
#[export] Instance ProcessPayload_laws : CodecLaws ProcessPayload_codec.
Proof. solve_message. Qed.
#[export] Instance ProcessPayload_decodes : Decodes ProcessPayload_codec.
Proof. solve_message_decodes. Qed.
#[export] Instance ProcessPayload_never_null : NeverNull ProcessPayload_codec.
Proof. done. Qed.
#[export] Instance CapacityResponse_laws : CodecLaws CapacityResponse_codec.
Proof. solve_message. Qed.
#[export] Instance CapacityResponse_decodes : Decodes CapacityResponse_codec.
Proof. solve_message_decodes. Qed.
#[export] Instance CapacityResponse_never_null : NeverNull CapacityResponse_codec.
Proof. done. Qed.
#[export] Instance CreateResponse_laws : CodecLaws CreateResponse_codec.
Proof. solve_message. Qed.
#[export] Instance CreateResponse_decodes : Decodes CreateResponse_codec.
Proof. solve_message_decodes. Qed.
#[export] Instance CreateResponse_never_null : NeverNull CreateResponse_codec.
Proof. done. Qed.
#[export] Instance ListResponse_laws : CodecLaws ListResponse_codec.
Proof. solve_message. Qed.
#[export] Instance ListResponse_decodes : Decodes ListResponse_codec.
Proof. solve_message_decodes. Qed.
#[export] Instance ListResponse_never_null : NeverNull ListResponse_codec.
Proof. done. Qed.
#[export] Instance LimitBandwidthResponse_laws : CodecLaws LimitBandwidthResponse_codec.
Proof. solve_message. Qed.
#[export] Instance LimitBandwidthResponse_decodes : Decodes LimitBandwidthResponse_codec.
Proof. solve_message_decodes. Qed.
#[export] Instance LimitBandwidthResponse_never_null : NeverNull LimitBandwidthResponse_codec.
Proof. done. Qed.
#[export] Instance LimitMemoryResponse_laws : CodecLaws LimitMemoryResponse_codec.
Proof. solve_message. Qed.
#[export] Instance LimitMemoryResponse_decodes : Decodes LimitMemoryResponse_codec.
Proof. solve_message_decodes. Qed.
#[export] Instance LimitMemoryResponse_never_null : NeverNull LimitMemoryResponse_codec.
Proof. done. Qed.
#[export] Instance LimitDiskResponse_laws : CodecLaws LimitDiskResponse_codec.
Proof. solve_message. Qed.
#[export] Instance LimitDiskResponse_decodes : Decodes LimitDiskResponse_codec.
Proof. solve_message_decodes. Qed.
#[export] Instance LimitDiskResponse_never_null : NeverNull LimitDiskResponse_codec.
Proof. done. Qed.
#[export] Instance LimitCpuResponse_laws : CodecLaws LimitCpuResponse_codec.
Proof. solve_message. Qed.
#[export] Instance LimitCpuResponse_decodes : Decodes LimitCpuResponse_codec.
Proof. solve_message_decodes. Qed.
#[export] Instance LimitCpuResponse_never_null : NeverNull LimitCpuResponse_codec.
Proof. done. Qed.
#[export] Instance NetInResponse_laws : CodecLaws NetInResponse_codec.
Proof. solve_message. Qed.
#[export] Instance NetInResponse_decodes : Decodes NetInResponse_codec.
Proof. solve_message_decodes. Qed.
#[export] Instance NetInResponse_never_null : NeverNull NetInResponse_codec.
Proof. done. Qed.
Lemma MemoryStat_names_distinct : NoDup MemoryStat_names.
Proof. apply (bool_decide_unpack _). vm_compute. exact I. Qed.
#[export] Instance MemoryStatMsg_laws : CodecLaws MemoryStatMsg_codec.
Proof. apply array_laws; [apply _..|done|exact MemoryStat_names_distinct|by repeat constructor]. Qed.
#[export] Instance MemoryStatMsg_decodes : Decodes MemoryStatMsg_codec.
Proof. apply array_decodes, _. Qed.
#[export] Instance MemoryStatMsg_never_null : NeverNull MemoryStatMsg_codec.
Proof. done. Qed.
#[export] Instance CpuStatMsg_laws : CodecLaws CpuStatMsg_codec.
Proof. solve_message. Qed.
#[export] Instance CpuStatMsg_decodes : Decodes CpuStatMsg_codec.
Proof. solve_message_decodes. Qed.
#[export] Instance CpuStatMsg_never_null : NeverNull CpuStatMsg_codec.
Proof. done. Qed.
#[export] Instance DiskStatMsg_laws : CodecLaws DiskStatMsg_codec.
Proof. solve_message. Qed.
#[export] Instance DiskStatMsg_decodes : Decodes DiskStatMsg_codec.
Proof. solve_message_decodes. Qed.
#[export] Instance DiskStatMsg_never_null : NeverNull DiskStatMsg_codec.
Proof. done. Qed.
#[export] Instance BandwidthStatMsg_laws : CodecLaws BandwidthStatMsg_codec.
Proof. solve_message. Qed.
#[export] Instance BandwidthStatMsg_decodes : Decodes BandwidthStatMsg_codec.
Proof. solve_message_decodes. Qed.
#[export] Instance BandwidthStatMsg_never_null : NeverNull BandwidthStatMsg_codec.
Proof. done. Qed.
#[export] Instance PortMappingMsg_laws : CodecLaws PortMappingMsg_codec.
Proof. solve_message. Qed.
#[export] Instance PortMappingMsg_decodes : Decodes PortMappingMsg_codec.
Proof. solve_message_decodes. Qed.
#[export] Instance PortMappingMsg_never_null : NeverNull PortMappingMsg_codec.
Proof. done. Qed.
#[export] Instance InfoResponse_laws : CodecLaws InfoResponse_codec.
Proof. solve_message. Qed.
#[export] Instance InfoResponse_decodes : Decodes InfoResponse_codec.
Proof. solve_message_decodes. Qed.
#[export] Instance InfoResponse_never_null : NeverNull InfoResponse_codec.
Proof. done. Qed.
#[export] Instance no_fields_laws : CodecLaws no_fields_codec.
Proof. by split; intros [] _. Qed.
#[export] Instance no_fields_decodes : Decodes no_fields_codec.
Proof. solve_message_decodes. Qed.

Example read_create :
  c_dec CreateRequest_codec no_CreateRequest
    (JObject [("handle", JString "a"); ("grace_time", JNumber "10"); ("unknown", JBool true);
              ("bind_mounts", JArray [JObject [("src_path", JString "/src"); ("mode", JString "RW")]; JNull])]) =
  Ok (mkCreateRequest [Some (mkBindMountMsg (Some "/src") None (Some 1) None); None] (Some 10) (Some "a") None None []).
Proof. reflexivity. Qed.

Example write_stop : print_json (c_enc StopRequest_codec (mkStopRequest None (Some true))) = "{" +:+ print_string "kill" +:+ ":true}".
Proof. reflexivity. Qed.
