(* ===== verification/Bomberman.v ===== *)
(** garden/server/timebomb and garden/server/bomberman (vendored, called by the garden
    server only): containers are destroyed when no request has touched them for their
    grace time. A bomb is strapped to a container when it is created; a request pauses
    its bomb and unpauses it in the end.

    Time is a number of nanoseconds. [timers] is what the Go runtime knows: for every
    timer that is still to fire, when, and the container its function detonates. A timer
    fires at any moment from its deadline on. *)
From S2P Require Import Prelude GoStd.

Local Open Scope string_scope.
Local Open Scope list_scope.
Local Open Scope Z_scope.

(** * timebomb.go *)

Record Clock := mkClock {
  now : Z;
  timers : gmap nat (Z * string);
  next_timer : nat
}.

(** [time.AfterFunc(d, f)] *)
Definition AfterFunc (d : Z) (handle : string) : M Clock nat := λ k,
  (Ok (next_timer k), mkClock (now k) (<[next_timer k := (now k + d, handle)]> (timers k)) (S (next_timer k))).

(** [timer.Stop()]: whether the call stops the timer. *)
Definition StopTimer (t : nat) : M Clock bool := λ k,
  (Ok (bool_decide (is_Some (timers k !! t))), mkClock (now k) (base.delete t (timers k)) (next_timer k)).

(** [bomb_handle]: the container whose destruction the function [detonate] is. *)
Record TimeBomb := mkBomb {
  countdown : Z;
  bomb_handle : string;
  pauses : Z;
  defused : bool;
  timer : option nat
}.

Definition NewBomb (d : Z) (handle : string) : TimeBomb := mkBomb d handle 0 false None.

Definition BombState : Type := Clock * TimeBomb.
Definition clock_lens : Lens BombState Clock := mkLens fst (λ k s, (k, s.2)).
Definition set_bomb (f : TimeBomb → TimeBomb) : M BombState unit := modify (λ s, (s.1, f s.2)).

(** [b.timer = time.AfterFunc(b.countdown, b.detonate)] *)
Definition arm : M BombState unit :=
  b ← gets snd;
  t ← zoom clock_lens (AfterFunc (countdown b) (bomb_handle b));
  set_bomb (λ b, mkBomb (countdown b) (bomb_handle b) (pauses b) (defused b) (Some t)).

Definition Strap : M BombState unit := arm.

(** [timer := b.timer; b.timer = nil], and [timer.Stop()] if it is not nil *)
Definition disarm : M BombState bool :=
  b ← gets snd;
  set_bomb (λ b, mkBomb (countdown b) (bomb_handle b) (pauses b) (defused b) None) ≫= λ _,
  match timer b with
  | None => mret true
  | Some t => zoom clock_lens (StopTimer t)
  end.

Definition Pause : M BombState bool :=
  set_bomb (λ b, mkBomb (countdown b) (bomb_handle b) (pauses b + 1) (defused b) (timer b)) ≫= λ _, disarm.

Definition Defuse : M BombState bool :=
  set_bomb (λ b, mkBomb (countdown b) (bomb_handle b) (pauses b) true (timer b)) ≫= λ _, disarm.

Definition Unpause : M BombState unit :=
  set_bomb (λ b, mkBomb (countdown b) (bomb_handle b) (pauses b - 1) (defused b) (timer b)) ≫= λ _,
  b ← gets snd;
  if negb (defused b) && (pauses b =? 0) then arm else mret tt.

(** * bomberman.go *)

(** What is sent to [manageBombs]. A container is its handle and its grace time. *)
Inductive message :=
  | MStrap (handle : string) (grace : Z)
  | MPause (handle : string)
  | MUnpause (handle : string)
  | MDefuse (handle : string)
  | MCleanup (handle : string).

Record Bombs := mkBombs { clock : Clock; timeBombs : gmap string TimeBomb }.

(** Run an operation of a bomb, and keep the bomb in the map. *)
Definition on_bomb {A} (handle : string) (b : TimeBomb) (m : M BombState A) (s : Bombs) : Bombs :=
  let '(_, (k, b')) := m (clock s, b) in mkBombs k (<[handle := b']> (timeBombs s)).

(** [bomb, found := timeBombs[handle]; if !found { continue }] *)
Definition with_bomb {A} (handle : string) (m : M BombState A) (s : Bombs) : Bombs :=
  match timeBombs s !! handle with
  | None => s
  | Some b => on_bomb handle b m s
  end.

Definition delete_bomb (handle : string) (s : Bombs) : Bombs :=
  mkBombs (clock s) (base.delete handle (timeBombs s)).

(** One round of [manageBombs]. *)
Definition manage (msg : message) (s : Bombs) : Bombs :=
  match msg with
  | MStrap handle grace => if grace =? 0 then s else on_bomb handle (NewBomb grace handle) Strap s
  | MPause handle => with_bomb handle Pause s
  | MUnpause handle => with_bomb handle Unpause s
  | MDefuse handle => delete_bomb handle (with_bomb handle Defuse s)
  | MCleanup handle => delete_bomb handle s
  end.

Definition no_bombs (t : Z) : Bombs := mkBombs (mkClock t ∅ 0) ∅.

(** Time passes. *)
Definition elapse (d : Z) (s : Bombs) : Bombs :=
  mkBombs (mkClock (now (clock s) + d) (timers (clock s)) (next_timer (clock s))) (timeBombs s).

(** A timer fires: its function starts to run. *)
Definition fire (t : nat) (s : Bombs) : option (string * Bombs) :=
  match timers (clock s) !! t with
  | Some (deadline, handle) =>
      if deadline <=? now (clock s)
      then Some (handle, mkBombs (mkClock (now (clock s)) (base.delete t (timers (clock s))) (next_timer (clock s)))
                           (timeBombs s))
      else None
  | None => None
  end.

(** * Requests and detonations

    [sys_open]: the handles of the requests between their [Pause] and their [Unpause].
    [sys_reaping]: detonations that have started and have not sent their [cleanup].
    [sys_last]: when a handle's bomb was strapped or last unpaused. *)
Record BombSystem := mkBombSystem {
  sys_bombs : Bombs;
  sys_open : list string;
  sys_reaping : list string;
  sys_last : gmap string Z
}.

Definition sys_now (s : BombSystem) : Z := now (clock (sys_bombs s)).

(** Requests start, end and destroy, time passes and timers fire in any order. Nothing in
    the code keeps a container from being strapped under a handle of which a bomb is left,
    or from being paused while it is being reaped; [orderly] are the handles for which
    this is assumed not to happen. *)
Inductive bomb_step (orderly : string → Prop) : BombSystem → BombSystem → Prop :=
  | bo_elapse d s : 0 ≤ d →
      bomb_step orderly s (mkBombSystem (elapse d (sys_bombs s)) (sys_open s) (sys_reaping s) (sys_last s))
  | bo_strap h g s :
      (orderly h → timeBombs (sys_bombs s) !! h = None ∧ h ∉ sys_open s ∧ h ∉ sys_reaping s) →
      bomb_step orderly s (mkBombSystem (manage (MStrap h g) (sys_bombs s)) (sys_open s) (sys_reaping s)
                             (<[h := sys_now s]> (sys_last s)))
  | bo_pause h s : (orderly h → h ∉ sys_reaping s) →
      bomb_step orderly s (mkBombSystem (manage (MPause h) (sys_bombs s)) (h :: sys_open s) (sys_reaping s) (sys_last s))
  | bo_unpause h others s : sys_open s ≡ₚ h :: others →
      bomb_step orderly s (mkBombSystem (manage (MUnpause h) (sys_bombs s)) others (sys_reaping s)
                     (<[h := sys_now s]> (sys_last s)))
  | bo_defuse h s :
      bomb_step orderly s (mkBombSystem (manage (MDefuse h) (sys_bombs s)) (sys_open s) (sys_reaping s) (sys_last s))
  | bo_fire t h bm s : fire t (sys_bombs s) = Some (h, bm) →
      bomb_step orderly s (mkBombSystem bm (sys_open s) (h :: sys_reaping s) (sys_last s))
  | bo_cleanup h others s : sys_reaping s ≡ₚ h :: others →
      bomb_step orderly s (mkBombSystem (manage (MCleanup h) (sys_bombs s)) (sys_open s) others (sys_last s)).

Definition sys_init (t : Z) : BombSystem := mkBombSystem (no_bombs t) [] [] ∅.

(** * Lemmas *)

(** ** The operations *)

Lemma arm_eq k b :
  arm (k, b) = (Ok tt, (mkClock (now k) (<[next_timer k := (now k + countdown b, bomb_handle b)]> (timers k)) (S (next_timer k)),
                        mkBomb (countdown b) (bomb_handle b) (pauses b) (defused b) (Some (next_timer k)))).
Proof. done. Qed.

(** The runtime's timers without a bomb's own *)
Definition stopped (o : option nat) (m : gmap nat (Z * string)) : gmap nat (Z * string) :=
  match o with Some t => base.delete t m | None => m end.

Lemma disarm_eq k b : ∃ r,
  disarm (k, b) = (Ok r, (mkClock (now k) (stopped (timer b) (timers k)) (next_timer k),
                          mkBomb (countdown b) (bomb_handle b) (pauses b) (defused b) None)).
Proof. unfold disarm. destruct k, b as [? ? ? ? [t|]]; by eexists. Qed.

Lemma Pause_eq k b : ∃ r,
  Pause (k, b) = (Ok r, (mkClock (now k) (stopped (timer b) (timers k)) (next_timer k),
                         mkBomb (countdown b) (bomb_handle b) (pauses b + 1) (defused b) None)).
Proof.
  destruct (disarm_eq k (mkBomb (countdown b) (bomb_handle b) (pauses b + 1) (defused b) (timer b))) as [r Hr].
  exists r. exact Hr.
Qed.

Lemma Defuse_eq k b : ∃ r,
  Defuse (k, b) = (Ok r, (mkClock (now k) (stopped (timer b) (timers k)) (next_timer k),
                          mkBomb (countdown b) (bomb_handle b) (pauses b) true None)).
Proof.
  destruct (disarm_eq k (mkBomb (countdown b) (bomb_handle b) (pauses b) true (timer b))) as [r Hr].
  exists r. exact Hr.
Qed.

Lemma Unpause_eq k b :
  let b' := mkBomb (countdown b) (bomb_handle b) (pauses b - 1) (defused b) (timer b) in
  Unpause (k, b) = if negb (defused b) && (pauses b - 1 =? 0) then arm (k, b') else (Ok tt, (k, b')).
Proof.
  unfold Unpause, mbind, M_bind, set_bomb, modify, gets. cbn [fst snd pauses defused].
  by destruct (negb (defused b) && (pauses b - 1 =? 0)).
Qed.

(** ** The invariant *)

Definition occurs (h : string) (l : list string) : Z := Z.of_nat (length (filter (λ h', h' = h) l)).

Lemma occurs_cons h h' l : occurs h (h' :: l) = occurs h l + (if decide (h' = h) then 1 else 0).
Proof. unfold occurs. rewrite filter_cons. case_decide; cbn [length]; lia. Qed.

Lemma occurs_perm h l l' : l ≡ₚ l' → occurs h l = occurs h l'.
Proof. intros H. unfold occurs. by rewrite H. Qed.

Lemma occurs_nonneg h l : 0 ≤ occurs h l.
Proof. unfold occurs. lia. Qed.

Lemma occurs_out h l : h ∉ l ↔ occurs h l = 0.
Proof.
  induction l as [|h' l IH]; [split; [done|by intros _ ?%elem_of_nil]|].
  rewrite occurs_cons, not_elem_of_cons, IH. pose proof (occurs_nonneg h l). case_decide; split.
  - by intros [? ?].
  - lia.
  - intros [_ ->]. done.
  - intros ?. split; [congruence|lia].
Qed.

(** [armed]: the bomb's timer is one that will fire. *)
Definition armed (k : Clock) (h : string) (b : TimeBomb) : Prop :=
  ∃ t d, timer b = Some t ∧ timers k !! t = Some (d, h).

(** A bomb detonates the container it is kept under, and so does its timer. *)
Definition own_bomb (k : Clock) (h : string) (b : TimeBomb) : Prop :=
  bomb_handle b = h ∧
  ∀ t, timer b = Some t → (t < next_timer k)%nat ∧ ∀ d h', timers k !! t = Some (d, h') → h' = h.

(** What holds whatever is sent *)
Record well_kept (s : Bombs) : Prop := {
  wk_own h b : timeBombs s !! h = Some b → own_bomb (clock s) h b;
  wk_fresh t : (next_timer (clock s) ≤ t)%nat → timers (clock s) !! t = None
}.

(** What holds of a handle that is used in order: its bomb counts the requests that are
    open; every timer is that of an idle container's bomb, and an idle container's bomb
    has one. *)
Record handle_ok (s : BombSystem) (h : string) : Prop := {
  ho_bomb b : timeBombs (sys_bombs s) !! h = Some b → defused b = false ∧ pauses b = occurs h (sys_open s);
  ho_timer t d : timers (clock (sys_bombs s)) !! t = Some (d, h) →
    occurs h (sys_open s) = 0 ∧ occurs h (sys_reaping s) = 0 ∧
    (∃ b T, timeBombs (sys_bombs s) !! h = Some b ∧ timer b = Some t ∧ sys_last s !! h = Some T ∧ d = T + countdown b);
  ho_idle b : timeBombs (sys_bombs s) !! h = Some b → occurs h (sys_open s) = 0 → occurs h (sys_reaping s) = 0 →
    armed (clock (sys_bombs s)) h b;
  ho_closed : 0 < occurs h (sys_reaping s) → occurs h (sys_open s) = 0;
  ho_once : occurs h (sys_reaping s) ≤ 1
}.

Record bombs_ok (orderly : string → Prop) (s : BombSystem) : Prop := {
  bok_kept : well_kept (sys_bombs s);
  bok_handle h : orderly h → handle_ok s h
}.

(** What a message about one handle leaves alone at another *)
Record same_at (s s' : Bombs) (h : string) : Prop := {
  sa_bomb : timeBombs s' !! h = timeBombs s !! h;
  sa_timer t d : timers (clock s') !! t = Some (d, h) ↔ timers (clock s) !! t = Some (d, h);
  sa_next : (next_timer (clock s) ≤ next_timer (clock s'))%nat;
  sa_old t e : (t < next_timer (clock s))%nat → timers (clock s') !! t = Some e → timers (clock s) !! t = Some e
}.

Definition frame (h : string) (s s' : Bombs) : Prop := well_kept s' ∧ ∀ h', h' ≠ h → same_at s s' h'.

Lemma same_at_trans s1 s2 s3 h : same_at s1 s2 h → same_at s2 s3 h → same_at s1 s3 h.
Proof.
  intros [A1 A2 A3 A4] [B1 B2 B3 B4]. split; [congruence| |lia|].
  - intros t d. by rewrite B2.
  - intros t e Ht He. apply A4; [done|]. apply B4; [lia|done].
Qed.

Lemma frame_trans h s1 s2 s3 : frame h s1 s2 → frame h s2 s3 → frame h s1 s3.
Proof. intros [_ H1] [Hk H2]. split; [done|]. intros h' Hne. eapply same_at_trans; [by apply H1|by apply H2]. Qed.

Lemma frame_step h s s' :
  well_kept s → (∀ h', h' ≠ h → same_at s s' h') →
  (∀ b, timeBombs s' !! h = Some b → own_bomb (clock s') h b) →
  (∀ t, (next_timer (clock s') ≤ t)%nat → timers (clock s') !! t = None) → frame h s s'.
Proof.
  intros [Ho _] Hs Hb Hf. split; [|done]. split; [|done]. intros h' b Hb'.
  destruct (decide (h' = h)) as [->|Hne]; [by apply Hb|]. destruct (Hs h' Hne) as [E1 _ E3 E4]. rewrite E1 in Hb'.
  destruct (Ho h' b Hb') as [Hh Ht]. split; [done|]. intros t Hbt. destruct (Ht t Hbt) as [Hlt Hd].
  split; [lia|]. intros d h2 H2. by eapply Hd, E4.
Qed.

(** A handle that is the same, with the same requests and detonations *)
Lemma handle_ok_frame s s' h :
  same_at (sys_bombs s) (sys_bombs s') h → occurs h (sys_open s') = occurs h (sys_open s) →
  occurs h (sys_reaping s') = occurs h (sys_reaping s) → sys_last s' !! h = sys_last s !! h →
  handle_ok s h → handle_ok s' h.
Proof.
  intros [E1 E2 _ _] E3 E4 E5 [H1 H2 H3 H4 H5]. split; rewrite ?E3, ?E4; try done.
  - intros b. rewrite E1. apply H1.
  - intros t d. rewrite E2, E1, E5. apply H2.
  - intros b Hb Ho Hr. rewrite E1 in Hb. destruct (H3 b Hb Ho Hr) as (t & d & Hbt & Ht).
    exists t, d. split; [done|]. by apply E2.
Qed.

(** A step on [h] *)
Lemma bombs_ok_step orderly s s' h :
  bombs_ok orderly s → frame h (sys_bombs s) (sys_bombs s') →
  (∀ h', h' ≠ h → occurs h' (sys_open s') = occurs h' (sys_open s) ∧
     occurs h' (sys_reaping s') = occurs h' (sys_reaping s) ∧ sys_last s' !! h' = sys_last s !! h') →
  (orderly h → handle_ok s' h) → bombs_ok orderly s'.
Proof.
  intros [Hk Hs] [Hk' Hf] Hoth Hh. split; [done|]. intros h' Hh'. destruct (decide (h' = h)) as [->|Hne]; [by apply Hh|].
  destruct (Hoth h' Hne) as (? & ? & ?). eapply handle_ok_frame; eauto.
Qed.

Lemma sys_init_ok orderly t : bombs_ok orderly (sys_init t).
Proof. split; [by split|]. intros h _. by split. Qed.

(** ** What a message does to the map and to the runtime *)

Lemma stopped_old o (m : gmap nat (Z * string)) t e : stopped o m !! t = Some e → m !! t = Some e.
Proof. destruct o; cbn; [by intros [_ H]%lookup_delete_Some|done]. Qed.

(** A timer of another handle is not among those that an operation on [h] stops. *)
Lemma stopped_other s h b h' t d :
  own_bomb (clock s) h b → h' ≠ h →
  stopped (timer b) (timers (clock s)) !! t = Some (d, h') ↔ timers (clock s) !! t = Some (d, h').
Proof.
  intros [_ Hb] Hne. unfold stopped. destruct (timer b) as [t'|] eqn:Ht; [|done].
  rewrite lookup_delete_Some. split; [by intros []|]. intros H. split; [|done]. intros ->.
  by apply Hne, (proj2 (Hb _ eq_refl) d).
Qed.

Lemma delete_frame h s : well_kept s → frame h s (delete_bomb h s).
Proof.
  intros Hk. apply frame_step; [done| |cbn; intros b; by rewrite lookup_delete_eq|apply Hk].
  intros h' Hne. split; cbn; [by rewrite lookup_delete_ne|done..].
Qed.

Lemma arm_frame s h b : well_kept s → bomb_handle b = h → frame h s (on_bomb h b arm s).
Proof.
  intros Hk Hb. unfold on_bomb. rewrite arm_eq. set (k := clock s) in *. apply frame_step; [done|..].
  - intros h' Hne. split; cbn; [by rewrite lookup_insert_ne| |fold k; lia|].
    + intros t d. fold k. destruct (decide (t = next_timer k)) as [->|Ht]; [|by rewrite lookup_insert_ne].
      rewrite lookup_insert_eq, (wk_fresh s Hk) by done. split; [|done]. by intros [= _ ?]; subst.
    + intros t e Ht. fold k in Ht |- *. by rewrite lookup_insert_ne by lia.
  - intros b'. cbn. rewrite lookup_insert_eq. intros [= <-]. split; [done|]. cbn. intros t [= <-].
    split; [lia|]. intros d h'. rewrite lookup_insert_eq. by intros [= _ <-].
  - cbn. intros t Ht. rewrite lookup_insert_ne by lia. apply (wk_fresh s Hk). fold k. lia.
Qed.

(** The bomb of [h] with other counts; its timer is stopped, or not. *)
Lemma set_frame s h b p f (stop : bool) :
  well_kept s → timeBombs s !! h = Some b →
  let o := if stop then timer b else None in
  frame h s (mkBombs (mkClock (now (clock s)) (stopped o (timers (clock s))) (next_timer (clock s)))
               (<[h := mkBomb (countdown b) (bomb_handle b) p f (if stop then None else timer b)]> (timeBombs s))).
Proof.
  intros Hk Hb o. pose proof (wk_own s Hk h b Hb) as Hown. apply frame_step; [done|..]; cbn.
  - intros h' Hne. split; cbn; [by rewrite lookup_insert_ne| |done|].
    + intros t d. unfold o. destruct stop; [by apply (stopped_other s h)|done].
    + intros t e _. apply stopped_old.
  - intros b'. rewrite lookup_insert_eq. intros [= <-]. split; [by apply Hown|]. cbn. intros t Ht.
    unfold o. destruct stop; [done|]. by apply Hown.
  - intros t Ht. destruct (stopped o (timers (clock s)) !! t) eqn:E; [|done].
    apply stopped_old in E. by rewrite (wk_fresh s Hk) in E.
Qed.

Definition msg_handle (msg : message) : string :=
  match msg with MStrap h _ | MPause h | MUnpause h | MDefuse h | MCleanup h => h end.

Lemma frame_refl h s : well_kept s → frame h s s.
Proof. intros Hk. split; [done|]. by intros. Qed.

Lemma manage_frame msg s : well_kept s → frame (msg_handle msg) s (manage msg s).
Proof.
  intros Hk. destruct msg as [h g|h|h|h|h]; cbn [manage msg_handle]; unfold with_bomb.
  - case_match; [by apply frame_refl|]. by apply arm_frame.
  - destruct (timeBombs s !! h) as [b|] eqn:Hb; [|by apply frame_refl]. unfold on_bomb.
    destruct (Pause_eq (clock s) b) as [r ->]. by apply (set_frame s h b _ _ true).
  - destruct (timeBombs s !! h) as [b|] eqn:Hb; [|by apply frame_refl]. unfold on_bomb. rewrite Unpause_eq.
    destruct (negb _ && _); [apply arm_frame; [done|by apply (wk_own s Hk h b Hb)]|].
    pose proof (set_frame s h b (pauses b - 1) (defused b) false Hk Hb) as Hf. by destruct s as [[] ?].
  - destruct (timeBombs s !! h) as [b|] eqn:Hb; [|by apply delete_frame]. unfold on_bomb.
    destruct (Defuse_eq (clock s) b) as [r ->]. pose proof (set_frame s h b (pauses b) true true Hk Hb) as Hf.
    eapply frame_trans; [exact Hf|]. apply delete_frame, Hf.
  - by apply delete_frame.
Qed.

(** ** What a message does to a handle that is used in order *)

(** After that, [h] has no timer. *)
Lemma stopped_own s h b t d :
  handle_ok s h → timeBombs (sys_bombs s) !! h = Some b →
  stopped (timer b) (timers (clock (sys_bombs s))) !! t ≠ Some (d, h).
Proof.
  intros Hs Hb H. pose proof (stopped_old _ _ _ _ H) as Ht.
  destruct (ho_timer _ _ Hs t d Ht) as (_ & _ & b' & T & Hb' & Hbt & _).
  rewrite Hb in Hb'. injection Hb' as <-. rewrite Hbt in H. cbn in H. by apply lookup_delete_Some in H as [].
Qed.

Lemma no_bomb_no_timer s h t d :
  handle_ok s h → timeBombs (sys_bombs s) !! h = None → timers (clock (sys_bombs s)) !! t ≠ Some (d, h).
Proof. intros Hs Hb Ht. destruct (ho_timer _ _ Hs t d Ht) as (_ & _ & b & T & Hb' & _). congruence. Qed.

(** A bomb that [arm] has set: the timer is new. *)
Lemma arm_own s h b open last :
  bomb_handle b = h → defused b = false → pauses b = 0 →
  occurs h open = 0 → occurs h (sys_reaping s) = 0 →
  (∀ t d, timers (clock (sys_bombs s)) !! t ≠ Some (d, h)) → last !! h = Some (sys_now s) →
  handle_ok (mkBombSystem (on_bomb h b arm (sys_bombs s)) open (sys_reaping s) last) h.
Proof.
  intros Hbh Hd Hp Ho Hr Hnt Hl. unfold on_bomb. rewrite arm_eq. set (k := clock (sys_bombs s)) in *. split; cbn.
  - intros b'. rewrite lookup_insert_eq. intros [= <-]. cbn. by rewrite Hp.
  - intros t d. destruct (decide (t = next_timer k)) as [->|Ht].
    + rewrite lookup_insert_eq. intros [= <-]. split_and!; [done|done|]. eexists _, _. rewrite lookup_insert_eq.
      split_and!; [done|done|exact Hl|done].
    + rewrite lookup_insert_ne by done. intros H. by destruct (Hnt t d).
  - intros b'. rewrite lookup_insert_eq. intros [= <-] _ _. exists (next_timer k). eexists. cbn.
    rewrite lookup_insert_eq, Hbh. done.
  - lia.
  - lia.
Qed.

(** A handle without timers whose bomb, if it has one, is paused *)
Lemma paused_own s h :
  (∀ b, timeBombs (sys_bombs s) !! h = Some b →
     defused b = false ∧ pauses b = occurs h (sys_open s) ∧ 0 < occurs h (sys_open s)) →
  (∀ t d, timers (clock (sys_bombs s)) !! t ≠ Some (d, h)) →
  occurs h (sys_reaping s) = 0 → handle_ok s h.
Proof.
  intros Hb Ht Hr. split; [|by intros t d ?%Ht| |lia|lia].
  - intros b (? & ? & _)%Hb. done.
  - intros b (_ & _ & ?)%Hb ?. lia.
Qed.

Section orderly.
Context (orderly : string → Prop).
Local Abbreviation ok := (bombs_ok orderly).

Lemma elapse_ok d s :
  ok s → ok (mkBombSystem (elapse d (sys_bombs s)) (sys_open s) (sys_reaping s) (sys_last s)).
Proof.
  intros [[H1 H2] H3]. split; [by split|]. intros h Hh. apply (handle_ok_frame s); [by split|done..|by apply H3].
Qed.

(** Only what is said of [h] has changed. *)
Lemma last_only h s (T : Z) h' : h' ≠ h → <[h := T]> (sys_last s) !! h' = sys_last s !! h'.
Proof. intros. by rewrite lookup_insert_ne. Qed.

Lemma strap_ok h g s :
  ok s → (orderly h → timeBombs (sys_bombs s) !! h = None ∧ h ∉ sys_open s ∧ h ∉ sys_reaping s) →
  ok (mkBombSystem (manage (MStrap h g) (sys_bombs s)) (sys_open s) (sys_reaping s) (<[h := sys_now s]> (sys_last s))).
Proof.
  intros Hs Hu. apply (bombs_ok_step _ s _ h); [done|exact (manage_frame (MStrap h g) _ (bok_kept _ _ Hs))| |].
  { intros h' Hne. split_and!; [done..|by apply last_only]. }
  intros Hh. destruct (Hu Hh) as (Hb & Ho%occurs_out & Hr%occurs_out). pose proof (bok_handle _ s Hs h Hh) as Hok.
  cbn. case_match.
  - apply paused_own; cbn; [by rewrite Hb| |done]. intros t d. by apply no_bomb_no_timer.
  - apply arm_own; try done; [|by rewrite lookup_insert_eq]. intros t d. by apply no_bomb_no_timer.
Qed.

Lemma pause_ok h s :
  ok s → (orderly h → h ∉ sys_reaping s) →
  ok (mkBombSystem (manage (MPause h) (sys_bombs s)) (h :: sys_open s) (sys_reaping s) (sys_last s)).
Proof.
  intros Hs Hu. apply (bombs_ok_step _ s _ h); [done|exact (manage_frame (MPause h) _ (bok_kept _ _ Hs))| |].
  { intros h' Hne. cbn. by rewrite occurs_cons, decide_False, Z.add_0_r by done. }
  intros Hh. pose proof (Hu Hh) as Hr%occurs_out. pose proof (bok_handle _ s Hs h Hh) as Hok.
  pose proof (occurs_nonneg h (sys_open s)) as H0. cbn. unfold with_bomb.
  destruct (timeBombs (sys_bombs s) !! h) as [b|] eqn:Hb.
  - unfold on_bomb. destruct (Pause_eq (clock (sys_bombs s)) b) as [r ->]. destruct (ho_bomb _ _ Hok b Hb) as [Hd Hp].
    apply paused_own; cbn; [|intros t d; by apply stopped_own|done].
    intros b'. rewrite lookup_insert_eq, occurs_cons, decide_True by done. intros [= <-]. cbn. split_and!; [done|lia..].
  - apply paused_own; cbn; [by rewrite Hb| |done]. intros t d. by apply no_bomb_no_timer.
Qed.

Lemma unpause_ok h others s :
  ok s → sys_open s ≡ₚ h :: others →
  ok (mkBombSystem (manage (MUnpause h) (sys_bombs s)) others (sys_reaping s) (<[h := sys_now s]> (sys_last s))).
Proof.
  intros Hs Ho.
  assert (Hc : ∀ h', occurs h' (sys_open s) = occurs h' others + (if decide (h = h') then 1 else 0)).
  { intros h'. by rewrite (occurs_perm _ _ _ Ho), occurs_cons. }
  apply (bombs_ok_step _ s _ h); [done|exact (manage_frame (MUnpause h) _ (bok_kept _ _ Hs))| |].
  { intros h' Hne. cbn. rewrite Hc, decide_False by done. split_and!; [lia|done|by apply last_only]. }
  intros Hh. pose proof (bok_handle _ s Hs h Hh) as Hok. specialize (Hc h). rewrite decide_True in Hc by done.
  pose proof (occurs_nonneg h others) as H0. pose proof (occurs_nonneg h (sys_reaping s)) as H1.
  assert (Hr : occurs h (sys_reaping s) = 0).
  { destruct (decide (0 < occurs h (sys_reaping s))) as [?%(ho_closed _ _ Hok)|]; lia. }
  assert (Hnt : ∀ t d, timers (clock (sys_bombs s)) !! t ≠ Some (d, h)).
  { intros t d Ht. destruct (ho_timer _ _ Hok t d Ht) as [? _]. lia. }
  cbn. unfold with_bomb. destruct (timeBombs (sys_bombs s) !! h) as [b|] eqn:Hb; [|apply paused_own; cbn; by rewrite ?Hb].
  destruct (ho_bomb _ _ Hok b Hb) as [Hd Hp]. unfold on_bomb. rewrite Unpause_eq, Hd. cbn [negb andb].
  destruct (Z.eqb_spec (pauses b - 1) 0) as [Hz|Hz].
  - apply (arm_own s h); cbn; try done; [apply (wk_own _ (bok_kept _ _ Hs) h b Hb)|lia|by rewrite lookup_insert_eq].
  - apply paused_own; cbn; [|done..]. intros b'. rewrite lookup_insert_eq. intros [= <-]. cbn. split_and!; [done|lia..].
Qed.

Lemma defuse_ok h s :
  ok s → ok (mkBombSystem (manage (MDefuse h) (sys_bombs s)) (sys_open s) (sys_reaping s) (sys_last s)).
Proof.
  intros Hs. apply (bombs_ok_step _ s _ h); [done|exact (manage_frame (MDefuse h) _ (bok_kept _ _ Hs))|done|].
  intros Hh. pose proof (bok_handle _ s Hs h Hh) as Hok.
  assert (H : timeBombs (manage (MDefuse h) (sys_bombs s)) !! h = None ∧
              ∀ t d, timers (clock (manage (MDefuse h) (sys_bombs s))) !! t ≠ Some (d, h)).
  { cbn. unfold with_bomb. destruct (timeBombs (sys_bombs s) !! h) as [b|] eqn:Hb.
    - unfold on_bomb. destruct (Defuse_eq (clock (sys_bombs s)) b) as [r ->]. cbn. split; [by rewrite lookup_delete_eq|].
      intros t d. by apply stopped_own.
    - cbn. split; [by rewrite lookup_delete_eq|]. intros t d. by apply no_bomb_no_timer. }
  destruct H as [Hn Hnt]. split; cbn -[manage].
  - by rewrite Hn.
  - by intros t d ?%Hnt.
  - by rewrite Hn.
  - apply (ho_closed _ _ Hok).
  - apply (ho_once _ _ Hok).
Qed.

Lemma cleanup_ok h others s :
  ok s → sys_reaping s ≡ₚ h :: others →
  ok (mkBombSystem (manage (MCleanup h) (sys_bombs s)) (sys_open s) others (sys_last s)).
Proof.
  intros Hs Hr.
  assert (Hc : ∀ h', occurs h' (sys_reaping s) = occurs h' others + (if decide (h = h') then 1 else 0)).
  { intros h'. by rewrite (occurs_perm _ _ _ Hr), occurs_cons. }
  apply (bombs_ok_step _ s _ h); [done|exact (manage_frame (MCleanup h) _ (bok_kept _ _ Hs))| |].
  { intros h' Hne. cbn. rewrite Hc, decide_False by done. split_and!; [done|lia|done]. }
  intros Hh. pose proof (bok_handle _ s Hs h Hh) as Hok. specialize (Hc h). rewrite decide_True in Hc by done.
  pose proof (occurs_nonneg h others) as H0. pose proof (ho_once _ _ Hok). split; cbn.
  - intros b. by rewrite lookup_delete_eq.
  - intros t d Ht. destruct (ho_timer _ _ Hok t d Ht) as (_ & ? & _). lia.
  - intros b. by rewrite lookup_delete_eq.
  - intros ?. lia.
  - lia.
Qed.

Lemma fire_frame t h bm s : well_kept s → fire t s = Some (h, bm) → frame h s bm.
Proof.
  intros Hk Hf. unfold fire in Hf. destruct (timers (clock s) !! t) as [[d h0]|] eqn:Ht; [|done].
  destruct (d <=? now (clock s)); [|done]. injection Hf as -> <-. apply frame_step; [done|..]; cbn.
  - intros h' Hne. split; cbn; [done| |done|].
    + intros t' d'. rewrite lookup_delete_Some. split; [by intros []|]. intros Ht'. split; [|done]. intros ->. congruence.
    + by intros t' e _ [_ ?]%lookup_delete_Some.
  - intros b Hb. destruct (wk_own s Hk h b Hb) as [Hh Hx]. split; [done|]. intros t' Ht'.
    destruct (Hx t' Ht') as [? Hy]. split; [done|]. intros d' h'. cbn. intros [_ ?]%lookup_delete_Some. by eapply Hy.
  - intros t' Ht'. rewrite lookup_delete_None. right. by apply (wk_fresh s Hk).
Qed.

(** What goes off is the bomb of a container that is not in use. *)
Lemma fire_ready s t h bm :
  handle_ok s h → fire t (sys_bombs s) = Some (h, bm) →
  occurs h (sys_open s) = 0 ∧ occurs h (sys_reaping s) = 0 ∧
  ∃ b T, timeBombs (sys_bombs s) !! h = Some b ∧ timer b = Some t ∧ sys_last s !! h = Some T ∧ T + countdown b ≤ sys_now s ∧
    bm = mkBombs (mkClock (sys_now s) (base.delete t (timers (clock (sys_bombs s)))) (next_timer (clock (sys_bombs s))))
           (timeBombs (sys_bombs s)).
Proof.
  intros Hok Hf. unfold fire in Hf. destruct (timers (clock (sys_bombs s)) !! t) as [[d h0]|] eqn:Ht; [|done].
  destruct (Z.leb_spec d (now (clock (sys_bombs s)))); [|done]. injection Hf as -> <-.
  destruct (ho_timer _ _ Hok t d Ht) as (Ho & Hr & b & T & Hb & Hbt & HT & ->). split_and!; [done..|]. by exists b, T.
Qed.

Lemma fire_ok t h bm s :
  ok s → fire t (sys_bombs s) = Some (h, bm) → ok (mkBombSystem bm (sys_open s) (h :: sys_reaping s) (sys_last s)).
Proof.
  intros Hs Hf. apply (bombs_ok_step _ s _ h); [done|by eapply fire_frame; [apply Hs|]| |].
  { intros h' Hne. cbn. by rewrite occurs_cons, decide_False, Z.add_0_r by done. }
  intros Hh. pose proof (bok_handle _ s Hs h Hh) as Hok.
  destruct (fire_ready s t h bm Hok Hf) as (Ho & Hr & b & T & Hb & Hbt & _ & _ & ->).
  split; cbn; rewrite ?occurs_cons, ?decide_True, ?Hr by done; try done.
  - apply (ho_bomb _ _ Hok).
  - intros t' d' [Hne Ht']%lookup_delete_Some.
    destruct (ho_timer _ _ Hok t' d' Ht') as (_ & _ & b' & T' & Hb' & Hbt' & _). congruence.
Qed.

Lemma bomb_step_ok s s' : bomb_step orderly s s' → ok s → ok s'.
Proof.
  intros [] Hs; eauto using elapse_ok, strap_ok, pause_ok, unpause_ok, defuse_ok, fire_ok, cleanup_ok.
Qed.

Lemma bomb_steps_ok s s' : rtc (bomb_step orderly) s s' → ok s → ok s'.
Proof. induction 1; eauto using bomb_step_ok. Qed.

Lemma ok_fires_idle s t h bm : ok s → orderly h → fire t (sys_bombs s) = Some (h, bm) → h ∉ sys_open s.
Proof.
  intros Hs Hh Hf. destruct (fire_ready s t h bm (bok_handle _ s Hs h Hh) Hf) as (Ho & _). by apply occurs_out.
Qed.

(** The bomb of an idle container *)
Lemma idle_armed s h b :
  ok s → orderly h → timeBombs (sys_bombs s) !! h = Some b → h ∉ sys_open s → h ∉ sys_reaping s →
  ∃ t T, timer b = Some t ∧ sys_last s !! h = Some T ∧ timers (clock (sys_bombs s)) !! t = Some (T + countdown b, h).
Proof.
  intros Hs Hh Hb Ho%occurs_out Hr%occurs_out. pose proof (bok_handle _ s Hs h Hh) as Hok.
  destruct (ho_idle _ _ Hok b Hb Ho Hr) as (t & d & Hbt & Ht).
  destruct (ho_timer _ _ Hok t d Ht) as (_ & _ & b' & T & Hb' & _ & HT & ->). rewrite Hb in Hb'. injection Hb' as <-.
  by exists t, T.
Qed.
End orderly.

(** * Properties *)

(** C13: a container is reaped when it is idle, and only then. The handle [h] is used in
    order: no container is given it while a bomb, an open request or a detonation is left
    of an earlier one, and no request for it starts while it is being reaped; of other
    handles nothing is assumed. Then, at every moment of every run, a timer that goes off
    for [h] finds no request open for it, and finds it idle for its grace time, since it
    was created or last left by a request; and if the container has been idle for so long,
    its timer can go off. Where a handle is not used in order this fails:
    [strapped_twice_reaps_anyway], [early_request_unbalances], [reaping_leaves_timer]. *)
Theorem reaped_when_idle orderly t0 s h :
  rtc (bomb_step orderly) (sys_init t0) s → orderly h →
  (∀ t bm, fire t (sys_bombs s) = Some (h, bm) →
     (h ∉ sys_open s) ∧ (∃ b T, timeBombs (sys_bombs s) !! h = Some b ∧ sys_last s !! h = Some T ∧
       T + countdown b ≤ sys_now s)) ∧
  (∀ b, timeBombs (sys_bombs s) !! h = Some b → h ∉ sys_open s → h ∉ sys_reaping s →
     ∃ T, sys_last s !! h = Some T ∧ (T + countdown b ≤ sys_now s → ∃ t bm, fire t (sys_bombs s) = Some (h, bm))).
Proof.
  intros Hr Hh. pose proof (bomb_steps_ok _ _ _ Hr (sys_init_ok orderly t0)) as Hs. split.
  - intros t bm Hf. destruct (fire_ready s t h bm (bok_handle _ _ Hs h Hh) Hf) as (Ho & _ & b & T & Hb & _ & HT & Hle & _).
    split; [by apply occurs_out|]. by exists b, T.
  - intros b Hb Ho Hre. destruct (idle_armed _ s h b Hs Hh Hb Ho Hre) as (t & T & _ & HT & Ht).
    exists T. split; [done|]. intros Hle. exists t. eexists. unfold fire.
    rewrite Ht. by replace (T + countdown b <=? now (clock (sys_bombs s))) with true by (symmetry; by apply Z.leb_le).
Qed.

(** A timer that no bomb in the map has stays until it fires. *)
Definition orphaned (t : nat) (d : Z) (h : string) (s : Bombs) : Prop :=
  timers (clock s) !! t = Some (d, h) ∧ (t < next_timer (clock s))%nat ∧
  ∀ h' b, timeBombs s !! h' = Some b → timer b ≠ Some t.

Lemma on_bomb_orphan {A} t d h h' b (m : M BombState A) s :
  (∀ k b, timer b ≠ Some t → timers k !! t = Some (d, h) → (t < next_timer k)%nat →
     let '(_, (k', b')) := m (k, b) in
     timer b' ≠ Some t ∧ timers k' !! t = Some (d, h) ∧ (t < next_timer k')%nat) →
  timer b ≠ Some t → orphaned t d h s → orphaned t d h (on_bomb h' b m s).
Proof.
  intros Hm Hb (Ht & Hn & Ho). unfold on_bomb. specialize (Hm (clock s) b Hb Ht Hn).
  destruct (m (clock s, b)) as [r [k' b']]. destruct Hm as (Hb' & Ht' & Hn'). split_and!; [done|done|].
  intros h2 b2. cbn. destruct (decide (h' = h2)) as [->|Hne]; [rewrite lookup_insert_eq; by intros [= <-]|].
  rewrite lookup_insert_ne by done. apply Ho.
Qed.

Lemma stopped_keeps o t (m : gmap nat (Z * string)) : o ≠ Some t → stopped o m !! t = m !! t.
Proof. destruct o as [t'|]; [|done]. intros H. apply lookup_delete_ne. congruence. Qed.

Lemma manage_orphan t d h msg s : orphaned t d h s → orphaned t d h (manage msg s).
Proof.
  intros Hs. pose proof Hs as (Ht & Hn & Ho).
  assert (Harm : ∀ k b, timer b ≠ Some t → timers k !! t = Some (d, h) → (t < next_timer k)%nat →
            let '(_, (k', b')) := arm (k, b) in
            timer b' ≠ Some t ∧ timers k' !! t = Some (d, h) ∧ (t < next_timer k')%nat).
  { intros k b _ Hk Hl. rewrite arm_eq. cbn. rewrite lookup_insert_ne by lia. split_and!; [|done|lia].
    intros [= E]. lia. }
  assert (Hdel : ∀ h' s, orphaned t d h s → orphaned t d h (delete_bomb h' s)).
  { intros h' s' (? & ? & Ho'). split_and!; [done..|]. intros h2 b2. cbn. intros [_ H2]%lookup_delete_Some.
    by apply (Ho' h2). }
  assert (Hwith : ∀ A h' (m : M BombState A),
            (∀ b, timer b ≠ Some t → orphaned t d h (on_bomb h' b m s)) → orphaned t d h (with_bomb h' m s)).
  { intros A h' m H. unfold with_bomb. destruct (timeBombs s !! h') eqn:E; [|done]. apply H. by eapply Ho. }
  destruct msg as [h' g|h'|h'|h'|h']; cbn; [case_match; [done|]|..|by apply Hdel].
  - by apply on_bomb_orphan.
  - apply Hwith. intros b Hb. apply on_bomb_orphan; [|done..]. intros k b' Hb' Hk Hl.
    destruct (Pause_eq k b') as [r ->]. cbn. by rewrite stopped_keeps.
  - apply Hwith. intros b Hb. apply on_bomb_orphan; [|done..]. intros k b' Hb' Hk Hl. rewrite Unpause_eq.
    destruct (negb _ && _); [by apply Harm|done].
  - apply Hdel, Hwith. intros b Hb. apply on_bomb_orphan; [|done..]. intros k b' Hb' Hk Hl.
    destruct (Defuse_eq k b') as [r ->]. cbn. by rewrite stopped_keeps.
Qed.

Lemma manage_now msg s : now (clock (manage msg s)) = now (clock s).
Proof.
  assert (Hwith : ∀ A h (m : M BombState A), (∀ k b, now (m (k, b)).2.1 = now k) →
            now (clock (with_bomb h m s)) = now (clock s)).
  { intros A h m H. unfold with_bomb, on_bomb. case_match; [|done]. specialize (H (clock s) t).
    by destruct (m _) as [r [k' b']]. }
  destruct msg as [h g|h|h|h|h]; cbn; [by case_match|apply Hwith..|done]; intros k b.
  - by destruct (Pause_eq k b) as [r ->].
  - rewrite Unpause_eq. by case_match.
  - by destruct (Defuse_eq k b) as [r ->].
Qed.

Definition manage_all (msgs : list message) (s : Bombs) : Bombs := foldl (λ s msg, manage msg s) s msgs.

Lemma manage_all_orphan t d h msgs s :
  orphaned t d h s → orphaned t d h (manage_all msgs s) ∧ now (clock (manage_all msgs s)) = now (clock s).
Proof.
  revert s. induction msgs as [|msg msgs IH]; intros s Hs; [done|]. cbn.
  destruct (IH (manage msg s)) as [H1 H2]; [by apply manage_orphan|]. split; [exact H1|].
  by rewrite <-(manage_now msg s).
Qed.

(** A handle that is strapped twice: the first bomb can no longer be paused or defused.
    Whatever requests come and whatever is open when its time is over, it goes off, and
    the container that has the handle then is destroyed. *)
Theorem strapped_twice_reaps_anyway orderly t0 s h b g :
  rtc (bomb_step orderly) (sys_init t0) s → orderly h →
  timeBombs (sys_bombs s) !! h = Some b → h ∉ sys_open s → h ∉ sys_reaping s → g ≠ 0 →
  ∃ T, sys_last s !! h = Some T ∧ ∀ msgs d, T + countdown b ≤ sys_now s + d →
    ∃ t bm, fire t (elapse d (manage_all msgs (manage (MStrap h g) (sys_bombs s)))) = Some (h, bm).
Proof.
  intros Hr Hh Hb Ho Hre Hg. pose proof (bomb_steps_ok _ _ _ Hr (sys_init_ok orderly t0)) as Hs.
  destruct (idle_armed _ s h b Hs Hh Hb Ho Hre) as (t & T & Hbt & HT & Ht).
  exists T. split; [done|]. intros msgs d Hd. destruct Hs as [Hk _].
  destruct (wk_own _ Hk h b Hb) as [_ Hown]. destruct (Hown t Hbt) as [Hn _].
  assert (Horph : orphaned t (T + countdown b) h (manage (MStrap h g) (sys_bombs s))).
  { cbn. rewrite (proj2 (Z.eqb_neq g 0) Hg). unfold on_bomb, Strap. rewrite arm_eq. cbn. unfold orphaned. cbn.
    split_and!; [by rewrite lookup_insert_ne by lia|cbn; lia|]. intros h' b2. cbn.
    destruct (decide (h = h')) as [<-|Hne]; [rewrite lookup_insert_eq; intros [= <-] [= E]; lia|].
    rewrite lookup_insert_ne by done. intros Hb2 Ht2.
    destruct (wk_own _ Hk h' b2 Hb2) as [_ Hx]. by destruct (proj2 (Hx t Ht2) _ _ Ht). }
  destruct (manage_all_orphan t _ h msgs _ Horph) as [(Hm & _) Hnow]. exists t. eexists.
  unfold fire, elapse. cbn [clock timers now]. rewrite Hm, Hnow, manage_now. fold (sys_now s).
  by replace (T + countdown b <=? sys_now s + d) with true by (symmetry; by apply Z.leb_le).
Qed.

(** ** Single messages *)

Lemma MPause_eq s h b :
  timeBombs s !! h = Some b →
  manage (MPause h) s =
    mkBombs (mkClock (now (clock s)) (stopped (timer b) (timers (clock s))) (next_timer (clock s)))
      (<[h := mkBomb (countdown b) (bomb_handle b) (pauses b + 1) (defused b) None]> (timeBombs s)).
Proof. intros Hb. cbn. unfold with_bomb, on_bomb. rewrite Hb. by destruct (Pause_eq (clock s) b) as [r ->]. Qed.

Lemma MUnpause_eq s h b :
  timeBombs s !! h = Some b → defused b = false →
  manage (MUnpause h) s =
    let b' := mkBomb (countdown b) (bomb_handle b) (pauses b - 1) false (timer b) in
    if pauses b - 1 =? 0 then on_bomb h b' arm s else mkBombs (clock s) (<[h := b']> (timeBombs s)).
Proof.
  intros Hb Hd. cbn. unfold with_bomb, on_bomb. rewrite Hb, Unpause_eq, Hd. cbn [negb andb]. by destruct (pauses b - 1 =? 0).
Qed.

(** The messages of a request that finds a container whose bomb is not strapped yet. *)
Definition early_request (h : string) (g : Z) : list message := [MPause h; MStrap h g; MUnpause h].

(** A bomb that was unpaused once too often, and has no timer *)
Definition late (t0 : Z) (h : string) (g p : Z) : Bombs :=
  mkBombs (mkClock t0 ∅ 1) {[h := mkBomb g h p false None]}.

Lemma late_pause t0 h g p : manage (MPause h) (late t0 h g p) = late t0 h g (p + 1).
Proof.
  unfold late. erewrite MPause_eq by apply lookup_singleton_eq. cbn. by rewrite insert_singleton_eq.
Qed.

Lemma late_unpause t0 h g p : p ≠ 1 → manage (MUnpause h) (late t0 h g p) = late t0 h g (p - 1).
Proof.
  intros Hp. unfold late. erewrite MUnpause_eq by (try apply lookup_singleton_eq; done). cbn.
  replace (p - 1 =? 0) with false by lia. by rewrite insert_singleton_eq.
Qed.

Lemma late_requests t0 h g n : manage_all (concat (replicate n [MPause h; MUnpause h])) (late t0 h g (-1)) = late t0 h g (-1).
Proof.
  induction n as [|n IH]; [done|]. unfold manage_all in *. cbn [replicate concat]. rewrite foldl_app. cbn [foldl].
  rewrite late_pause, late_unpause by lia. exact IH.
Qed.

(** A request that finds a container before its bomb is strapped unpauses it once too
    often. After the next request the container is never reaped while requests follow one
    another; and when two requests overlap, its time runs while the second is open. *)
Theorem early_request_unbalances t0 h (g : positive) n :
  let s := manage_all (early_request h (Z.pos g) ++ concat (replicate (S n) [MPause h; MUnpause h])) (no_bombs t0) in
  timers (clock s) = ∅ ∧ timers (clock (manage_all [MPause h; MPause h; MUnpause h] s)) = {[1%nat := (t0 + Z.pos g, h)]}.
Proof.
  intros s. assert (Hs : s = late t0 h (Z.pos g) (-1)).
  { subst s. unfold manage_all. rewrite foldl_app. cbn [replicate concat]. rewrite foldl_app.
    rewrite <-(late_requests t0 h (Z.pos g) n). unfold manage_all. f_equal.
    assert (E : foldl (λ s msg, manage msg s) (no_bombs t0) (early_request h (Z.pos g)) =
                mkBombs (mkClock t0 {[0%nat := (t0 + Z.pos g, h)]} 1) {[h := mkBomb (Z.pos g) h (-1) false (Some 0%nat)]}).
    { unfold early_request. cbn [foldl]. change (manage (MPause h) (no_bombs t0)) with (no_bombs t0).
      change (manage (MStrap h (Z.pos g)) (no_bombs t0)) with
        (mkBombs (mkClock t0 {[0%nat := (t0 + Z.pos g, h)]} 1) {[h := mkBomb (Z.pos g) h 0 false (Some 0%nat)]}).
      erewrite MUnpause_eq by (try apply lookup_singleton_eq; done). cbn. by rewrite insert_singleton_eq. }
    rewrite E. cbn [foldl]. erewrite MPause_eq by apply lookup_singleton_eq. cbn -[manage].
    rewrite delete_singleton_eq, insert_singleton_eq. apply (late_unpause t0 h (Z.pos g) 0). lia. }
  rewrite Hs. split; [done|]. unfold manage_all. cbn [foldl]. rewrite !late_pause.
  unfold late. erewrite MUnpause_eq by (try apply lookup_singleton_eq; done). done.
Qed.

(** A request that pauses the bomb of a container that is being reaped: its [Pause] comes
    too late, its [Unpause] sets a new timer, and the cleanup drops the bomb but not the
    timer, which goes off for whatever container has the handle then. *)
Example reaping_leaves_timer :
  let s0 := elapse 5 (manage (MStrap "a" 5) (no_bombs 0)) in
  match fire 0 s0 with
  | Some (h, s1) =>
      let s2 := manage_all [MPause "a"; MUnpause "a"; MCleanup "a"; MStrap "a" 100; MPause "a"] s1 in
      h = "a" ∧ fst <$> fire 1 (elapse 5 s2) = Some "a"
  | None => False
  end.
Proof. vm_compute. by split. Qed.

(** * Witnesses *)

(** A container is strapped, used from 3 to 13, and idle from then on. *)
Definition used_once : BombSystem :=
  let s1 := mkBombSystem (manage (MStrap "a" 5) (no_bombs 0)) [] [] {["a" := 0]} in
  let s2 := mkBombSystem (elapse 3 (sys_bombs s1)) [] [] {["a" := 0]} in
  let s3 := mkBombSystem (manage (MPause "a") (sys_bombs s2)) ["a"] [] {["a" := 0]} in
  let s4 := mkBombSystem (elapse 10 (sys_bombs s3)) ["a"] [] {["a" := 0]} in
  let s5 := mkBombSystem (manage (MUnpause "a") (sys_bombs s4)) [] [] {["a" := 13]} in
  mkBombSystem (elapse 5 (sys_bombs s5)) [] [] {["a" := 13]}.

Lemma used_once_reached : rtc (bomb_step (λ _, True)) (sys_init 0) used_once.
Proof.
  eapply rtc_l; [apply (bo_strap _ "a" 5); intros _; split; [done|split; apply not_elem_of_nil]|].
  eapply rtc_l; [by apply (bo_elapse _ 3)|]. eapply rtc_l; [apply (bo_pause _ "a"); intros _; apply not_elem_of_nil|].
  eapply rtc_l; [by apply (bo_elapse _ 10)|]. eapply rtc_l; [by apply (bo_unpause _ "a" [])|].
  eapply rtc_l; [by apply (bo_elapse _ 5)|]. done.
Qed.

Lemma reaped_when_idle_witness :
  (∀ t bm, fire t (sys_bombs used_once) = Some ("a", bm) → "a" ∉ sys_open used_once) ∧
  ∃ T, sys_last used_once !! "a" = Some T ∧ (T + 5 ≤ 18 → ∃ t bm, fire t (sys_bombs used_once) = Some ("a", bm)).
Proof.
  destruct (reaped_when_idle _ 0 used_once "a" used_once_reached I) as [H1 H2]. split.
  - intros t bm Hf. by apply (H1 t bm).
  - apply (H2 (mkBomb 5 "a" 0 false (Some 1%nat))); [reflexivity|apply not_elem_of_nil..].
Defined.

Lemma strapped_twice_reaps_anyway_witness :
  ∃ t bm, fire t (elapse 0 (manage_all [MPause "a"] (manage (MStrap "a" 100) (sys_bombs used_once)))) = Some ("a", bm).
Proof.
  destruct (strapped_twice_reaps_anyway _ 0 used_once "a" (mkBomb 5 "a" 0 false (Some 1%nat)) 100 used_once_reached I)
    as (T & HT & H); [reflexivity|apply not_elem_of_nil..|discriminate|].
  apply H. vm_compute in HT. injection HT as <-. discriminate.
Defined.
