(* ===== verification/GardenServer.v ===== *)
(** garden/server (vendored): the HTTP server in front of the backend. A request has been
    routed to its handler already (Router.v); a handler reads its message, looks its
    container up, pauses the container's bomb for as long as it runs, calls the container
    and answers. What handlers do one after the other is [serve]; requests whose answer is
    a stream ([Run], [Attach]) stay open until [sv_stream_ends]. *)
From S2P Require Import Prelude GoStd OS Json JsonCodec MessageCodec MemoryStat ResourcePool Net Network Warden Snapshot Process.
From S2P Require UIDPool PortPool NetworkPool.
From S2P Require Import ProcessTracker LinuxContainer ContainerPool LinuxBackend Protocol Bomberman.
From Stdlib Require Import Ascii.

Local Open Scope string_scope.
Local Open Scope list_scope.
Local Open Scope Z_scope.

(** * Requests and responses *)

(** [rq_handle] and [rq_pid] are the parameters of the route. *)
Record HttpRequest := mkRequest {
  rq_contentType : string;
  rq_handle : string;
  rq_pid : string;
  rq_query : gmap string (list string);
  rq_body : string
}.

(** [RFailed]: [writeError]; [RReply]: [writeResponse]; [RCopies]: the output of a command;
    [RStreams]: the connection is taken over, [first] is written and the process [id]
    streamed. *)
Inductive Response :=
  | RReply (msg : json)
  | RFailed (e : error)
  | RUnavailable
  | RCopies (c : Cmd)
  | RStreams (status : Z) (first : option json) (id : Z).

Definition http_status (r : Response) : Z :=
  match r with
  | RReply _ | RCopies _ => 200
  | RFailed _ => 500
  | RUnavailable => 503
  | RStreams status _ _ => status
  end.

(** [transport.WriteMessage] *)
Definition WriteMessage (msg : json) : string := print_json msg +:+ nl.

Definition writeError (e : error) : Response := RFailed e.
Definition writeResponse {A} (c : Codec A) (msg : A) : Response := RReply (c_enc c msg).

Definition ErrInvalidContentType : error := errors_New "content-type must be application/json".

Definition readRequest {A} (c : Codec A) (rq : HttpRequest) : Result A :=
  if negb (String.eqb (rq_contentType rq) "application/json") then Err ErrInvalidContentType
  else '(j, _) ← parse_json (rq_body rq); c_dec c (c_zero c) j.

(** [r.URL.Query().Get(key)] *)
Definition query_get (key : string) (rq : HttpRequest) : string :=
  default "" (rq_query rq !! key ≫= head).

(** The getters of a message that may be nil *)
Definition get_key (p : option PropertyMsg) : string := default "" (p ≫= pm_Key).
Definition get_value (p : option PropertyMsg) : string := default "" (p ≫= pm_Value).

Definition convertEnv (env : list (option EnvironmentVariable)) : list string :=
  map (λ e, default "" (e ≫= ev_Key) +:+ "=" +:+ default "" (e ≫= ev_Value)) env.

Definition resourceLimits (l : ResourceLimitsMsg) : ResourceLimits :=
  mkResourceLimits (rl_As l) (rl_Core l) (rl_Cpu l) (rl_Data l) (rl_Fsize l) (rl_Locks l) (rl_Memlock l)
    (rl_Msgqueue l) (rl_Nice l) (rl_Nofile l) (rl_Nproc l) (rl_Rss l) (rl_Rtprio l) (rl_Sigpending l) (rl_Stack l).

Definition ttySpecFrom (tty : option TTYMsg) : option TTYSpec :=
  t ← tty;
  Some (mkTTYSpec (w ← tm_WindowSize t;
                   Some (mkWindowSize (default 0 (ws_Columns w)) (default 0 (ws_Rows w))))).

(** [warden.BindMountMode(m)] of an [int32], on [uint8]; the program only asks whether it is
    [BindMountModeRW], and whether the origin is [BindMountOriginContainer]. *)
Definition bind_mount (bm : option BindMountMsg) : BindMount :=
  mkBindMount (default "" (bm ≫= bm_SrcPath)) (default "" (bm ≫= bm_DstPath))
    (if u8 (default 0 (bm ≫= bm_Mode)) =? 1 then BindMountModeRW else BindMountModeRO)
    (if u8 (default 0 (bm ≫= bm_Origin)) =? 1 then BindMountOriginContainer else BindMountOriginHost).

Definition container_spec (containerGraceTime : Z) (request : CreateRequest) : ContainerSpec :=
  mkContainerSpec (default "" (cr_Handle request))
    (match cr_GraceTime request with Some seconds => seconds * 10 ^ 9 | None => containerGraceTime end)
    (default "" (cr_Rootfs request)) (map bind_mount (cr_BindMounts request)) (default "" (cr_Network request))
    (foldl (λ m p, <[get_key p := get_value p]> m) ∅ (cr_Properties request)).

(** [handleList]'s filter *)
Definition list_filter (rq : HttpRequest) : Properties := omap head (rq_query rq).

Definition process_spec (request : RunRequest) : ProcessSpec :=
  mkProcessSpec (default "" (rr_Path request)) (rr_Args request) (convertEnv (rr_Env request))
    (default "" (rr_Dir request)) (default false (rr_Privileged request))
    (match rr_Rlimits request with Some l => resourceLimits l | None => no_rlimits end)
    (ttySpecFrom (rr_Tty request)).

(** [fmt.Sscanf(s, "%d", &processID)] on a [uint32]: what follows the digits is ignored. *)
Fixpoint skip_blanks (s : string) : Result string :=
  match s with
  | EmptyString => Err (mkError "*errors.errorString" "unexpected EOF")
  | String c s' =>
      if Ascii.eqb c newline then Err (mkError "*errors.errorString" "unexpected newline")
      else if is_space c then skip_blanks s' else Ok s
  end.

Definition scan_pid (s : string) : Result Z :=
  s' ← skip_blanks s;
  let tok := (span_digits s').1 in
  if String.eqb tok "" then Err (mkError "*errors.errorString" "expected integer")
  else
    v ← ParseUint tok;
    if 2 ^ 32 <=? v
    then Err (mkError "*errors.errorString" ("unsigned integer overflow on token " +:+ tok))
    else Ok v.

Example scan_pid_example :
  map scan_pid ["7"; " 12abc"; "4294967296"; "x"; ""] =
    [Ok 7; Ok 12; Err (mkError "*errors.errorString" "unsigned integer overflow on token 4294967296");
     Err (mkError "*errors.errorString" "expected integer"); Err (mkError "*errors.errorString" "unexpected EOF")].
Proof. by vm_compute. Qed.

(** * Answers *)

Definition bandwidth_message (l : BandwidthLimits) : LimitBandwidthResponse :=
  mkLimitBandwidthResponse (Some (RateInBytesPerSecond l)) (Some (BurstRateInBytesPerSecond l)).
Definition memory_message (l : MemoryLimits) : LimitMemoryResponse := mkLimitMemoryResponse (Some (LimitInBytes l)).
Definition cpu_message (l : CPULimits) : LimitCpuResponse := mkLimitCpuResponse (Some (LimitInShares l)).
Definition disk_message (l : DiskLimits) : LimitDiskResponse :=
  mkLimitDiskResponse (Some (BlockSoft l)) (Some (BlockHard l)) (Some (InodeSoft l)) (Some (InodeHard l))
    (Some (ByteSoft l)) (Some (ByteHard l)).
Definition capacity_message (c : Warden.Capacity) : CapacityResponse :=
  mkCapacityResponse (Some (MemoryInBytes c)) (Some (DiskInBytes c)) (Some (Warden.MaxContainers c)).

(** The properties are in the order of a map. *)
Definition property_messages (m : Properties) : list (option PropertyMsg) :=
  map (λ kv, Some (mkPropertyMsg (Some kv.1) (Some kv.2))) (map_to_list m).
Definition port_message (p : PortMapping) : option PortMappingMsg :=
  Some (mkPortMappingMsg (Some (HostPort p)) (Some (ContainerPort p))).

Definition info_message (info : ContainerInfo) : InfoResponse :=
  mkInfoResponse (Some (info_State info)) (info_Events info) (Some (info_HostIP info)) (Some (info_ContainerIP info))
    (Some (info_ContainerPath info)) (Some (map Some (stat_list (info_MemoryStat info))))
    (Some (mkCpuStatMsg (Some (Usage (info_CPUStat info))) (Some (User (info_CPUStat info)))
             (Some (System (info_CPUStat info)))))
    (Some (mkDiskStatMsg (Some (BytesUsed (info_DiskStat info))) (Some (InodesUsed (info_DiskStat info)))))
    (Some (mkBandwidthStatMsg (Some (InRate (info_BandwidthStat info))) (Some (InBurst (info_BandwidthStat info)))
             (Some (OutRate (info_BandwidthStat info))) (Some (OutBurst (info_BandwidthStat info)))))
    (info_ProcessIDs info) (property_messages (info_Properties info)) (map port_message (info_MappedPorts info)).

(** * Handlers *)

Section server.
Context {K : Kernel} {UP NP PP : Type} {codec : SnapshotCodec}.
Context `{!ResourcePool UP Z Z, !ResourcePool NP Network string, !ResourcePool PP Z Z}.
Context `{!SizedPool UP, !SizedPool NP, !NetworkedPool NP}.
Context (b : BackendConf) (containerGraceTime : Z).
Local Abbreviation BS := (BState UP NP PP).

(** [ss_streams]: the handles of the requests that paused a bomb and are still open: a
    process is being streamed, or the handler is blocked. *)
Record SState := mkSState {
  ss_backend : BS;
  ss_bombs : Bombs;
  ss_streams : list string
}.

Definition ss_backend_lens : Lens SState BS :=
  mkLens ss_backend (λ bs s, mkSState bs (ss_bombs s) (ss_streams s)).

Definition on_backend {A} (m : M BS A) : M SState A := zoom ss_backend_lens m.

(** Send to [manageBombs]. *)
Definition send (msg : message) : M SState unit :=
  modify (λ s, mkSState (ss_backend s) (manage msg (ss_bombs s)) (ss_streams s)).

(** [if err != nil { s.writeError(w, err); return }] *)
Definition or_writeError (m : M SState Response) : M SState Response :=
  r ← attempt m; mret (match r with inl resp => resp | inr e => writeError e end).

Definition container_op {A} (c : LinuxContainer) (m : M (CState PP) A) : M SState A :=
  on_backend (with_container (c_handle c) m).

(** [defer s.bomberman.Unpause(handle)]: when the handler returns, or panics. *)
Definition defer_unpause {A} (handle : string) (m : M SState A) : M SState A := λ s,
  let '(r, s') := m s in
  match r with
  | Crash Blocked => (r, mkSState (ss_backend s') (ss_bombs s') (handle :: ss_streams s'))
  | _ => (r, (send (MUnpause handle) s').2)
  end.

(** [Lookup], [Pause], and the rest of a handler that unpauses when it returns *)
Definition with_lookup (rq : HttpRequest) (k : LinuxContainer → M SState Response) : M SState Response :=
  c ← on_backend (Lookup (rq_handle rq));
  send (MPause (c_handle c)) ≫= λ _,
  defer_unpause (c_handle c) (or_writeError (k c)).

Definition handlePing : M SState Response :=
  r ← attempt (on_backend Ping); mret (match r with inl _ => writeResponse no_fields_codec tt | inr _ => RUnavailable end).

Definition handleCapacity : M SState Response := or_writeError (
  capacity ← on_backend (Capacity b);
  mret (writeResponse CapacityResponse_codec (capacity_message capacity))).

Definition handleCreate (rq : HttpRequest) : M SState Response := or_writeError (
  request ← of_result (readRequest CreateRequest_codec rq);
  container ← on_backend (LinuxBackend.Create b (container_spec containerGraceTime request));
  send (MStrap (c_handle container) (GraceTime container)) ≫= λ _,
  mret (writeResponse CreateResponse_codec (mkCreateResponse (Some (c_handle container))))).

Definition handleList (rq : HttpRequest) : M SState Response := or_writeError (
  containers ← on_backend (Containers (list_filter rq));
  mret (writeResponse ListResponse_codec (mkListResponse (map c_handle containers)))).

Definition handleDestroy (rq : HttpRequest) : M SState Response := or_writeError (
  on_backend (Destroy b (rq_handle rq)) ≫= λ _,
  send (MDefuse (rq_handle rq)) ≫= λ _,
  mret (writeResponse no_fields_codec tt)).

Definition handleStop (rq : HttpRequest) : M SState Response := or_writeError (
  request ← of_result (readRequest StopRequest_codec rq);
  with_lookup rq (λ c,
    container_op c (LinuxContainer.Stop (default false (sr_Kill request))) ≫= λ _, mret (writeResponse no_fields_codec tt))).

Definition handleStreamIn (rq : HttpRequest) : M SState Response := or_writeError (
  with_lookup rq (λ c,
    container_op c (StreamIn (query_get "destination" rq) (rq_body rq)) ≫= λ _, mret (writeResponse no_fields_codec tt))).

Definition handleStreamOut (rq : HttpRequest) : M SState Response := or_writeError (
  with_lookup rq (λ c,
    reader ← container_op c (StreamOut (query_get "source" rq)); mret (RCopies reader))).

(** Answer with the limits in force. *)
Definition reply_bandwidth (c : LinuxContainer) : M SState Response :=
  limits ← container_op c CurrentBandwidthLimits; mret (writeResponse LimitBandwidthResponse_codec (bandwidth_message limits)).
Definition reply_memory (c : LinuxContainer) : M SState Response :=
  limits ← container_op c CurrentMemoryLimits; mret (writeResponse LimitMemoryResponse_codec (memory_message limits)).
Definition reply_disk (c : LinuxContainer) : M SState Response :=
  limits ← container_op c CurrentDiskLimits; mret (writeResponse LimitDiskResponse_codec (disk_message limits)).
Definition reply_cpu (c : LinuxContainer) : M SState Response :=
  limits ← container_op c CurrentCPULimits; mret (writeResponse LimitCpuResponse_codec (cpu_message limits)).

Definition handleLimitBandwidth (rq : HttpRequest) : M SState Response := or_writeError (
  request ← of_result (readRequest LimitBandwidthRequest_codec rq);
  with_lookup rq (λ c,
    container_op c (LimitBandwidth (mkBandwidthLimits (default 0 (lb_Rate request)) (default 0 (lb_Burst request)))) ≫= λ _,
    reply_bandwidth c)).
Definition handleCurrentBandwidthLimits (rq : HttpRequest) : M SState Response :=
  or_writeError (with_lookup rq reply_bandwidth).

Definition handleLimitMemory (rq : HttpRequest) : M SState Response := or_writeError (
  request ← of_result (readRequest LimitMemoryRequest_codec rq);
  with_lookup rq (λ c,
    match lm_LimitInBytes request with
    | Some limitInBytes => container_op c (LimitMemory (mkMemoryLimits limitInBytes))
    | None => mret tt
    end ≫= λ _, reply_memory c)).
Definition handleCurrentMemoryLimits (rq : HttpRequest) : M SState Response :=
  or_writeError (with_lookup rq reply_memory).

(** A limit is set when one of the fields is there; the others are then 0. *)
Definition settingLimit (r : LimitDiskRequest) : bool :=
  existsb (λ o, bool_decide (is_Some o))
    [ld_BlockSoft r; ld_BlockHard r; ld_InodeSoft r; ld_InodeHard r; ld_ByteSoft r; ld_ByteHard r].
Definition handleLimitDisk (rq : HttpRequest) : M SState Response := or_writeError (
  request ← of_result (readRequest LimitDiskRequest_codec rq);
  with_lookup rq (λ c,
    (if settingLimit request then
       container_op c (LimitDisk (mkDiskLimits (default 0 (ld_BlockSoft request)) (default 0 (ld_BlockHard request))
         (default 0 (ld_InodeSoft request)) (default 0 (ld_InodeHard request))
         (default 0 (ld_ByteSoft request)) (default 0 (ld_ByteHard request))))
     else mret tt) ≫= λ _, reply_disk c)).
Definition handleCurrentDiskLimits (rq : HttpRequest) : M SState Response :=
  or_writeError (with_lookup rq reply_disk).

Definition handleLimitCPU (rq : HttpRequest) : M SState Response := or_writeError (
  request ← of_result (readRequest LimitCpuRequest_codec rq);
  with_lookup rq (λ c,
    match lc_LimitInShares request with
    | Some limitInShares => container_op c (LimitCPU (mkCPULimits limitInShares))
    | None => mret tt
    end ≫= λ _, reply_cpu c)).
Definition handleCurrentCPULimits (rq : HttpRequest) : M SState Response :=
  or_writeError (with_lookup rq reply_cpu).

Definition handleNetIn (rq : HttpRequest) : M SState Response := or_writeError (
  request ← of_result (readRequest NetInRequest_codec rq);
  with_lookup rq (λ c,
    '(hostPort, containerPort) ←
      container_op c (NetIn (default 0 (ni_HostPort request)) (default 0 (ni_ContainerPort request)));
    mret (writeResponse NetInResponse_codec (mkNetInResponse (Some hostPort) (Some containerPort))))).

Definition handleNetOut (rq : HttpRequest) : M SState Response := or_writeError (
  request ← of_result (readRequest NetOutRequest_codec rq);
  with_lookup rq (λ c,
    container_op c (NetOut (default "" (no_Network request)) (default 0 (no_Port request))) ≫= λ _,
    mret (writeResponse no_fields_codec tt))).

Definition handleInfo (rq : HttpRequest) : M SState Response :=
  or_writeError (with_lookup rq (λ c,
    info ← container_op c Info; mret (writeResponse InfoResponse_codec (info_message info)))).

(** The three streams of a process are given to it: a pipe and two channels. *)
Definition stream_io : ProcessIO := mkProcessIO true true true.

(** The handler returns when the stream ends: until then the bomb stays paused. *)
Definition keep_paused (handle : string) (m : M SState Response) : M SState Response := λ s,
  match m s with
  | (Ok resp, s') => (Ok resp, mkSState (ss_backend s') (ss_bombs s') (handle :: ss_streams s'))
  | (Err e, s') => (Ok (writeError e), (send (MUnpause handle) s').2)
  | (Crash Blocked, s') => (Crash Blocked, mkSState (ss_backend s') (ss_bombs s') (handle :: ss_streams s'))
  | (Crash f, s') => (Crash f, (send (MUnpause handle) s').2)
  end.

Definition with_stream (rq : HttpRequest) (k : LinuxContainer → M SState Response) : M SState Response :=
  c ← on_backend (Lookup (rq_handle rq));
  send (MPause (c_handle c)) ≫= λ _, keep_paused (c_handle c) (k c).

Definition handleRun (rq : HttpRequest) : M SState Response := or_writeError (
  request ← of_result (readRequest RunRequest_codec rq);
  with_stream rq (λ c,
    id ← container_op c (LinuxContainer.Run (process_spec request) stream_io);
    mret (RStreams 201 (Some (c_enc ProcessPayload_codec (mkProcessPayload (Some id) None None None None None))) id))).

Definition handleAttach (rq : HttpRequest) : M SState Response := or_writeError (
  processID ← of_result (scan_pid (rq_pid rq));
  with_stream rq (λ c,
    id ← container_op c (LinuxContainer.Attach processID stream_io); mret (RStreams 200 None id))).

(** ** Dispatch

    [handlers] of server.go, by the names of routes.go *)
Inductive Route :=
  | Ping | Capacity | Create | Destroy | List | Stop | StreamIn | StreamOut
  | LimitBandwidth | CurrentBandwidthLimits | LimitCPU | CurrentCPULimits
  | LimitDisk | CurrentDiskLimits | LimitMemory | CurrentMemoryLimits
  | NetIn | NetOut | Info | Run | Attach.

#[export] Instance Route_eq_dec : EqDecision Route.
Proof. solve_decision. Defined.

Definition serve (route : Route) (rq : HttpRequest) : M SState Response :=
  match route with
  | Ping => handlePing
  | Capacity => handleCapacity
  | Create => handleCreate rq
  | Destroy => handleDestroy rq
  | List => handleList rq
  | Stop => handleStop rq
  | StreamIn => handleStreamIn rq
  | StreamOut => handleStreamOut rq
  | LimitBandwidth => handleLimitBandwidth rq
  | CurrentBandwidthLimits => handleCurrentBandwidthLimits rq
  | LimitCPU => handleLimitCPU rq
  | CurrentCPULimits => handleCurrentCPULimits rq
  | LimitDisk => handleLimitDisk rq
  | CurrentDiskLimits => handleCurrentDiskLimits rq
  | LimitMemory => handleLimitMemory rq
  | CurrentMemoryLimits => handleCurrentMemoryLimits rq
  | NetIn => handleNetIn rq
  | NetOut => handleNetOut rq
  | Info => handleInfo rq
  | Run => handleRun rq
  | Attach => handleAttach rq
  end.

(** [reapContainer], and the rest of the function a bomb calls *)
Definition reapContainer (handle : string) : M SState unit :=
  ignore_err (on_backend (LinuxBackend.Destroy b handle)).
Definition detonate (handle : string) : M SState unit :=
  reapContainer handle ≫= λ _, send (MCleanup handle).
End server.

Arguments SState : clear implicits.
Arguments mkSState {UP NP PP} _ _ _.
Arguments ss_backend {UP NP PP} _.
Arguments ss_bombs {UP NP PP} _.
Arguments ss_streams {UP NP PP} _.

(** * Streaming a process *)

(** chanwriter.go: a channel with room for 1000 pieces; what does not fit is dropped. *)
Definition chan_capacity : nat := 1000.
Definition chanWriter_Write (d : string) (ch : list string) : list string :=
  if (length ch <? chan_capacity)%nat then ch ++ [d] else ch.

Inductive source := stdin | stdout | stderr.
#[export] Instance source_eq_dec : EqDecision source.
Proof. solve_decision. Defined.
Definition source_number (src : source) : Z := match src with stdin => 0 | stdout => 1 | stderr => 2 end.

Inductive payload :=
  | POutput (src : source) (data : string)
  | PExit (status : Z)
  | PError (msg : string).

Definition payload_msg (id : Z) (p : payload) : ProcessPayload :=
  match p with
  | POutput src data => mkProcessPayload (Some id) (Some (source_number src)) (Some data) None None None
  | PExit status => mkProcessPayload (Some id) None None (Some (u32 status)) None None
  | PError msg => mkProcessPayload (Some id) None None None (Some msg) None
  end.

Definition payload_json (id : Z) (p : payload) : json := c_enc ProcessPayload_codec (payload_msg id p).

(** [streamProcess]: the channels, what [process.Wait] has returned, and what was written to
    the connection. [sp_stopping]: the server is being stopped. *)
Record stream := mkStream {
  sm_stdout : list string;
  sm_stderr : list string;
  sm_result : option (Z + error);
  sm_sent : list payload;
  sm_over : bool
}.

Definition new_stream : stream := mkStream [] [] None [] false.

(** The process writes. *)
Definition write_out (d : string) (s : stream) : stream :=
  mkStream (chanWriter_Write d (sm_stdout s)) (sm_stderr s) (sm_result s) (sm_sent s) (sm_over s).
Definition write_err (d : string) (s : stream) : stream :=
  mkStream (sm_stdout s) (chanWriter_Write d (sm_stderr s)) (sm_result s) (sm_sent s) (sm_over s).

(** The process exits; [select] takes any channel that is ready. *)
Inductive stream_step : stream → stream → Prop :=
  | sm_wait r s : sm_result s = None →
      stream_step s (mkStream (sm_stdout s) (sm_stderr s) (Some r) (sm_sent s) (sm_over s))
  | sm_send_out d rest s : sm_over s = false → sm_stdout s = d :: rest →
      stream_step s (mkStream rest (sm_stderr s) (sm_result s) (sm_sent s ++ [POutput stdout d]) false)
  | sm_send_err d rest s : sm_over s = false → sm_stderr s = d :: rest →
      stream_step s (mkStream (sm_stdout s) rest (sm_result s) (sm_sent s ++ [POutput stderr d]) false)
  | sm_send_status status s : sm_over s = false → sm_result s = Some (inl status) →
      stream_step s (mkStream (sm_stdout s) (sm_stderr s) (sm_result s) (sm_sent s ++ [PExit status]) true)
  | sm_send_error e s : sm_over s = false → sm_result s = Some (inr e) →
      stream_step s (mkStream (sm_stdout s) (sm_stderr s) (sm_result s) (sm_sent s ++ [PError (err_msg e)]) true)
  | sm_stopping s : sm_over s = false →
      stream_step s (mkStream (sm_stdout s) (sm_stderr s) (sm_result s) (sm_sent s) true).

(** A stream, with what the process has written to stdout and to stderr. *)
Inductive stream_run : list string → list string → stream → Prop :=
  | run_new : stream_run [] [] new_stream
  | run_out d o e s : stream_run o e s → stream_run (o ++ [d]) e (write_out d s)
  | run_err d o e s : stream_run o e s → stream_run o (e ++ [d]) (write_err d s)
  | run_step o e s s' : stream_run o e s → stream_step s s' → stream_run o e s'.

(** What a client got of one of the outputs *)
Definition received (src : source) (sent : list payload) : list string :=
  omap (λ p, match p with
             | POutput src' d => if decide (src' = src) then Some d else None
             | _ => None
             end) sent.

(** [streamInput]: what becomes of the payloads a client sends. A [Write] that fails ends
    it; a payload that is neither input nor a terminal's size does, too. *)
Inductive input_action := InSetTTY (tty : TTYSpec) | InClose | InWrite (data : string).

Fixpoint streamInput (payloads : list (ProcessPayload * bool)) : list input_action :=
  match payloads with
  | [] => []
  | (p, written) :: rest =>
      match pp_Tty p, pp_Source p with
      | Some tty, _ =>
          match ttySpecFrom (Some tty) with Some spec => InSetTTY spec :: streamInput rest | None => [] end
      | None, Some _ =>
          match pp_Data p with
          | None => InClose :: streamInput rest
          | Some data => InWrite data :: (if written then streamInput rest else [])
          end
      | None, None => []
      end
  end.

(** * The server's connections *)

Inductive ConnState := StateNew | StateActive | StateIdle | StateHijacked | StateClosed.

(** [cn_handling]: the counter of the wait group; [cn_idle]: the map [conns];
    [cn_closed]: the connections the server has closed. *)
Record Conns := mkConns {
  cn_handling : Z;
  cn_idle : gset nat;
  cn_stopping : bool;
  cn_closed : gset nat
}.

Definition new_conns : Conns := mkConns 0 ∅ false ∅.

(** [http.Server.ConnState] *)
Definition conn_state (c : nat) (st : ConnState) (k : Conns) : Conns :=
  match st with
  | StateNew => mkConns (cn_handling k + 1) (cn_idle k) (cn_stopping k) (cn_closed k)
  | StateActive => mkConns (cn_handling k) (cn_idle k ∖ {[c]}) (cn_stopping k) (cn_closed k)
  | StateIdle =>
      if cn_stopping k then mkConns (cn_handling k) (cn_idle k) (cn_stopping k) ({[c]} ∪ cn_closed k)
      else mkConns (cn_handling k) ({[c]} ∪ cn_idle k) (cn_stopping k) (cn_closed k)
  | StateHijacked | StateClosed =>
      mkConns (cn_handling k - 1) (cn_idle k ∖ {[c]}) (cn_stopping k) (cn_closed k)
  end.

(** [Stop], up to its wait *)
Definition stop_conns (k : Conns) : Conns :=
  mkConns (cn_handling k) ∅ true (cn_idle k ∪ cn_closed k).

(** [s.handling.Wait()] returns. *)
Definition wait_over (k : Conns) : bool := cn_handling k =? 0.

(** What [net/http] does with a connection: it serves requests until it is closed or taken
    over. A connection the server has closed is reported closed, unless a request was
    being served. *)
Inductive conn_next : ConnState → ConnState → Prop :=
  | cn_request : conn_next StateNew StateActive
  | cn_done : conn_next StateActive StateIdle
  | cn_again : conn_next StateIdle StateActive
  | cn_close st : st ≠ StateHijacked → st ≠ StateClosed → conn_next st StateClosed
  | cn_hijack : conn_next StateActive StateHijacked.

(** The connections there are, by the state they were last reported in. *)
Inductive conns_step : gmap nat ConnState * Conns → gmap nat ConnState * Conns → Prop :=
  | cs_accept c m k : m !! c = None → c ∉ cn_closed k → conns_step (m, k) (<[c := StateNew]> m, conn_state c StateNew k)
  | cs_next c st st' m k : m !! c = Some st → conn_next st st' →
      conns_step (m, k)
        (match st' with StateHijacked | StateClosed => base.delete c m | _ => <[c := st']> m end, conn_state c st' k)
  | cs_stop m k : conns_step (m, k) (m, stop_conns k).

(** * Starting and stopping *)

Section lifecycle.
Context {K : Kernel} {UP NP PP : Type} {codec : SnapshotCodec}.
Context `{!ResourcePool UP Z Z, !ResourcePool NP Network string, !ResourcePool PP Z Z}.
Context `{!SizedPool UP, !SizedPool NP, !NetworkedPool NP}.
Context (b : BackendConf) (os_IsNotExist : error → bool) (listenNetwork listenAddr : string).
Local Abbreviation SS := (SState UP NP PP).

Definition on_trace {A} (m : M Trace A) : M SS A := on_backend (b_on_trace m).

Definition removeExistingSocket : M Trace unit :=
  if negb (String.eqb listenNetwork "unix") then mret tt
  else
    r ← attempt (sys_ (SStat listenAddr));
    let missing := match r with inr e => os_IsNotExist e | inl _ => false end in
    if missing then mret tt
    else
      r ← attempt (sys_ (SRemove listenAddr));
      match r with
      | inl _ => mret tt
      | inr e => raise (errors_New ("error deleting existing socket: " +:+ err_msg e))
      end.

Definition Start : M SS unit :=
  on_trace removeExistingSocket ≫= λ _,
  on_backend (LinuxBackend.Start b) ≫= λ _,
  on_trace (sys_ (SListen listenNetwork listenAddr)) ≫= λ _,
  (if String.eqb listenNetwork "unix" then on_trace (ignore_err (sys_ (SChmod listenAddr 511))) else mret tt) ≫= λ _,
  containers ← on_backend (Containers ∅);
  for_each (λ c, send (MStrap (c_handle c) (GraceTime c))) containers.

(** Once [handling.Wait] has returned *)
Definition StopBackend : M SS unit := on_backend (LinuxBackend.Stop b).
End lifecycle.

(** * Specifications *)

(** A server serves a request, a request that stayed open ends, a bomb goes off, time
    passes, a process of a container makes a step. Requests are any, and so is what becomes
    of them: a handler may fail, panic or block, and so may a detonation. They come one at
    a time, but for those that stay open; overlapping ones are in Concurrent.v and, as far
    as bombs are concerned, in Bomberman.v.

    [orderly] are handles for which it is assumed that no container is created under them
    while a bomb or an open request of an earlier one is there, and that their detonations
    return. With [orderly := λ _, False], nothing is assumed. *)
Section steps.
Context {K : Kernel} {UP NP PP : Type} {codec : SnapshotCodec}.
Context `{!ResourcePool UP Z Z, !ResourcePool NP Network string, !ResourcePool PP Z Z}.
Context `{!SizedPool UP, !SizedPool NP, !NetworkedPool NP}.
Context (b : BackendConf) (containerGraceTime : Z) (orderly : string → Prop).
Local Abbreviation SS := (SState UP NP PP).

Definition unused_handle (s : SS) (h : string) : Prop :=
  timeBombs (ss_bombs s) !! h = None ∧ h ∉ ss_streams s.

Definition creates_unused (route : Route) (rq : HttpRequest) (s : SS) : Prop :=
  route = Create → ∀ request c bs',
    readRequest CreateRequest_codec rq = Ok request →
    LinuxBackend.Create b (container_spec containerGraceTime request) (ss_backend s) = (Ok c, bs') →
    orderly (c_handle c) → unused_handle s (c_handle c).

Inductive server_step : SS → SS → Prop :=
  | sv_serve route rq s r s' :
      serve b containerGraceTime route rq s = (r, s') → creates_unused route rq s →
      server_step s s'
  | sv_stream_ends h others s : ss_streams s ≡ₚ h :: others →
      server_step s (mkSState (ss_backend s) (manage (MUnpause h) (ss_bombs s)) others)
  | sv_reap t h bombs s r s' : fire t (ss_bombs s) = Some (h, bombs) →
      detonate b h (mkSState (ss_backend s) bombs (ss_streams s)) = (r, s') → (orderly h → r = Ok tt) →
      server_step s s'
  | sv_elapse d s : 0 ≤ d →
      server_step s (mkSState (ss_backend s) (elapse d (ss_bombs s)) (ss_streams s))
  | sv_goroutine handle c t' s :
      b_containers (ss_backend s) !! handle = Some c → ProcessTracker.tracker_step (c_processTracker c) t' →
      server_step s (mkSState (mkBState (b_pool (ss_backend s))
                                 (<[handle := set_processTracker t' c]> (b_containers (ss_backend s))))
                       (ss_bombs s) (ss_streams s)).

(** What a request does to the bombs and the open streams. *)
Inductive bombs_effect (s s' : SS) : Prop :=
  | be_none : ss_bombs s' = ss_bombs s → ss_streams s' = ss_streams s → bombs_effect s s'
  | be_pause h : ss_bombs s' = manage (MUnpause h) (manage (MPause h) (ss_bombs s)) →
      ss_streams s' = ss_streams s → bombs_effect s s'
  | be_stream h : ss_bombs s' = manage (MPause h) (ss_bombs s) → ss_streams s' = h :: ss_streams s →
      bombs_effect s s'
  | be_strap h g : ss_bombs s' = manage (MStrap h g) (ss_bombs s) → ss_streams s' = ss_streams s →
      (orderly h → unused_handle s h) → bombs_effect s s'
  | be_defuse h : ss_bombs s' = manage (MDefuse h) (ss_bombs s) → ss_streams s' = ss_streams s → bombs_effect s s'.

(** The requests and the bombs of a server, between two steps. [reaping]: the detonations
    that did not return. *)
Definition bomb_system (s : SS) (reaping : list string) (last : gmap string Z) : BombSystem :=
  mkBombSystem (ss_bombs s) (ss_streams s) reaping last.
End steps.

(** * Lemmas *)

Section server_lemmas.
Context {K : Kernel} {UP NP PP : Type} {codec : SnapshotCodec}.
Context `{!ResourcePool UP Z Z, !ResourcePool NP Network string, !ResourcePool PP Z Z}.
Context `{!SizedPool UP, !SizedPool NP, !NetworkedPool NP}.
Context (b : BackendConf) (containerGraceTime : Z) (orderly : string → Prop).
Local Abbreviation SS := (SState UP NP PP).
Local Abbreviation BS := (BState UP NP PP).
Implicit Types (s : SS) (bs : BS) (c : LinuxContainer).

(** ** A relation that every request keeps *)

Lemma discard_state {A} (m : M (CState PP) A) cs : (discard m cs).2 = (m cs).2.
Proof. unfold discard, mbind, M_bind. by destruct (m cs) as [[] ?]. Qed.

Section serve_relation.
Context (R : relation SS) `{!PreOrder R}.
Context (Hsend : ∀ msg, steps R (send (UP := UP) (NP := NP) (PP := PP) msg)).
Context (Hstreams : ∀ s h, R s (mkSState (ss_backend s) (ss_bombs s) (h :: ss_streams s))).
Context (Hcreate : ∀ spec, steps R (on_backend (LinuxBackend.Create b spec))).
Context (Hdestroy : ∀ h, steps R (on_backend (LinuxBackend.Destroy b h))).
Context (Hcapacity : steps R (on_backend (LinuxBackend.Capacity b))).
Context (Hop : ∀ c A (m : M (CState PP) A) o, (∀ cs : CState PP, (do_op o cs).2 = (m cs).2) → steps R (container_op c m)).

Lemma on_backend_keeps {A} (m : M BS A) : (∀ bs, (m bs).2 = bs) → steps R (on_backend m).
Proof using PreOrder0.
  intros Hm [bs bombs ss]. unfold on_backend, zoom. cbn. specialize (Hm bs). destruct (m bs) as [r bs'].
  cbn in *. by subst.
Qed.

Lemma Lookup_keeps h : steps R (on_backend (LinuxBackend.Lookup h)).
Proof using PreOrder0.
  apply on_backend_keeps. intros bs. unfold Lookup, gets, mbind, M_bind. by destruct (b_containers bs !! h).
Qed.

Lemma or_writeError_keeps m : steps R m → steps R (or_writeError m).
Proof using PreOrder0. intros Hm. unfold or_writeError. repeat mstep. done. Qed.

Lemma defer_unpause_keeps {A} h (m : M SS A) : steps R m → steps R (defer_unpause h m).
Proof using All.
  intros Hm s. unfold defer_unpause. specialize (Hm s). destruct (m s) as [r s']. 
  assert (R s (send (MUnpause h) s').2) by (etrans; [exact Hm|apply Hsend]).
  destruct r as [|?|[]]; try done. etrans; [exact Hm|]. apply Hstreams.
Qed.

Lemma keep_paused_keeps h m : steps R m → steps R (keep_paused h m).
Proof using All.
  intros Hm s. unfold keep_paused. specialize (Hm s). destruct (m s) as [r s'].
  assert (R s (send (MUnpause h) s').2) by (etrans; [exact Hm|apply Hsend]).
  destruct r as [|?|[]]; try done; (etrans; [exact Hm|]; apply Hstreams).
Qed.

Lemma with_lookup_keeps rq k : (∀ c, steps R (k c)) → steps R (with_lookup rq k).
Proof using All.
  intros Hk. unfold with_lookup. repeat mstep; auto using Lookup_keeps, defer_unpause_keeps, or_writeError_keeps.
Qed.

Lemma with_stream_keeps rq k : (∀ c, steps R (k c)) → steps R (with_stream rq k).
Proof using All.
  intros Hk. unfold with_stream. repeat mstep; auto using Lookup_keeps, keep_paused_keeps.
Qed.

Ltac serve_step := first
  [ apply or_writeError_keeps | apply with_lookup_keeps; intros ? | apply with_stream_keeps; intros ?
  | mstep | case_match ].

(** Every call of a container is one of its operations. *)
Ltac container_call :=
  first
  [ by eapply (Hop _ _ _ (OStop _)) | by eapply (Hop _ _ _ (OStreamIn _ _)) | by eapply (Hop _ _ _ (ONetOut _ _))
  | by eapply (Hop _ _ _ (OLimitBandwidth _)) | by eapply (Hop _ _ _ (OLimitDisk _))
  | by eapply (Hop _ _ _ (OLimitMemory _)) | by eapply (Hop _ _ _ (OLimitCPU _))
  | eapply (Hop _ _ _ (OStreamOut _)); intros; apply discard_state
  | eapply (Hop _ _ _ OCurrentBandwidthLimits); intros; apply discard_state
  | eapply (Hop _ _ _ OCurrentDiskLimits); intros; apply discard_state
  | eapply (Hop _ _ _ OCurrentMemoryLimits); intros; apply discard_state
  | eapply (Hop _ _ _ OCurrentCPULimits); intros; apply discard_state
  | eapply (Hop _ _ _ (ONetIn _ _)); intros; apply discard_state
  | eapply (Hop _ _ _ OInfo); intros; apply discard_state
  | eapply (Hop _ _ _ (ORun _ _)); intros; apply discard_state
  | eapply (Hop _ _ _ (OAttach _ _)); intros; apply discard_state ].

Lemma serve_keeps route rq : steps R (serve b containerGraceTime route rq).
Proof using All.
  destruct route; cbn [serve];
    unfold handlePing, handleCapacity, handleCreate, handleDestroy, handleList, handleStop, handleStreamIn,
      handleStreamOut, handleLimitBandwidth, handleCurrentBandwidthLimits, handleLimitCPU, handleCurrentCPULimits,
      handleLimitDisk, handleCurrentDiskLimits, handleLimitMemory, handleCurrentMemoryLimits, handleNetIn,
      handleNetOut, handleInfo, handleRun, handleAttach, reply_bandwidth, reply_memory, reply_disk, reply_cpu;
    repeat serve_step; auto; try (by apply on_backend_keeps); container_call.
Qed.
End serve_relation.

(** ** What a request does to the bombs *)

Definition quiet : relation SS := λ s s', ss_bombs s' = ss_bombs s ∧ ss_streams s' = ss_streams s.

#[local] Instance quiet_preorder : PreOrder quiet.
Proof using Type. split; [done|]. intros s1 s2 s3 [] []. split; congruence. Qed.

Lemma on_backend_quiet {A} (m : M BS A) : steps quiet (on_backend m).
Proof using Type. intros s. unfold on_backend, zoom. by destruct (m _) as [r bs]. Qed.

Lemma container_op_quiet {A} c (m : M (CState PP) A) : steps quiet (container_op c m).
Proof using Type. apply on_backend_quiet. Qed.

Lemma effect_quiet_l s s1 s2 : quiet s s1 → bombs_effect orderly s1 s2 → bombs_effect orderly s s2.
Proof using Type.
  intros [E1 E2] H. destruct H as [H1 H2|h H1 H2|h H1 H2|h g H1 H2 H3|h H1 H2]; unfold unused_handle in *; rewrite E1, E2 in *.
  - by apply be_none.
  - by apply (be_pause _ _ _ h).
  - by apply (be_stream _ _ _ h).
  - by apply (be_strap _ _ _ h g).
  - by apply (be_defuse _ _ _ h).
Qed.

Lemma effect_quiet_r s s1 s2 : bombs_effect orderly s s1 → quiet s1 s2 → bombs_effect orderly s s2.
Proof using Type.
  intros H [E1 E2]. destruct H as [H1 H2|h H1 H2|h H1 H2|h g H1 H2 H3|h H1 H2]; rewrite <-E1, <-E2 in *.
  - by apply be_none.
  - by apply (be_pause _ _ _ h).
  - by apply (be_stream _ _ _ h).
  - by apply (be_strap _ _ _ h g).
  - by apply (be_defuse _ _ _ h).
Qed.

Definition eff {A} (m : M SS A) : Prop := ∀ s, bombs_effect orderly s (m s).2.

Lemma eff_quiet {A} (m : M SS A) : steps quiet m → eff m.
Proof using Type. intros Hm s. destruct (Hm s). by apply be_none. Qed.

Lemma eff_bind_l {A B} (m : M SS A) (k : A → M SS B) : steps quiet m → (∀ a, eff (k a)) → eff (m ≫= k).
Proof using Type.
  intros Hm Hk s. specialize (Hm s). unfold mbind, M_bind. destruct (m s) as [[a|e|f] s1]; cbn in *.
  - eapply effect_quiet_l; [exact Hm|]. by apply Hk.
  - destruct Hm. by apply be_none.
  - destruct Hm. by apply be_none.
Qed.

Lemma eff_bind_r {A B} (m : M SS A) (k : A → M SS B) : eff m → (∀ a, steps quiet (k a)) → eff (m ≫= k).
Proof using Type.
  intros Hm Hk s. specialize (Hm s). unfold mbind, M_bind. destruct (m s) as [[a|e|f] s1]; cbn in *.
  - eapply effect_quiet_r; [by apply Hm|]. apply Hk.
  - exact Hm.
  - exact Hm.
Qed.

Lemma eff_or_writeError m : eff m → eff (or_writeError m).
Proof using Type.
  intros Hm. apply eff_bind_r; [|intros ?; mstep]. intros s. specialize (Hm s). unfold attempt.
  by destruct (m s) as [[a|e|f] s1].
Qed.

Lemma eff_send msg : (∀ s, bombs_effect orderly s (send (UP := UP) (NP := NP) (PP := PP) msg s).2) →
  eff (send (UP := UP) (NP := NP) (PP := PP) msg).
Proof using Type. intros H s. apply H. Qed.

Lemma or_writeError_quiet m : steps quiet m → steps quiet (or_writeError m).
Proof using Type. apply or_writeError_keeps. apply _. Qed.

(** The bomb is paused and unpaused around what does not touch it. *)
Lemma eff_with_lookup rq k : (∀ c, steps quiet (k c)) → eff (with_lookup rq k).
Proof using Type.
  intros Hk. unfold with_lookup. apply eff_bind_l; [apply on_backend_quiet|]. intros c [bs bombs ss].
  rewrite (bind_Ok _ _ _ tt (mkSState bs (manage (MPause (c_handle c)) bombs) ss)) by done. unfold defer_unpause. cbn [ss_backend ss_bombs ss_streams].
  pose proof (or_writeError_quiet (k c) (Hk c) (mkSState bs (manage (MPause (c_handle c)) bombs) ss)) as [E1 E2].
  destruct (or_writeError (k c) _) as [r s']. cbn [snd ss_bombs ss_streams] in E1, E2.
  assert (He : bombs_effect orderly (mkSState bs bombs ss) (send (MUnpause (c_handle c)) s').2).
  { apply (be_pause _ _ _ (c_handle c)); cbn [send modify snd ss_bombs ss_streams]; [by rewrite E1|by rewrite E2]. }
  assert (Hs : bombs_effect orderly (mkSState bs bombs ss)
                 (mkSState (ss_backend s') (ss_bombs s') (c_handle c :: ss_streams s'))).
  { apply (be_stream _ _ _ (c_handle c)); cbn; [done|by rewrite E2]. }
  by destruct r as [|?|[]].
Qed.

Lemma eff_with_stream rq k : (∀ c, steps quiet (k c)) → eff (with_stream rq k).
Proof using Type.
  intros Hk. unfold with_stream. apply eff_bind_l; [apply on_backend_quiet|]. intros c [bs bombs ss].
  rewrite (bind_Ok _ _ _ tt (mkSState bs (manage (MPause (c_handle c)) bombs) ss)) by done. unfold keep_paused. cbn [ss_backend ss_bombs ss_streams].
  pose proof (Hk c (mkSState bs (manage (MPause (c_handle c)) bombs) ss)) as [E1 E2].
  destruct (k c _) as [r s']. cbn [snd ss_bombs ss_streams] in E1, E2.
  assert (He : bombs_effect orderly (mkSState bs bombs ss) (send (MUnpause (c_handle c)) s').2).
  { apply (be_pause _ _ _ (c_handle c)); cbn [send modify snd ss_bombs ss_streams]; [by rewrite E1|by rewrite E2]. }
  assert (Hs : bombs_effect orderly (mkSState bs bombs ss)
                 (mkSState (ss_backend s') (ss_bombs s') (c_handle c :: ss_streams s'))).
  { apply (be_stream _ _ _ (c_handle c)); cbn; [done|by rewrite E2]. }
  by destruct r as [|?|[]].
Qed.

Ltac quiet_call :=
  unfold reply_bandwidth, reply_memory, reply_disk, reply_cpu;
  repeat first [apply container_op_quiet | apply on_backend_quiet | mstep | case_match].

Lemma eff_handler {A} (r : Result A) rq (k : A → LinuxContainer → M SS Response) :
  (∀ a c, steps quiet (k a c)) → eff (or_writeError (a ← of_result r; with_lookup rq (k a))).
Proof using Type.
  intros Hk. apply eff_or_writeError, eff_bind_l; [mstep|]. intros a. by apply eff_with_lookup.
Qed.

Lemma eff_stream_handler {A} (r : Result A) rq (k : A → LinuxContainer → M SS Response) :
  (∀ a c, steps quiet (k a c)) → eff (or_writeError (a ← of_result r; with_stream rq (k a))).
Proof using Type.
  intros Hk. apply eff_or_writeError, eff_bind_l; [mstep|]. intros a. by apply eff_with_stream.
Qed.

Lemma eff_serve route rq : route ≠ Create → eff (serve b containerGraceTime route rq).
Proof using Type.
  intros Hne. destruct route; try done; cbn [serve];
    try (apply eff_handler; intros; quiet_call);
    try (apply eff_stream_handler; intros; quiet_call);
    try (apply eff_or_writeError, eff_with_lookup; intros; quiet_call);
    try (apply eff_quiet; unfold handlePing, handleCapacity, handleList, or_writeError; by quiet_call).
  apply eff_or_writeError, eff_bind_l; [apply on_backend_quiet|]. intros _.
  apply eff_bind_r; [|intros _; mstep]. apply eff_send. intros s. by apply (be_defuse _ _ _ (rq_handle rq)).
Qed.

Lemma effect_Create rq s :
  creates_unused b containerGraceTime orderly Create rq s →
  bombs_effect orderly s (handleCreate b containerGraceTime rq s).2.
Proof using Type.
  intros Hu. unfold handleCreate, or_writeError, attempt, mbind, M_bind, of_result.
  destruct (readRequest _ rq) as [request|e|f] eqn:Hr; cbn; [|by apply be_none..].
  destruct s as [bs bombs ss]. unfold on_backend, zoom. cbn.
  destruct (LinuxBackend.Create b _ bs) as [[c|e|f] bs'] eqn:Hc; cbn; [|by apply be_none..].
  by apply (be_strap _ _ _ (c_handle c) (GraceTime c)); [..|apply (Hu eq_refl request c bs')].
Qed.

Lemma serve_effect route rq s :
  creates_unused b containerGraceTime orderly route rq s →
  bombs_effect orderly s (serve b containerGraceTime route rq s).2.
Proof using Type.
  intros Hu. destruct (decide (route = Create)) as [->|Hne]; [by apply effect_Create|by apply eff_serve].
Qed.

(** ** A server's step is steps of its bombs *)

Definition none_reaping (reaping : list string) : Prop := ∀ h, orderly h → h ∉ reaping.

Lemma effect_steps s s' reaping last :
  none_reaping reaping → bombs_effect orderly s s' →
  ∃ last', rtc (bomb_step orderly) (bomb_system s reaping last) (bomb_system s' reaping last').
Proof using Type.
  unfold bomb_system. intros Hr [H1 H2|h H1 H2|h H1 H2|h g H1 H2 H3|h H1 H2]; rewrite H1, H2.
  - by exists last.
  - eexists. eapply rtc_l; [apply (bo_pause _ h), Hr|]. eapply rtc_once. by apply (bo_unpause _ h (ss_streams s)).
  - eexists. apply rtc_once, (bo_pause _ h), Hr.
  - eexists. apply rtc_once, bo_strap. intros Hh. destruct (H3 Hh). split_and!; [done|done|by apply Hr].
  - eexists. apply rtc_once, bo_defuse.
Qed.

Lemma detonate_bombs h s r s' :
  detonate b h s = (r, s') →
  ss_streams s' = ss_streams s ∧
  (ss_bombs s' = manage (MCleanup h) (ss_bombs s) ∨ r ≠ Ok tt ∧ ss_bombs s' = ss_bombs s).
Proof using Type.
  unfold detonate, mbind, M_bind.
  assert (Hs : steps quiet (reapContainer (UP := UP) (NP := NP) (PP := PP) b h))
    by (unfold reapContainer; repeat mstep; apply on_backend_quiet).
  specialize (Hs s). destruct (reapContainer b h s) as [[[]|e|f] s1]; destruct Hs as [E1 E2]; cbn in E1, E2.
  - intros [= <- <-]. cbn. rewrite E1, E2. by split; [|left].
  - intros [= <- <-]. by split; [|right].
  - intros [= <- <-]. by split; [|right].
Qed.

Lemma server_step_bombs s s' reaping last :
  none_reaping reaping → server_step b containerGraceTime orderly s s' →
  ∃ reaping' last', none_reaping reaping' ∧
    rtc (bomb_step orderly) (bomb_system s reaping last) (bomb_system s' reaping' last').
Proof using Type.
  intros Hr [route rq s0 r s1 Hs Hu|h others s0 Ho|t h bombs s0 r s1 Hf Hd Ht|d s0 Hd|handle c t' s0 _ _].
  - pose proof (serve_effect route rq s0 Hu) as He. rewrite Hs in He.
    destruct (effect_steps _ _ reaping last Hr He) as [last' H]. by exists reaping, last'.
  - exists reaping. eexists. split; [done|]. by apply rtc_once, (bo_unpause _ h others (bomb_system s0 reaping last)).
  - apply detonate_bombs in Hd as [E2 E1]. cbn [ss_bombs ss_streams] in E1, E2. unfold bomb_system. rewrite E2.
    pose proof (bo_fire orderly t h bombs (bomb_system s0 reaping last) Hf) as Hfire. destruct E1 as [->|[Hne ->]].
    + exists reaping, last. split; [done|]. eapply rtc_l; [exact Hfire|]. apply rtc_once.
      by apply (bo_cleanup _ h reaping (mkBombSystem bombs (ss_streams s0) (h :: reaping) last)).
    + exists (h :: reaping), last. split; [|by apply rtc_once].
      intros h' Hh'. rewrite not_elem_of_cons. split; [|by apply Hr]. intros ->. by apply Hne, Ht.
  - exists reaping, last. split; [done|]. by apply rtc_once, (bo_elapse _ d (bomb_system s0 reaping last)).
  - by exists reaping, last.
Qed.

Lemma server_steps_bombs s s' reaping last :
  none_reaping reaping → rtc (server_step b containerGraceTime orderly) s s' →
  ∃ reaping' last', none_reaping reaping' ∧
    rtc (bomb_step orderly) (bomb_system s reaping last) (bomb_system s' reaping' last').
Proof using Type.
  intros Hr Hst. revert reaping last Hr. induction Hst as [|s1 s2 s3 H _ IH]; intros reaping last Hr; [by exists reaping, last|].
  destruct (server_step_bombs _ _ reaping last Hr H) as (r1 & last1 & Hr1 & H1).
  destruct (IH r1 last1 Hr1) as (r2 & last2 & Hr2 & H2). exists r2, last2. split; [done|]. by etrans.
Qed.

(** ** Resources *)

Context `{!ResourcePoolLaws UP Z Z, !ResourcePoolLaws NP Network string, !ResourcePoolLaws PP Z Z}.
Context (iu : list Z) (nets : list string) (ip : list Z).

Definition server_ok s : Prop := ∃ leaked, backend_ok iu nets ip (ss_backend s) leaked.
Definition ok_rel : relation SS := inv_rel server_ok.

Lemma on_backend_ok {A} (m : M BS A) :
  (∀ bs leaked, backend_ok iu nets ip bs leaked → ∃ leaked', backend_ok iu nets ip (m bs).2 leaked') →
  steps ok_rel (on_backend m).
Proof using Type.
  intros Hm [bs bombs ss] [leaked Hok]. destruct (Hm bs leaked Hok) as [leaked' H'].
  unfold on_backend, zoom, server_ok. cbn. destruct (m bs) as [r bs']. by exists leaked'.
Qed.

(** Whatever only adds to the trace *)
Lemma trace_ok bs h leaked :
  backend_ok iu nets ip bs leaked →
  backend_ok iu nets ip (mkBState (mkPState h (ps_uids (b_pool bs)) (ps_networks (b_pool bs)) (ps_ports (b_pool bs))
                                     (ps_containerNum (b_pool bs))) (b_containers bs)) leaked.
Proof using Type.
  intros [H1 H2 H3]. split; [|done|done]. cbn. destruct (b_pool bs). by eapply accounts_trace.
Qed.

Lemma b_on_trace_ok {A} (m : M Trace A) bs leaked :
  backend_ok iu nets ip bs leaked → backend_ok iu nets ip (b_on_trace m bs).2 leaked.
Proof using Type.
  intros Hok. pose proof (trace_ok bs (m (ps_trace (b_pool bs))).2 leaked Hok) as H.
  destruct bs as [[h u n q k] cs]. unfold b_on_trace, on_pool, p_on_trace, zoom. cbn in *. by destruct (m h) as [r h'].
Qed.

Lemma Capacity_ok bs leaked :
  backend_ok iu nets ip bs leaked → backend_ok iu nets ip (LinuxBackend.Capacity b bs).2 leaked.
Proof using Type.
  intros Hok. unfold LinuxBackend.Capacity.
  assert (Hb : ∀ A B (m : M BS A) (k : A → M BS B),
            (∀ bs, backend_ok iu nets ip bs leaked → backend_ok iu nets ip (m bs).2 leaked) →
            (∀ a bs, backend_ok iu nets ip bs leaked → backend_ok iu nets ip (k a bs).2 leaked) →
            ∀ bs, backend_ok iu nets ip bs leaked → backend_ok iu nets ip ((m ≫= k) bs).2 leaked).
  { intros A B m k Hm Hk bs0 H0. specialize (Hm bs0 H0). unfold mbind, M_bind. destruct (m bs0) as [[] ?]; [by apply Hk|done..]. }
  apply Hb; [intros; by apply b_on_trace_ok| |done]. intros mem. apply Hb; [intros; by apply b_on_trace_ok|].
  intros disk. apply Hb; [|done]. intros [s m] H. exact H.
Qed.

(** Whatever leaves the pools and the containers alone *)
Definition same_pools : relation (PState UP NP PP) := λ p p',
  ps_uids p' = ps_uids p ∧ ps_networks p' = ps_networks p ∧ ps_ports p' = ps_ports p.

#[local] Instance same_pools_preorder : PreOrder same_pools.
Proof using Type. split; [done|]. intros p1 p2 p3 (? & ? & ?) (? & ? & ?). split_and!; congruence. Qed.

Lemma p_on_trace_same {A} (m : M Trace A) : steps same_pools (p_on_trace m).
Proof using Type. intros p. unfold p_on_trace, zoom. by destruct (m _). Qed.

Lemma on_pool_same {A} (m : M (PState UP NP PP) A) bs leaked :
  steps same_pools m → backend_ok iu nets ip bs leaked → backend_ok iu nets ip (on_pool m bs).2 leaked.
Proof using Type.
  intros Hm [H1 H2 H3]. specialize (Hm (b_pool bs)). unfold on_pool, zoom. cbn.
  destruct (m (b_pool bs)) as [r p']. destruct Hm as (E1 & E2 & E3). cbn in *. split; [|done|done]. cbn.
  destruct (b_pool bs), p'. cbn in *. subst. by eapply accounts_trace.
Qed.

Lemma Setup_ok : steps ok_rel (on_backend (LinuxBackend.Setup b)).
Proof using Type.
  apply on_backend_ok. intros bs leaked Hok. exists leaked. apply on_pool_same; [|done].
  unfold ContainerPool.Setup. repeat mstep. apply p_on_trace_same.
Qed.

Lemma Prune_same keep : steps same_pools (Prune (NP := NP) (UP := UP) (PP := PP) (pool_conf b) keep).
Proof using Type. unfold Prune. repeat mstep; apply p_on_trace_same. Qed.

(** Without snapshots, starting restores nothing. *)
Lemma Start_ok os_IsNotExist network addr :
  snapshotsPath b = "" → steps ok_rel (Start (UP := UP) (NP := NP) (PP := PP) b os_IsNotExist network addr).
Proof using Type.
  intros Hs. assert (Htrace : ∀ A (m : M Trace A), steps ok_rel (on_trace (UP := UP) (NP := NP) (PP := PP) m)).
  { intros A m. apply on_backend_ok. intros bs leaked Hok. exists leaked. by apply b_on_trace_ok. }
  unfold Start. repeat mstep; auto; try (intros s H; exact H).
  - apply on_backend_ok. intros bs leaked Hok. exists leaked. unfold LinuxBackend.Start. rewrite Hs. cbn -[on_pool].
    unfold mbind, M_bind. cbn -[on_pool]. by apply on_pool_same; [apply Prune_same|].
  - intros [bs bombs ss] Hok. exact Hok.
Qed.

Lemma serve_ok route rq : steps ok_rel (serve b containerGraceTime route rq).
Proof using All.
  apply serve_keeps; [apply _|intros msg s Hs; exact Hs|intros s h Hs; exact Hs|..].
  - intros spec. apply on_backend_ok. intros bs leaked Hok.
    pose proof (b_step_ok b iu nets ip bs _ leaked (bs_create b spec bs) Hok) as H. exact H.
  - intros h. apply on_backend_ok. intros bs leaked Hok.
    pose proof (b_step_ok b iu nets ip bs _ leaked (bs_destroy b h bs) Hok) as H. exact H.
  - apply on_backend_ok. intros bs leaked Hok. exists leaked. apply Capacity_ok, Hok.
  - intros c A m o Hm. apply on_backend_ok. intros bs leaked Hok. exists leaked.
    apply with_container_ok; [intros cs|intros cs|done]; rewrite <-Hm; [apply op_owns_ports|apply op_evolves].
Qed.

Lemma serve_steps route rq s :
  creates_unused b containerGraceTime orderly route rq s →
  rtc (server_step b containerGraceTime orderly) s (serve b containerGraceTime route rq s).2.
Proof using Type. intros Hu. apply rtc_once. by eapply sv_serve; [apply surjective_pairing|]. Qed.

Lemma server_step_ok s s' : server_step b containerGraceTime orderly s s' → server_ok s → server_ok s'.
Proof using All.
  intros [route rq s0 r s1 Hs _|h others s0 _|t h bombs s0 r s1 _ Hd _|d s0 _|handle c t' s0 E Ht] Hok; try done.
  - pose proof (serve_ok route rq s0 Hok) as H. by rewrite Hs in H.
  - assert (H : steps ok_rel (detonate (UP := UP) (NP := NP) (PP := PP) b h)).
    { unfold detonate, reapContainer. repeat mstep; [|intros s2 Hs2; exact Hs2]. apply on_backend_ok.
      intros bs leaked Hbs. apply (b_step_ok b iu nets ip bs _ leaked (bs_destroy b h bs) Hbs). }
    specialize (H (mkSState (ss_backend s0) bombs (ss_streams s0)) Hok). by rewrite Hd in H.
  - destruct Hok as [leaked Hok].
    by apply (b_step_ok b iu nets ip _ _ leaked (bs_goroutine b handle c t' (ss_backend s0) E Ht)).
Qed.

Lemma server_steps_ok s s' : rtc (server_step b containerGraceTime orderly) s s' → server_ok s → server_ok s'.
Proof using All. induction 1; eauto using server_step_ok. Qed.
End server_lemmas.

(** ** Streams *)

Lemma received_app src l1 l2 : received src (l1 ++ l2) = received src l1 ++ received src l2.
Proof. unfold received. apply omap_app. Qed.

(** [kept o ch got]: of what was written, what was received and what is in the channel, in
    order; nothing is missing unless the channel was full once. *)
Definition kept (o ch got : list string) : Prop :=
  got ++ ch `sublist_of` o ∧ ((length o ≤ chan_capacity)%nat → got ++ ch = o).

Lemma kept_write d o ch got : kept o ch got → kept (o ++ [d]) (chanWriter_Write d ch) got.
Proof.
  intros [Hs Hc]. unfold kept, chanWriter_Write. rewrite length_app. cbn [length].
  destruct (Nat.ltb_spec (length ch) chan_capacity) as [Hl|Hl].
  - rewrite app_assoc. split; [by apply sublist_app|]. intros H. by rewrite Hc by lia.
  - split; [by apply sublist_inserts_r|]. intros H. apply sublist_length in Hs. rewrite length_app in Hs. lia.
Qed.

Lemma kept_send d o ch got : kept o (d :: ch) got → kept o ch (got ++ [d]).
Proof. unfold kept. by rewrite <-app_assoc. Qed.

Record stream_ok (o e : list string) (s : stream) : Prop := {
  so_out : kept o (sm_stdout s) (received stdout (sm_sent s));
  so_err : kept e (sm_stderr s) (received stderr (sm_sent s));
  so_exit st : PExit st ∈ sm_sent s → sm_result s = Some (inl st) ∧ sm_over s = true ∧ last (sm_sent s) = Some (PExit st)
}.

Lemma stream_step_ok o e s s' : stream_step s s' → stream_ok o e s → stream_ok o e s'.
Proof.
  intros Hst [H1 H2 H3].
  assert (Hno : sm_over s = false → ∀ st, PExit st ∉ sm_sent s).
  { intros Ho st (_ & Ht & _)%H3. congruence. }
  assert (Hsnoc : ∀ p st, sm_over s = false → PExit st ∈ sm_sent s ++ [p] → p = PExit st).
  { intros p st Ho [?|?%list_elem_of_singleton]%elem_of_app; [by destruct (Hno Ho st)|done]. }
  destruct Hst as [r s Hr|d rest s Ho Hb|d rest s Ho Hb|status s Ho Hr|err s Ho Hr|s Ho]; split;
    cbn [sm_stdout sm_stderr sm_sent sm_result sm_over];
    rewrite ?received_app; try done; try (by cbn; rewrite app_nil_r); try (by intros st E; apply Hsnoc in E).
  - intros st (E & _)%H3. congruence.
  - rewrite Hb in H1. by apply kept_send.
  - rewrite Hb in H2. by apply kept_send.
  - intros st E%Hsnoc; [|done]. injection E as ->. by rewrite last_snoc.
  - intros st Hin. by destruct (Hno Ho st).
Qed.

Lemma stream_run_ok o e s : stream_run o e s → stream_ok o e s.
Proof.
  induction 1 as [|d o e s _ [H1 H2 H3]|d o e s _ [H1 H2 H3]|o e s s' _ IH Hst].
  - split; [by split|by split|]. by intros st ?%elem_of_nil.
  - split; [by apply kept_write|done|done].
  - split; [done|by apply kept_write|done].
  - by eapply stream_step_ok.
Qed.

(** ** Connections *)

Record conns_ok (m : gmap nat ConnState) (k : Conns) : Prop := {
  co_handling : cn_handling k = Z.of_nat (size m);
  co_idle c : c ∈ cn_idle k → m !! c = Some StateIdle;
  co_new c : m !! c = Some StateNew → c ∉ cn_closed k
}.

Lemma conn_state_ok m k c st st' :
  m !! c = Some st → conn_next st st' → conns_ok m k →
  conns_ok (match st' with StateHijacked | StateClosed => base.delete c m | _ => <[c := st']> m end) (conn_state c st' k).
Proof.
  intros Hc Hn [H1 H2 H3].
  assert (Hdel : Z.of_nat (size (base.delete c m)) = Z.of_nat (size m) - 1).
  { rewrite map_size_delete, Hc. assert (size m ≠ 0)%nat by (intros ->%map_size_empty_inv; by rewrite lookup_empty in Hc).
    cbn. lia. }
  assert (Hsize : ∀ v : ConnState, size (<[c := v]> m) = size m) by (intros; by rewrite map_size_insert_Some).
  destruct st'; [by inversion Hn|..]; unfold conn_state; try destruct (cn_stopping k); split;
    cbn [cn_handling cn_idle cn_closed]; rewrite ?Hsize, ?Hdel; try lia; intros c'; destruct (decide (c' = c)) as [->|Hne];
    rewrite ?lookup_insert_eq, ?lookup_delete_eq, ?lookup_insert_ne, ?lookup_delete_ne by done; try set_solver.
Qed.

Lemma conns_step_ok m k m' k' : conns_step (m, k) (m', k') → conns_ok m k → conns_ok m' k'.
Proof.
  intros Hst Hok. inversion Hst as [c m0 k0 Hc Hf|c st st' m0 k0 Hc Hn|m0 k0]; subst; clear Hst;
    [|by eapply conn_state_ok|]; destruct Hok as [H1 H2 H3]; split; cbn; try done.
  - rewrite map_size_insert_None by done. lia.
  - intros c' Hc'%H2. rewrite lookup_insert_ne; [done|]. intros ->. congruence.
  - intros c'. destruct (decide (c = c')) as [<-|Hne]; [done|]. rewrite lookup_insert_ne by done. apply H3.
  - intros c Hc [Hi|?]%elem_of_union; [|by eapply H3]. apply H2 in Hi. congruence.
Qed.

Lemma conns_steps_ok m k : rtc conns_step (∅, new_conns) (m, k) → conns_ok m k.
Proof.
  intros Hs. cut (conns_ok (m, k).1 (m, k).2); [done|]. remember (∅, new_conns) as x eqn:E.
  assert (Hx : conns_ok x.1 x.2) by (subst; split; [done|set_solver|intros c Hc; cbn in Hc; by rewrite lookup_empty in Hc]).
  clear E. induction Hs as [|[m1 k1] [m2 k2] y Hst _ IH]; [done|]. apply IH. by eapply conns_step_ok.
Qed.

(** ** Messages *)

Lemma parse_json_no_crash s : no_crash (parse_json s).
Proof. unfold parse_json. by case_match. Qed.

Lemma readRequest_no_crash {A} (c : Codec A) rq : Decodes c → no_crash (readRequest c rq).
Proof.
  intros Hr. unfold readRequest. case_match; [done|]. apply no_crash_bind; [apply parse_json_no_crash|].
  intros [j rest]. apply Hr.
Qed.

Lemma ParseUint_no_crash s : no_crash (ParseUint s).
Proof.
  assert (Hloop : ∀ s0 s n, no_crash (parse_uint_loop s0 s n)).
  { intros s0 t. induction t as [|c t IH]; intros n; cbn; [done|]. by repeat case_match. }
  by destruct s; [|apply Hloop].
Qed.

Lemma scan_pid_no_crash s : no_crash (scan_pid s).
Proof.
  unfold scan_pid. apply no_crash_bind.
  - induction s as [|c s IH]; cbn; [done|]. by repeat case_match.
  - intros t. case_match; [done|]. apply no_crash_bind; [apply ParseUint_no_crash|]. intros v. by case_match.
Qed.

Definition payload_text (p : payload) : string :=
  match p with POutput _ data => data | PExit _ => "" | PError msg => msg end.

Lemma payload_ok id p :
  0 ≤ id < 2 ^ 32 → valid_utf8 (payload_text p) = true → c_ok ProcessPayload_codec (payload_msg id p).
Proof.
  intros Hid Hp. pose proof u32_range as Hu. destruct p as [src data|status|msg]; cbn; split_and!; try done; try lia;
    [by destruct src..|apply Hu|apply Hu].
Qed.

(** ** Refused requests *)

Section refused.
Context {K : Kernel} {UP NP PP : Type} {codec : SnapshotCodec}.
Context `{!ResourcePool UP Z Z, !ResourcePool NP Network string, !ResourcePool PP Z Z}.
Context `{!SizedPool UP, !SizedPool NP, !NetworkedPool NP}.
Context (b : BackendConf).
Local Abbreviation SS := (SState UP NP PP).
Implicit Types (s : SS) (k : LinuxContainer → M SS Response).

(** [m] fails and changes nothing. *)
Definition fails_at {A} (m : M SS A) s : Prop := ∃ e, m s = (Err e, s).

Lemma refused_at (m : M SS Response) s : fails_at m s → ∃ e, or_writeError m s = (Ok (RFailed e), s).
Proof using Type.
  intros [e He]. exists e. unfold or_writeError. by rewrite (bind_Ok _ _ _ _ _ (attempt_Err _ _ _ _ He)).
Qed.

Lemma fails_bind {A B} (m : M SS A) (f : A → M SS B) s : fails_at m s → fails_at (m ≫= f) s.
Proof using Type. intros [e He]. exists e. by apply bind_Err. Qed.

Lemma Lookup_fails h s : b_containers (ss_backend s) !! h = None → fails_at (on_backend (Lookup h)) s.
Proof using Type.
  intros Hn. exists (UnknownHandleError h). unfold on_backend, zoom, Lookup, gets, mbind, M_bind. cbn. rewrite Hn. by destruct s.
Qed.

Lemma Destroy_fails h s : b_containers (ss_backend s) !! h = None → fails_at (on_backend (LinuxBackend.Destroy b h)) s.
Proof using Type.
  intros Hn. exists (UnknownHandleError h). unfold on_backend, zoom, LinuxBackend.Destroy, Lookup, gets, mbind, M_bind. cbn.
  rewrite Hn. by destruct s.
Qed.

Lemma handler_fails {A} (r : Result A) (f : A → M SS Response) s :
  no_crash r → (∀ a, fails_at (f a) s) → fails_at (a ← of_result r; f a) s.
Proof using Type.
  intros Hr Hf. destruct r as [a|e|c]; [apply Hf|by exists e|by destruct (Hr c)].
Qed.

Lemma unknown_refused rq k s : b_containers (ss_backend s) !! rq_handle rq = None → fails_at (with_lookup rq k) s.
Proof using Type. intros Hn. by apply fails_bind, Lookup_fails. Qed.

Lemma unknown_stream_refused rq k s : b_containers (ss_backend s) !! rq_handle rq = None → fails_at (with_stream rq k) s.
Proof using Type. intros Hn. by apply fails_bind, Lookup_fails. Qed.
End refused.

(** ** Starting *)

Lemma has_no_properties c : containerHasProperties c ∅ = true.
Proof. unfold containerHasProperties. by rewrite map_to_list_empty. Qed.

Lemma filter_all {A} (f : A → bool) l : (∀ x, f x = true) → List.filter f l = l.
Proof. intros Hf. induction l as [|x l IH]; [done|]. cbn. by rewrite Hf, IH. Qed.

Lemma MStrap_keeps h' g h s : is_Some (timeBombs s !! h) → is_Some (timeBombs (manage (MStrap h' g) s) !! h).
Proof.
  intros Hs. cbn. case_match; [done|]. unfold on_bomb. case_match. case_match. cbn.
  destruct (decide (h' = h)) as [<-|]; [by rewrite lookup_insert_eq|by rewrite lookup_insert_ne].
Qed.

Lemma MStrap_adds h g s : g ≠ 0 → is_Some (timeBombs (manage (MStrap h g) s) !! h).
Proof.
  intros Hg. cbn. rewrite (proj2 (Z.eqb_neq g 0) Hg). unfold on_bomb. case_match. case_match. cbn. by rewrite lookup_insert_eq.
Qed.

Lemma straps_all {UP NP PP} cs (s s' : SState UP NP PP) :
  for_each (λ c, send (MStrap (c_handle c) (GraceTime c))) cs s = (Ok tt, s') →
  ss_backend s' = ss_backend s ∧ (∀ h, is_Some (timeBombs (ss_bombs s) !! h) → is_Some (timeBombs (ss_bombs s') !! h)) ∧
  ∀ c, c ∈ cs → GraceTime c ≠ 0 → is_Some (timeBombs (ss_bombs s') !! c_handle c).
Proof.
  revert s. induction cs as [|c cs IH]; intros s; cbn [for_each]; [intros [= <-]|].
  { split_and!; [done..|]. by intros c ?%elem_of_nil. }
  intros (? & s1 & [= _ <-] & (E & Hk & Hall)%IH)%bind_Ok_inv. split_and!; [done|..].
  - intros h Hh. by apply Hk, MStrap_keeps.
  - intros c' [->|Hin]%elem_of_cons Hg; [|by apply Hall]. by apply Hk, MStrap_adds.
Qed.

(** * Properties *)

(** The handlers that read a message, and those that look their container up *)
Definition reads_message (route : Route) : bool :=
  match route with
  | Create | Stop | LimitBandwidth | LimitMemory | LimitDisk | LimitCPU | NetIn | NetOut | Run => true
  | _ => false
  end.
Definition looks_up (route : Route) : bool :=
  match route with Ping | Capacity | Create | List => false | _ => true end.

Section properties.
Context {K : Kernel} {UP NP PP : Type} {codec : SnapshotCodec}.
Context `{!ResourcePool UP Z Z, !ResourcePool NP Network string, !ResourcePool PP Z Z}.
Context `{!ResourcePoolLaws UP Z Z, !ResourcePoolLaws NP Network string, !ResourcePoolLaws PP Z Z}.
Context `{!SizedPool UP, !SizedPool NP, !NetworkedPool NP}.
Context (b : BackendConf) (containerGraceTime : Z) (iu : list Z) (nets : list string) (ip : list Z).
Local Abbreviation SS := (SState UP NP PP).
Local Abbreviation BS := (BState UP NP PP).
Implicit Types (s : SS) (bs : BS) (c : LinuxContainer).

(** C8: a container in use is not reaped. Whatever requests a server serves, one at a time
    but for those that stay open, and whatever becomes of them, its bombs are at every
    moment those of a run of the system of bombs, where the same handles are used in order.
    So a timer that can go off is never that of a handle [h] for which a request is open,
    provided [h] is used in order: no container was created under it while a bomb or an
    open request of an earlier one was there, and its detonations, each of which runs to
    its end before the next request, returned. (Otherwise it may be:
    [strapped_twice_reaps_anyway], [early_request_unbalances], [reaping_leaves_timer].) *)
Theorem server_refines_bombs orderly t0 bs s :
  rtc (server_step b containerGraceTime orderly) (mkSState bs (no_bombs t0) []) s →
  (∃ reaping last, rtc (bomb_step orderly) (sys_init t0) (bomb_system s reaping last) ∧
     ∀ h, orderly h → h ∉ reaping) ∧
  (∀ t h bombs, orderly h → fire t (ss_bombs s) = Some (h, bombs) → h ∉ ss_streams s).
Proof.
  intros Hst. destruct (server_steps_bombs b containerGraceTime orderly _ _ [] ∅ (λ _ _, not_elem_of_nil _) Hst)
    as (reaping & last & Hr & Hb).
  split; [by exists reaping, last|]. intros t h bombs Hh.
  exact (ok_fires_idle _ _ t h bombs (bomb_steps_ok _ _ _ Hb (sys_init_ok _ t0)) Hh).
Qed.


(** C21: requests that are refused change nothing: a message of another content type, or a
    container that does not exist, is answered with the status of an error, and neither
    the containers nor the bombs nor the open streams are touched. *)
Theorem requests_rejected route rq s :
  (reads_message route = true → rq_contentType rq ≠ "application/json" →
   serve b containerGraceTime route rq s = (Ok (RFailed ErrInvalidContentType), s)) ∧
  (looks_up route = true → b_containers (ss_backend s) !! rq_handle rq = None →
   ∃ e, serve b containerGraceTime route rq s = (Ok (RFailed e), s)).
Proof.
  split.
  - intros Hr Hc. assert (Hread : ∀ A (c : Codec A), readRequest c rq = Err ErrInvalidContentType).
    { intros. unfold readRequest. by rewrite (proj2 (String.eqb_neq _ _) Hc). }
    destruct route; try done; cbn [serve];
      unfold handleCreate, handleStop, handleLimitBandwidth, handleLimitMemory, handleLimitDisk, handleLimitCPU,
        handleNetIn, handleNetOut, handleRun; rewrite Hread; reflexivity.
  - intros Hl Hn. destruct route; try done; cbn [serve]; apply refused_at;
      try (apply handler_fails; [apply readRequest_no_crash, _|intros a]);
      try (by apply unknown_refused); try (by apply unknown_stream_refused).
    + by apply fails_bind, Destroy_fails.
    + apply handler_fails; [apply scan_pid_no_crash|]. intros pid. by apply unknown_stream_refused.
Qed.

(** The failure to destroy a container is forgotten. When a bomb goes off and [Destroy]
    fails, the container is still there, and it has no bomb any more: it is never reaped,
    and what it holds is held until a client asks for its destruction. *)
Theorem failed_reap_forgets_container h s e bs' :
  LinuxBackend.Destroy b h (ss_backend s) = (Err e, bs') →
  detonate b h s = (Ok tt, mkSState bs' (delete_bomb h (ss_bombs s)) (ss_streams s)) ∧
  b_containers bs' = b_containers (ss_backend s) ∧
  timeBombs (delete_bomb h (ss_bombs s)) !! h = None.
Proof.
  intros Hd. split_and!.
  - unfold detonate, reapContainer, ignore_err, attempt, on_backend, zoom, mbind, M_bind. cbn. by rewrite Hd.
  - revert Hd. unfold LinuxBackend.Destroy, Lookup, gets, on_pool, zoom, modify_containers, modify, mbind, M_bind. cbn.
    destruct (b_containers (ss_backend s) !! h) as [c|]; cbn; [|by intros [= _ <-]].
    destruct (ContainerPool.Destroy _ c _) as [[[]|e'|f] s'] eqn:E; intros [= _ <-]; done.
  - apply lookup_delete_eq.
Qed.
End properties.

(** C20: a client is told what the process has written, in order and once, and its exit
    status last. It may miss some of it: no piece while the process has written at most
    1000 of them, up to those that have not been sent yet. *)
Theorem stream_faithful o e s :
  stream_run o e s →
  (received stdout (sm_sent s) `sublist_of` o) ∧
  (received stderr (sm_sent s) `sublist_of` e) ∧
  ((length o ≤ chan_capacity)%nat → (received stdout (sm_sent s) ++ sm_stdout s)%list = o) ∧
  ((length e ≤ chan_capacity)%nat → received stderr (sm_sent s) ++ sm_stderr s = e) ∧
  (∀ st, PExit st ∈ sm_sent s → sm_result s = Some (inl st) ∧ last (sm_sent s) = Some (PExit st)).
Proof.
  intros Hr. destruct (stream_run_ok o e s Hr) as [[H1 H2] [H3 H4] H5].
  split_and!; [|..|done|done|intros st (? & _ & ?)%H5; by split].
  - etrans; [|exact H1]. by apply sublist_inserts_r.
  - etrans; [|exact H3]. by apply sublist_inserts_r.
Qed.

(** Output that was written before the exit may never be sent: [select] takes the status
    while pieces are waiting, and the handler returns. *)
Theorem exit_can_drop_output d status :
  ∃ s, stream_run [d] [] s ∧ sm_over s = true ∧ sm_sent s = [PExit status] ∧ sm_stdout s = [d] ∧
    ∀ s', rtc stream_step s s' → sm_sent s' = [PExit status].
Proof.
  set (s1 := mkStream [d] [] (Some (inl status)) [] false).
  assert (H1 : stream_run [d] [] s1).
  { apply (run_step _ _ (write_out d new_stream)); [by apply (run_out d [] [] new_stream), run_new|].
    exact (sm_wait (inl status) (write_out d new_stream) eq_refl). }
  exists (mkStream [d] [] (Some (inl status)) [PExit status] true). split_and!; [|done..|].
  - eapply run_step; [exact H1|]. exact (sm_send_status status s1 eq_refl eq_refl).
  - assert (Hover : ∀ s s', rtc stream_step s s' → sm_over s = true → sm_sent s' = sm_sent s).
    { intros s s'. induction 1 as [|x y z Hst _ IH]; [done|]. intros Ho.
      destruct Hst; cbn in *; try congruence. by apply IH. }
    intros s' Hs. by apply (Hover _ _ Hs).
Qed.

(** A payload survives the connection: what [WriteMessage] writes is read back by a
    client, whatever follows on the connection, provided the output is UTF-8. *)
Theorem payload_roundtrip id p rest :
  0 ≤ id < 2 ^ 32 → valid_utf8 (payload_text p) = true →
  ('(j, following) ← parse_json (WriteMessage (payload_json id p) +:+ rest);
   m ← c_dec ProcessPayload_codec no_ProcessPayload j; Ok (m, following)) = Ok (payload_msg id p, nl +:+ rest).
Proof.
  intros Hid Hp. unfold WriteMessage. rewrite string_app_assoc.
  apply (message_roundtrip ProcessPayload_codec); [apply _|by apply payload_ok|done].
Qed.

(** The two bytes of an e with an acute accent, written in two pieces: each is replaced. *)
Example output_altered :
  map (λ d, '(j, _) ← parse_json (WriteMessage (payload_json 1 (POutput stdout d)));
            m ← c_dec ProcessPayload_codec no_ProcessPayload j; Ok (pp_Data m)) [String "195" ""; String "169" ""] =
    [Ok (Some replacement); Ok (Some replacement)].
Proof. by vm_compute. Qed.

(** [Stop] waits for exactly the connections there are, and never closes one on which no
    request has been made: whatever happens to the others, as long as a client holds such
    a connection open, the server does not stop. *)
Theorem new_connection_blocks_stop m k :
  rtc conns_step (∅, new_conns) (m, k) →
  (wait_over k = true ↔ m = ∅) ∧
  (∀ c, m !! c = Some StateNew → c ∉ cn_closed (stop_conns k) ∧ wait_over (stop_conns k) = false).
Proof.
  intros Hs. pose proof (conns_steps_ok m k Hs) as [H1 H2 H3].
  assert (Hw : wait_over k = true ↔ m = ∅).
  { unfold wait_over. rewrite Z.eqb_eq, H1, <-map_size_empty_iff. lia. }
  split; [done|]. intros c Hc. split.
  - cbn. intros [Hi|?]%elem_of_union; [|by eapply H3]. apply H2 in Hi. congruence.
  - apply not_true_iff_false. intros Hk. assert (Hm : m = ∅) by (by apply Hw). subst. by rewrite lookup_empty in Hc.
Qed.

(** Every container the server starts with has its bomb: when [Start] succeeds, each of
    the containers of the backend that has a grace time has one. *)
Theorem Start_straps_all {K : Kernel} {UP NP PP} {codec : SnapshotCodec}
    `{!ResourcePool UP Z Z, !ResourcePool NP Network string, !ResourcePool PP Z Z}
    `{!SizedPool UP, !SizedPool NP, !NetworkedPool NP} b os_IsNotExist network addr (s s' : SState UP NP PP) h c :
  Start b os_IsNotExist network addr s = (Ok tt, s') →
  b_containers (ss_backend s') !! h = Some c → GraceTime c ≠ 0 →
  is_Some (timeBombs (ss_bombs s') !! c_handle c).
Proof.
  unfold Start. intros (? & s1 & _ & H)%bind_Ok_inv Hc Hg.
  apply bind_Ok_inv in H as (? & s2 & _ & H). apply bind_Ok_inv in H as (? & s3 & _ & H).
  apply bind_Ok_inv in H as (? & s4 & _ & H). apply bind_Ok_inv in H as (cs & s5 & Hcs & H).
  destruct (straps_all cs s5 s' H) as (E & _ & Hall).
  assert (Hq : ss_backend s5 = ss_backend s4 ∧ cs = (map_to_list (b_containers (ss_backend s4))).*2).
  { revert Hcs. unfold on_backend, zoom, Containers, gets, mbind, M_bind. cbn. intros [= <- <-]. split; [done|].
    apply filter_all. intros c0. by rewrite has_no_properties. }
  destruct Hq as [E5 ->]. apply Hall; [|done]. rewrite E, E5 in Hc.
  change c with (h, c).2. apply list_elem_of_fmap_2. by apply elem_of_map_to_list.
Qed.

(** * Witnesses *)

#[local] Existing Instances UIDPool.uid_rp UIDPool.uid_laws NetworkPool.network_rp
  NetworkPool.network_laws PortPool.port_rp PortPool.port_laws.
#[local] Existing Instance one_codec.

Abbreviation RealServer := (SState UIDPool.UnixUIDPool NetworkPool.RealNetworkPool PortPool.PortPool).

Definition started_server : RealServer := mkSState example_start (no_bombs 0) [].

Definition json_request (handle body : string) : HttpRequest := mkRequest "application/json" handle "" ∅ body.

(** A container that is created, and destroyed 300 nanoseconds later *)
Definition create_a : HttpRequest := json_request "" ("{" +:+ dquote +:+ "handle" +:+ dquote +:+ ":" +:+ dquote +:+ "a" +:+ dquote +:+ "}").

Section quiet_server.
#[local] Existing Instance quiet_kernel.

Definition server_a : RealServer := (serve example_backend 300 Create create_a started_server).2.

Lemma server_a_steps orderly : rtc (server_step example_backend 300 orderly) started_server server_a.
Proof. apply serve_steps. intros _ request c bs' _ _ _. split; [apply lookup_empty|apply not_elem_of_nil]. Qed.

Lemma server_a_idle orderly : rtc (server_step example_backend 300 orderly) started_server
  (mkSState (ss_backend server_a) (elapse 300 (ss_bombs server_a)) (ss_streams server_a)).
Proof. eapply rtc_r; [apply server_a_steps|]. by apply sv_elapse. Qed.

Lemma server_refines_bombs_witness :
  let s := mkSState (ss_backend server_a) (elapse 300 (ss_bombs server_a)) (ss_streams server_a) in
  (∃ reaping last, rtc (bomb_step (λ _, True)) (sys_init 0) (bomb_system s reaping last)) ∧
  fst <$> fire 0 (ss_bombs s) = Some "a" ∧ "a" ∉ ss_streams s.
Proof.
  intros s. destruct (server_refines_bombs example_backend 300 (λ _, True) 0 example_start s (server_a_idle _))
    as [(reaping & last & H & _) Hf].
  split_and!; [by exists reaping, last|vm_compute; reflexivity|].
  destruct (fire 0 (ss_bombs s)) as [[h bombs]|] eqn:E; [|exfalso; vm_compute in E; discriminate E].
  assert (h = "a") as -> by (vm_compute in E; by injection E as <- _). by apply (Hf 0%nat "a" bombs).
Defined.


Lemma requests_rejected_witness :
  serve example_backend 300 Run (mkRequest "text/plain" "a" "" ∅ "{}") server_a = (Ok (RFailed ErrInvalidContentType), server_a) ∧
  ∃ e, serve example_backend 300 Info (json_request "b" "") server_a = (Ok (RFailed e), server_a).
Proof.
  split.
  - apply requests_rejected; [reflexivity|discriminate].
  - apply requests_rejected; [reflexivity|vm_compute; reflexivity].
Defined.

Lemma Start_straps_all_witness :
  match Start example_backend (λ _, true) "unix" "/tmp/warden.sock" server_a with
  | (Ok tt, s') => is_Some (timeBombs (ss_bombs s') !! "a")
  | _ => False
  end.
Proof.
  destruct (Start _ _ _ _ server_a) as [[[]|e|f] s'] eqn:E; [|exfalso; vm_compute in E; discriminate E..].
  destruct (b_containers (ss_backend s') !! "a") as [c|] eqn:Hc;
    [|exfalso; apply (f_equal snd) in E; cbn [snd] in E; rewrite <-E in Hc; vm_compute in Hc; discriminate Hc].
  assert (Hg : (c_handle c, GraceTime c) = ("a", 300)).
  { apply (f_equal snd) in E. cbn [snd] in E. rewrite <-E in Hc. vm_compute in Hc. by injection Hc as <-. }
  injection Hg as Hh Hg. rewrite <-Hh.
  apply (Start_straps_all example_backend (λ _, true) "unix" "/tmp/warden.sock" server_a s' "a" c E Hc). by rewrite Hg.
Defined.
End quiet_server.

(** [destroy.sh] fails. *)
Definition destroy_fails_kernel : Kernel :=
  failing_kernel (λ c, match c with SRun cmd => String.eqb (Path cmd) "/bin/destroy.sh" | _ => false end).

Lemma failed_reap_forgets_container_witness :
  let s' := (detonate (K := destroy_fails_kernel) example_backend "a" server_a).2 in
  b_containers (ss_backend s') = b_containers (ss_backend server_a) ∧ timeBombs (ss_bombs s') !! "a" = None.
Proof.
  intros s'. destruct (LinuxBackend.Destroy (K := destroy_fails_kernel) example_backend "a" (ss_backend server_a))
    as [[[]|e|f] bs'] eqn:E; [exfalso; vm_compute in E; discriminate E| |exfalso; vm_compute in E; discriminate E].
  destruct (failed_reap_forgets_container (K := destroy_fails_kernel) example_backend "a" server_a e bs' E) as (H1 & H2 & H3).
  subst s'. rewrite H1. by split.
Defined.

(** A process writes two pieces and exits. *)
Lemma stream_faithful_witness :
  received stdout [POutput stdout "x"; PExit 3] `sublist_of` ["x"] ∧ last [POutput stdout "x"; PExit 3] = Some (PExit 3).
Proof.
  destruct (stream_faithful ["x"] [] (mkStream [] [] (Some (inl 3)) [POutput stdout "x"; PExit 3] true)) as (H1 & _ & _ & _ & H2).
  - eapply run_step; [|exact (sm_send_status 3 (mkStream [] [] (Some (inl 3)) [POutput stdout "x"] false) eq_refl eq_refl)].
    eapply run_step; [|exact (sm_send_out "x" [] (mkStream ["x"] [] (Some (inl 3)) [] false) eq_refl eq_refl)].
    eapply run_step; [|exact (sm_wait (inl 3) (write_out "x" new_stream) eq_refl)].
    apply (run_out "x" [] [] new_stream), run_new.
  - split; [exact H1|]. apply (H2 3). cbn. set_solver.
Defined.

Lemma payload_roundtrip_witness :
  ('(j, _) ← parse_json (WriteMessage (payload_json 7 (PExit (-1))) +:+ "");
   m ← c_dec ProcessPayload_codec no_ProcessPayload j; Ok (pp_ExitStatus m)) = Ok (Some 4294967295).
Proof.
  pose proof (payload_roundtrip 7 (PExit (-1)) "") as H. cbn [payload_text] in H.
  specialize (H ltac:(lia) eq_refl). revert H.
  destruct (parse_json _) as [[j rest]|e|f]; cbn [mbind Result_bind]; [|by intros [=]..].
  destruct (c_dec ProcessPayload_codec _ j) as [m|e|f]; cbn [mbind Result_bind]; [|by intros [=]..]. by intros [= -> _].
Defined.

(** A connection is accepted; then the server is stopped. *)
Lemma new_connection_blocks_stop_witness :
  wait_over (stop_conns (conn_state 0 StateNew new_conns)) = false ∧ 0%nat ∉ cn_closed (stop_conns (conn_state 0 StateNew new_conns)).
Proof.
  destruct (new_connection_blocks_stop (<[0%nat := StateNew]> ∅) (conn_state 0 StateNew new_conns)) as [_ H].
  - apply rtc_once, cs_accept; [apply lookup_empty|apply not_elem_of_empty].
  - destruct (H 0%nat) as [H1 H2]; [apply lookup_insert_eq|]. by split.
Defined.
