(* ===== verification/Router.v ===== *)
(** The way of a request to its handler: garden/routes/routes.go, and of the packages it is
    made of, tedsuo/rata (routes, the generator of requests, the router) and bmizerany/pat
    (the multiplexer that matches paths against patterns), all vendored.

    A request on the wire is an [HttpMessage]: what net/http writes in front of the body is
    its method, its request URI and its content type. Bodies that are forms, and redirects,
    which no route makes, are not followed. *)
From S2P Require Import Prelude GoStd Url UrlQuery.
From S2P Require GardenServer.
From Stdlib Require Import Ascii.

Local Open Scope string_scope.
Local Open Scope list_scope.
Local Open Scope Z_scope.

Import GardenServer (Route, HttpRequest, mkRequest, rq_contentType, rq_handle, rq_pid, rq_query, rq_body).
#[local] Existing Instance GardenServer.Route_eq_dec.

(** * routes.go *)

Record RouteDef := mkRoute { r_Path : string; r_Method : string; r_Name : Route }.

Definition Routes : list RouteDef :=
  [mkRoute "/ping" "GET" GardenServer.Ping;
   mkRoute "/capacity" "GET" GardenServer.Capacity;
   mkRoute "/containers" "GET" GardenServer.List;
   mkRoute "/containers" "POST" GardenServer.Create;
   mkRoute "/containers/:handle/info" "GET" GardenServer.Info;
   mkRoute "/containers/:handle" "DELETE" GardenServer.Destroy;
   mkRoute "/containers/:handle/stop" "PUT" GardenServer.Stop;
   mkRoute "/containers/:handle/files" "PUT" GardenServer.StreamIn;
   mkRoute "/containers/:handle/files" "GET" GardenServer.StreamOut;
   mkRoute "/containers/:handle/limits/bandwidth" "PUT" GardenServer.LimitBandwidth;
   mkRoute "/containers/:handle/limits/bandwidth" "GET" GardenServer.CurrentBandwidthLimits;
   mkRoute "/containers/:handle/limits/cpu" "PUT" GardenServer.LimitCPU;
   mkRoute "/containers/:handle/limits/cpu" "GET" GardenServer.CurrentCPULimits;
   mkRoute "/containers/:handle/limits/disk" "PUT" GardenServer.LimitDisk;
   mkRoute "/containers/:handle/limits/disk" "GET" GardenServer.CurrentDiskLimits;
   mkRoute "/containers/:handle/limits/memory" "PUT" GardenServer.LimitMemory;
   mkRoute "/containers/:handle/limits/memory" "GET" GardenServer.CurrentMemoryLimits;
   mkRoute "/containers/:handle/net/in" "POST" GardenServer.NetIn;
   mkRoute "/containers/:handle/net/out" "POST" GardenServer.NetOut;
   mkRoute "/containers/:handle/processes" "POST" GardenServer.Run;
   mkRoute "/containers/:handle/processes/:pid" "GET" GardenServer.Attach].

(** * rata: requests *)

Abbreviation Params := (gmap string string).

Definition component (params : Params) (c : string) : Result string :=
  match c with
  | String ":" name =>
      match params !! name with Some val => Ok val | None => Err (errors_New ("missing param " +:+ c)) end
  | _ => Ok c
  end.

Fixpoint components (params : Params) (l : list string) : Result (list string) :=
  match l with
  | [] => Ok []
  | c :: l' => x ← component params c; xs ← components params l'; Ok (x :: xs)
  end.

(** [Route.CreatePath] *)
Definition CreatePath (path : string) (params : Params) : Result string :=
  l ← components params (Split path slash);
  u ← Parse (Join l "/");
  Ok (URL_String u).

Definition FindRouteByName (name : Route) : option RouteDef :=
  find (λ r, bool_decide (r_Name r = name)) Routes.

Record HttpMessage := mkMessage {
  m_method : string;
  m_URL : URL;
  m_contentType : string;
  m_body : string
}.

(** [CreateRequest], with the host the client gives *)
Definition CreateRequest (host : string) (name : Route) (params : Params) (body : string) : Result HttpMessage :=
  match FindRouteByName name with
  | None => Err (errors_New "No route exists with the name")
  | Some route =>
      path ← CreatePath (r_Path route) params;
      u ← Parse (host +:+ "/" +:+ trim_left slash path);
      Ok (mkMessage (r_Method route) u "" body)
  end.

(** * pat *)

Definition isAlnum (c : ascii) : bool := is_alpha c || Ascii.eqb c "_" || is_digit c.

(** [match]: the longest start of [s] that satisfies [f], and the rest *)
Fixpoint span (f : ascii → bool) (s : string) : string * string :=
  match s with
  | EmptyString => ("", "")
  | String c s' => if f c then let '(a, b) := span f s' in (String c a, b) else ("", s)
  end.

Definition matchPart (b c : ascii) : bool := negb (Ascii.eqb c b) && negb (Ascii.eqb c slash).

(** The character after a name, 0 at the end of the pattern *)
Definition next_char (s : string) : ascii := match s with String c _ => c | EmptyString => "000"%char end.

(** The loop of [try], on what is left of the pattern and of the path. Every round takes
    a character of the pattern, so as many rounds as it has are enough. *)
Fixpoint try_loop (fuel : nat) (whole pat path : string) (p : Values) : option Values :=
  match path with
  | EmptyString => if String.eqb pat "" then Some p else None
  | String c path' =>
      match pat, fuel with
      | EmptyString, _ => if negb (String.eqb whole "/") && HasSuffix whole slash then Some p else None
      | _, O => None
      | String d pat', S fuel' =>
          if Ascii.eqb d ":" then
            let '(name, pat2) := span isAlnum pat' in
            let '(val, path2) := span (matchPart (next_char pat2)) path in
            try_loop fuel' whole pat2 path2 (Add (":" +:+ name) val p)
          else if Ascii.eqb c d then try_loop fuel' whole pat' path' p else None
      end
  end.

Definition try (pat path : string) : option Values := try_loop (String.length pat) pat pat path ∅.

Inductive handler := Handles (r : Route) | RedirectHandler (pat : string).

Abbreviation PatternServeMux := (gmap string (list (string * handler))).

(** [PatternServeMux.Add]; every round takes a character off the pattern. *)
Fixpoint mux_Add (fuel : nat) (meth pat : string) (h : handler) (p : PatternServeMux) : PatternServeMux :=
  let p' := <[meth := default [] (p !! meth) ++ [(pat, h)]]> p in
  match fuel with
  | O => p'
  | S fuel' =>
      if HasSuffix pat slash
      then mux_Add fuel' meth (String.substring 0 (String.length pat - 1) pat) (RedirectHandler pat) p'
      else p'
  end.

Definition mux_add (meth pat : string) (h : handler) (p : PatternServeMux) : PatternServeMux :=
  mux_Add (String.length pat) meth pat h p.

(** * rata: the router *)

Definition to_upper (c : ascii) : ascii :=
  if between "a" "z" c then ascii_of_nat (nat_of_ascii c - 32) else c.
Fixpoint ToUpper (s : string) : string :=
  match s with EmptyString => "" | String c s' => String (to_upper c) (ToUpper s') end.

Definition add_route (r : RouteDef) (p : PatternServeMux) : Result PatternServeMux :=
  let m := ToUpper (r_Method r) in
  let h := Handles (r_Name r) in
  if String.eqb m "GET" then Ok (mux_add "GET" (r_Path r) h (mux_add "HEAD" (r_Path r) h p))
  else if existsb (String.eqb m) ["POST"; "PUT"; "DELETE"] then Ok (mux_add m (r_Path r) h p)
  else Err (errors_New ("invalid verb: " +:+ r_Method r)).

(** [NewRouter]; [handlers]: the names that have a handler *)
Definition NewRouter (routes : list RouteDef) (handlers : list Route) : Result PatternServeMux :=
  foldl (λ acc r,
           p ← acc;
           if bool_decide (r_Name r ∈ handlers) then add_route r p else Err (errors_New "missing handler"))
    (Ok ∅) routes.

Inductive dispatched :=
  | Serves (h : handler) (query : string)
  | NotFound
  | MethodNotAllowed (allowed : list string).

Definition first_match (l : list (string * handler)) (path : string) : option (handler * Values) :=
  head (omap (λ ph, p ← try ph.1 path; Some (ph.2, p)) l).

(** [PatternServeMux.ServeHTTP]; the order of the methods is that of a map. *)
Definition ServeHTTP (mux : PatternServeMux) (method path query : string) : dispatched :=
  match first_match (default [] (mux !! method)) path with
  | Some (h, p) => Serves h (if bool_decide (p = ∅) then query else Encode p +:+ "&" +:+ query)
  | None =>
      let others := List.filter (λ mh, negb (String.eqb mh.1 method)) (map_to_list mux) in
      match concat (map (λ mh, map (λ _, mh.1) (omap (λ ph, try ph.1 path) mh.2)) others) with
      | [] => NotFound
      | allowed => MethodNotAllowed allowed
      end
  end.

(** * The server's end *)

Definition garden_router : PatternServeMux :=
  match NewRouter Routes (map r_Name Routes) with Ok p => p | _ => ∅ end.

(** What the handler gets: [FormValue] and [Query] read the query the multiplexer left. *)
Definition handler_request (query contentType body : string) : HttpRequest :=
  let q := ParseQuery query in
  mkRequest contentType (Get ":handle" q) (Get ":pid" q) q body.

(** The request as the server reads it: the path and the query are those of the request URI. *)
Definition receive (msg : HttpMessage) : Result (dispatched * (string → HttpRequest)) :=
  u ← ParseRequestURI (RequestURI (m_URL msg));
  Ok (ServeHTTP garden_router (m_method msg) (url_Path u) (RawQuery u),
      λ query, handler_request query (m_contentType msg) (m_body msg)).

Example router_made : NewRouter Routes (map r_Name Routes) = Ok garden_router.
Proof. vm_compute. reflexivity. Qed.

Example try_examples :
  try "/hello/:name" "/hello/blake" = Some {[":name" := ["blake"]]} ∧
  try "/hello/:name" "/hello/blake/" = None ∧ try "/hello/:name/" "/hello/keith/foo" = Some {[":name" := ["keith"]]} ∧
  try "/a/:b.:c" "/a/x.y" = Some (<[":b" := ["x"]]> {[":c" := ["y"]]}) ∧ try "/foo/:id" "/foo/" = None ∧ try "/" "/x" = None.
Proof. vm_compute. repeat split. Qed.

Example receive_examples :
  (λ r, (λ x, x.1) <$> (match r with Ok x => Some x | _ => None end)) <$>
  [receive (mkMessage "GET" (mkURL "http" "/containers/a b/info" "" "") "" "");
   receive (mkMessage "PUT" (mkURL "http" "/containers/a/info" "" "") "" "");
   receive (mkMessage "GET" (mkURL "http" "/nothing" "" "x=y") "" "")] =
  [Some (Serves (Handles GardenServer.Info) "%3Ahandle=a+b&"); Some (MethodNotAllowed ["GET"; "HEAD"]); Some NotFound].
Proof. vm_compute. reflexivity. Qed.

(** * Specifications *)

(** A pattern by its parts between slashes: a capture matches any part, the rest itself. *)
Fixpoint match_parts (ps ss : list string) (p : Values) : option Values :=
  match ps, ss with
  | [], [] => Some p
  | String ":" name :: ps', s :: ss' => match_parts ps' ss' (Add (":" +:+ name) s p)
  | x :: ps', s :: ss' => if String.eqb x s then match_parts ps' ss' p else None
  | _, _ => None
  end.

(** A part of a pattern is a colon and a name, or has neither colons nor slashes. *)
Definition good_part (x : string) : bool :=
  match x with
  | String ":" name => all_chars isAlnum name
  | _ => all_chars (λ c, negb (Ascii.eqb c ":" || Ascii.eqb c "/")) x
  end.

(** A part of a path: no slash, and no zero byte, at which captures stop. *)
Definition good_segment (s : string) : bool := all_chars (λ c, negb (Ascii.eqb c "/" || Ascii.eqb c "000")) s.

(** * Lemmas *)

(** ** Matching *)

Lemma span_all f s t :
  all_chars f s = true → match t with String c _ => f c = false | EmptyString => True end → span f (s +:+ t) = (s, t).
Proof.
  intros Hs Ht. induction s as [|c s IH]; cbn in Hs.
  - change ("" +:+ t) with t. destruct t as [|c t]; [done|]. cbn. by rewrite Ht.
  - apply andb_true_iff in Hs as [Hc Hs]. change (String c s +:+ t) with (String c (s +:+ t)). cbn [span].
    by rewrite Hc, IH.
Qed.

Lemma string_cons_app c s t : String c s +:+ t = String c (s +:+ t).
Proof. done. Qed.

(** What follows a part: the end, or a slash and more *)
Definition tail_of (l : list string) : string := match l with [] => "" | _ => String slash (Join l "/") end.

Lemma Join_tail s l : Join (s :: l) "/" = s +:+ tail_of l.
Proof. destruct l; [by rewrite string_app_nil|done]. Qed.

Lemma try_literal fuel whole x s pl sl p :
  all_chars (λ c, negb (Ascii.eqb c ":" || Ascii.eqb c "/")) x = true → good_segment s = true →
  HasSuffix whole slash = false → (String.length x ≤ fuel)%nat →
  try_loop fuel whole (x +:+ tail_of pl) (s +:+ tail_of sl) p =
    if String.eqb x s then try_loop (fuel - String.length x) whole (tail_of pl) (tail_of sl) p else None.
Proof.
  intros Hx Hs Hw. revert s fuel Hs. induction x as [|c x IH]; intros s fuel Hs Hf; cbn in Hx.
  - destruct s as [|d s]; [by rewrite Nat.sub_0_r|]. cbn in Hs. apply andb_true_iff in Hs as [Hd _].
    apply negb_true_iff, orb_false_iff in Hd as [Hd _]. cbn [String.eqb]. change ("" +:+ tail_of pl) with (tail_of pl).
    rewrite string_cons_app. destruct fuel as [|fuel], pl as [|y pl]; cbn; rewrite ?Hw, ?andb_false_r; try done.
    change (Ascii.eqb d slash) with (Ascii.eqb d "/"). by rewrite Hd.
  - apply andb_true_iff in Hx as [Hc Hx]. apply negb_true_iff, orb_false_iff in Hc as [Hc1 Hc2].
    destruct fuel as [|fuel]; [cbn in Hf; lia|]. rewrite string_cons_app. destruct s as [|d s].
    + change ("" +:+ tail_of sl) with (tail_of sl). cbn [String.eqb]. destruct sl as [|y sl]; [done|].
      cbn [tail_of try_loop]. rewrite Hc1. change (Ascii.eqb slash c) with (Ascii.eqb "/" c).
      by rewrite Ascii.eqb_sym, Hc2.
    + cbn in Hs. apply andb_true_iff in Hs as [Hd Hs]. rewrite string_cons_app. cbn [try_loop]. rewrite Hc1.
      cbn [String.eqb String.length Nat.sub]. rewrite Ascii.eqb_sym. destruct (Ascii.eqb_spec c d) as [->|Hne]; [|done].
      apply IH; [done|done|cbn in Hf; lia].
Qed.

Lemma all_chars_ext (p q : ascii → bool) s : (∀ c, p c = q c) → all_chars p s = all_chars q s.
Proof. intros H. induction s as [|c s IH]; [done|]. cbn. by rewrite H, IH. Qed.

Lemma try_capture fuel whole name s pl sl p :
  all_chars isAlnum name = true → good_segment s = true → s +:+ tail_of sl ≠ "" →
  try_loop (S fuel) whole (String ":" (name +:+ tail_of pl)) (s +:+ tail_of sl) p =
    try_loop fuel whole (tail_of pl) (tail_of sl) (Add (":" +:+ name) s p).
Proof.
  intros Hn Hs Hne.
  assert (H1 : span isAlnum (name +:+ tail_of pl) = (name, tail_of pl)) by (apply span_all; [done|by destruct pl]).
  assert (Hpart : ∀ b, b = slash ∨ b = "000"%char → all_chars (matchPart b) s = true).
  { intros b Hb. refine (all_chars_impl _ _ _ _ Hs). intros c Hc. unfold matchPart.
    apply negb_true_iff, orb_false_iff in Hc as [Hc1 Hc2]. change slash with "/"%char in *.
    destruct Hb as [-> | ->]; by rewrite Hc1, ?Hc2. }
  assert (H2 : span (matchPart (next_char (tail_of pl))) (s +:+ tail_of sl) = (s, tail_of sl)).
  { apply span_all; [apply Hpart; destruct pl; [by right|by left]|]. destruct sl; [done|]. cbn. unfold matchPart.
    rewrite Ascii.eqb_refl. apply andb_false_r. }
  destruct (s +:+ tail_of sl) as [|c t] eqn:E; [done|]. cbn [try_loop]. change (Ascii.eqb ":" ":") with true. cbn iota.
  rewrite H1, H2. done.
Qed.

Lemma tail_length x l : String.length (tail_of (x :: l)) = S (String.length x + String.length (tail_of l)).
Proof. unfold tail_of at 1. cbn [String.length]. by rewrite Join_tail, length_string_app. Qed.

Lemma try_loop_parts whole ps ss : ∀ fuel p,
  Forall (λ x, good_part x = true) ps → Forall (λ s, good_segment s = true) ss → last ss ≠ Some "" →
  HasSuffix whole slash = false → (String.length (tail_of ps) ≤ fuel)%nat →
  try_loop fuel whole (tail_of ps) (tail_of ss) p = match_parts ps ss p.
Proof.
  revert ss. induction ps as [|x ps IH]; intros [|s ss] fuel p Hps Hss Hl Hw Hf.
  - by destruct fuel.
  - destruct fuel; cbn; by rewrite Hw, andb_false_r.
  - cbn [match_parts]. by destruct fuel, x as [|[[] [] [] [] [] [] [] []] x].
  - rewrite tail_length in Hf. destruct fuel as [|fuel]; [lia|].
    apply Forall_cons in Hps as [Hx Hps]. apply Forall_cons in Hss as [Hs Hss].
    change (try_loop (S fuel) whole (tail_of (x :: ps)) (tail_of (s :: ss)) p)
      with (try_loop fuel whole (Join (x :: ps) "/") (Join (s :: ss) "/") p). rewrite !Join_tail.
    assert (Hlast : last ss ≠ Some "") by (destruct ss; [done|exact Hl]).
    assert (Hlit : all_chars (λ c, negb (Ascii.eqb c ":" || Ascii.eqb c "/")) x = true →
      try_loop fuel whole (x +:+ tail_of ps) (s +:+ tail_of ss) p = if String.eqb x s then match_parts ps ss p else None).
    { intros Hlx. rewrite try_literal by (done || lia). destruct (String.eqb x s); [|done]. apply IH; [done..|lia]. }
    destruct x as [|c x]; [by apply Hlit|]. destruct (ascii_dec c ":") as [->|Hne].
    + destruct fuel as [|fuel]; [cbn in Hf; lia|]. rewrite string_cons_app, try_capture; [|exact Hx|done|].
      * cbn [match_parts]. apply IH; [done..|cbn in Hf; lia].
      * destruct s; [|done]. by destruct ss.
    + assert (E : match_parts (String c x :: ps) (s :: ss) p = if String.eqb (String c x) s then match_parts ps ss p else None)
        by (destruct c as [[] [] [] [] [] [] [] []]; try done; by destruct Hne).
      rewrite E. apply Hlit. by destruct c as [[] [] [] [] [] [] [] []]; try done; destruct Hne.
Qed.

(** The loop matches part by part. *)
Lemma try_parts ps ss :
  Forall (λ x, good_part x = true) ps → Forall (λ s, good_segment s = true) ss → last ss ≠ Some "" →
  HasSuffix (tail_of ps) slash = false → try (tail_of ps) (tail_of ss) = match_parts ps ss ∅.
Proof. intros. by apply try_loop_parts. Qed.

(** ** URLs of requests *)

(** A handle that needs no thought: nothing in it means something in a URL. *)
Definition plain (s : string) : bool :=
  all_chars (λ c, negb (existsb (Ascii.eqb c) ["/"; "?"; "#"; "%"; "000"]%char)) s.

Lemma plain_good s : plain s = true → good_segment s = true.
Proof.
  refine (all_chars_impl _ _ _ _). intros c Hc. apply negb_true_iff in Hc. cbn in Hc.
  repeat match goal with H : _ || _ = false |- _ => apply orb_false_iff in H as [??] end.
  by apply negb_true_iff, orb_false_iff.
Qed.

Definition clean (s : string) : bool := all_chars (λ c, negb (existsb (Ascii.eqb c) ["?"; "#"; "%"]%char)) s.

Lemma plain_clean s : plain s = true → clean s = true.
Proof.
  refine (all_chars_impl _ _ _ _). intros c Hc. apply negb_true_iff in Hc. cbn in Hc.
  repeat match goal with H : _ || _ = false |- _ => apply orb_false_iff in H as [??] end.
  apply negb_true_iff. cbn. repeat (apply orb_false_iff; split); done.
Qed.

Lemma clean_free s c : clean s = true → existsb (Ascii.eqb c) ["?"; "#"; "%"]%char = true → free_of c s.
Proof.
  intros Hs Hc. refine (all_chars_impl _ _ _ _ Hs). intros c' Hc'. apply negb_true_iff in Hc'. apply negb_true_iff.
  destruct (Ascii.eqb_spec c' c) as [->|]; [congruence|done].
Qed.

Lemma unescape_free s : free_of "%" s → unescape s = Ok s.
Proof.
  unfold free_of. induction s as [|c s IH]; [done|]. cbn [all_chars]. intros [Hc Hs]%andb_true_iff.
  assert (E : unescape (String c s) = (t ← unescape s; Ok (String c t)))
    by (destruct c as [[] [] [] [] [] [] [] []]; try done; by cbn in Hc).
  by rewrite E, IH.
Qed.

(** A path that starts with one slash *)
Lemma Parse_plain_path s :
  clean s = true → HasPrefix s "/" = false → Parse (String slash s) = Ok (mkURL "" (String slash s) "" "").
Proof.
  intros Hs Hp.
  assert (Hfree : ∀ c, existsb (Ascii.eqb c) ["?"; "#"; "%"]%char = true → free_of c (String slash s)).
  { intros c Hc. pose proof (clean_free s c Hs Hc) as H. unfold free_of in *. cbn [all_chars].
    rewrite H, andb_true_r. destruct c as [[] [] [] [] [] [] [] []]; done. }
  unfold Parse, split_cut. rewrite cut_free by (by apply Hfree). cbn [default].
  assert (E : parse (String slash s) = Ok (mkURL "" (String slash s) "" "")).
  { unfold parse. change (String.eqb (String slash s) "*") with false. cbn iota. change (getscheme (String slash s)) with
      (Ok ("", String slash s) : Result (string * string)). cbn [mbind Result_bind]. unfold split_cut.
    rewrite cut_free by (by apply Hfree). cbn [default ToLower].
    assert (HasPrefix (String slash s) "//" = false) as -> by exact Hp.
    change (HasPrefix (String slash s) "/") with (String.prefix "" s).
    assert (String.prefix "" s = true) as -> by (by destruct s). rewrite !andb_false_r. cbn [negb andb].
    rewrite unescape_free by (apply Hfree; reflexivity). reflexivity. }
  by rewrite E.
Qed.

Lemma escape_path_free s c : existsb (Ascii.eqb c) ["?"; "#"]%char = true → free_of c (escape encodePath s).
Proof.
  intros Hc. unfold free_of. assert (c = "?"%char ∨ c = "#"%char) as Hc'.
  { cbn in Hc. rewrite orb_false_r in Hc. apply orb_true_iff in Hc as [?%Ascii.eqb_eq|?%Ascii.eqb_eq]; tauto. }
  induction s as [|d s IH]; [done|]. cbn [escape]. rewrite all_chars_app, IH, andb_true_r.
  destruct Hc' as [-> | ->]; destruct d as [[] [] [] [] [] [] [] []]; reflexivity.
Qed.

Definition host : string := "http://warden".

(** The URL of a request: what [NewRequest] makes of an escaped path *)
Lemma Parse_request t : Parse (host +:+ "/" +:+ escape encodePath t) = Ok (mkURL "http" (String slash t) "" "").
Proof.
  set (e := escape encodePath t). assert (Hu : unescape e = Ok t) by (by apply unescape_escape).
  assert (Hfree : ∀ c, existsb (Ascii.eqb c) ["?"; "#"]%char = true → cut c e = None)
    by (intros c Hc; by apply cut_free, escape_path_free).
  assert (E : host +:+ "/" +:+ e = "http://warden/" +:+ e) by done. rewrite E. clear E.
  assert (Hcut : ∀ c, existsb (Ascii.eqb c) ["?"; "#"]%char = true → cut c ("http://warden/" +:+ e) = None ∧ cut c ("//warden/" +:+ e) = None).
  { intros c Hc. specialize (Hfree c Hc). assert (c = "?"%char ∨ c = "#"%char) as Hc'.
    { cbn in Hc. rewrite orb_false_r in Hc. apply orb_true_iff in Hc as [?%Ascii.eqb_eq|?%Ascii.eqb_eq]; tauto. }
    rewrite !string_cons_app. change ("" +:+ e) with e. by destruct Hc' as [-> | ->]; cbn; rewrite Hfree. }
  unfold Parse, split_cut at 1. rewrite (proj1 (Hcut "#"%char eq_refl)). cbn [default].
  assert (Hp : parse ("http://warden/" +:+ e) = Ok (mkURL "http" (String slash t) "" "")).
  { unfold parse. change (getscheme ("http://warden/" +:+ e)) with (Ok ("http", "//warden/" +:+ e) : Result (string * string)).
    change (String.eqb ("http://warden/" +:+ e) "*") with false. cbn [mbind Result_bind]. unfold split_cut.
    rewrite (proj2 (Hcut "?"%char eq_refl)). cbn [default].
    change (HasPrefix ("//warden/" +:+ e) "//") with (String.prefix "" ("warden/" +:+ e)).
    change (String.prefix "" ("warden/" +:+ e)) with true.
    change (HasPrefix ("//warden/" +:+ e) "/") with true. cbn [negb andb orb ToLower String.eqb].
    assert (Hsub : String.substring 2 (String.length ("//warden/" +:+ e)) ("//warden/" +:+ e) = "warden/" +:+ e).
    { change ("//warden/" +:+ e) with (String "/" (String "/" ("warden/" +:+ e))). cbn [String.length String.substring].
      rewrite substring_all by lia. done. }
    cbn beta iota. rewrite Hsub.
    change (split_keep "/" ("warden/" +:+ e)) with ("warden", String "/" e). cbn beta iota.
    change (parseAuthority "warden") with (Ok tt : Result unit). cbn [mbind Result_bind].
    assert (unescape (String "/" e) = Ok (String slash t)) as -> by (cbn [unescape]; by rewrite Hu). done. }
  by rewrite Hp.
Qed.

Lemma trim_escaped t : HasPrefix t "/" = false → trim_left slash (escape encodePath t) = escape encodePath t.
Proof.
  destruct t as [|c t]; [done|]. intros H. cbn [escape].
  destruct c as [[] [] [] [] [] [] [] []]; try reflexivity. by destruct t.
Qed.

Lemma escape_slash t : escape encodePath (String slash t) = String slash (escape encodePath t).
Proof. reflexivity. Qed.

(** A route with its captures filled in *)
Lemma CreateRequest_route name r params body ss :
  FindRouteByName name = Some r → components params (Split (r_Path r) slash) = Ok ("" :: ss) → ss ≠ [] →
  clean (Join ss "/") = true → HasPrefix (Join ss "/") "/" = false →
  CreateRequest host name params body = Ok (mkMessage (r_Method r) (mkURL "http" (tail_of ss) "" "") "" body).
Proof.
  intros Hf Hc Hne Hclean Hp. unfold CreateRequest, CreatePath. rewrite Hf, Hc. cbn [mbind Result_bind].
  destruct ss as [|s ss]; [done|]. rewrite Join_cons. change ("" +:+ "/" +:+ Join (s :: ss) "/") with (String slash (Join (s :: ss) "/")).
  rewrite Parse_plain_path by done. cbn [mbind Result_bind]. unfold URL_String. cbn [url_Path RawQuery Fragment].
  change (String.eqb "" "") with true. cbn iota. rewrite !string_app_nil, escape_slash. cbn [trim_left].
  change (Ascii.eqb slash slash) with true. cbn iota. rewrite trim_escaped by done. by rewrite Parse_request.
Qed.

(** [if query != nil { request.URL.RawQuery = query.Encode() }] *)
Definition with_query (query : option Values) (msg : HttpMessage) : HttpMessage :=
  match query with
  | Some q =>
      let u := m_URL msg in
      mkMessage (m_method msg) (mkURL (Scheme u) (url_Path u) (Fragment u) (Encode q)) (m_contentType msg) (m_body msg)
  | None => msg
  end.
Definition with_contentType (contentType : string) (msg : HttpMessage) : HttpMessage :=
  mkMessage (m_method msg) (m_URL msg) contentType (m_body msg).

(** The server reads the path and the query of the client's URL. *)
Lemma receive_wire meth ss q contentType body :
  ss ≠ [] →
  receive (mkMessage meth (mkURL "http" (tail_of ss) "" q) contentType body) =
    Ok (ServeHTTP garden_router meth (tail_of ss) q, λ query, handler_request query contentType body).
Proof.
  intros Hne. unfold receive, ParseRequestURI, RequestURI. cbn [m_URL m_method m_contentType m_body url_Path RawQuery].
  destruct ss as [|s ss]; [done|]. cbn [tail_of]. set (t := Join (s :: ss) "/").
  change (String.eqb (String slash t) "") with false. cbn iota. rewrite escape_slash, string_cons_app.
  set (rest := if String.eqb q "" then "" else "?" +:+ q).
  change (HasPrefix (String slash (escape encodePath t +:+ rest)) "/") with (String.prefix "" (escape encodePath t +:+ rest)).
  assert (String.prefix "" (escape encodePath t +:+ rest) = true) as -> by (by destruct (escape _ _ +:+ rest)). cbn [negb].
  assert (Hcut : split_cut "?" (String slash (escape encodePath t +:+ rest)) = (String slash (escape encodePath t), q)).
  { unfold split_cut. change (String slash (escape encodePath t +:+ rest)) with (escape encodePath (String slash t) +:+ rest).
    subst rest. destruct (String.eqb_spec q "") as [->|Hq].
    - rewrite string_app_nil. by rewrite cut_free by (by apply escape_path_free).
    - change ("?" +:+ q) with (String "?" q). by rewrite cut_app by (by apply escape_path_free). }
  rewrite Hcut. change (String slash (escape encodePath t)) with (escape encodePath (String slash t)).
  by rewrite unescape_escape by done.
Qed.

(** ** The patterns of the router *)

Definition parts (pat : string) : list string := tail (Split pat slash).

Definition good_pattern (pat : string) : bool :=
  String.eqb pat (tail_of (parts pat)) && forallb good_part (parts pat) && negb (HasSuffix pat slash).

Lemma first_match_parts l ss :
  forallb (λ ph, good_pattern ph.1) l = true → Forall (λ s, good_segment s = true) ss → last ss ≠ Some "" →
  first_match l (tail_of ss) = head (omap (λ ph, p ← match_parts (parts ph.1) ss ∅; Some (ph.2, p)) l).
Proof.
  intros Hl Hss Hlast. unfold first_match. f_equal. induction l as [|[pat h] l IH]; [done|]. cbn in Hl.
  apply andb_true_iff in Hl as [H Hl]. cbn [omap list_omap fst snd]. rewrite (IH Hl).
  apply andb_true_iff in H as [H Hsuf]. apply andb_true_iff in H as [Heq%String.eqb_eq Hparts].
  apply negb_true_iff in Hsuf.
  assert (try pat (tail_of ss) = match_parts (parts pat) ss ∅) as ->; [|done].
  rewrite Heq at 1. apply try_parts; [|done..|by rewrite <-Heq].
  apply Forall_forall. intros x Hx%list_elem_of_In. by apply (proj1 (forallb_forall _ _) Hparts).
Qed.

Lemma router_patterns : map_Forall (λ _ l, forallb (λ ph, good_pattern ph.1) l = true) garden_router.
Proof. apply (bool_decide_unpack _). vm_compute. exact I. Qed.

(** The parameters of a route, as the client gives them and as its handler gets them *)
Definition client_params (name : Route) (h pid : string) : Params :=
  if bool_decide (name ∈ [GardenServer.Ping; GardenServer.Capacity; GardenServer.List; GardenServer.Create]) then ∅
  else if bool_decide (name = GardenServer.Attach) then <["pid" := pid]> {["handle" := h]}
  else {["handle" := h]}.

Definition handler_params (name : Route) (h pid : string) : Values :=
  if bool_decide (name ∈ [GardenServer.Ping; GardenServer.Capacity; GardenServer.List; GardenServer.Create]) then ∅
  else if bool_decide (name = GardenServer.Attach) then <[":pid" := [pid]]> {[":handle" := [h]]}
  else {[":handle" := [h]]}.

Definition method_of (name : Route) : string := default "" (r_Method <$> FindRouteByName name).
Definition path_parts (name : Route) : list string := default [] (parts ∘ r_Path <$> FindRouteByName name).

(** The parts of a request's path *)
Definition segments (name : Route) (h pid : string) : list string :=
  match components (client_params name h pid) (path_parts name) with Ok l => l | _ => [] end.

Lemma dispatch name h pid q :
  plain h = true → plain pid = true → h ≠ "" → pid ≠ "" →
  ServeHTTP garden_router (method_of name) (tail_of (segments name h pid)) q =
    Serves (Handles name)
      (if bool_decide (handler_params name h pid = ∅) then q else Encode (handler_params name h pid) +:+ "&" +:+ q).
Proof.
  intros Hh%plain_good Hp%plain_good Hne1 Hne2.
  assert (Hm : first_match (default [] (garden_router !! method_of name)) (tail_of (segments name h pid)) =
               Some (Handles name, handler_params name h pid)).
  { rewrite first_match_parts.
    - destruct name; vm_compute; reflexivity.
    - destruct (garden_router !! method_of name) as [l|] eqn:E; [|done]. by apply (router_patterns _ _ E).
    - destruct name; cbn; repeat (constructor; [done|]); constructor.
    - destruct name; intros E; vm_compute in E; congruence. }
  unfold ServeHTTP. by rewrite Hm.
Qed.

(** What a request made with [CreateRequest] is when its handler gets it *)
Definition delivered (name : Route) (params : Params) (q : option Values) (contentType body : string) : option (Route * HttpRequest) :=
  match (msg ← CreateRequest host name params body; receive (with_contentType contentType (with_query q msg))) with
  | Ok (Serves (Handles r) query, rq) => Some (r, rq query)
  | _ => None
  end.

(** The request of a route, with the parameters of the route in front of those of the query *)
Definition routed (name : Route) (h pid : string) (q : Values) (contentType body : string) : HttpRequest :=
  handler_request
    (if bool_decide (handler_params name h pid = ∅) then Encode q
     else Encode (handler_params name h pid) +:+ "&" +:+ Encode q) contentType body.

(** The names of the parameters of a route *)
Definition has_handle (name : Route) : bool :=
  bool_decide (name ∉ [GardenServer.Ping; GardenServer.Capacity; GardenServer.List; GardenServer.Create]).

Lemma plain_segments name h pid :
  plain h = true → plain pid = true → h ≠ "" → pid ≠ "" →
  segments name h pid ≠ [] ∧ clean (Join (segments name h pid) "/") = true ∧
  HasPrefix (Join (segments name h pid) "/") "/" = false.
Proof.
  intros Hh%plain_clean Hp%plain_clean Hne1 Hne2.
  assert (Hx : ∀ c l, c ≠ "" → clean c = true → clean (Join l "/") = true → clean (Join (c :: l) "/") = true).
  { intros c l _ Hc Hl. unfold clean in *. rewrite Join_tail, all_chars_app, Hc. destruct l; [done|]. exact Hl. }
  split_and!; [by destruct name| |by destruct name].
  destruct name; cbn; repeat (apply Hx; [done|done|]); done.
Qed.

Lemma created name h pid params body r :
  FindRouteByName name = Some r → params = client_params name h pid →
  plain h = true → plain pid = true → h ≠ "" → pid ≠ "" →
  CreateRequest host name params body =
    Ok (mkMessage (method_of name) (mkURL "http" (tail_of (segments name h pid)) "" "") "" body).
Proof.
  intros Hr -> Hh Hp Hne1 Hne2. destruct (plain_segments name h pid Hh Hp Hne1 Hne2) as (H1 & H2 & H3).
  rewrite (CreateRequest_route name r _ _ (segments name h pid)); [|done| |done..].
  - unfold method_of. by rewrite Hr.
  - unfold segments, path_parts. rewrite Hr. destruct name; cbn in Hr; injection Hr as <-; reflexivity.
Qed.

Lemma delivered_routed name h pid q contentType body :
  plain h = true → plain pid = true → h ≠ "" → pid ≠ "" →
  delivered name (client_params name h pid) q contentType body =
    Some (name, routed name h pid (default ∅ q) contentType body).
Proof.
  intros Hh Hp Hne1 Hne2. unfold delivered.
  assert (Hr : is_Some (FindRouteByName name)) by (destruct name; eexists; reflexivity). destruct Hr as [r Hr].
  rewrite (created name h pid _ body r) by done. cbn [mbind Result_bind]. unfold with_contentType, with_query.
  destruct q as [q|]; cbn [m_method m_URL m_contentType m_body Scheme url_Path Fragment default];
    (rewrite receive_wire by (by apply plain_segments)); (rewrite dispatch by done); reflexivity.
Qed.

Lemma handler_params_proper name h pid : proper (handler_params name h pid).
Proof.
  unfold handler_params. repeat case_bool_decide; [apply map_Forall_empty| |by apply map_Forall_singleton].
  apply map_Forall_insert_2; [done|by apply map_Forall_singleton].
Qed.

Lemma routed_values name h pid q contentType body k :
  proper q →
  default [] (rq_query (routed name h pid q contentType body) !! k) =
    default [] (handler_params name h pid !! k) ++ default [] (q !! k).
Proof.
  intros Hq. unfold routed, handler_request. cbn [rq_query]. case_bool_decide as E.
  - by rewrite E, lookup_empty, ParseQuery_Encode.
  - by rewrite ParseQuery_Encode_app, ParseQuery_Encode by (done || apply handler_params_proper).
Qed.

Lemma Get_default k m : Get k m = default "" (head (default [] (m !! k))).
Proof. unfold Get. by destruct (m !! k). Qed.

(** What the handler is given *)
Lemma routed_handle name h pid q contentType body :
  proper q → has_handle name = true → rq_handle (routed name h pid q contentType body) = h.
Proof.
  intros Hq Hn. change (rq_handle ?rq) with (Get ":handle" (rq_query rq)).
  rewrite Get_default, routed_values by done. destruct name; done.
Qed.

Lemma routed_pid h pid q contentType body :
  proper q → rq_pid (routed GardenServer.Attach h pid q contentType body) = pid.
Proof.
  intros Hq. change (rq_pid ?rq) with (Get ":pid" (rq_query rq)). by rewrite Get_default, routed_values.
Qed.

Lemma routed_query name h pid q contentType body k :
  proper q → HasPrefix k ":" = false →
  default [] (rq_query (routed name h pid q contentType body) !! k) = default [] (q !! k).
Proof.
  intros Hq Hk. rewrite routed_values by done. unfold handler_params.
  assert (":handle" ≠ k ∧ ":pid" ≠ k) as [H1 H2] by (by split; intros <-).
  repeat case_bool_decide; by rewrite ?lookup_empty, ?lookup_insert_ne, ?lookup_singleton_ne.
Qed.

(** * Properties *)

(** C10: round trip: a request the client makes for a route, with a handle and a process id
    that mean nothing else in a URL, is given by the server's router to the handler of that
    very route, with the handle, the id, the values of the query, the content type and the
    body it was made with: whatever route, and though seven patterns match paths of its
    length. *)
Theorem request_reaches_handler name h pid q contentType body :
  plain h = true → plain pid = true → h ≠ "" → pid ≠ "" → proper (default ∅ q) →
  ∃ rq, delivered name (client_params name h pid) q contentType body = Some (name, rq) ∧
    (has_handle name = true → rq_handle rq = h) ∧ (name = GardenServer.Attach → rq_pid rq = pid) ∧
    (∀ k, HasPrefix k ":" = false → default [] (rq_query rq !! k) = default [] (default ∅ q !! k)) ∧
    rq_contentType rq = contentType ∧ rq_body rq = body.
Proof.
  intros Hh Hp Hne1 Hne2 Hq. eexists. split; [by apply delivered_routed|]. split_and!; [|intros ->| |done..].
  - by apply routed_handle.
  - by apply routed_pid.
  - intros k. by apply routed_query.
Qed.

(** * Witnesses *)

Lemma request_reaches_handler_witness :
  ∃ rq, delivered GardenServer.StreamIn (client_params GardenServer.StreamIn "h 1" "7")
          (Some {["destination" := ["/a b&c"]]}) "application/x-tar" "bytes" = Some (GardenServer.StreamIn, rq) ∧ rq_handle rq = "h 1".
Proof.
  destruct (request_reaches_handler GardenServer.StreamIn "h 1" "7" (Some {["destination" := ["/a b&c"]]}) "application/x-tar" "bytes")
    as (rq & H & Hh & _); [done..|by apply map_Forall_singleton|]. exists rq. by split; [|apply Hh].
Defined.

(** The parameters of a path are not escaped: a handle with a slash names no route, one with a
    question mark another container, and one with a percent sign is unescaped. *)
Lemma handle_not_escaped :
  delivered GardenServer.Info {["handle" := "a/b"]} None "" "" = None ∧
  (λ x, x.1) <$> delivered GardenServer.Destroy {["handle" := "a?b"]} None "" "" = Some GardenServer.Destroy ∧
  (λ x, rq_handle x.2) <$> delivered GardenServer.Destroy {["handle" := "a?b"]} None "" "" = Some "a" ∧
  (λ x, rq_handle x.2) <$> delivered GardenServer.Info {["handle" := "a%41"]} None "" "" = Some "aA".
Proof. vm_compute. repeat split. Qed.
