(* ===== verification/Connection.v ===== *)
(** garden/client/connection/connection.go: what a client of the daemon sends for each
    operation of the API, and what it makes of the answers.

    The operations are defined over [Do], the [http.Client] the connection was made with:
    whatever is at its other end. *)
From S2P Require Import Prelude GoStd Json JsonCodec MessageCodec MemoryStat Warden Protocol Url UrlQuery.
From S2P Require GardenServer.
From S2P Require Import Router.
From Stdlib Require Import Ascii.

Local Open Scope string_scope.
Local Open Scope list_scope.
Local Open Scope Z_scope.

Import GardenServer (WriteMessage, Route).

(** * Responses *)

(** A response whose body is read to its end; of a connection that is taken over, what the
    server sends on it. *)
Record HttpResponse := mkHttpResponse { hr_StatusCode : Z; hr_Body : string }.

(** [http.StatusText] of the codes a garden server and its router answer with *)
Definition StatusText (code : Z) : string :=
  default ""
    (snd <$> find (λ kv, kv.1 =? code)
       [(200, "OK"); (201, "Created"); (301, "Moved Permanently"); (400, "Bad Request"); (404, "Not Found");
        (405, "Method Not Allowed"); (500, "Internal Server Error"); (503, "Service Unavailable")]).

Definition bad_response (code : Z) : error :=
  mkError "*errors.errorString" ("bad response: " +:+ fmt_d code +:+ " " +:+ StatusText code).

(** [json.NewDecoder(text).Decode] into a new message *)
Definition Decode {B} (c : Codec B) (text : string) : Result B :=
  '(j, _) ← parse_json text; c_dec c (c_zero c) j.

(** * The messages of the requests *)

(** A message of the client, as the server will read it *)
Definition message {A} (c : Codec A) (m : A) : option json := Some (c_enc c m).

Definition bind_mount_message (bm : BindMount) : option BindMountMsg :=
  let mode := match Mode bm with BindMountModeRO => 0 | BindMountModeRW => 1 end in
  let origin := match Origin bm with BindMountOriginHost => 0 | BindMountOriginContainer => 1 end in
  Some (mkBindMountMsg (Some (SrcPath bm)) (Some (DstPath bm)) (Some mode) (Some origin)).

(** A field that is left out when it is the zero value *)
Definition nonempty (s : string) : option string := if String.eqb s "" then None else Some s.

(** [uint32(d.Seconds())]: exact for whole seconds; out of range as on amd64 *)
Definition Seconds (d : Z) : Z := u32 (Z.quot d (10 ^ 9)).

(** The properties are in the order of a map. *)
Definition create_request (spec : ContainerSpec) : Protocol.CreateRequest :=
  mkCreateRequest (map bind_mount_message (BindMounts spec))
    (if spec_GraceTime spec =? 0 then None else Some (Seconds (spec_GraceTime spec)))
    (nonempty (spec_Handle spec)) (nonempty (spec_Network spec)) (nonempty (RootFSPath spec))
    (map (λ kv, Some (mkPropertyMsg (Some kv.1) (Some kv.2))) (map_to_list (spec_Properties spec))).

Definition tty_message (tty : TTYSpec) : TTYMsg :=
  mkTTYMsg ((λ w, mkWindowSizeMsg (Some (u32 (Columns w))) (Some (u32 (Rows w)))) <$> tty_WindowSize tty).

Definition rlimits_message (l : ResourceLimits) : ResourceLimitsMsg :=
  mkResourceLimitsMsg (As l) (Core l) (Cpu l) (Data l) (Fsize l) (Locks l) (Memlock l) (Msgqueue l) (Nice l)
    (Nofile l) (Nproc l) (Rss l) (Rtprio l) (Sigpending l) (Stack l).

(** An entry without an equals sign has no second segment. *)
Fixpoint convertEnvironmentVariables (environmentVariables : list string) : Result (list (option EnvironmentVariable)) :=
  match environmentVariables with
  | [] => Ok []
  | env :: rest =>
      match cut "="%char env with
      | Some (key, value) =>
          l ← convertEnvironmentVariables rest;
          Ok (Some (mkEnvironmentVariable (Some key) (Some value)) :: l)
      | None => Crash (Panic "index out of range")
      end
  end.

Definition run_request (handle : string) (spec : ProcessSpec) : Result RunRequest :=
  env ← convertEnvironmentVariables (proc_Env spec);
  Ok (mkRunRequest (Some handle) (Some (proc_Path spec)) (Some (Privileged spec))
        (Some (rlimits_message (proc_Limits spec))) env (proc_Args spec) (nonempty (proc_Dir spec))
        (tty_message <$> TTY spec)).

(** * What responses are read as *)

Definition bandwidth_of (res : LimitBandwidthResponse) : BandwidthLimits :=
  mkBandwidthLimits (default 0 (lbr_Rate res)) (default 0 (lbr_Burst res)).
Definition cpu_of (res : LimitCpuResponse) : CPULimits := mkCPULimits (default 0 (lcr_LimitInShares res)).
Definition memory_of (res : LimitMemoryResponse) : MemoryLimits := mkMemoryLimits (default 0 (lmr_LimitInBytes res)).
Definition disk_of (res : LimitDiskResponse) : DiskLimits :=
  mkDiskLimits (default 0 (ldr_BlockSoft res)) (default 0 (ldr_BlockHard res)) (default 0 (ldr_InodeSoft res))
    (default 0 (ldr_InodeHard res)) (default 0 (ldr_ByteSoft res)) (default 0 (ldr_ByteHard res)).
Definition capacity_of (capacity : CapacityResponse) : Warden.Capacity :=
  mkCapacity (default 0 (cap_MemoryInBytes capacity)) (default 0 (cap_DiskInBytes capacity))
    (default 0 (cap_MaxContainers capacity)).

Definition property_of (p : option PropertyMsg) : string * string :=
  (default "" (p ≫= pm_Key), default "" (p ≫= pm_Value)).
Definition port_of (p : option PortMappingMsg) : PortMapping :=
  mkPortMapping (default 0 (p ≫= pmm_HostPort)) (default 0 (p ≫= pmm_ContainerPort)).

(** A statistic that is not there is nil, and its getters give zeros. *)
Definition info_of (res : InfoResponse) : ContainerInfo :=
  let bandwidthStat := ir_BandwidthStat res in
  let cpuStat := ir_CpuStat res in
  let diskStat := ir_DiskStat res in
  mkContainerInfo (default "" (ir_State res)) (ir_Events res) (default "" (ir_HostIp res))
    (default "" (ir_ContainerIp res)) (default "" (ir_ContainerPath res)) (map u32 (ir_ProcessIds res))
    (list_stat (map (default 0) (default [] (ir_MemoryStat res))))
    (mkCPUStat (default 0 (cpuStat ≫= cm_Usage)) (default 0 (cpuStat ≫= cm_User)) (default 0 (cpuStat ≫= cm_System)))
    (mkDiskStat (default 0 (diskStat ≫= dm_BytesUsed)) (default 0 (diskStat ≫= dm_InodesUsed)))
    (mkBandwidthStat (default 0 (bandwidthStat ≫= bsm_InRate)) (default 0 (bandwidthStat ≫= bsm_InBurst))
       (default 0 (bandwidthStat ≫= bsm_OutRate)) (default 0 (bandwidthStat ≫= bsm_OutBurst)))
    (foldl (λ m p, <[(property_of p).1 := (property_of p).2]> m) ∅ (ir_Properties res))
    (map port_of (ir_MappedPorts res)).

(** * The operations *)

Section connection.
Context {W : Type} (Do : HttpMessage → M W HttpResponse).

Definition successful (resp : HttpResponse) : bool :=
  negb ((hr_StatusCode resp <? 200) || (299 <? hr_StatusCode resp)).

(** The body of an answer that is no success is not read. *)
Definition doStream (handler : Route) (body : string) (params : Params) (query : option Values) (contentType : string) :
    M W string :=
  request ← of_result (Router.CreateRequest host handler params body);
  let request := if String.eqb contentType "" then request else with_contentType contentType request in
  httpResp ← Do (with_query query request);
  if successful httpResp then mret (hr_Body httpResp) else raise (bad_response (hr_StatusCode httpResp)).

(** [do] *)
Definition do_ {B} (handler : Route) (req : option json) (res : Codec B) (params : Params) (query : option Values) : M W B :=
  let body := match req with Some j => WriteMessage j | None => "" end in
  let contentType := match req with Some _ => "application/json" | None => "" end in
  response ← doStream handler body params query contentType;
  of_result (Decode res response).

(** The connection's own dialer is used, and the connection is taken over; what the server
    sends after its answer is returned. *)
Definition doHijack (handler : Route) (body : string) (params : Params) (query : option Values) (contentType : string) :
    M W string :=
  request ← of_result (Router.CreateRequest host handler params body);
  let request := if String.eqb contentType "" then request else with_contentType contentType request in
  httpResp ← Do (with_query query request);
  if successful httpResp then mret (hr_Body httpResp) else raise (bad_response (hr_StatusCode httpResp)).

Definition handle_param (handle : string) : Params := {["handle" := handle]}.

Definition Ping : M W unit := do_ GardenServer.Ping None no_fields_codec ∅ None.

Definition Capacity : M W Warden.Capacity :=
  capacity ← do_ GardenServer.Capacity None CapacityResponse_codec ∅ None;
  mret (capacity_of capacity).

Definition Create (spec : ContainerSpec) : M W string :=
  res ← do_ GardenServer.Create (message CreateRequest_codec (create_request spec)) CreateResponse_codec ∅ None;
  mret (default "" (crr_Handle res)).

Definition Stop (handle : string) (kill : bool) : M W unit :=
  do_ GardenServer.Stop (message StopRequest_codec (mkStopRequest (Some handle) (Some kill))) no_fields_codec
    (handle_param handle) None.

Definition Destroy (handle : string) : M W unit :=
  do_ GardenServer.Destroy None no_fields_codec (handle_param handle) None.

(** The id of the process, and what is streamed after it *)
Definition Run (handle : string) (spec : ProcessSpec) : M W (Z * string) :=
  request ← of_result (run_request handle spec);
  br ← doHijack GardenServer.Run (WriteMessage (c_enc RunRequest_codec request)) (handle_param handle) None "application/json";
  of_result ('(j, following) ← parse_json br;
             firstResponse ← c_dec ProcessPayload_codec no_ProcessPayload j;
             Ok (default 0 (pp_ProcessId firstResponse), following)).

Definition Attach (handle : string) (processID : Z) : M W (Z * string) :=
  br ← doHijack GardenServer.Attach
         (WriteMessage (c_enc AttachRequest_codec (mkAttachRequest (Some handle) (Some processID))))
         (<["pid" := fmt_d processID]> (handle_param handle)) None "";
  mret (processID, br).

Definition NetIn (handle : string) (hostPort containerPort : Z) : M W (Z * Z) :=
  res ← do_ GardenServer.NetIn (message NetInRequest_codec (mkNetInRequest (Some handle) (Some hostPort) (Some containerPort)))
          NetInResponse_codec (handle_param handle) None;
  mret (default 0 (nir_HostPort res), default 0 (nir_ContainerPort res)).

Definition NetOut (handle network : string) (port : Z) : M W unit :=
  do_ GardenServer.NetOut (message NetOutRequest_codec (mkNetOutRequest (Some handle) (Some network) (Some port)))
    no_fields_codec (handle_param handle) None.

Definition LimitBandwidth (handle : string) (limits : BandwidthLimits) : M W BandwidthLimits :=
  res ← do_ GardenServer.LimitBandwidth
          (message LimitBandwidthRequest_codec
             (mkLimitBandwidthRequest (Some handle) (Some (RateInBytesPerSecond limits)) (Some (BurstRateInBytesPerSecond limits))))
          LimitBandwidthResponse_codec (handle_param handle) None;
  mret (bandwidth_of res).

Definition CurrentBandwidthLimits (handle : string) : M W BandwidthLimits :=
  res ← do_ GardenServer.CurrentBandwidthLimits None LimitBandwidthResponse_codec (handle_param handle) None;
  mret (bandwidth_of res).

Definition LimitCPU (handle : string) (limits : CPULimits) : M W CPULimits :=
  res ← do_ GardenServer.LimitCPU
          (message LimitCpuRequest_codec (mkLimitCpuRequest (Some handle) (Some (LimitInShares limits))))
          LimitCpuResponse_codec (handle_param handle) None;
  mret (cpu_of res).

Definition CurrentCPULimits (handle : string) : M W CPULimits :=
  res ← do_ GardenServer.CurrentCPULimits None LimitCpuResponse_codec (handle_param handle) None;
  mret (cpu_of res).

Definition LimitDisk (handle : string) (limits : DiskLimits) : M W DiskLimits :=
  res ← do_ GardenServer.LimitDisk
          (message LimitDiskRequest_codec
             (mkLimitDiskRequest (Some handle) (Some (BlockSoft limits)) (Some (BlockHard limits)) (Some (InodeSoft limits))
                (Some (InodeHard limits)) (Some (ByteSoft limits)) (Some (ByteHard limits))))
          LimitDiskResponse_codec (handle_param handle) None;
  mret (disk_of res).

Definition CurrentDiskLimits (handle : string) : M W DiskLimits :=
  res ← do_ GardenServer.CurrentDiskLimits None LimitDiskResponse_codec (handle_param handle) None;
  mret (disk_of res).

Definition LimitMemory (handle : string) (limits : MemoryLimits) : M W MemoryLimits :=
  res ← do_ GardenServer.LimitMemory
          (message LimitMemoryRequest_codec (mkLimitMemoryRequest (Some handle) (Some (LimitInBytes limits))))
          LimitMemoryResponse_codec (handle_param handle) None;
  mret (memory_of res).

Definition CurrentMemoryLimits (handle : string) : M W MemoryLimits :=
  res ← do_ GardenServer.CurrentMemoryLimits None LimitMemoryResponse_codec (handle_param handle) None;
  mret (memory_of res).

(** [content]: what the reader gives *)
Definition StreamIn (handle dstPath content : string) : M W unit :=
  doStream GardenServer.StreamIn content (handle_param handle) (Some {["destination" := [dstPath]]}) "application/x-tar" ≫= λ _,
  mret tt.

Definition StreamOut (handle srcPath : string) : M W string :=
  doStream GardenServer.StreamOut "" (handle_param handle) (Some {["source" := [srcPath]]}) "".

Definition List (filterProperties : Properties) : M W (list string) :=
  res ← do_ GardenServer.List None ListResponse_codec ∅ (Some ((λ val, [val]) <$> filterProperties));
  mret (lr_Handles res).

Definition Info (handle : string) : M W ContainerInfo :=
  res ← do_ GardenServer.Info None InfoResponse_codec (handle_param handle) None;
  mret (info_of res).
End connection.
