(* ===== verification/ClientServer.v ===== *)
(** The client of Connection.v in front of the server of GardenServer.v: every operation of
    the API, made over the wire, does what calling the backend under the server does. *)
From S2P Require Import Prelude GoStd OS Json JsonCodec MessageCodec MemoryStat ResourcePool Net Network Warden Snapshot Process.
From S2P Require UIDPool PortPool NetworkPool.
From S2P Require Import ProcessTracker LinuxContainer ContainerPool LinuxBackend Protocol Bomberman Url UrlQuery.
From S2P Require GardenServer Connection.
From S2P Require Import Router.
From Stdlib Require Import Ascii.

Local Open Scope string_scope.
Local Open Scope list_scope.
Local Open Scope Z_scope.

Import GardenServer (Route, SState, mkSState, ss_backend, ss_bombs, ss_streams, on_backend, send, container_op, defer_unpause,
  or_writeError, with_lookup, keep_paused, with_stream, serve, Response, RReply, RFailed, RUnavailable, RCopies, RStreams,
  http_status, WriteMessage, writeResponse, readRequest, query_get, stream_io).
Import Connection (HttpResponse, mkHttpResponse, bad_response).
#[local] Existing Instance GardenServer.Route_eq_dec.

(** * The API *)

(** [Connection], the interface, with what each method returns *)
Inductive call : Type → Type :=
  | CPing : call unit
  | CCapacity : call Warden.Capacity
  | CCreate (spec : ContainerSpec) : call string
  | CList (properties : Properties) : call (list string)
  | CDestroy (handle : string) : call unit
  | CStop (handle : string) (kill : bool) : call unit
  | CInfo (handle : string) : call ContainerInfo
  | CStreamIn (handle dstPath content : string) : call unit
  | CStreamOut (handle srcPath : string) : call string
  | CLimitBandwidth (handle : string) (limits : BandwidthLimits) : call BandwidthLimits
  | CLimitCPU (handle : string) (limits : CPULimits) : call CPULimits
  | CLimitDisk (handle : string) (limits : DiskLimits) : call DiskLimits
  | CLimitMemory (handle : string) (limits : MemoryLimits) : call MemoryLimits
  | CCurrentBandwidthLimits (handle : string) : call BandwidthLimits
  | CCurrentCPULimits (handle : string) : call CPULimits
  | CCurrentDiskLimits (handle : string) : call DiskLimits
  | CCurrentMemoryLimits (handle : string) : call MemoryLimits
  | CRun (handle : string) (spec : ProcessSpec) : call (Z * string)
  | CAttach (handle : string) (processID : Z) : call (Z * string)
  | CNetIn (handle : string) (hostPort containerPort : Z) : call (Z * Z)
  | CNetOut (handle network : string) (port : Z) : call unit.

(** The connection's method *)
Definition perform {W A} (Do : HttpMessage → M W HttpResponse) (c : call A) : M W A :=
  match c with
  | CPing => Connection.Ping Do
  | CCapacity => Connection.Capacity Do
  | CCreate spec => Connection.Create Do spec
  | CList properties => Connection.List Do properties
  | CDestroy handle => Connection.Destroy Do handle
  | CStop handle kill => Connection.Stop Do handle kill
  | CInfo handle => Connection.Info Do handle
  | CStreamIn handle dstPath content => Connection.StreamIn Do handle dstPath content
  | CStreamOut handle srcPath => Connection.StreamOut Do handle srcPath
  | CLimitBandwidth handle limits => Connection.LimitBandwidth Do handle limits
  | CLimitCPU handle limits => Connection.LimitCPU Do handle limits
  | CLimitDisk handle limits => Connection.LimitDisk Do handle limits
  | CLimitMemory handle limits => Connection.LimitMemory Do handle limits
  | CCurrentBandwidthLimits handle => Connection.CurrentBandwidthLimits Do handle
  | CCurrentCPULimits handle => Connection.CurrentCPULimits Do handle
  | CCurrentDiskLimits handle => Connection.CurrentDiskLimits Do handle
  | CCurrentMemoryLimits handle => Connection.CurrentMemoryLimits Do handle
  | CRun handle spec => Connection.Run Do handle spec
  | CAttach handle processID => Connection.Attach Do handle processID
  | CNetIn handle hostPort containerPort => Connection.NetIn Do handle hostPort containerPort
  | CNetOut handle network port => Connection.NetOut Do handle network port
  end.

Section composed.
Context {K : Kernel} {UP NP PP : Type} {codec : SnapshotCodec}.
Context `{!ResourcePool UP Z Z, !ResourcePool NP Network string, !ResourcePool PP Z Z}.
Context `{!SizedPool UP, !SizedPool NP, !NetworkedPool NP}.
Context (b : BackendConf) (containerGraceTime : Z).
(** What a started command writes to the pipe that is copied to the client, and the error of
    a client whose connection is closed without an answer *)
Context (copied : Cmd → string) (lost : error).
Local Abbreviation SS := (SState UP NP PP).
Local Abbreviation CS := (CState PP).

(** * The wire *)

Definition http_response (r : Response) : HttpResponse :=
  mkHttpResponse (http_status r)
    match r with
    | RReply msg => WriteMessage msg
    | RFailed e => err_msg e
    | RUnavailable => ""
    | RCopies c => copied c
    | RStreams _ first _ => match first with Some msg => WriteMessage msg | None => "" end
    end.

(** A request to the server; net/http recovers from the panic of a handler and closes the
    connection. *)
Definition round_trip (msg : HttpMessage) : M SS HttpResponse := λ s,
  match receive msg with
  | Ok (Serves (Handles name) query, rq) =>
      match serve b containerGraceTime name (rq query) s with
      | (Ok resp, s') => (Ok (http_response resp), s')
      | (Err e, s') => (Err e, s')
      | (Crash Blocked, s') => (Crash Blocked, s')
      | (Crash _, s') => (Err lost, s')
      end
  | Ok (Serves (RedirectHandler _) _, _) => (Ok (mkHttpResponse 301 ""), s)
  | Ok (NotFound, _) => (Ok (mkHttpResponse 404 ""), s)
  | Ok (MethodNotAllowed _, _) => (Ok (mkHttpResponse 405 ""), s)
  | _ => (Ok (mkHttpResponse 400 ""), s)
  end.

(** * Specification: the calls on the backend *)

(** What is done with a container while its bomb is paused *)
Definition on_container {A} (handle : string) (k : LinuxContainer → M SS A) : M SS A :=
  c ← on_backend (Lookup handle);
  send (MPause (c_handle c)) ≫= λ _, defer_unpause (c_handle c) (k c).

(** The bomb stays paused when the call succeeds, or blocks. *)
Definition keep_open {A} (handle : string) (m : M SS A) : M SS A := λ s,
  match m s with
  | (Ok a, s') => (Ok a, mkSState (ss_backend s') (ss_bombs s') (handle :: ss_streams s'))
  | (Crash Blocked, s') => (Crash Blocked, mkSState (ss_backend s') (ss_bombs s') (handle :: ss_streams s'))
  | (r, s') => (r, (send (MUnpause handle) s').2)
  end.

Definition on_stream {A} (handle : string) (k : LinuxContainer → M SS A) : M SS A :=
  c ← on_backend (Lookup handle);
  send (MPause (c_handle c)) ≫= λ _, keep_open (c_handle c) (k c).

Definition in_container {A} (handle : string) (m : M CS A) : M SS A := on_container handle (λ c, container_op c m).

(** Set a limit, and read what it is now. *)
Definition limit {A} (handle : string) (set : M CS unit) (current : M CS A) : M SS A :=
  on_container handle (λ c, container_op c set ≫= λ _, container_op c current).

(** A client that gives no grace time gets the server's. *)
Definition with_grace (spec : ContainerSpec) : ContainerSpec :=
  mkContainerSpec (spec_Handle spec) (if spec_GraceTime spec =? 0 then containerGraceTime else spec_GraceTime spec)
    (RootFSPath spec) (BindMounts spec) (spec_Network spec) (spec_Properties spec).

Definition direct {A} (c : call A) : M SS A :=
  match c with
  | CPing => on_backend Ping
  | CCapacity => on_backend (Capacity b)
  | CCreate spec =>
      container ← on_backend (LinuxBackend.Create b (with_grace spec));
      send (MStrap (c_handle container) (GraceTime container)) ≫= λ _, mret (c_handle container)
  | CList properties => containers ← on_backend (Containers properties); mret (map c_handle containers)
  | CDestroy handle => on_backend (Destroy b handle) ≫= λ _, send (MDefuse handle)
  | CStop handle kill => in_container handle (LinuxContainer.Stop kill)
  | CInfo handle => in_container handle LinuxContainer.Info
  | CStreamIn handle dstPath content => in_container handle (LinuxContainer.StreamIn dstPath content)
  | CStreamOut handle srcPath => on_container handle (λ c, reader ← container_op c (LinuxContainer.StreamOut srcPath); mret (copied reader))
  | CLimitBandwidth handle l => limit handle (LinuxContainer.LimitBandwidth l) LinuxContainer.CurrentBandwidthLimits
  | CLimitCPU handle l => limit handle (LinuxContainer.LimitCPU l) LinuxContainer.CurrentCPULimits
  | CLimitDisk handle l => limit handle (LinuxContainer.LimitDisk l) LinuxContainer.CurrentDiskLimits
  | CLimitMemory handle l => limit handle (LinuxContainer.LimitMemory l) LinuxContainer.CurrentMemoryLimits
  | CCurrentBandwidthLimits handle => in_container handle LinuxContainer.CurrentBandwidthLimits
  | CCurrentCPULimits handle => in_container handle LinuxContainer.CurrentCPULimits
  | CCurrentDiskLimits handle => in_container handle LinuxContainer.CurrentDiskLimits
  | CCurrentMemoryLimits handle => in_container handle LinuxContainer.CurrentMemoryLimits
  | CRun handle spec => on_stream handle (λ c, id ← container_op c (LinuxContainer.Run spec stream_io); mret (id, nl))
  | CAttach handle processID =>
      on_stream handle (λ c, container_op c (LinuxContainer.Attach processID stream_io) ≫= λ _, mret (processID, ""))
  | CNetIn handle hostPort containerPort => in_container handle (LinuxContainer.NetIn hostPort containerPort)
  | CNetOut handle network port => in_container handle (LinuxContainer.NetOut network port)
  end.

(** What is left of a call's outcome over the wire: of an error, that there was one. *)
Definition over_http {A} (m : M SS A) : M SS A := λ s,
  match m s with
  | (Ok a, s') => (Ok a, s')
  | (Err _, s') => (Err (bad_response 500), s')
  | (Crash Blocked, s') => (Crash Blocked, s')
  | (Crash _, s') => (Err lost, s')
  end.

(** Arguments that survive the wire: numbers are of the width of their field, strings are
    UTF-8, a handle is not empty and means nothing else in a URL, a grace time is a whole
    number of seconds and every entry of an environment has an equals sign. *)
Definition utf8 (s : string) : Prop := valid_utf8 s = true.
Definition handle_ok (handle : string) : Prop := plain handle = true ∧ handle ≠ "" ∧ utf8 handle.
Definition word_ok (n : Z) : Prop := 0 ≤ n < 2 ^ 64.
Definition short_ok (n : Z) : Prop := 0 ≤ n < 2 ^ 32.

Definition bind_mount_ok (bm : BindMount) : Prop := utf8 (SrcPath bm) ∧ utf8 (DstPath bm).
Definition properties_ok (m : Properties) : Prop := map_Forall (λ k v, utf8 k ∧ utf8 v) m.

Definition container_spec_ok (spec : ContainerSpec) : Prop :=
  utf8 (spec_Handle spec) ∧ utf8 (RootFSPath spec) ∧ utf8 (spec_Network spec) ∧
  Forall bind_mount_ok (BindMounts spec) ∧ properties_ok (spec_Properties spec) ∧
  ∃ seconds, short_ok seconds ∧ spec_GraceTime spec = seconds * 10 ^ 9.

Definition tty_ok (tty : TTYSpec) : Prop :=
  match tty_WindowSize tty with Some w => short_ok (Columns w) ∧ short_ok (Rows w) | None => True end.

(** Every entry of the environment has an equals sign. *)
Definition env_ok (e : string) : Prop := ∃ key value, e = key +:+ "=" +:+ value ∧ free_of "=" key ∧ utf8 key ∧ utf8 value.

Definition process_spec_ok (spec : ProcessSpec) : Prop :=
  utf8 (proc_Path spec) ∧ Forall utf8 (proc_Args spec) ∧ Forall env_ok (proc_Env spec) ∧ utf8 (proc_Dir spec) ∧
  c_ok ResourceLimitsMsg_codec (Connection.rlimits_message (proc_Limits spec)) ∧
  match TTY spec with Some tty => tty_ok tty | None => True end.

Definition call_ok {A} (c : call A) : Prop :=
  match c with
  | CPing | CCapacity | CList _ => True
  | CCreate spec => container_spec_ok spec
  | CDestroy h | CStop h _ | CInfo h | CStreamIn h _ _ | CStreamOut h _ | CCurrentBandwidthLimits h
  | CCurrentCPULimits h | CCurrentDiskLimits h | CCurrentMemoryLimits h => handle_ok h
  | CLimitBandwidth h l => handle_ok h ∧ word_ok (RateInBytesPerSecond l) ∧ word_ok (BurstRateInBytesPerSecond l)
  | CLimitCPU h l => handle_ok h ∧ word_ok (LimitInShares l)
  | CLimitDisk h l =>
      handle_ok h ∧ word_ok (BlockSoft l) ∧ word_ok (BlockHard l) ∧ word_ok (InodeSoft l) ∧ word_ok (InodeHard l) ∧
      word_ok (ByteSoft l) ∧ word_ok (ByteHard l)
  | CLimitMemory h l => handle_ok h ∧ word_ok (LimitInBytes l)
  | CRun h spec => handle_ok h ∧ process_spec_ok spec
  | CAttach h processID => handle_ok h ∧ short_ok processID
  | CNetIn h hostPort containerPort => handle_ok h ∧ short_ok hostPort ∧ short_ok containerPort
  | CNetOut h network port => handle_ok h ∧ utf8 network ∧ short_ok port
  end.

(** The result of a call is of its type, and its strings are UTF-8. *)
Definition result_ok {A} (c : call A) : A → Prop :=
  match c in call A return A → Prop with
  | CCapacity => λ r, c_ok CapacityResponse_codec (GardenServer.capacity_message r)
  | CCreate _ => utf8
  | CList _ => Forall utf8
  | CInfo _ => λ r, c_ok InfoResponse_codec (GardenServer.info_message r) ∧ Forall short_ok (info_ProcessIDs r)
  | CLimitBandwidth _ _ | CCurrentBandwidthLimits _ =>
      λ r, c_ok LimitBandwidthResponse_codec (GardenServer.bandwidth_message r)
  | CLimitCPU _ _ | CCurrentCPULimits _ => λ r, c_ok LimitCpuResponse_codec (GardenServer.cpu_message r)
  | CLimitDisk _ _ | CCurrentDiskLimits _ => λ r, c_ok LimitDiskResponse_codec (GardenServer.disk_message r)
  | CLimitMemory _ _ | CCurrentMemoryLimits _ => λ r, c_ok LimitMemoryResponse_codec (GardenServer.memory_message r)
  | CRun _ _ => λ r, short_ok r.1
  | CNetIn _ _ _ => λ r, short_ok r.1 ∧ short_ok r.2
  | _ => λ _, True
  end.

(** * Lemmas *)

(** ** From the client to the handler *)

Implicit Types (s : SS).

(** The answer of a handler, seen from [doStream] *)
Definition answered (x : Result Response * SS) : Result string * SS :=
  match x with
  | (Ok r, s') =>
      (if Connection.successful (http_response r) then Ok (Connection.hr_Body (http_response r))
       else Err (bad_response (http_status r)), s')
  | (Err e, s') => (Err e, s')
  | (Crash Blocked, s') => (Crash Blocked, s')
  | (Crash _, s') => (Err lost, s')
  end.

Lemma round_trip_routed name h pid q contentType body s :
  plain h = true → plain pid = true → h ≠ "" → pid ≠ "" →
  round_trip (with_query q (mkMessage (method_of name) (mkURL "http" (tail_of (segments name h pid)) "" "") contentType body)) s =
    match serve b containerGraceTime name (routed name h pid (default ∅ q) contentType body) s with
    | (Ok resp, s') => (Ok (http_response resp), s')
    | (Err e, s') => (Err e, s')
    | (Crash Blocked, s') => (Crash Blocked, s')
    | (Crash _, s') => (Err lost, s')
    end.
Proof using Type.
  intros Hh Hp Hne1 Hne2. unfold round_trip, with_query.
  destruct q as [q|]; cbn [m_method m_URL m_contentType m_body Scheme url_Path Fragment default];
    (rewrite receive_wire by (by apply plain_segments)); (rewrite dispatch by done); reflexivity.
Qed.

Lemma doStream_routed name h pid params body q contentType s :
  plain h = true → plain pid = true → h ≠ "" → pid ≠ "" → params = client_params name h pid →
  Connection.doStream round_trip name body params q contentType s =
    answered (serve b containerGraceTime name (routed name h pid (default ∅ q) contentType body) s).
Proof using Type.
  intros Hh Hp Hne1 Hne2 ->. assert (Hr : is_Some (FindRouteByName name)) by (destruct name; eexists; reflexivity).
  destruct Hr as [r Hr]. unfold Connection.doStream. rewrite (created name h pid _ body r) by done.
  unfold mbind at 1, M_bind at 1, of_result at 1.
  assert (E : (if String.eqb contentType "" then mkMessage (method_of name) (mkURL "http" (tail_of (segments name h pid)) "" "") "" body
               else with_contentType contentType (mkMessage (method_of name) (mkURL "http" (tail_of (segments name h pid)) "" "") "" body)) =
              mkMessage (method_of name) (mkURL "http" (tail_of (segments name h pid)) "" "") contentType body).
  { destruct (String.eqb_spec contentType "") as [->|]; done. }
  cbn zeta. rewrite E. unfold mbind, M_bind. rewrite round_trip_routed by done. unfold answered.
  destruct (serve _ _ _ _ s) as [[resp|e|[]] s']; try done. cbn [Connection.hr_StatusCode http_response].
  by destruct (Connection.successful _).
Qed.

(** ** From the handler to the backend *)

(** The response of a handler to what became of [m] *)
Definition as_response {A} (f : A → Response) (m : M SS A) : M SS Response :=
  r ← attempt m; mret (match r with inl a => f a | inr e => RFailed e end).

Lemma lookup_response {A} rq (k : LinuxContainer → M SS A) (f : A → Response) s :
  or_writeError (with_lookup rq (λ c, a ← k c; mret (f a))) s = as_response f (on_container (GardenServer.rq_handle rq) k) s.
Proof using Type.
  unfold or_writeError, with_lookup, on_container, as_response, attempt, mbind, M_bind.
  destruct (on_backend (Lookup _) s) as [[c|e|f'] s1]; [|done..].
  destruct (send (MPause (c_handle c)) s1) as [[[]|e|f'] s2]; [|done..].
  unfold defer_unpause, or_writeError, attempt, mbind, M_bind.
  destruct (k c s2) as [[a|e|[]] s3]; try done.
Qed.

Lemma with_lookup_ext rq (k k' : LinuxContainer → M SS Response) s :
  (∀ c s, k c s = k' c s) → or_writeError (with_lookup rq k) s = or_writeError (with_lookup rq k') s.
Proof using Type.
  intros E. unfold or_writeError, with_lookup, attempt, mbind, M_bind.
  destruct (on_backend (Lookup _) s) as [[c|e|f'] s1]; [|done..].
  destruct (send (MPause (c_handle c)) s1) as [[[]|e|f'] s2]; [|done..].
  unfold defer_unpause, or_writeError, attempt, mbind, M_bind. by rewrite E.
Qed.

Lemma stream_response {A} rq (k : LinuxContainer → M SS A) (f : A → Response) s :
  or_writeError (with_stream rq (λ c, a ← k c; mret (f a))) s = as_response f (on_stream (GardenServer.rq_handle rq) k) s.
Proof using Type.
  unfold or_writeError, with_stream, on_stream, as_response, attempt, mbind, M_bind.
  destruct (on_backend (Lookup _) s) as [[c|e|f'] s1]; [|done..].
  destruct (send (MPause (c_handle c)) s1) as [[[]|e|f'] s2]; [|done..].
  unfold keep_paused, keep_open, mbind, M_bind. by destruct (k c s2) as [[a|e|[]] s3].
Qed.

(** A limit is set, and the one in force is the answer. *)
Lemma limit_response {A} rq (set : M CS unit) (current : M CS A) (f : A → Response) s :
  or_writeError (with_lookup rq (λ c, container_op c set ≫= λ _, a ← container_op c current; mret (f a))) s =
    as_response f (limit (GardenServer.rq_handle rq) set current) s.
Proof using Type.
  unfold limit. rewrite <-lookup_response. apply with_lookup_ext. intros c s0. unfold mbind, M_bind.
  by destruct (container_op c set s0) as [[[]|e|f'] s1].
Qed.

(** ** Messages *)

Lemma readRequest_written {A} (c : Codec A) (m : A) rq :
  CodecLaws c → c_ok c m → GardenServer.rq_contentType rq = "application/json" →
  GardenServer.rq_body rq = WriteMessage (c_enc c m) → readRequest c rq = Ok m.
Proof using Type.
  intros Hc Hm Ht Hb. unfold readRequest. rewrite Ht, Hb. cbn [String.eqb negb]. unfold WriteMessage.
  rewrite parse_json_print by (done || by apply c_wf). cbn [mbind Result_bind]. by rewrite c_roundtrip.
Qed.

Lemma Decode_written {A} (c : Codec A) (m : A) :
  CodecLaws c → c_ok c m → Connection.Decode c (WriteMessage (c_enc c m)) = Ok m.
Proof using Type.
  intros Hc Hm. unfold Connection.Decode, WriteMessage. rewrite parse_json_print by (done || by apply c_wf).
  cbn [mbind Result_bind]. by rewrite c_roundtrip.
Qed.

Definition body_of (req : option json) : string := match req with Some j => WriteMessage j | None => "" end.
Definition type_of (req : option json) : string := match req with Some _ => "application/json" | None => "" end.

(** A call whose handler answers with a message does over HTTP what the handler does. *)
Lemma do_over_http {A B} name h pid params req q (res : Codec B) (msg : A → B) (get : B → A) (m : M SS A) s :
  plain h = true → plain pid = true → h ≠ "" → pid ≠ "" → params = client_params name h pid → CodecLaws res →
  serve b containerGraceTime name (routed name h pid (default ∅ q) (type_of req) (body_of req)) s =
    as_response (λ a, writeResponse res (msg a)) m s →
  (∀ a s', m s = (Ok a, s') → c_ok res (msg a) ∧ get (msg a) = a) →
  (x ← Connection.do_ round_trip name req res params q; mret (get x)) s = over_http m s.
Proof using Type.
  intros Hh Hp Hne1 Hne2 Hparams Hc Hserve Hok. unfold Connection.do_. fold (body_of req). fold (type_of req).
  unfold mbind at 1 2, M_bind at 1 2. rewrite (doStream_routed name h pid) by done. rewrite Hserve.
  unfold as_response, over_http, attempt, mbind at 1, M_bind at 1.
  destruct (m s) as [[a|e|[]] s'] eqn:E; try done. destruct (Hok a s' eq_refl) as [Ha Hget]. cbn [answered mret M_ret].
  change (Connection.successful _) with true. cbn iota. unfold writeResponse. cbn [http_response Connection.hr_Body].
  unfold of_result. rewrite Decode_written by done. unfold mret, M_ret. by rewrite Hget.
Qed.

Lemma bind_ret_r {A} (m : M SS A) s : (x ← m; mret (id x)) s = m s.
Proof using Type. unfold mbind, M_bind. by destruct (m s) as [[a|e|f] s']. Qed.

Lemma handler_ext {X} (r : Result X) rq (k k' : X → LinuxContainer → M SS Response) s :
  (∀ x c s, k x c s = k' x c s) →
  or_writeError (x ← of_result r; with_lookup rq (k x)) s = or_writeError (x ← of_result r; with_lookup rq (k' x)) s.
Proof using Type.
  intros E. destruct r as [x|e|f]; [|done..]. exact (with_lookup_ext rq (k x) (k' x) s (E x)).
Qed.

(** ** Requests with a message *)

(** The routes whose only parameter is a handle *)
Definition is_handle_route (name : Route) : bool := has_handle name && negb (bool_decide (name = GardenServer.Attach)).

Lemma handle_params name h pid : is_handle_route name = true → Connection.handle_param h = client_params name h pid.
Proof using Type.
  unfold is_handle_route, has_handle, client_params. intros [H1%bool_decide_eq_true H2]%andb_true_iff.
  apply negb_true_iff, bool_decide_eq_false in H2. by rewrite bool_decide_eq_false_2, bool_decide_eq_false_2.
Qed.

Definition routed_message {A} (name : Route) (h : string) (c : Codec A) (m : A) : GardenServer.HttpRequest :=
  routed name h "0" ∅ (type_of (Connection.message c m)) (body_of (Connection.message c m)).

Lemma request_read {A} name h (c : Codec A) (m : A) (k : A → M SS Response) s :
  CodecLaws c → c_ok c m →
  or_writeError (r ← of_result (readRequest c (routed_message name h c m)); k r) s = or_writeError (k m) s.
Proof using Type. intros Hc Hm. by rewrite (readRequest_written c m). Qed.

(** A call with a message, or without one, to a container *)
Lemma message_over_http {A B X} name h (c : Codec X) (m : X) (res : Codec B) (msg : A → B) (get : B → A) (d : M SS A) s :
  handle_ok h → is_handle_route name = true → CodecLaws res →
  serve b containerGraceTime name (routed_message name h c m) s = as_response (λ a, writeResponse res (msg a)) d s →
  (∀ a s', d s = (Ok a, s') → c_ok res (msg a) ∧ get (msg a) = a) →
  (x ← Connection.do_ round_trip name (Connection.message c m) res (Connection.handle_param h) None; mret (get x)) s = over_http d s.
Proof using Type.
  intros (Hh & Hne & _) Hn Hres Hserve Hok. apply (do_over_http name h "0" _ _ _ res msg get d); auto using handle_params.
Qed.

Lemma plain_over_http {A B} name h (res : Codec B) (msg : A → B) (get : B → A) (d : M SS A) s :
  handle_ok h → is_handle_route name = true → CodecLaws res →
  serve b containerGraceTime name (routed name h "0" ∅ "" "") s = as_response (λ a, writeResponse res (msg a)) d s →
  (∀ a s', d s = (Ok a, s') → c_ok res (msg a) ∧ get (msg a) = a) →
  (x ← Connection.do_ round_trip name None res (Connection.handle_param h) None; mret (get x)) s = over_http d s.
Proof using Type.
  intros (Hh & Hne & _) Hn Hres Hserve Hok. apply (do_over_http name h "0" _ _ _ res msg get d); auto using handle_params.
Qed.

Lemma routed_plain name h ct body : has_handle name = true → GardenServer.rq_handle (routed name h "0" ∅ ct body) = h.
Proof using Type. intros Hn. apply routed_handle; [apply map_Forall_empty|done]. Qed.

(** A handler that reads a message and calls the container *)
Lemma call_with_message {A B X} name h (c : Codec X) (m : X) (res : Codec B) (msg : A → B) (get : B → A)
    (k : X → LinuxContainer → M SS A) s :
  handle_ok h → is_handle_route name = true → CodecLaws c → CodecLaws res → c_ok c m →
  (∀ rq s, serve b containerGraceTime name rq s =
     or_writeError (r ← of_result (readRequest c rq); with_lookup rq (λ co, a ← k r co; mret (writeResponse res (msg a)))) s) →
  (∀ a s', on_container h (k m) s = (Ok a, s') → c_ok res (msg a) ∧ get (msg a) = a) →
  (x ← Connection.do_ round_trip name (Connection.message c m) res (Connection.handle_param h) None; mret (get x)) s =
    over_http (on_container h (k m)) s.
Proof using Type.
  intros Hh Hn Hc Hres Hm Hserve Hok. apply (message_over_http name h c m res msg get); try done.
  rewrite Hserve, request_read by done. rewrite lookup_response. unfold routed_message.
  apply andb_true_iff in Hn as [Hn _]. by rewrite routed_plain.
Qed.

(** One that sets a limit, and answers with the limit in force *)
Lemma call_with_limit {A B X} name h (c : Codec X) (m : X) (res : Codec B) (msg : A → B) (get : B → A)
    (set : X → M CS unit) (current : M CS A) (k : X → LinuxContainer → M SS Response) s :
  handle_ok h → is_handle_route name = true → CodecLaws c → CodecLaws res → c_ok c m →
  (∀ rq s, serve b containerGraceTime name rq s =
     or_writeError (r ← of_result (readRequest c rq); with_lookup rq (k r)) s) →
  (∀ co s, k m co s = (container_op co (set m) ≫= λ _, a ← container_op co current; mret (writeResponse res (msg a))) s) →
  (∀ a s', limit h (set m) current s = (Ok a, s') → c_ok res (msg a) ∧ get (msg a) = a) →
  (x ← Connection.do_ round_trip name (Connection.message c m) res (Connection.handle_param h) None; mret (get x)) s =
    over_http (limit h (set m) current) s.
Proof using Type.
  intros Hh Hn Hc Hres Hm Hserve Hk Hok. apply (message_over_http name h c m res msg get); try done.
  rewrite Hserve, request_read by done. erewrite with_lookup_ext by exact Hk. rewrite limit_response. unfold routed_message.
  apply andb_true_iff in Hn as [Hn _]. by rewrite routed_plain.
Qed.

(** One that reads no message *)
Lemma call_without_message {A B} name h (res : Codec B) (msg : A → B) (get : B → A) (k : LinuxContainer → M SS A) s :
  handle_ok h → is_handle_route name = true → CodecLaws res →
  (∀ rq s, serve b containerGraceTime name rq s =
     or_writeError (with_lookup rq (λ co, a ← k co; mret (writeResponse res (msg a)))) s) →
  (∀ a s', on_container h k s = (Ok a, s') → c_ok res (msg a) ∧ get (msg a) = a) →
  (x ← Connection.do_ round_trip name None res (Connection.handle_param h) None; mret (get x)) s = over_http (on_container h k) s.
Proof using Type.
  intros Hh Hn Hres Hserve Hok. apply (plain_over_http name h res msg get); try done.
  rewrite Hserve, lookup_response. apply andb_true_iff in Hn as [Hn _]. by rewrite routed_plain.
Qed.

(** ** The calls *)

(** A message is of its type when its fields are. *)
Ltac field_ok :=
  lazymatch goal with
  | |- c_ok (pointer_codec ?c) ?x =>
      let y := eval hnf in x in change (c_ok (pointer_codec c) y);
      lazymatch y with
      | Some ?a => apply pointer_ok; [apply _|first [assumption|exact I]]
      | None => exact I
      end
  end.
Ltac fields_ok :=
  repeat match goal with H : handle_ok ?h |- _ => destruct H as (? & ? & ?) end; split_and!; try field_ok.

Definition transparent {A} (c : call A) s : Prop :=
  call_ok c → (∀ a s', direct c s = (Ok a, s') → result_ok c a) → perform round_trip c s = over_http (direct c) s.

Lemma Stop_transparent h kill s : transparent (CStop h kill) s.
Proof using Type.
  intros Hh _. cbn [perform direct call_ok] in *. unfold Connection.Stop. rewrite <-bind_ret_r.
  apply (call_with_message GardenServer.Stop h StopRequest_codec (mkStopRequest (Some h) (Some kill)) no_fields_codec (λ _, tt) id
           (λ r c, container_op c (LinuxContainer.Stop (default false (sr_Kill r)))));
    [done|done|apply _|apply _|by fields_ok|done|by intros [] s' _].
Qed.

Lemma NetIn_transparent h hp cp s : transparent (CNetIn h hp cp) s.
Proof using Type.
  intros (Hh & Hhp & Hcp) Hr. cbn [perform direct] in *. unfold Connection.NetIn.
  apply (call_with_message GardenServer.NetIn h NetInRequest_codec (mkNetInRequest (Some h) (Some hp) (Some cp)) NetInResponse_codec
           (λ r, mkNetInResponse (Some r.1) (Some r.2)) (λ res, (default 0 (nir_HostPort res), default 0 (nir_ContainerPort res)))
           (λ r c, container_op c (LinuxContainer.NetIn (default 0 (ni_HostPort r)) (default 0 (ni_ContainerPort r)))));
    [done|done|apply _|apply _|by fields_ok| |].
  { intros rq s0. apply handler_ext. intros x c s1. unfold mbind, M_bind. by destruct (container_op _ _ _) as [[[]|e|f] s2]. }
  intros [x y] s' E. destruct (Hr _ _ E). split; [by fields_ok|done].
Qed.

Lemma NetOut_transparent h n port s : transparent (CNetOut h n port) s.
Proof using Type.
  intros (Hh & Hn & Hport) _. cbn [perform direct] in *. unfold Connection.NetOut. rewrite <-bind_ret_r.
  apply (call_with_message GardenServer.NetOut h NetOutRequest_codec (mkNetOutRequest (Some h) (Some n) (Some port)) no_fields_codec (λ _, tt) id
           (λ r c, container_op c (LinuxContainer.NetOut (default "" (no_Network r)) (default 0 (no_Port r)))));
    [done|done|apply _|apply _|by fields_ok|reflexivity|by intros [] s' _].
Qed.

Lemma LimitBandwidth_transparent h l s : transparent (CLimitBandwidth h l) s.
Proof using Type.
  intros (Hh & H1 & H2) Hr. cbn [perform direct] in *. destruct l as [r u]. unfold Connection.LimitBandwidth.
  eapply (call_with_limit GardenServer.LimitBandwidth h LimitBandwidthRequest_codec
           (mkLimitBandwidthRequest (Some h) (Some r) (Some u)) LimitBandwidthResponse_codec GardenServer.bandwidth_message
           Connection.bandwidth_of
           (λ r, LinuxContainer.LimitBandwidth (mkBandwidthLimits (default 0 (lb_Rate r)) (default 0 (lb_Burst r))))
           LinuxContainer.CurrentBandwidthLimits _ s);
    [done|done|apply _|apply _|by fields_ok|reflexivity|done|].
  intros a s' E. split; [by apply (Hr a s')|by destruct a].
Qed.

Lemma LimitCPU_transparent h l s : transparent (CLimitCPU h l) s.
Proof using Type.
  intros (Hh & H1) Hr. cbn [perform direct] in *. destruct l as [n]. unfold Connection.LimitCPU.
  eapply (call_with_limit GardenServer.LimitCPU h LimitCpuRequest_codec
           (mkLimitCpuRequest (Some h) (Some n)) LimitCpuResponse_codec GardenServer.cpu_message Connection.cpu_of
           (λ r, LinuxContainer.LimitCPU (mkCPULimits (default 0 (lc_LimitInShares r))))
           LinuxContainer.CurrentCPULimits _ s);
    [done|done|apply _|apply _|by fields_ok|reflexivity|done|].
  intros a s' E. split; [by apply (Hr a s')|by destruct a].
Qed.

Lemma LimitMemory_transparent h l s : transparent (CLimitMemory h l) s.
Proof using Type.
  intros (Hh & H1) Hr. cbn [perform direct] in *. destruct l as [n]. unfold Connection.LimitMemory.
  eapply (call_with_limit GardenServer.LimitMemory h LimitMemoryRequest_codec
           (mkLimitMemoryRequest (Some h) (Some n)) LimitMemoryResponse_codec GardenServer.memory_message Connection.memory_of
           (λ r, LinuxContainer.LimitMemory (mkMemoryLimits (default 0 (lm_LimitInBytes r))))
           LinuxContainer.CurrentMemoryLimits _ s);
    [done|done|apply _|apply _|by fields_ok|reflexivity|done|].
  intros a s' E. split; [by apply (Hr a s')|by destruct a].
Qed.

Lemma LimitDisk_transparent h l s : transparent (CLimitDisk h l) s.
Proof using Type.
  intros (Hh & H1 & H2 & H3 & H4 & H5 & H6) Hr. cbn [perform direct] in *. destruct l as [a1 a2 a3 a4 a5 a6].
  unfold Connection.LimitDisk.
  eapply (call_with_limit GardenServer.LimitDisk h LimitDiskRequest_codec
           (mkLimitDiskRequest (Some h) (Some a1) (Some a2) (Some a3) (Some a4) (Some a5) (Some a6)) LimitDiskResponse_codec
           GardenServer.disk_message Connection.disk_of
           (λ r, LinuxContainer.LimitDisk (mkDiskLimits (default 0 (ld_BlockSoft r)) (default 0 (ld_BlockHard r))
              (default 0 (ld_InodeSoft r)) (default 0 (ld_InodeHard r)) (default 0 (ld_ByteSoft r)) (default 0 (ld_ByteHard r))))
           LinuxContainer.CurrentDiskLimits _ s);
    [done|done|apply _|apply _|by fields_ok|reflexivity|done|].
  intros a s' E. split; [by apply (Hr a s')|by destruct a].
Qed.

Lemma Current_transparent h s :
  transparent (CCurrentBandwidthLimits h) s ∧ transparent (CCurrentCPULimits h) s ∧
  transparent (CCurrentDiskLimits h) s ∧ transparent (CCurrentMemoryLimits h) s.
Proof using Type.
  split_and!; intros Hh Hr; cbn [perform direct] in *.
  - apply (call_without_message GardenServer.CurrentBandwidthLimits h LimitBandwidthResponse_codec GardenServer.bandwidth_message
             Connection.bandwidth_of); [done|done|apply _|done|].
    intros a s' E. split; [by apply (Hr a s')|by destruct a].
  - apply (call_without_message GardenServer.CurrentCPULimits h LimitCpuResponse_codec GardenServer.cpu_message
             Connection.cpu_of); [done|done|apply _|done|].
    intros a s' E. split; [by apply (Hr a s')|by destruct a].
  - apply (call_without_message GardenServer.CurrentDiskLimits h LimitDiskResponse_codec GardenServer.disk_message
             Connection.disk_of); [done|done|apply _|done|].
    intros a s' E. split; [by apply (Hr a s')|by destruct a].
  - apply (call_without_message GardenServer.CurrentMemoryLimits h LimitMemoryResponse_codec GardenServer.memory_message
             Connection.memory_of); [done|done|apply _|done|].
    intros a s' E. split; [by apply (Hr a s')|by destruct a].
Qed.

(** ** Statistics *)

Lemma properties_back (m : Properties) :
  foldl (λ m p, <[(Connection.property_of p).1 := (Connection.property_of p).2]> m) ∅ (GardenServer.property_messages m) = m.
Proof using Type.
  unfold GardenServer.property_messages. rewrite <-(list_to_map_to_list m) at 2.
  assert (Hnd : NoDup (map_to_list m).*1) by apply NoDup_fst_map_to_list.
  assert (E : ∀ (l : list (string * string)) (m0 : Properties), NoDup l.*1 →
    foldl (λ m p, <[(Connection.property_of p).1 := (Connection.property_of p).2]> m) m0
      (map (λ kv, Some (mkPropertyMsg (Some kv.1) (Some kv.2))) l) = list_to_map l ∪ m0).
  { induction l as [|[k v] l IH]; intros m0 Hl; [by rewrite list_to_map_nil, (left_id_L ∅ (∪))|].
    apply NoDup_cons in Hl as [Hk Hl]. cbn. rewrite IH by done.
    rewrite <-insert_union_l, <-insert_union_r; [done|]. by apply not_elem_of_list_to_map_1. }
  by rewrite E, (right_id_L ∅ (∪)).
Qed.

Lemma info_back info : Forall short_ok (info_ProcessIDs info) → Connection.info_of (GardenServer.info_message info) = info.
Proof using Type.
  intros Hids. destruct info as [st ev hip cip path ids mem cpu disk bw props ports]. unfold Connection.info_of, GardenServer.info_message.
  cbn [ir_State ir_Events ir_HostIp ir_ContainerIp ir_ContainerPath ir_MemoryStat ir_CpuStat ir_DiskStat ir_BandwidthStat
       ir_ProcessIds ir_Properties ir_MappedPorts default mbind option_bind
       info_State info_Events info_HostIP info_ContainerIP info_ContainerPath info_ProcessIDs info_MemoryStat info_CPUStat
       info_DiskStat info_BandwidthStat info_Properties info_MappedPorts] in *.
  rewrite properties_back. f_equal.
  - clear -Hids. induction Hids as [|x l Hx Hl IH]; [done|]. cbn. by rewrite u32_small, IH.
  - by destruct mem.
  - by destruct cpu.
  - by destruct disk.
  - by destruct bw.
  - induction ports as [|[hp cp] ports IH]; [done|]. cbn in *. by rewrite IH.
Qed.

Lemma Info_transparent h s : transparent (CInfo h) s.
Proof using Type.
  intros Hh Hr. cbn [perform direct] in *.
  apply (call_without_message GardenServer.Info h InfoResponse_codec GardenServer.info_message
           Connection.info_of); [done|done|apply _|done|].
  intros a s' E. destruct (Hr a s' E) as [H1 H2]. split; [done|by apply info_back].
Qed.

(** ** Calls without a handle *)

Lemma or_response {A} (m : M SS A) (f : A → Response) s : or_writeError (a ← m; mret (f a)) s = as_response f m s.
Proof using Type. unfold or_writeError, as_response, attempt, mbind, M_bind. by destruct (m s) as [[a|e|c] s']. Qed.

Lemma Ping_transparent s : transparent CPing s.
Proof using Type.
  intros _ _. cbn [perform direct]. unfold Connection.Ping. rewrite <-bind_ret_r.
  apply (do_over_http GardenServer.Ping "0" "0" _ None None no_fields_codec (λ _, tt) id);
    [done..|apply _|done|by intros [] s' _].
Qed.

Lemma Capacity_transparent s : transparent CCapacity s.
Proof using Type.
  intros _ Hr. cbn [perform direct] in *. unfold Connection.Capacity.
  apply (do_over_http GardenServer.Capacity "0" "0" _ None None CapacityResponse_codec GardenServer.capacity_message);
    [done..|apply _|apply or_response|].
  intros a s' E. split; [by apply (Hr a s')|by destruct a].
Qed.

Lemma List_filter properties :
  GardenServer.list_filter
    (routed GardenServer.List "0" "0" (default ∅ (Some ((λ val, [val]) <$> properties))) (type_of None) (body_of None)) = properties.
Proof using Type.
  unfold GardenServer.list_filter, routed, handler_request. cbn [GardenServer.rq_query default].
  change (handler_params GardenServer.List "0" "0") with (∅ : Values). rewrite bool_decide_eq_true_2 by done.
  cbn [from_option]. unfold id. rewrite ParseQuery_Encode.
  - apply map_eq. intros k. rewrite lookup_omap, lookup_fmap. by destruct (properties !! k).
  - intros k vs. rewrite lookup_fmap. destruct (properties !! k); [by intros [= <-]|done].
Qed.

Lemma List_transparent properties s : transparent (CList properties) s.
Proof using Type.
  intros _ Hr. cbn [perform direct] in *. unfold Connection.List.
  apply (do_over_http GardenServer.List "0" "0" _ None (Some _) ListResponse_codec mkListResponse); [done..|apply _| |].
  - cbn [serve]. unfold GardenServer.handleList. rewrite List_filter.
    unfold or_writeError, as_response, attempt, mbind, M_bind. by destruct (on_backend _ s) as [[cs|e|f] s'].
  - intros a s' E. split; [by apply (Hr a s')|done].
Qed.

Lemma Destroy_transparent h s : transparent (CDestroy h) s.
Proof using Type.
  intros Hh _. cbn [perform direct call_ok] in *. unfold Connection.Destroy. rewrite <-bind_ret_r.
  apply (plain_over_http GardenServer.Destroy h no_fields_codec (λ _, tt) id); [done|done|apply _| |by intros [] s' _].
  cbn [serve]. unfold GardenServer.handleDestroy. rewrite routed_plain by done.
  unfold or_writeError, as_response, attempt, mbind, M_bind.
  by destruct (on_backend _ s) as [[[]|e|f] s'].
Qed.

(** ** New containers *)

Lemma nonempty_back t : default "" (Connection.nonempty t) = t.
Proof using Type. unfold Connection.nonempty. by destruct (String.eqb_spec t "") as [->|]. Qed.

Lemma Seconds_back seconds : short_ok seconds → Connection.Seconds (seconds * 10 ^ 9) = seconds.
Proof using Type. intros H. unfold Connection.Seconds. rewrite Z.quot_mul by lia. by apply u32_small. Qed.

Lemma container_spec_back spec :
  container_spec_ok spec → GardenServer.container_spec containerGraceTime (Connection.create_request spec) = with_grace spec.
Proof using Type.
  destruct spec as [h grace root bms net props]. intros (_ & _ & _ & _ & _ & seconds & Hs & Hg). cbn in Hg. subst grace.
  unfold GardenServer.container_spec, Connection.create_request, with_grace.
  cbn [cr_Handle cr_GraceTime cr_Rootfs cr_BindMounts cr_Network cr_Properties spec_Handle spec_GraceTime RootFSPath
       BindMounts spec_Network spec_Properties]. rewrite !nonempty_back. f_equal.
  - destruct (seconds * 10 ^ 9 =? 0); [done|]. by rewrite Seconds_back.
  - clear. induction bms as [|[src dst [] []] bms IH]; [done|..]; cbn; by rewrite IH.
  - apply properties_back.
Qed.

Lemma nonempty_ok t : utf8 t → c_ok string_pointer (Connection.nonempty t).
Proof using Type. intros Ht. unfold Connection.nonempty. by destruct (String.eqb t ""). Qed.

Lemma create_request_ok spec : container_spec_ok spec → c_ok CreateRequest_codec (Connection.create_request spec).
Proof using Type.
  intros (Hh & Hroot & Hnet & Hbms & Hprops & seconds & Hs & Hg). split_and!; [| |by apply nonempty_ok..|].
  - cbn. apply Forall_fmap. eapply Forall_impl; [exact Hbms|]. intros [src dst mode origin] [H1 H2].
    apply (pointer_ok BindMountMsg_codec); [apply _|]. split_and!; field_ok || (apply pointer_ok; [apply _|]); by destruct mode, origin.
  - unfold Connection.create_request. cbn [cr_GraceTime]. destruct (_ =? 0); [done|]. apply pointer_ok; [apply _|].
    cbn. apply u32_range.
  - cbn. apply Forall_fmap, Forall_forall. intros [k v] Hkv%elem_of_map_to_list. destruct (Hprops k v Hkv).
    apply (pointer_ok PropertyMsg_codec); [apply _|]. split; cbn [fst snd]; field_ok.
Qed.

Lemma Create_transparent spec s : transparent (CCreate spec) s.
Proof using Type.
  intros Hspec Hr. cbn [perform direct call_ok] in *. unfold Connection.Create.
  apply (do_over_http GardenServer.Create "0" "0" _ _ None CreateResponse_codec (λ h, mkCreateResponse (Some h)));
    [done..|apply _| |].
  - cbn [serve]. unfold GardenServer.handleCreate.
    rewrite (readRequest_written CreateRequest_codec (Connection.create_request spec)); [|apply _|by apply create_request_ok|done|done].
    unfold or_writeError, as_response, attempt, mbind, M_bind, of_result. rewrite container_spec_back by done.
    by destruct (on_backend _ s) as [[c|e|f] s'].
  - intros h s' E. split; [apply pointer_ok; [apply _|by apply (Hr h s')]|done].
Qed.

(** ** Streams *)

Lemma doStream_over_http {A} name h pid params body q contentType (f : A → Response) (g : A → string) (d : M SS A) s :
  plain h = true → plain pid = true → h ≠ "" → pid ≠ "" → params = client_params name h pid →
  serve b containerGraceTime name (routed name h pid (default ∅ q) contentType body) s = as_response f d s →
  (∀ a, Connection.successful (http_response (f a)) = true ∧ Connection.hr_Body (http_response (f a)) = g a) →
  Connection.doStream round_trip name body params q contentType s = over_http (a ← d; mret (g a)) s.
Proof using Type.
  intros Hh Hp Hne1 Hne2 Hparams Hserve Hf. rewrite (doStream_routed name h pid) by done. rewrite Hserve.
  unfold as_response, over_http, attempt, mbind, M_bind. destruct (d s) as [[a|e|[]] s']; try done.
  cbn [answered mret M_ret]. destruct (Hf a) as [-> ->]. done.
Qed.

Lemma over_http_ext {A} (d d' : M SS A) s : d s = d' s → over_http d s = over_http d' s.
Proof using Type. unfold over_http. by intros ->. Qed.

Lemma on_container_map {A B} h (k : LinuxContainer → M SS A) (g : A → B) s :
  (a ← on_container h k; mret (g a)) s = on_container h (λ c, a ← k c; mret (g a)) s.
Proof using Type.
  unfold on_container, mbind, M_bind. destruct (on_backend (Lookup h) s) as [[c|e|f] s1]; [|done..].
  destruct (send (MPause (c_handle c)) s1) as [[[]|e|f] s2]; [|done..]. unfold defer_unpause.
  by destruct (k c s2) as [[a|e|[]] s3].
Qed.

Lemma on_stream_map {A B} h (k : LinuxContainer → M SS A) (g : A → B) s :
  (a ← on_stream h k; mret (g a)) s = on_stream h (λ c, a ← k c; mret (g a)) s.
Proof using Type.
  unfold on_stream, mbind, M_bind. destruct (on_backend (Lookup h) s) as [[c|e|f] s1]; [|done..].
  destruct (send (MPause (c_handle c)) s1) as [[[]|e|f] s2]; [|done..]. unfold keep_open.
  by destruct (k c s2) as [[a|e|[]] s3].
Qed.

Lemma routed_query_get name h key v ct body :
  HasPrefix key ":" = false → query_get key (routed name h "0" {[key := [v]]} ct body) = v.
Proof using Type.
  intros Hk. assert (E : default [] (GardenServer.rq_query (routed name h "0" {[key := [v]]} ct body) !! key) = [v]).
  { rewrite routed_query; [by rewrite lookup_singleton_eq|by apply map_Forall_singleton|done]. }
  unfold query_get. by destruct (_ !! key) as [l|]; cbn in *; subst.
Qed.

Lemma routed_handle_query name h key v ct body :
  has_handle name = true → GardenServer.rq_handle (routed name h "0" {[key := [v]]} ct body) = h.
Proof using Type. intros Hn. apply routed_handle; [by apply map_Forall_singleton|done]. Qed.

Lemma StreamIn_transparent h dst content s : transparent (CStreamIn h dst content) s.
Proof using Type.
  intros (Hh & Hne & _) _. cbn [perform direct] in *. unfold Connection.StreamIn.
  set (d := in_container h (LinuxContainer.StreamIn dst content)).
  assert (E : Connection.doStream round_trip GardenServer.StreamIn content (Connection.handle_param h)
                (Some {["destination" := [dst]]}) "application/x-tar" s =
              over_http (_ ← d; mret (WriteMessage (c_enc no_fields_codec tt))) s).
  { apply (doStream_over_http GardenServer.StreamIn h "0" _ _ _ _ (λ _, writeResponse no_fields_codec tt)); [done..| |done].
    cbn [serve]. unfold GardenServer.handleStreamIn. rewrite lookup_response. cbn [default from_option]. unfold id.
    by rewrite routed_query_get, routed_handle_query. }
  unfold mbind at 1, M_bind at 1. rewrite E. unfold over_http, mbind, M_bind. by destruct (d s) as [[[]|e|[]] s'].
Qed.

Lemma StreamOut_transparent h src s : transparent (CStreamOut h src) s.
Proof using Type.
  intros (Hh & Hne & _) _. cbn [perform direct] in *. unfold Connection.StreamOut.
  rewrite (doStream_over_http GardenServer.StreamOut h "0" _ _ _ _ RCopies copied
             (on_container h (λ c, container_op c (LinuxContainer.StreamOut src)))); [|done..| |done].
  - apply over_http_ext, on_container_map.
  - cbn [serve]. unfold GardenServer.handleStreamOut. rewrite lookup_response. cbn [default from_option]. unfold id.
    by rewrite routed_query_get, routed_handle_query.
Qed.

(** ** Processes *)

Lemma cut_entry key value : free_of "=" key → cut "="%char (key +:+ "=" +:+ value) = Some (key, value).
Proof using Type. apply (cut_app "="%char key value). Qed.

Lemma env_back l : Forall env_ok l → ∃ env, Connection.convertEnvironmentVariables l = Ok env ∧ GardenServer.convertEnv env = l ∧
  c_ok (slice_codec true (pointer_codec EnvironmentVariable_codec)) env.
Proof using Type.
  induction 1 as [|e l (key & value & -> & Hfree & Hk & Hv) _ (env & E & Hback & Hok)].
  { exists []. split_and!; [done|done|apply Forall_nil_2]. }
  exists (Some (mkEnvironmentVariable (Some key) (Some value)) :: env). cbn [Connection.convertEnvironmentVariables].
  rewrite cut_entry by done. rewrite E. split_and!; [done| |].
  - unfold GardenServer.convertEnv in *. cbn [map]. by rewrite Hback.
  - cbn. constructor; [|exact Hok]. apply (pointer_ok EnvironmentVariable_codec); [apply _|].
    split; apply (pointer_ok string_codec); [apply _|done|apply _|done].
Qed.

Lemma tty_back tty : tty_ok tty → GardenServer.ttySpecFrom (Some (Connection.tty_message tty)) = Some tty.
Proof using Type.
  destruct tty as [[[cols rows]|]]; [|done]. intros [H1 H2]. cbn in *. by rewrite !u32_small.
Qed.

Lemma run_request_back h spec : handle_ok h → process_spec_ok spec →
  ∃ request, Connection.run_request h spec = Ok request ∧ GardenServer.process_spec request = spec ∧
    c_ok RunRequest_codec request.
Proof using Type.
  intros (_ & _ & Hh) (Hpath & Hargs & Henv & Hdir & Hlim & Htty). destruct spec as [path args env dir priv lim tty].
  destruct (env_back env Henv) as (env' & E & Hback & Hok). unfold Connection.run_request. cbn [proc_Env] in *. rewrite E.
  eexists. split; [reflexivity|]. cbn [proc_Path proc_Args proc_Dir Privileged proc_Limits TTY] in *. split.
  - unfold GardenServer.process_spec. cbn [rr_Path rr_Args rr_Env rr_Dir rr_Privileged rr_Rlimits rr_Tty].
    rewrite nonempty_back, Hback. f_equal; [by destruct lim|]. destruct tty as [tty|]; [|done]. by apply tty_back.
  - split_and!; [by field_ok..| |exact Hok|exact Hargs|by apply nonempty_ok|].
    + by apply (pointer_ok ResourceLimitsMsg_codec); [apply _|].
    + destruct tty as [[[w|]]|]; [|by apply (pointer_ok TTYMsg_codec); [apply _|]|done].
      apply (pointer_ok TTYMsg_codec); [apply _|]. apply (pointer_ok WindowSizeMsg_codec); [apply _|].
      split; apply (pointer_ok (uint_codec 32)); try apply _; apply u32_range.
Qed.

Definition process_started (id : Z) : ProcessPayload := mkProcessPayload (Some id) None None None None None.

Lemma first_ok id : short_ok id → c_ok ProcessPayload_codec (process_started id).
Proof using Type. intros Hid. split_and!; by field_ok. Qed.

Lemma Run_transparent h spec s : transparent (CRun h spec) s.
Proof using Type.
  intros [Hhok Hspec] Hr. cbn [perform direct] in *. unfold Connection.Run.
  destruct (run_request_back h spec Hhok Hspec) as (request & E & Hback & Hok). rewrite E. destruct Hhok as (Hh & Hne & _).
  set (d := on_stream h (λ c, container_op c (LinuxContainer.Run spec stream_io))).
  assert (E1 : Connection.doHijack round_trip GardenServer.Run (WriteMessage (c_enc RunRequest_codec request))
                 (Connection.handle_param h) None "application/json" s =
               over_http (id ← d; mret (WriteMessage (c_enc ProcessPayload_codec (process_started id)))) s).
  { apply (doStream_over_http GardenServer.Run h "0" _ _ _ _ (λ id, RStreams 201 (Some (c_enc ProcessPayload_codec (process_started id))) id));
      [done..| |done].
    cbn [serve]. unfold GardenServer.handleRun. rewrite (readRequest_written RunRequest_codec request); [|apply _|done..].
    change (or_writeError (with_stream (routed GardenServer.Run h "0" ∅ "application/json" (WriteMessage (c_enc RunRequest_codec request)))
              (λ c, id ← container_op c (LinuxContainer.Run (GardenServer.process_spec request) stream_io);
                    mret (RStreams 201 (Some (c_enc ProcessPayload_codec (process_started id))) id))) s =
            as_response (λ id, RStreams 201 (Some (c_enc ProcessPayload_codec (process_started id))) id) d s).
    rewrite stream_response, Hback, routed_plain by done. done. }
  unfold mbind at 1, M_bind at 1, of_result at 1. unfold mbind at 1, M_bind at 1. rewrite E1.
  rewrite <-(over_http_ext _ _ _ (on_stream_map h (λ c, container_op c (LinuxContainer.Run spec stream_io)) (λ id, (id, nl)) s)).
  fold d. unfold over_http, mbind, M_bind.
  assert (Hid : ∀ id s', d s = (Ok id, s') → short_ok id).
  { intros id s' Hd. apply (Hr (id, nl) s'). rewrite <-(on_stream_map h _ (λ id, (id, nl)) s). fold d. unfold mbind, M_bind. by rewrite Hd. }
  destruct (d s) as [[id|e|[]] s']; try done. specialize (Hid id s' eq_refl). unfold of_result. cbn [mret M_ret]. f_equal.
  pose proof (message_roundtrip ProcessPayload_codec (process_started id) nl _ (first_ok id Hid) eq_refl) as Hm. unfold WriteMessage.
  destruct (parse_json _) as [[j rest]|e|f]; cbn [mbind Result_bind] in *; [|done..].
  change (c_zero ProcessPayload_codec) with no_ProcessPayload in Hm.
  destruct (c_dec ProcessPayload_codec no_ProcessPayload j) as [m|e|f]; [|done..]. by injection Hm as -> ->.
Qed.

Lemma scan_pid_back id : short_ok id → GardenServer.scan_pid (fmt_d id) = Ok id.
Proof using Type.
  intros Hid. unfold short_ok in Hid. pose proof (fmt_d_digits id ltac:(lia)) as Hd.
  assert (Hskip : GardenServer.skip_blanks (fmt_d id) = Ok (fmt_d id)).
  { pose proof (fmt_d_nonempty id ltac:(lia)) as Hne. destruct (fmt_d id) as [|c t]; [done|]. cbn in Hd.
    apply andb_true_iff in Hd as [Hc _]. by destruct c as [[] [] [] [] [] [] [] []]. }
  unfold GardenServer.scan_pid. rewrite Hskip. cbn [mbind Result_bind].
  pose proof (span_digits_app (fmt_d id) "" Hd) as Hs. rewrite string_app_nil in Hs. rewrite Hs by done. cbn [fst].
  destruct (String.eqb_spec (fmt_d id) "") as [E|_]; [by apply fmt_d_nonempty in E; [|lia]|].
  rewrite ParseUint_fmt_d by (unfold is_u64; lia). cbn [mbind Result_bind]. by replace (2 ^ 32 <=? id) with false by lia.
Qed.

Lemma digits_plain id : short_ok id → plain (fmt_d id) = true ∧ fmt_d id ≠ "".
Proof using Type.
  intros Hid. unfold short_ok in Hid. split; [|by apply fmt_d_nonempty; lia].
  refine (all_chars_impl _ _ _ _ (fmt_d_digits id ltac:(lia))). intros c Hc. by destruct c as [[] [] [] [] [] [] [] []].
Qed.

Lemma Attach_transparent h id s : transparent (CAttach h id) s.
Proof using Type.
  intros [(Hh & Hne & _) Hid] _. destruct (digits_plain id Hid) as [Hp Hpne]. cbn [perform direct] in *. unfold Connection.Attach.
  set (body := WriteMessage _).
  set (d := on_stream h (λ c, container_op c (LinuxContainer.Attach id stream_io))).
  assert (E : Connection.doHijack round_trip GardenServer.Attach body (<["pid" := fmt_d id]> (Connection.handle_param h)) None "" s =
              over_http (_ ← d; mret "") s).
  { apply (doStream_over_http GardenServer.Attach h (fmt_d id) _ _ _ _ (λ id, RStreams 200 None id)); [done..| |done].
    cbn [serve]. unfold GardenServer.handleAttach. rewrite routed_pid, scan_pid_back by (done || apply map_Forall_empty).
    set (rq := routed _ _ _ _ _ _). assert (Hrq : GardenServer.rq_handle rq = h) by (apply routed_handle; [apply map_Forall_empty|done]).
    unfold d. rewrite <-Hrq. apply (stream_response rq _ (λ id, RStreams 200 None id)). }
  unfold mbind at 1, M_bind at 1. rewrite E.
  rewrite <-(over_http_ext _ _ _ (on_stream_map h (λ c, container_op c (LinuxContainer.Attach id stream_io)) (λ _, (id, "")) s)).
  fold d. unfold over_http, mbind, M_bind. by destruct (d s) as [[pid|e|[]] s'].
Qed.

(** C9: refinement: the client is transparent, for every operation of the API with arguments
    that survive the wire ([call_ok]): texts are UTF-8 and numbers of the width of their
    field, a handle is not empty and means nothing else in a URL (no slash, question
    mark, hash, percent sign or zero byte), every entry of an environment has an equals
    sign, and a grace time is a whole number of seconds; and with a result that does
    ([result_ok]: numbers of their width, UTF-8). Then the request the client makes finds
    its handler, the handler reads the message the client wrote and calls the backend with
    exactly these arguments, and the client gives back exactly what the backend returned
    and leaves the server in the state the backend left. Of an error of the backend the
    client learns only that there was one, and a handler's panic is an error to it. What
    becomes of other arguments: [handle_not_escaped] and [env_entry_panics]. *)
Theorem client_transparent {A} (c : call A) s :
  call_ok c → (∀ a s', direct c s = (Ok a, s') → result_ok c a) → perform round_trip c s = over_http (direct c) s.
Proof using Type.
  destruct c; [apply Ping_transparent|apply Capacity_transparent|apply Create_transparent|apply List_transparent
    |apply Destroy_transparent|apply Stop_transparent|apply Info_transparent|apply StreamIn_transparent
    |apply StreamOut_transparent|apply LimitBandwidth_transparent|apply LimitCPU_transparent|apply LimitDisk_transparent
    |apply LimitMemory_transparent|apply Current_transparent..|apply Run_transparent|apply Attach_transparent
    |apply NetIn_transparent|apply NetOut_transparent].
Qed.
End composed.

(** An entry of the environment without an equals sign makes the client's [Run] panic before
    it sends anything: exec would have passed it on as it is. *)
Lemma env_entry_panics {W} (Do : HttpMessage → M W HttpResponse) handle path args dir priv lim tty e (w : W) :
  free_of "=" e →
  perform Do (CRun handle (mkProcessSpec path args [e] dir priv lim tty)) w = (Crash (Panic "index out of range"), w).
Proof.
  intros He. cbn [perform]. unfold Connection.Run, Connection.run_request. cbn [proc_Env Connection.convertEnvironmentVariables].
  by rewrite cut_free.
Qed.

(** * Witnesses *)

Section witnesses.
#[local] Existing Instances UIDPool.uid_rp UIDPool.uid_laws NetworkPool.network_rp
  NetworkPool.network_laws PortPool.port_rp PortPool.port_laws.
#[local] Existing Instances one_codec quiet_kernel.

Abbreviation example_call := (CNetIn "a" 0 8080).

Lemma example_direct :
  (direct example_backend 300 (λ _, "") example_call GardenServer.server_a).1 = Ok (61001, 8080).
Proof. vm_compute. reflexivity. Qed.

Lemma client_transparent_witness :
  (perform (round_trip example_backend 300 (λ _, "") (errors_New "EOF")) example_call GardenServer.server_a).1 = Ok (61001, 8080).
Proof.
  rewrite (client_transparent example_backend 300 (λ _, "") (errors_New "EOF") example_call GardenServer.server_a).
  - unfold over_http. pose proof example_direct as E. revert E.
    destruct (direct _ _ _ example_call GardenServer.server_a) as [[r|e|f] s']; cbn [fst]; [by intros [= ->]|done..].
  - by split_and!.
  - intros r s' E. pose proof example_direct as E'. rewrite E in E'. injection E' as ->. by split.
Defined.
End witnesses.
