(* ===== verification/Client.v ===== *)
(** garden/client: client.go and container.go, the API of a daemon at the other end of a
    connection, as a program sees it. A container of the client is its handle: whether there
    is such a container on the server is found out by the next call. *)
From S2P Require Import Prelude GoStd OS ResourcePool Net Network Warden Snapshot ContainerPool LinuxBackend Bomberman.
From S2P Require UIDPool PortPool NetworkPool.
From S2P Require GardenServer Connection LinuxContainer.
From S2P Require Import Router ClientServer.

Local Open Scope string_scope.
Local Open Scope list_scope.
Local Open Scope Z_scope.

(** * client.go *)

Record container := newContainer { handle : string }.

Section client.
Context {W : Type} (Do : HttpMessage → M W Connection.HttpResponse).

Definition Ping : M W unit := Connection.Ping Do.
Definition Capacity : M W Warden.Capacity := Connection.Capacity Do.

Definition Create (spec : ContainerSpec) : M W container :=
  handle ← Connection.Create Do spec; mret (newContainer handle).

Definition Containers (properties : Properties) : M W (list container) :=
  handles ← Connection.List Do properties; mret (map newContainer handles).

Definition Destroy (handle : string) : M W unit := Connection.Destroy Do handle.

Definition not_found (handle : string) : error :=
  mkError "*errors.errorString" ("container not found: " +:+ handle).

(** All containers are listed, and the handle is looked for among them. *)
Definition Lookup (handle : string) : M W container :=
  handles ← Connection.List Do ∅;
  if existsb (String.eqb handle) handles then mret (newContainer handle) else raise (not_found handle).

(** * container.go *)

Definition Stop (c : container) (kill : bool) : M W unit := Connection.Stop Do (handle c) kill.
Definition Info (c : container) : M W ContainerInfo := Connection.Info Do (handle c).
Definition StreamIn (c : container) (dstPath content : string) : M W unit := Connection.StreamIn Do (handle c) dstPath content.
Definition StreamOut (c : container) (srcPath : string) : M W string := Connection.StreamOut Do (handle c) srcPath.

(** The limits in force, which the server answers with, are dropped. *)
Definition LimitBandwidth (c : container) (limits : BandwidthLimits) : M W unit :=
  Connection.LimitBandwidth Do (handle c) limits ≫= λ _, mret tt.
Definition CurrentBandwidthLimits (c : container) : M W BandwidthLimits := Connection.CurrentBandwidthLimits Do (handle c).
Definition LimitCPU (c : container) (limits : CPULimits) : M W unit :=
  Connection.LimitCPU Do (handle c) limits ≫= λ _, mret tt.
Definition CurrentCPULimits (c : container) : M W CPULimits := Connection.CurrentCPULimits Do (handle c).
Definition LimitDisk (c : container) (limits : DiskLimits) : M W unit :=
  Connection.LimitDisk Do (handle c) limits ≫= λ _, mret tt.
Definition CurrentDiskLimits (c : container) : M W DiskLimits := Connection.CurrentDiskLimits Do (handle c).
Definition LimitMemory (c : container) (limits : MemoryLimits) : M W unit :=
  Connection.LimitMemory Do (handle c) limits ≫= λ _, mret tt.
Definition CurrentMemoryLimits (c : container) : M W MemoryLimits := Connection.CurrentMemoryLimits Do (handle c).

Definition Run (c : container) (spec : ProcessSpec) : M W (Z * string) := Connection.Run Do (handle c) spec.
Definition Attach (c : container) (processID : Z) : M W (Z * string) := Connection.Attach Do (handle c) processID.
Definition NetIn (c : container) (hostPort containerPort : Z) : M W (Z * Z) := Connection.NetIn Do (handle c) hostPort containerPort.
Definition NetOut (c : container) (network : string) (port : Z) : M W unit := Connection.NetOut Do (handle c) network port.
End client.

(** * Properties *)

Section with_server.
Context {K : Kernel} {UP NP PP : Type} {codec : SnapshotCodec}.
Context `{!ResourcePool UP Z Z, !ResourcePool NP Network string, !ResourcePool PP Z Z}.
Context `{!SizedPool UP, !SizedPool NP, !NetworkedPool NP}.
Context (b : BackendConf) (containerGraceTime : Z) (copied : Cmd → string) (lost : error).
Local Abbreviation SS := (GardenServer.SState UP NP PP).
Local Abbreviation Do := (round_trip (UP := UP) (NP := NP) (PP := PP) b containerGraceTime copied lost).

Lemma direct_list (s : SS) :
  direct b containerGraceTime copied (CList ∅) s =
    (Ok (map LinuxContainer.c_handle (map_to_list (b_containers (GardenServer.ss_backend s))).*2), s).
Proof using Type.
  destruct s as [bs bombs ss]. cbn [direct]. unfold GardenServer.on_backend, zoom, LinuxBackend.Containers, gets, mbind, M_bind.
  cbn. rewrite GardenServer.filter_all by (intros c; apply GardenServer.has_no_properties). done.
Qed.

Lemma handles_in (m : gmap string LinuxContainer.LinuxContainer) h :
  (∀ k c, m !! k = Some c → LinuxContainer.c_handle c = k) →
  existsb (String.eqb h) (map LinuxContainer.c_handle (map_to_list m).*2) = bool_decide (is_Some (m !! h)).
Proof using Type.
  intros Hm. apply eq_true_iff_eq. rewrite existsb_exists, bool_decide_eq_true. split.
  - intros (x & Hx & ->%String.eqb_eq). apply list_elem_of_In, list_elem_of_fmap in Hx as (c & -> & Hc).
    apply list_elem_of_fmap in Hc as ([k c'] & -> & Hc%elem_of_map_to_list). cbn. by rewrite (Hm k c' Hc), Hc.
  - intros [c Hc]. exists h. split; [|apply String.eqb_refl]. apply list_elem_of_In. rewrite <-(Hm h c Hc) at 1.
    apply list_elem_of_fmap_2. change c with (h, c).2 at 1. apply list_elem_of_fmap_2. by apply elem_of_map_to_list.
Qed.

(** Functional: looking a container up over the wire asks for all handles, so whatever
    the handle, of whatever characters, it is found exactly when the daemon has it; nothing is
    changed, and no bomb is paused. (Other calls with a handle that is no plain path segment
    miss the container.) *)
Theorem lookup_exact h (s : SS) :
  (∀ k c, b_containers (GardenServer.ss_backend s) !! k = Some c → LinuxContainer.c_handle c = k ∧ utf8 k) →
  Lookup Do h s =
    (match b_containers (GardenServer.ss_backend s) !! h with
     | Some _ => Ok (newContainer h)
     | None => Err (not_found h)
     end, s).
Proof using Type.
  intros Hs. unfold Lookup. change (Connection.List Do ∅) with (perform Do (CList ∅)).
  unfold mbind, M_bind. rewrite List_transparent; [|done|].
  - unfold over_http. rewrite direct_list. rewrite handles_in by (intros k c Hk; by apply Hs).
    by destruct (b_containers _ !! h).
  - intros hs s'. rewrite direct_list. intros [= <- <-]. cbn. apply Forall_fmap, Forall_forall. intros c Hc.
    apply list_elem_of_fmap in Hc as ([k c'] & -> & Hc%elem_of_map_to_list). cbn. destruct (Hs k c' Hc) as [-> H]. exact H.
Qed.
End with_server.

(** * Witnesses *)

#[local] Existing Instances UIDPool.uid_rp UIDPool.uid_laws NetworkPool.network_rp
  NetworkPool.network_laws PortPool.port_rp PortPool.port_laws.
#[local] Existing Instances one_codec quiet_kernel.

Abbreviation example_containers := (b_containers (GardenServer.ss_backend GardenServer.server_a)).

Lemma example_handles :
  map_Forall (λ k c, LinuxContainer.c_handle c = k ∧ Json.valid_utf8 k = true) example_containers.
Proof. apply (bool_decide_unpack _). vm_compute. exact I. Qed.

Lemma example_lookups : is_Some (example_containers !! "a") ∧ example_containers !! "a/b" = None.
Proof. split; [apply (bool_decide_unpack _)|]; vm_compute; reflexivity. Qed.

Lemma lookup_exact_witness :
  let Do := round_trip example_backend 300 (λ _, "") (errors_New "EOF") in
  Lookup Do "a" GardenServer.server_a = (Ok (newContainer "a"), GardenServer.server_a) ∧
  (Lookup Do "a/b" GardenServer.server_a).1 = Err (not_found "a/b").
Proof.
  intros Do. destruct example_lookups as [[c Ha] Hb]. split.
  - etrans; [apply (lookup_exact example_backend 300 (λ _, "") (errors_New "EOF") "a" GardenServer.server_a example_handles)|].
    by rewrite Ha.
  - etrans; [apply (f_equal fst (lookup_exact example_backend 300 (λ _, "") (errors_New "EOF") "a/b" GardenServer.server_a example_handles))|].
    by rewrite Hb.
Defined.
