(* ===== verification/ClientProcess.v ===== *)
(** garden/client/connection: process.go, process_stream.go and stdin_writer.go. A process at
    the client's end of a connection that was taken over: what it gives to the program that
    runs it, and what it sends to the server. *)
From S2P Require Import Prelude GoStd Json JsonCodec MessageCodec Warden Protocol.
From S2P Require GardenServer Connection.
From S2P Require Process.

Local Open Scope string_scope.
Local Open Scope list_scope.
Local Open Scope Z_scope.

Import GardenServer (WriteMessage, payload, POutput, PExit, PError, payload_msg, payload_text, source, stdin, stdout, stderr,
  source_number, received, stream_run, stream, sm_sent, input_action, InSetTTY, InClose, InWrite, streamInput).
Import Process (ProcessIO, mkProcessIO, io_stdin, io_stdout, io_stderr).

(** * The messages on a connection *)

(** [decoder.Decode], again and again, until it fails; every message takes a byte at least. *)
Fixpoint decode_loop {A} (fuel : nat) (c : Codec A) (text : string) : list (Result A) :=
  match fuel with
  | O => []
  | S fuel' =>
      match parse_json text with
      | Ok (j, rest) =>
          match c_dec c (c_zero c) j with
          | Ok m => Ok m :: decode_loop fuel' c rest
          | r => [r]
          end
      | Err e => [Err e]
      | Crash f => [Crash f]
      end
  end.

Definition decode_all {A} (c : Codec A) (text : string) : list (Result A) := decode_loop (S (String.length text)) c text.

(** * process.go *)

(** [p_stdout], [p_stderr]: what was written to the program's streams; [p_done]: the exit
    status and the error, once [done] is set. *)
Record process := mkProcess {
  p_id : Z;
  p_done : option (Z * option error);
  p_stdout : list string;
  p_stderr : list string
}.

Definition newProcess (id : Z) : process := mkProcess id None [] [].

Definition exited (exitStatus : Z) (err : option error) (p : process) : process :=
  mkProcess (p_id p) (Some (exitStatus, err)) (p_stdout p) (p_stderr p).

(** [Wait]: it blocks until the process is done. *)
Definition Wait (p : process) : Result Z :=
  match p_done p with
  | None => Crash Blocked
  | Some (status, None) => Ok status
  | Some (_, Some err) => Err err
  end.

Definition process_error (msg : string) : error := mkError "*errors.errorString" ("process error: " +:+ msg).

(** The sources of [protocol.ProcessPayload_Source]; a payload without a source has the first. *)
Definition write_output (processIO : ProcessIO) (payload : ProcessPayload) (p : process) : process :=
  let data := default "" (pp_Data payload) in
  let src := default 0 (pp_Source payload) in
  if src =? source_number stdout then
    if io_stdout processIO then mkProcess (p_id p) (p_done p) (p_stdout p ++ [data]) (p_stderr p) else p
  else if src =? source_number stderr then
    if io_stderr processIO then mkProcess (p_id p) (p_done p) (p_stdout p) (p_stderr p ++ [data]) else p
  else p.

(** [streamPayloads], on what the decoder returns one call after the other *)
Fixpoint streamPayloads (processIO : ProcessIO) (decoded : list (Result ProcessPayload)) (p : process) : process :=
  match decoded with
  | [] => p
  | Err err :: _ => exited 0 (Some err) p
  | Crash _ :: _ => p
  | Ok payload :: rest =>
      match pp_Error payload, pp_ExitStatus payload with
      | Some msg, _ => exited 0 (Some (process_error msg)) p
      | None, Some status => exited status None p
      | None, None => streamPayloads processIO rest (write_output processIO payload p)
      end
  end.

(** * process_stream.go and stdin_writer.go *)

(** What a program does with the input of a process: the pieces [io.Copy] writes, the end of
    its input, and the size of its terminal. They are sent under a lock, one at a time. *)
Inductive input := Write (data : string) | CloseStdin | SetTTY (tty : TTYSpec).

Definition sendPayload (id : Z) (i : input) : ProcessPayload :=
  match i with
  | Write data => mkProcessPayload (Some id) (Some (source_number stdin)) (Some data) None None None
  | CloseStdin => mkProcessPayload (Some id) (Some (source_number stdin)) None None None None
  | SetTTY tty => mkProcessPayload (Some id) None None None None (Some (Connection.tty_message tty))
  end.

(** [io.Copy] from the program's input, and the end of it *)
Definition copy_stdin (pieces : list string) : list input := map Write pieces ++ [CloseStdin].

(** * Lemmas *)

(** A value may have spaces in front of it: the newline after the one before. *)
Lemma parse_json_nl j rest :
  wf_json j → ends_number rest = true → parse_json (nl +:+ print_json j +:+ rest) = Ok (j, rest).
Proof.
  intros Hwf Hr. unfold parse_json. change (nl +:+ print_json j +:+ rest) with (String newline (print_json j +:+ rest)).
  assert (E : ∀ f s, parse_value (S f) (String newline s) = parse_value (S f) s) by done.
  rewrite E, print_parse; [done|done|done|]. cbn [String.length]. rewrite length_string_app. lia.
Qed.

Section messages.
Context {A : Type} (c : Codec A) `{!CodecLaws c}.

Definition text_of (l : list A) : string := foldr (λ m t, WriteMessage (c_enc c m) +:+ t) "" l.

Lemma text_of_cons m l : text_of (m :: l) = print_json (c_enc c m) +:+ nl +:+ text_of l.
Proof using Type. unfold text_of. cbn [foldr]. unfold WriteMessage. by rewrite string_app_assoc. Qed.

Lemma length_text_of l : (length l ≤ String.length (text_of l))%nat.
Proof using Type.
  induction l as [|m l IH]; [done|]. rewrite text_of_cons, !length_string_app. cbn [length]. change (String.length nl) with 1%nat. lia.
Qed.

Lemma ends_nl s : ends_number (nl +:+ s) = true.
Proof using Type. done. Qed.

Lemma decode_loop_nl fuel l :
  (length l < fuel)%nat → Forall (c_ok c) l → ∃ e, decode_loop fuel c (nl +:+ text_of l) = map Ok l ++ [Err e].
Proof using All.
  revert fuel. induction l as [|m l IH]; intros [|fuel] Hf Hl; [cbn in Hf; lia..| |cbn in Hf; lia|].
  - exists SyntaxError. reflexivity.
  - apply Forall_cons in Hl as [Hm Hl]. destruct (IH fuel) as [e He]; [cbn in Hf; lia|done|]. exists e.
    rewrite text_of_cons. cbn [decode_loop]. rewrite parse_json_nl by (by apply c_wf || apply ends_nl).
    rewrite c_roundtrip by done. cbn [map app]. by rewrite He.
Qed.

(** What has been written on a connection is read message by message. *)
Lemma decode_all_written l : Forall (c_ok c) l → ∃ e, decode_all c (text_of l) = map Ok l ++ [Err e].
Proof using All.
  intros Hl. unfold decode_all. destruct l as [|m l]; [by exists SyntaxError|].
  pose proof (length_text_of (m :: l)) as Hlen. apply Forall_cons in Hl as [Hm Hl].
  generalize dependent (String.length (text_of (m :: l))). intros fuel Hlen. destruct (decode_loop_nl fuel l) as [e He]; [cbn [length] in Hlen; lia|done|]. exists e.
  cbn [decode_loop]. rewrite text_of_cons, parse_json_print by (by apply c_wf || apply ends_nl).
  rewrite c_roundtrip by done. cbn [map app]. by rewrite He.
Qed.
End messages.

(** ** What a server streams *)

Definition is_output (p : payload) : bool := match p with POutput _ _ => true | _ => false end.
Definition is_end (p : payload) : bool := negb (is_output p).

(** Pieces of output, and then at most one end of the process *)
Inductive sent_shape : list payload → bool → Prop :=
  | sent_outputs outs over : forallb is_output outs = true → sent_shape outs over
  | sent_end outs p : forallb is_output outs = true → is_end p = true → sent_shape (outs ++ [p]) true.

Lemma sent_open l : sent_shape l false → forallb is_output l = true.
Proof. inversion 1; subst; done. Qed.

Lemma sent_more l src d : sent_shape l false → sent_shape (l ++ [POutput src d]) false.
Proof. intros H%sent_open. apply sent_outputs. by rewrite forallb_app, H. Qed.

Lemma stream_step_shape s s' :
  GardenServer.stream_step s s' → sent_shape (sm_sent s) (GardenServer.sm_over s) → sent_shape (sm_sent s') (GardenServer.sm_over s').
Proof.
  intros Hst Hs. destruct Hst; cbn in *; try done; try (rewrite H in Hs).
  - by apply sent_more.
  - by apply sent_more.
  - apply sent_end; [by apply sent_open|done].
  - apply sent_end; [by apply sent_open|done].
  - by apply sent_outputs, sent_open.
Qed.

Lemma stream_run_shape o e s : stream_run o e s → sent_shape (sm_sent s) (GardenServer.sm_over s).
Proof.
  induction 1 as [|d o e s _ IH|d o e s _ IH|o e s s' _ IH Hst]; [by apply sent_outputs|exact IH..|].
  by eapply stream_step_shape.
Qed.

(** ** What the client makes of it *)

Definition all_io : ProcessIO := mkProcessIO true true true.

Lemma read_outputs id outs tail p :
  forallb is_output outs = true →
  streamPayloads all_io (map (λ x, Ok (payload_msg id x)) outs ++ tail) p =
    streamPayloads all_io tail
      (mkProcess (p_id p) (p_done p) (p_stdout p ++ received stdout outs) (p_stderr p ++ received stderr outs)).
Proof.
  revert p. induction outs as [|[[] d|st|msg] outs IH]; intros p Ho; try done; cbn in Ho.
  - cbn [map app]. change (received _ []) with (@nil string). rewrite !app_nil_r. by destruct p.
  - cbn [map app streamPayloads payload_msg pp_Error pp_ExitStatus]. by rewrite IH.
  - cbn [map app streamPayloads payload_msg pp_Error pp_ExitStatus]. rewrite IH by done. cbn. by rewrite <-app_assoc.
  - cbn [map app streamPayloads payload_msg pp_Error pp_ExitStatus]. rewrite IH by done. cbn. by rewrite <-app_assoc.
Qed.

Definition end_of (p : payload) (q : process) : process :=
  match p with
  | POutput _ _ => q
  | PExit status => exited (u32 status) None q
  | PError msg => exited 0 (Some (process_error msg)) q
  end.

Lemma read_end id x tail p :
  is_end x = true → streamPayloads all_io (Ok (payload_msg id x) :: tail) p = end_of x p.
Proof. by destruct x. Qed.

Lemma received_end src x : is_end x = true → received src [x] = [].
Proof. by destruct x. Qed.

(** The process a client sees, of what the server has sent when the connection is closed *)
Definition client_process (id : Z) (sent : list payload) : process :=
  streamPayloads all_io
    (decode_all ProcessPayload_codec (text_of ProcessPayload_codec (map (payload_msg id) sent))) (newProcess id).

Lemma client_process_reads id sent :
  0 ≤ id < 2 ^ 32 → Forall (λ x, valid_utf8 (payload_text x) = true) sent →
  ∃ e, client_process id sent = streamPayloads all_io (map (λ x, Ok (payload_msg id x)) sent ++ [Err e]) (newProcess id).
Proof.
  intros Hid Hsent. unfold client_process.
  destruct (decode_all_written ProcessPayload_codec (map (payload_msg id) sent)) as [e ->].
  - apply Forall_fmap. eapply Forall_impl; [exact Hsent|]. intros x. by apply GardenServer.payload_ok.
  - exists e. f_equal. f_equal. by rewrite map_map.
Qed.

(** * Properties *)

(** C11: round trip: what a server streams of a process reaches the program that runs it at the
    client's end, provided every piece of output it sends, and the message of an error, is
    UTF-8 text (other bytes are replaced on the way: [GardenServer.output_altered]). Then
    the program gets every piece that was sent, in order, on the stream it belongs to; the
    exit status as an unsigned number, or the error; and when the connection is closed
    without an end of the process, [Wait] fails instead of blocking. *)
Theorem client_sees_process id o e s :
  stream_run o e s → 0 ≤ id < 2 ^ 32 → Forall (λ x, valid_utf8 (payload_text x) = true) (sm_sent s) →
  let p := client_process id (sm_sent s) in
  p_stdout p = received stdout (sm_sent s) ∧ p_stderr p = received stderr (sm_sent s) ∧
  (∀ status, PExit status ∈ sm_sent s → Wait p = Ok (u32 status)) ∧
  (∀ msg, PError msg ∈ sm_sent s → Wait p = Err (process_error msg)) ∧
  (forallb is_output (sm_sent s) = true → ∃ err, Wait p = Err err).
Proof.
  intros Hrun Hid Hsent p. destruct (client_process_reads id (sm_sent s) Hid Hsent) as [err E]. subst p. rewrite E. clear E Hsent.
  assert (Hno : ∀ outs x, forallb is_output outs = true → x ∈ outs → is_end x = true → False).
  { intros outs x Ho Hx%list_elem_of_In He. rewrite forallb_forall in Ho. specialize (Ho x Hx). unfold is_end in He. by rewrite Ho in He. }
  apply stream_run_shape in Hrun. destruct Hrun as [outs over Ho|outs x Ho Hx].
  - rewrite read_outputs by done. split_and!; [done..| | |by exists err]; intros ? Hin; by destruct (Hno _ _ Ho Hin).
  - rewrite map_app, <-app_assoc, read_outputs by done. cbn [map app]. rewrite read_end by done.
    rewrite !GardenServer.received_app, !received_end, !app_nil_r by done. split_and!.
    + by destruct x.
    + by destruct x.
    + intros st [Hin|Hin%list_elem_of_singleton]%elem_of_app; [by destruct (Hno _ _ Ho Hin)|by subst x].
    + intros msg [Hin|Hin%list_elem_of_singleton]%elem_of_app; [by destruct (Hno _ _ Ho Hin)|by subst x].
    + rewrite forallb_app. cbn. unfold is_end in Hx. apply negb_true_iff in Hx. rewrite Hx, andb_false_r. done.
Qed.

(** ** Input *)

Definition action (i : input) : input_action :=
  match i with Write data => InWrite data | CloseStdin => InClose | SetTTY tty => InSetTTY tty end.

Definition short_ok (n : Z) : Prop := 0 ≤ n < 2 ^ 32.
Definition input_ok (i : input) : Prop :=
  match i with
  | Write data => valid_utf8 data = true
  | CloseStdin => True
  | SetTTY tty => match tty_WindowSize tty with Some w => short_ok (Columns w) ∧ short_ok (Rows w) | None => True end
  end.

Lemma input_message_ok id i : 0 ≤ id < 2 ^ 32 → input_ok i → c_ok ProcessPayload_codec (sendPayload id i).
Proof.
  intros Hid Hi. assert (Hpid : c_ok u32_pointer (Some id)) by (by apply pointer_ok; [apply _|]).
  assert (Hsrc : c_ok (pointer_codec (enum_codec source_values)) (Some (source_number stdin))) by (by apply pointer_ok; [apply _|]).
  destruct i as [data| |tty]; (split_and!; [exact Hpid| | | | |]); try done.
  apply (pointer_ok TTYMsg_codec); [apply _|]. destruct tty as [[w|]]; [|done].
    apply (pointer_ok WindowSizeMsg_codec); [apply _|]. split; apply (pointer_ok (uint_codec 32)); try apply _; apply u32_range.
Qed.

(** What the server's handler does with what it reads on a connection. [written i]: whether
    the process takes it, should the [i]-th message be a piece of input. *)
Definition server_input (written : nat → bool) (text : string) : list input_action :=
  streamInput (imap (λ i m, (m, written i))
    (omap (λ r, match r with Ok m => Some m | _ => None end) (decode_all ProcessPayload_codec text))).

(** The first piece that the process does not take ends the handler. *)
Fixpoint up_to_failure (written : nat → bool) (inputs : list input) : list input :=
  match inputs with
  | [] => []
  | Write data :: rest => Write data :: (if written O then up_to_failure (written ∘ S) rest else [])
  | i :: rest => i :: up_to_failure (written ∘ S) rest
  end.

Lemma handled_inputs id written inputs :
  Forall input_ok inputs →
  streamInput (imap (λ i m, (m, written i)) (map (sendPayload id) inputs)) = map action (up_to_failure written inputs).
Proof.
  intros Hok. revert written. induction Hok as [|i inputs Hi _ IH]; intros written; [done|].
  cbn [map]. rewrite imap_cons. specialize (IH (written ∘ S)).
  destruct i as [data| |[[[cols rows]|]]]; cbn -[imap].
  - destruct (written O); [f_equal; exact IH|done].
  - f_equal. exact IH.
  - destruct Hi as [Hc Hr]. cbn in Hc, Hr. rewrite !u32_small by done. f_equal. exact IH.
  - f_equal. exact IH.
Qed.

(** C12: round trip: what a program writes to a process, in pieces of UTF-8 text, the end of
    its input and the sizes it gives its terminal are what the handler of the server does
    to the process, in the order in which they were sent: all of it while the process takes
    what is written to it, and nothing after the first piece that it does not take. *)
Theorem input_reaches_process id written inputs :
  0 ≤ id < 2 ^ 32 → Forall input_ok inputs →
  server_input written (text_of ProcessPayload_codec (map (sendPayload id) inputs)) =
    map action (up_to_failure written inputs).
Proof.
  intros Hid Hok. unfold server_input.
  destruct (decode_all_written ProcessPayload_codec (map (sendPayload id) inputs)) as [e ->].
  { apply Forall_fmap. eapply Forall_impl; [exact Hok|]. intros i. by apply input_message_ok. }
  rewrite omap_app. cbn [omap list_omap]. rewrite app_nil_r.
  assert (E : ∀ l : list ProcessPayload, omap (λ r, match r with Ok m => Some m | _ => None end) (map Ok l) = l).
  { induction l as [|m l IH]; [done|]. cbn in *. by rewrite IH. }
  rewrite E. by apply handled_inputs.
Qed.

(** * Witnesses *)

Lemma client_sees_process_witness :
  let p := client_process 7 [POutput stdout "x"; PExit 3] in p_stdout p = ["x"] ∧ Wait p = Ok 3.
Proof.
  assert (Hrun : ∃ s, stream_run ["x"] [] s ∧ sm_sent s = [POutput stdout "x"; PExit 3]).
  { exists (GardenServer.mkStream [] [] (Some (inl 3)) [POutput stdout "x"; PExit 3] true). split; [|reflexivity].
    eapply GardenServer.run_step; [|exact (GardenServer.sm_send_status 3 (GardenServer.mkStream [] [] (Some (inl 3)) [POutput stdout "x"] false) eq_refl eq_refl)].
    eapply GardenServer.run_step; [|exact (GardenServer.sm_send_out "x" [] (GardenServer.mkStream ["x"] [] (Some (inl 3)) [] false) eq_refl eq_refl)].
    eapply GardenServer.run_step; [|exact (GardenServer.sm_wait (inl 3) (GardenServer.write_out "x" GardenServer.new_stream) eq_refl)].
    apply (GardenServer.run_out "x" [] [] GardenServer.new_stream), GardenServer.run_new. }
  destruct Hrun as (s & Hrun & Hs). pose proof (client_sees_process 7 ["x"] [] s Hrun) as H. rewrite Hs in H.
  destruct H as (H1 & _ & H2 & _); [lia|by repeat constructor|]. split; [exact H1|]. apply (H2 3). set_solver.
Defined.

(** The process takes the first piece, and not the second. *)
Lemma input_reaches_process_witness :
  server_input (λ i, (i <? 3)%nat) (text_of ProcessPayload_codec (map (sendPayload 7)
      [SetTTY (mkTTYSpec (Some (mkWindowSize 80 24))); Write "ls"; CloseStdin; Write "x"; CloseStdin])) =
    [InSetTTY (mkTTYSpec (Some (mkWindowSize 80 24))); InWrite "ls"; InClose; InWrite "x"].
Proof. refine (input_reaches_process 7 _ _ _ _); [lia|]. by repeat constructor. Defined.
