(* ===== verification/Concurrent.v ===== *)
(** Requests to the backend that overlap. A request is a program whose steps are the
    calls that other requests can come between: one call to a pool, one access to the
    map of containers, one stretch of work outside. [run] performs a program without
    interruption; [Create_prog] and [Destroy_prog] then do what [LinuxBackend.Create]
    and [LinuxBackend.Destroy] do. [conc_step] interleaves any number of them. *)
From S2P Require Import Prelude GoStd OS ResourcePool Net Network Warden Snapshot Url.
From S2P Require Import RootFSProvider.
From S2P Require ProcessTracker UIDPool NetworkPool PortPool.
From S2P Require Import LinuxContainer ContainerPool LinuxBackend.

Local Open Scope string_scope.
Local Open Scope list_scope.
Local Open Scope Z_scope.

(** * Programs *)

(** A program has returned, or makes a step and goes on. *)
Inductive prog (S A : Type) :=
  | Done (r : Result A)
  | Act (f : S → prog S A * S).
Arguments Done {S A} r.
Arguments Act {S A} f.

Definition atom {S A} (m : M S A) : prog S A := Act (λ s, let '(r, s') := m s in (Done r, s')).

Fixpoint pbind {S A B} (p : prog S A) (k : A → prog S B) : prog S B :=
  match p with
  | Done (Ok a) => k a
  | Done (Err e) => Done (Err e)
  | Done (Crash c) => Done (Crash c)
  | Act f => Act (λ s, let '(p', s') := f s in (pbind p' k, s'))
  end.

#[export] Instance prog_ret S : MRet (prog S) := λ A a, Done (Ok a).
#[export] Instance prog_bind S : MBind (prog S) := λ A B k p, pbind p k.

Definition praise {S A} (e : error) : prog S A := Done (Err e).

Fixpoint pattempt {S A} (p : prog S A) : prog S (A + error) :=
  match p with
  | Done (Ok a) => Done (Ok (inl a))
  | Done (Err e) => Done (Ok (inr e))
  | Done (Crash c) => Done (Crash c)
  | Act f => Act (λ s, let '(p', s') := f s in (pattempt p', s'))
  end.

Fixpoint pfor_each {S A} (f : A → prog S unit) (l : list A) : prog S unit :=
  match l with
  | [] => mret tt
  | x :: l' => f x ≫= λ _, pfor_each f l'
  end.

(** All steps, one after the other. *)
Fixpoint run {S A} (p : prog S A) : M S A := λ s,
  match p with
  | Done r => (r, s)
  | Act f => let '(p', s') := f s in run p' s'
  end.

Definition runs_as {S A} (p : prog S A) (m : M S A) : Prop := ∀ s, run p s = m s.

(** * The requests *)

Section requests.
Context {K : Kernel} {UP NP PP : Type}.
Context `{!ResourcePool UP Z Z, !ResourcePool NP Network string, !ResourcePool PP Z Z}.
Context (b : BackendConf).
Local Abbreviation BS := (BState UP NP PP).

Definition create_with_prog (spec : ContainerSpec) (uid : Z) (network : Network) (id : string) :
    prog BS LinuxContainer :=
  let p := pool_conf b in
  let handle := if String.eqb (spec_Handle spec) "" then id else spec_Handle spec in
  rootfsURL ← Done (Parse (RootFSPath spec));
  match rootfsProviders p !! Scheme rootfsURL with
  | None => praise ErrUnknownRootFSProvider
  | Some provider =>
      rootfsPath ← atom (b_on_trace (ProvideRootFS provider id rootfsURL));
      let container := make_container p id handle (spec_Properties spec) (spec_GraceTime spec)
                         (NewResources uid (Some network) []) in
      r ← pattempt (atom (b_on_trace (OS.Run (create_cmd p id rootfsPath uid network))));
      match r with
      | inr e =>
          atom (on_pool (on_uids (rp_release uid))) ≫= λ _,
          atom (on_pool (on_networks (rp_release network))) ≫= λ _, praise e
      | inl _ =>
          atom (b_on_trace (saveRootFSProvider p id (Scheme rootfsURL))) ≫= λ _,
          atom (b_on_trace (writeBindMounts (containerPath p id) (BindMounts spec))) ≫= λ _,
          mret container
      end
  end.

Definition pool_Create_prog (spec : ContainerSpec) : prog BS LinuxContainer :=
  uid ← atom (on_pool (on_uids rp_acquire));
  r ← pattempt (atom (on_pool (on_networks rp_acquire)));
  match r with
  | inr e => atom (on_pool (on_uids (rp_release uid))) ≫= λ _, praise e
  | inl network => id ← atom (on_pool next_id); create_with_prog spec uid network id
  end.

Definition Create_prog (spec : ContainerSpec) : prog BS LinuxContainer :=
  c ← pool_Create_prog spec;
  '(_, c') ← atom (on_pool (on_container c LinuxContainer.Start));
  atom (add_container c') ≫= λ _, mret c'.

(** What is given back is what the container held when it was looked up: requests for a
    container that is being destroyed are not among the interleavings. *)
Definition pool_Destroy_prog (c : LinuxContainer) : prog BS unit :=
  atom (b_on_trace (destroy (pool_conf b) (c_id c))) ≫= λ _,
  let resources := c_resources c in
  pfor_each (λ port, atom (on_pool (p_on_ports (rp_release port)))) (Ports resources) ≫= λ _,
  atom (on_pool (on_uids (rp_release (UID resources)))) ≫= λ _,
  atom (on_pool (release_network (res_Network resources))).

Definition Destroy_prog (handle : string) : prog BS unit :=
  c ← atom (Lookup handle);
  pool_Destroy_prog c ≫= λ _,
  atom (modify_containers (base.delete (c_handle c))).

(** ** Interleavings *)

Inductive request := ReqCreate (spec : ContainerSpec) | ReqDestroy (handle : string).

Definition request_prog (r : request) : prog BS unit :=
  match r with
  | ReqCreate spec => Create_prog spec ≫= λ _, mret tt
  | ReqDestroy handle => Destroy_prog handle
  end.

(** A request being served, by the goroutine of its connection. *)
Abbreviation thread := (request * prog BS unit)%type.

Definition destroying (handle : string) (ts : list thread) : Prop :=
  ReqDestroy handle ∈ ts.*1.

(** [exclusive]: no handle is being destroyed twice at a time, and a container that is
    being destroyed gets no other request. Without it ([false]), anything goes. *)
Inductive conc_step (exclusive : bool) : list thread * BS → list thread * BS → Prop :=
  | cs_request r ts bs :
      (if exclusive then if r is ReqDestroy handle then ¬ destroying handle ts else True else True) →
      conc_step exclusive (ts, bs) ((r, request_prog r) :: ts, bs)
  | cs_run r f p' ts1 ts2 bs bs' :
      f bs = (p', bs') → conc_step exclusive (ts1 ++ (r, Act f) :: ts2, bs) (ts1 ++ (r, p') :: ts2, bs')
  | cs_return r res ts1 ts2 bs : conc_step exclusive (ts1 ++ (r, Done res) :: ts2, bs) (ts1 ++ ts2, bs)
  | cs_op handle o ts bs :
      (if exclusive then ¬ destroying handle ts else True) →
      conc_step exclusive (ts, bs) (ts, (with_container handle (do_op o) bs).2)
  | cs_goroutine handle c t' ts bs :
      (if exclusive then ¬ destroying handle ts else True) →
      b_containers bs !! handle = Some c → ProcessTracker.tracker_step (c_processTracker c) t' →
      conc_step exclusive (ts, bs)
        (ts, mkBState (b_pool bs) (<[handle := set_processTracker t' c]> (b_containers bs))).
(** The handle a request destroys. *)
Definition victim (r : request) : option string := if r is ReqDestroy handle then Some handle else None.

(** A schedule, to run interleavings: what is not possible is skipped. *)
Inductive action := ARequest (r : request) | ARun (i : nat) | AReturn (i : nat).

Definition act (exclusive : bool) (cfg : list thread * BS) (a : action) : list thread * BS :=
  let '(ts, bs) := cfg in
  match a with
  | ARequest r =>
      if exclusive && (if victim r is Some h then bool_decide (h ∈ omap victim ts.*1) else false) then cfg
      else ((r, request_prog r) :: ts, bs)
  | ARun i =>
      match ts !! i with
      | Some (r, Act f) => let '(p', bs') := f bs in (<[i := (r, p')]> ts, bs')
      | _ => cfg
      end
  | AReturn i =>
      match ts !! i with
      | Some (r, Done res) => (base.delete i ts, bs)
      | _ => cfg
      end
  end.

Definition perform (exclusive : bool) (l : list action) (cfg : list thread * BS) : list thread * BS :=
  foldl (act exclusive) cfg l.
End requests.

(** * Lemmas *)

(** ** Running a program *)

Lemma prog_ind' {S A} (P : prog S A → Prop) :
  (∀ r, P (Done r)) → (∀ f, (∀ s, P (f s).1) → P (Act f)) → ∀ p, P p.
Proof.
  intros HD HA. fix IH 1. intros [r|f]; [apply HD|]. apply HA. intros s.
  destruct (f s) as [p' s']. apply IH.
Qed.

Lemma run_pbind {S A B} (p : prog S A) (k : A → prog S B) s :
  run (pbind p k) s = (run p ≫= λ a, run (k a)) s.
Proof.
  revert s. induction p as [[a|e|c]|f IH] using prog_ind'; intros s; [done..|].
  unfold mbind, M_bind in *. cbn. specialize (IH s). destruct (f s) as [p' s']. apply IH.
Qed.

Lemma run_pattempt {S A} (p : prog S A) s : run (pattempt p) s = attempt (run p) s.
Proof.
  revert s. induction p as [[a|e|c]|f IH] using prog_ind'; intros s; [done..|].
  unfold attempt in *. cbn. specialize (IH s). destruct (f s) as [p' s']. apply IH.
Qed.

Section runs_as.
Context {S : Type}.

Lemma runs_atom {A} (m : M S A) : runs_as (atom m) m.
Proof. intros s. cbn. by destruct (m s). Qed.

Lemma runs_done {A} (r : Result A) : runs_as (Done r) (of_result (S := S) r).
Proof. done. Qed.

Lemma runs_bind {A B} (p : prog S A) (m : M S A) (k : A → prog S B) (f : A → M S B) :
  runs_as p m → (∀ a, runs_as (k a) (f a)) → runs_as (p ≫= k) (m ≫= f).
Proof.
  intros Hp Hk s. unfold mbind at 1, prog_bind. rewrite run_pbind. unfold mbind, M_bind.
  rewrite Hp. destruct (m s) as [[a|e|c] s']; [apply Hk|done..].
Qed.

Lemma runs_attempt {A} (p : prog S A) (m : M S A) : runs_as p m → runs_as (pattempt p) (attempt m).
Proof. intros Hp s. rewrite run_pattempt. unfold attempt. by rewrite Hp. Qed.

Lemma runs_for_each {A} (p : A → prog S unit) (f : A → M S unit) l :
  (∀ x, runs_as (p x) (f x)) → runs_as (pfor_each p l) (for_each f l).
Proof.
  intros H. induction l as [|x l IH]; [done|]. cbn [pfor_each for_each]. by apply runs_bind.
Qed.

(** The same for an operation of a component. *)
Context {T : Type} (L : Lens S T).

Lemma runs_zoom_bind {A B} (p : prog S A) (m : M T A) (k : A → prog S B) (f : A → M T B) `{!LensLaws L} :
  runs_as p (zoom L m) → (∀ a, runs_as (k a) (zoom L (f a))) → runs_as (p ≫= k) (zoom L (m ≫= f)).
Proof.
  intros Hp Hk s. rewrite (runs_bind _ _ _ _ Hp Hk). unfold zoom, mbind, M_bind.
  destruct (m (view L s)) as [[a|e|c] t]; [|done..]. rewrite view_over.
  destruct (f a t) as [r t']. by rewrite over_over.
Qed.

Lemma runs_zoom_attempt {A} (p : prog S A) (m : M T A) :
  runs_as p (zoom L m) → runs_as (pattempt p) (zoom L (attempt m)).
Proof.
  intros Hp s. rewrite (runs_attempt _ _ Hp). unfold zoom, attempt. by destruct (m (view L s)) as [[] t].
Qed.

Lemma runs_zoom_done {A} (r : Result A) `{!LensLaws L} : runs_as (Done r) (zoom L (of_result r)).
Proof. intros s. unfold zoom. cbn. by rewrite over_view. Qed.

Lemma runs_zoom_for_each {A} (p : A → prog S unit) (f : A → M T unit) l `{!LensLaws L} :
  (∀ x, runs_as (p x) (zoom L (f x))) → runs_as (pfor_each p l) (zoom L (for_each f l)).
Proof.
  intros H. induction l as [|x l IH]; [apply runs_zoom_done, _|]. cbn [pfor_each for_each]. by apply runs_zoom_bind.
Qed.
End runs_as.

Ltac run_step :=
  match goal with
  | |- runs_as _ (zoom _ (mbind _ _)) => apply runs_zoom_bind; [apply _| |intros ?]
  | |- runs_as _ (zoom _ (attempt _)) => apply runs_zoom_attempt
  | |- runs_as _ (zoom _ (for_each _ _)) => apply runs_zoom_for_each; [apply _|intros ?]
  | |- runs_as (Done ?r) (zoom _ _) => apply (runs_zoom_done _ r)
  | |- runs_as (praise ?e) (zoom _ _) => apply (runs_zoom_done _ (Err e))
  | |- runs_as (mret ?a) (zoom _ _) => apply (runs_zoom_done _ (Ok a))
  | |- runs_as (match ?x with _ => _ end) _ => destruct x
  | |- runs_as _ (mbind _ _) => apply runs_bind; [|intros ?]
  | |- runs_as _ _ => apply runs_atom
  | |- runs_as _ _ => done
  end.

#[export] Instance b_pool_lens_laws {UP NP PP} : LensLaws (@b_pool_lens UP NP PP).
Proof. by split; intros; destruct s. Qed.

Section requests_run.
Context {K : Kernel} {UP NP PP : Type}.
Context `{!ResourcePool UP Z Z, !ResourcePool NP Network string, !ResourcePool PP Z Z}.
Context (b : BackendConf).
Local Abbreviation BS := (BState UP NP PP).

Lemma pool_Create_runs spec :
  runs_as (S := BS) (pool_Create_prog b spec) (on_pool (ContainerPool.Create (pool_conf b) spec)).
Proof.
  unfold pool_Create_prog, ContainerPool.Create, create_with_prog, create_with, b_on_trace, on_pool.
  repeat run_step.
Qed.

Lemma pool_Destroy_runs c :
  runs_as (S := BS) (pool_Destroy_prog b c) (on_pool (ContainerPool.Destroy (pool_conf b) c)).
Proof. unfold pool_Destroy_prog, ContainerPool.Destroy, b_on_trace, on_pool. repeat run_step. Qed.

Lemma Create_runs spec : runs_as (S := BS) (Create_prog b spec) (LinuxBackend.Create b spec).
Proof.
  unfold Create_prog, LinuxBackend.Create. apply runs_bind; [apply pool_Create_runs|]. intros c. repeat run_step.
Qed.

Lemma Destroy_runs handle : runs_as (S := BS) (Destroy_prog b handle) (LinuxBackend.Destroy b handle).
Proof.
  unfold Destroy_prog, LinuxBackend.Destroy. repeat run_step. apply pool_Destroy_runs.
Qed.
End requests_run.

(** ** Ownership

    What a request has taken from the pools and not yet put into the map is a [Bag] of its
    own. [inv bs Z B] says that the containers in the map, except those in [Z], and the bag
    [B] of all requests hold disjoint resources; what nobody holds any more is lost. [Z]
    are the containers that a request has looked up to destroy. *)
Record Bag := mkBag { bag_uids : list Z; bag_networks : list Network; bag_ports : list Z }.

Definition bag_app (B B' : Bag) : Bag :=
  mkBag (bag_uids B ++ bag_uids B') (bag_networks B ++ bag_networks B') (bag_ports B ++ bag_ports B').
Definition no_bag : Bag := mkBag [] [] [].
Definition bag_of (r : Resources) : Bag :=
  mkBag [UID r] (match res_Network r with Some n => [n] | None => [] end) (Ports r).
Definition bag_map (m : gmap string LinuxContainer) : Bag :=
  let rs := map c_resources (live m) in mkBag (map UID rs) (omap res_Network rs) (flat_map Ports rs).

Infix "⊎ᴮ" := bag_app (at level 50, left associativity).

Record bag_eq (B B' : Bag) : Prop := {
  be_uids : bag_uids B ≡ₚ bag_uids B';
  be_networks : bag_networks B ≡ₚ bag_networks B';
  be_ports : bag_ports B ≡ₚ bag_ports B'
}.

Infix "≡ᴮ" := bag_eq (at level 70, no associativity).

#[export] Instance bag_eq_equivalence : Equivalence bag_eq.
Proof.
  split; [by split|intros B B' [H1 H2 H3]; by split|].
  intros B1 B2 B3 [H1 H2 H3] [F1 F2 F3]. split; by etrans.
Qed.

#[export] Instance bag_app_proper : Proper (bag_eq ==> bag_eq ==> bag_eq) bag_app.
Proof. intros B B' [H1 H2 H3] C C' [F1 F2 F3]. split; cbn; by apply Permutation_app. Qed.

Ltac bag_solve := split; cbn; solve_Permutation.

Lemma bag_map_take (m : gmap string LinuxContainer) h :
  bag_map m ≡ᴮ match m !! h with Some c => bag_of (c_resources c) | None => no_bag end ⊎ᴮ bag_map (base.delete h m).
Proof.
  destruct (m !! h) as [c|] eqn:E.
  - destruct (live_insert m h c c E) as [P _]. split; cbn; rewrite P; cbn; [done| |done].
    by destruct (res_Network (c_resources c)).
  - by rewrite delete_id by done.
Qed.

Lemma bag_map_put (m : gmap string LinuxContainer) h c :
  bag_map (<[h := c]> (base.delete h m)) ≡ᴮ bag_of (c_resources c) ⊎ᴮ bag_map (base.delete h m).
Proof.
  rewrite (bag_map_take _ h), lookup_insert_eq, delete_insert_eq. by rewrite delete_delete_eq.
Qed.

(** *** Taking containers out of the map and putting them back *)

Section strip.
Context {V : Type}.
Implicit Types (m Z : gmap string V).

Lemma strip_insert m Z h c : m ∖ <[h := c]> Z = base.delete h (m ∖ Z).
Proof.
  apply map_eq. intros h'. apply option_eq. intros v. rewrite lookup_delete_Some, !lookup_difference_Some.
  destruct (decide (h = h')) as [<-|Hne]; [rewrite lookup_insert_eq|rewrite lookup_insert_ne by done]; naive_solver.
Qed.

Lemma strip_put m Z h c : <[h := c]> m ∖ base.delete h Z = <[h := c]> (base.delete h (m ∖ Z)).
Proof.
  apply map_eq. intros h'. apply option_eq. intros v. rewrite lookup_difference_Some.
  destruct (decide (h = h')) as [<-|Hne].
  - rewrite !lookup_insert_eq, lookup_delete_eq. naive_solver.
  - rewrite !lookup_insert_ne, !lookup_delete_ne by done. by rewrite lookup_difference_Some.
Qed.

Lemma strip_back m Z h c : m !! h = Some c → m ∖ base.delete h Z = <[h := c]> (base.delete h (m ∖ Z)).
Proof. intros H. by rewrite <-strip_put, insert_id. Qed.

Lemma strip_delete m Z h : base.delete h m ∖ base.delete h Z = base.delete h (m ∖ Z).
Proof.
  apply map_eq. intros h'. apply option_eq. intros v. rewrite lookup_difference_Some.
  destruct (decide (h = h')) as [<-|Hne].
  - rewrite !lookup_delete_eq. naive_solver.
  - rewrite !lookup_delete_ne by done. by rewrite lookup_difference_Some.
Qed.

Lemma strip_lookup m Z h : Z !! h = None → (m ∖ Z) !! h = m !! h.
Proof. intros H. rewrite lookup_difference. by rewrite H. Qed.
End strip.

Section ownership.
Context {K : Kernel} {UP NP PP : Type}.
Context `{!ResourcePool UP Z Z, !ResourcePool NP Network string, !ResourcePool PP Z Z}.
Context `{!ResourcePoolLaws UP Z Z, !ResourcePoolLaws NP Network string, !ResourcePoolLaws PP Z Z}.
Context (b : BackendConf) (iu : list Z) (nets : list string) (ip : list Z).
Local Abbreviation BS := (BState UP NP PP).
Local Abbreviation PS := (PState UP NP PP).
Local Abbreviation Zombies := (gmap string LinuxContainer).

(** The pools and a bag partition what there is. *)
Record holds (s : PS) (B : Bag) : Prop := {
  h_uids : Ledger iu (ps_uids s) (bag_uids B);
  h_networks : Ledger nets (ps_networks s) (bag_networks B);
  h_ports : Ledger ip (ps_ports s) (bag_ports B)
}.

Definition filed (m : gmap string LinuxContainer) : Prop := ∀ h c,
  m !! h = Some c → c_handle c = h ∧ is_Some (res_Network (c_resources c)).

Record inv (bs : BS) (Zs : Zombies) (B : Bag) : Prop := {
  inv_holds : ∃ L, holds (b_pool bs) (bag_map (b_containers bs ∖ Zs) ⊎ᴮ (B ⊎ᴮ L));
  inv_zombies : Zs ⊆ b_containers bs;
  inv_filed : filed (b_containers bs)
}.

Lemma holds_bag s B B' : B ≡ᴮ B' → holds s B → holds s B'.
Proof.
  intros [E1 E2 E3] [H1 H2 H3].
  split; (eapply ledger_change; [done| |eassumption]); [by rewrite E1|by rewrite E2|by rewrite E3].
Qed.

#[local] Instance holds_proper s : Proper (bag_eq ==> iff) (holds s).
Proof using Type. intros B B' E. split; by apply holds_bag. Qed.

Lemma inv_bag bs Zs B B' : B ≡ᴮ B' → inv bs Zs B → inv bs Zs B'.
Proof using Type. intros E [[L HL] H2 H3]. split; [|done..]. exists L. by rewrite <-E. Qed.

(** What a request holds may be lost. *)
Lemma inv_lose bs Zs B B' : inv bs Zs (B ⊎ᴮ B') → inv bs Zs B'.
Proof using Type.
  intros [[L HL] H2 H3]. split; [|done..]. exists (B ⊎ᴮ L). eapply holds_bag; [|exact HL]. bag_solve.
Qed.

(** A container leaves the map's share, for the bag of the request that found it. *)
Lemma inv_look_up bs Zs B h c :
  inv bs Zs B → b_containers bs !! h = Some c → Zs !! h = None →
  inv bs (<[h := c]> Zs) (bag_of (c_resources c) ⊎ᴮ B).
Proof using Type.
  intros [[L HL] H2 H3] E HZ. split; [|by apply insert_subseteq_l|done]. exists L. eapply holds_bag; [|exact HL].
  rewrite strip_insert, (bag_map_take _ h), strip_lookup, E by done. bag_solve.
Qed.

(** It goes back when destroying it has failed. *)
Lemma inv_put_back bs Zs B h c :
  inv bs Zs (bag_of (c_resources c) ⊎ᴮ B) → Zs !! h = None ∨ Zs !! h = Some c →
  inv bs (base.delete h Zs) B.
Proof using Type.
  intros Hi [HZ|HZ].
  - rewrite delete_id by done. by eapply inv_lose.
  - destruct Hi as [[L HL] H2 H3]. split; [|etrans; [apply delete_subseteq|done]|done].
    exists L. eapply holds_bag; [|exact HL]. assert (E : b_containers bs !! h = Some c) by (by eapply lookup_weaken).
    assert (En : (b_containers bs ∖ Zs) !! h = None).
    { rewrite lookup_difference, HZ. done. }
    rewrite (strip_back _ _ h c E), bag_map_put, (delete_id (b_containers bs ∖ Zs)) by done. bag_solve.
Qed.

Lemma inv_delete bs Zs B h :
  inv bs Zs B → inv (mkBState (b_pool bs) (base.delete h (b_containers bs))) (base.delete h Zs) B.
Proof using Type.
  intros [[L HL] H2 H3]. split; cbn.
  - exists (match (b_containers bs ∖ Zs) !! h with Some c => bag_of (c_resources c) | None => no_bag end ⊎ᴮ L).
    eapply holds_bag; [|exact HL]. rewrite strip_delete, (bag_map_take _ h). bag_solve.
  - by apply delete_mono.
  - intros h' c [_ Hc]%lookup_delete_Some. by apply H3.
Qed.

(** A new container takes its handle; what had it is lost, unless a request holds it. *)
Lemma inv_add bs Zs B c :
  inv bs Zs (bag_of (c_resources c) ⊎ᴮ B) → is_Some (res_Network (c_resources c)) →
  inv (mkBState (b_pool bs) (<[c_handle c := c]> (b_containers bs))) (base.delete (c_handle c) Zs) B.
Proof using Type.
  intros [[L HL] H2 H3] Hn. set (h := c_handle c). split; cbn.
  - exists (match (b_containers bs ∖ Zs) !! h with Some c => bag_of (c_resources c) | None => no_bag end ⊎ᴮ L).
    eapply holds_bag; [|exact HL]. rewrite strip_put, bag_map_put, (bag_map_take _ h). bag_solve.
  - etrans; [by apply delete_mono|]. rewrite <-(insert_delete_eq (b_containers bs)). 
    apply insert_subseteq, lookup_delete_eq.
  - intros h' c'. destruct (decide (h = h')) as [<-|Hne].
    + rewrite lookup_insert_eq. by intros [= <-].
    + rewrite lookup_insert_ne by done. apply H3.
Qed.
End ownership.

(** *** Programs that keep the accounts

    [me] is the handle the request destroys, if any; [z] is the container it may have among
    the [Zombies], [B] the bag it has. Whatever the others do between its steps, a safe
    program keeps [inv], and ends as [Q] says. *)
Section safety.
Context {K : Kernel} {UP NP PP : Type}.
Context `{!ResourcePool UP Z Z, !ResourcePool NP Network string, !ResourcePool PP Z Z}.
Context `{!ResourcePoolLaws UP Z Z, !ResourcePoolLaws NP Network string, !ResourcePoolLaws PP Z Z}.
Context (iu : list Z) (nets : list string) (ip : list Z).
Local Abbreviation BS := (BState UP NP PP).
Local Abbreviation Zombies := (gmap string LinuxContainer).
Local Abbreviation inv := (inv (UP := UP) (NP := NP) (PP := PP) iu nets ip).

Definition own (me : option string) (z : option LinuxContainer) (Zs : Zombies) : Prop :=
  ∀ h, me = Some h → Zs !! h = None ∨ Zs !! h = z.

(** The other requests' containers stay where they are, or are replaced in the map. *)
Definition others (me : option string) (Zs Zs' : Zombies) : Prop :=
  ∀ h, me ≠ Some h → Zs' !! h = None ∨ Zs' !! h = Zs !! h.

Definition Post (A : Type) : Type := Result A → option LinuxContainer → Bag → Prop.

Definition step_ok {A} (me : option string) (z : option LinuxContainer) (B : Bag)
    (f : BS → A * BS) (Q : A → option LinuxContainer → Bag → Prop) : Prop :=
  ∀ bs Zs F, inv bs Zs (B ⊎ᴮ F) → own me z Zs →
  ∃ Zs' z' B', inv (f bs).2 Zs' (B' ⊎ᴮ F) ∧ own me z' Zs' ∧ others me Zs Zs' ∧ Q (f bs).1 z' B'.

Fixpoint safe {A} (me : option string) (z : option LinuxContainer) (B : Bag) (p : prog BS A)
    (Q : Post A) {struct p} : Prop :=
  match p with
  | Done r => Q r z B
  | Act f => ∀ bs Zs F, inv bs Zs (B ⊎ᴮ F) → own me z Zs →
      let '(p', bs') := f bs in
      ∃ Zs' z' B', inv bs' Zs' (B' ⊎ᴮ F) ∧ own me z' Zs' ∧ others me Zs Zs' ∧ safe me z' B' p' Q
  end.

Lemma others_refl me Zs : others me Zs Zs.
Proof using Type. intros h _. by right. Qed.

Lemma safe_atom {A} me z B (m : M BS A) (Q : Post A) : step_ok me z B m Q → safe me z B (atom m) Q.
Proof using Type.
  intros H bs Zs F Hi Ho. specialize (H bs Zs F Hi Ho). destruct (m bs) as [r bs'].
  destruct H as (Zs' & z' & B' & H). by exists Zs', z', B'.
Qed.

Lemma safe_weaken {A} me z B (p : prog BS A) (Q Q' : Post A) :
  safe me z B p Q → (∀ r z' B', Q r z' B' → Q' r z' B') → safe me z B p Q'.
Proof using Type.
  intros H HQ. revert z B H. induction p as [r|f IH] using prog_ind'; intros z B H; [by apply HQ|].
  intros bs Zs F Hi Ho. specialize (H bs Zs F Hi Ho). specialize (IH bs). destruct (f bs) as [p' bs'].
  destruct H as (Zs' & z' & B' & H1 & H2 & H3 & H4). exists Zs', z', B'. split_and!; auto.
Qed.

Lemma safe_pbind {A C} me z B (p : prog BS A) (k : A → prog BS C) (Q : Post C) :
  safe me z B p (λ r z' B', match r with
                            | Ok a => safe me z' B' (k a) Q
                            | Err e => Q (Err e) z' B'
                            | Crash c => Q (Crash c) z' B'
                            end) →
  safe me z B (p ≫= k) Q.
Proof using Type.
  revert z B. induction p as [[a|e|c]|f IH] using prog_ind'; intros z B H; [done..|].
  intros bs Zs F Hi Ho. specialize (H bs Zs F Hi Ho). specialize (IH bs). destruct (f bs) as [p' bs'].
  destruct H as (Zs' & z' & B' & H1 & H2 & H3 & H4). exists Zs', z', B'. split_and!; try done. by apply IH.
Qed.

Lemma safe_pattempt {A} me z B (p : prog BS A) (Q : Post (A + error)) :
  safe me z B p (λ r z' B', match r with
                            | Ok a => Q (Ok (inl a)) z' B'
                            | Err e => Q (Ok (inr e)) z' B'
                            | Crash c => Q (Crash c) z' B'
                            end) →
  safe me z B (pattempt p) Q.
Proof using Type.
  revert z B. induction p as [[a|e|c]|f IH] using prog_ind'; intros z B H; [done..|].
  intros bs Zs F Hi Ho. specialize (H bs Zs F Hi Ho). specialize (IH bs). destruct (f bs) as [p' bs'].
  destruct H as (Zs' & z' & B' & H1 & H2 & H3 & H4). exists Zs', z', B'. split_and!; try done. by apply IH.
Qed.

(** A step that leaves the zombies alone. *)
Lemma step_ok_pools {A} me z B (m : M BS A) (Q : Post A) :
  (∀ bs Zs F, inv bs Zs (B ⊎ᴮ F) → ∃ B', inv (m bs).2 Zs (B' ⊎ᴮ F) ∧ Q (m bs).1 z B') →
  step_ok me z B m Q.
Proof using Type.
  intros H bs Zs F Hi Ho. destruct (H bs Zs F Hi) as (B' & H1 & H2).
  exists Zs, z, B'. split_and!; try done. apply others_refl.
Qed.

(** **** The calls *)

Lemma inv_pool (bs : BS) Zs B s' B' :
  inv bs Zs B →
  (∀ X, holds iu nets ip (b_pool bs) (B ⊎ᴮ X) → holds iu nets ip s' (B' ⊎ᴮ X)) →
  inv (mkBState s' (b_containers bs)) Zs B'.
Proof using Type.
  intros [[L HL] H2 H3] Hs. split; [|done..]. exists L. cbn.
  eapply holds_bag; [|apply (Hs (bag_map (b_containers bs ∖ Zs) ⊎ᴮ L))]; [bag_solve|].
  eapply holds_bag; [|exact HL]. bag_solve.
Qed.

Lemma inv_bag_held (bs : BS) Zs B : inv bs Zs B → ∃ X, holds iu nets ip (b_pool bs) (B ⊎ᴮ X).
Proof using Type.
  intros [[L HL] _ _]. exists (bag_map (b_containers bs ∖ Zs) ⊎ᴮ L). eapply holds_bag; [|exact HL]. bag_solve.
Qed.

Lemma step_trace {A} me z B (m : M Trace A) :
  step_ok me z B (b_on_trace m) (λ _ z' B', z' = z ∧ B' = B).
Proof using Type.
  apply step_ok_pools. intros [[h u n q k] cm] Zs F Hi. exists B. split; [|done].
  unfold b_on_trace, on_pool, zoom at 1. cbn [view b_pool_lens b_pool]. rewrite p_on_trace_eq. cbn.
  apply (inv_pool _ _ _ _ _ Hi). intros X [H1 H2 H3]. by split.
Qed.

Definition uid_bag (u : Z) : Bag := mkBag [u] [] [].
Definition network_bag (n : Network) : Bag := mkBag [] [n] [].
Definition ports_bag (l : list Z) : Bag := mkBag [] [] l.

Lemma step_acquire_uid me z B :
  step_ok me z B (on_pool (on_uids rp_acquire))
    (λ r z' B', z' = z ∧ match r with Ok u => B' = uid_bag u ⊎ᴮ B | Err _ => B' = B | Crash _ => False end).
Proof using All.
  apply step_ok_pools. intros [[h u n q k] cm] Zs F Hi. unfold on_pool, on_uids, zoom. cbn.
  destruct (acquire_cases u) as [(x & l & u' & _ & E & _)|[_ [e E]]]; rewrite E; cbn; eexists;
    (split; [|by split]); apply (inv_pool _ _ _ _ _ Hi); intros X [H1 H2 H3]; split; try done.
  by eapply (ledger_acquire _ _ _ _ _ H1).
Qed.

Lemma step_acquire_network me z B :
  step_ok me z B (on_pool (on_networks rp_acquire))
    (λ r z' B', z' = z ∧ match r with Ok n => B' = network_bag n ⊎ᴮ B | Err _ => B' = B | Crash _ => False end).
Proof using All.
  apply step_ok_pools. intros [[h u n q k] cm] Zs F Hi. unfold on_pool, on_networks, zoom. cbn.
  destruct (acquire_cases n) as [(x & l & n' & _ & E & _)|[_ [e E]]]; rewrite E; cbn; eexists;
    (split; [|by split]); apply (inv_pool _ _ _ _ _ Hi); intros X [H1 H2 H3]; split; try done.
  by eapply (ledger_acquire _ _ _ _ _ H2).
Qed.

(** Giving back what one has: the call succeeds. *)
Lemma step_release_uid me z B u :
  step_ok me z (uid_bag u ⊎ᴮ B) (on_pool (on_uids (rp_release u))) (λ r z' B', z' = z ∧ r = Ok tt ∧ B' = B).
Proof using All.
  apply step_ok_pools. intros [[h us n q k] cm] Zs F Hi. unfold on_pool, on_uids, zoom. cbn.
  destruct (rp_release u us) as [r us'] eqn:E. destruct (inv_bag_held _ _ _ Hi) as [X0 [HL _ _]].
  destruct (ledger_release _ _ _ _ _ _ _ HL (Permutation_refl _) E) as (-> & _ & _).
  exists B. split; [|done]. apply (inv_pool _ _ _ _ _ Hi). intros X [H1 H2 H3]. split; try done.
  by destruct (ledger_release _ _ _ _ _ _ _ H1 (Permutation_refl _) E) as (_ & ? & _).
Qed.

Lemma step_release_network me z B nw :
  step_ok me z (network_bag nw ⊎ᴮ B) (on_pool (on_networks (rp_release nw))) (λ r z' B', z' = z ∧ r = Ok tt ∧ B' = B).
Proof using All.
  apply step_ok_pools. intros [[h us n q k] cm] Zs F Hi. unfold on_pool, on_networks, zoom. cbn.
  destruct (rp_release nw n) as [r n'] eqn:E. destruct (inv_bag_held _ _ _ Hi) as [X0 [_ HL _]].
  destruct (ledger_release _ _ _ _ _ _ _ HL (Permutation_refl _) E) as (-> & _ & _).
  exists B. split; [|done]. apply (inv_pool _ _ _ _ _ Hi). intros X [H1 H2 H3]. split; try done.
  by destruct (ledger_release _ _ _ _ _ _ _ H2 (Permutation_refl _) E) as (_ & ? & _).
Qed.

Lemma step_release_port me z B port :
  step_ok me z (ports_bag [port] ⊎ᴮ B) (on_pool (p_on_ports (rp_release port))) (λ r z' B', z' = z ∧ r = Ok tt ∧ B' = B).
Proof using All.
  apply step_ok_pools. intros [[h us n q k] cm] Zs F Hi. unfold on_pool, p_on_ports, zoom. cbn.
  destruct (rp_release port q) as [r q'] eqn:E. destruct (inv_bag_held _ _ _ Hi) as [X0 [_ _ HL]].
  destruct (ledger_release _ _ _ _ _ _ _ HL (Permutation_refl _) E) as (-> & _ & _).
  exists B. split; [|done]. apply (inv_pool _ _ _ _ _ Hi). intros X [H1 H2 H3]. split; try done.
  by destruct (ledger_release _ _ _ _ _ _ _ H3 (Permutation_refl _) E) as (_ & ? & _).
Qed.

Lemma step_next_id me z B :
  step_ok me z B (on_pool next_id) (λ r z' B', z' = z ∧ B' = B ∧ ∃ id, r = Ok id).
Proof using Type.
  apply step_ok_pools. intros [[h us n q k] cm] Zs F Hi. exists B. split; [|by eauto].
  apply (inv_pool _ _ _ _ _ Hi). intros X [H1 H2 H3]. by split.
Qed.

(** Starting a container changes its state only. *)
Lemma step_start me z B c :
  step_ok me z B (on_pool (on_container c LinuxContainer.Start))
    (λ r z' B', z' = z ∧ B' = B ∧ match r with Ok (_, c') => c_resources c' = c_resources c | _ => True end).
Proof using Type.
  apply step_ok_pools. intros [[h us n q k] cm] Zs F Hi. exists B.
  unfold on_pool, on_container, zoom. cbn. rewrite Start_eq. cbn zeta. destruct (sys_error _ _); cbn;
    (split; [|done]); apply (inv_pool _ _ _ _ _ Hi); intros X [H1 H2 H3]; by split.
Qed.
Lemma inv_no_bag (bs : BS) Zs F : inv bs Zs (no_bag ⊎ᴮ F) ↔ inv bs Zs F.
Proof using Type. split; apply inv_bag; bag_solve. Qed.

(** Looking up a container to destroy it, failing to destroy it, and taking it off the map. *)
Lemma step_lookup h :
  step_ok (Some h) None no_bag (Lookup h)
    (λ r z' B', match r with
                | Ok c => z' = Some c ∧ B' = bag_of (c_resources c) ∧ c_handle c = h ∧
                          is_Some (res_Network (c_resources c))
                | _ => z' = None
                end).
Proof using Type.
  intros bs Zs F Hi Ho. assert (HZ : Zs !! h = None) by (by destruct (Ho h eq_refl)).
  unfold Lookup, mbind, M_bind, gets. destruct (b_containers bs !! h) as [c|] eqn:E.
  - destruct (inv_filed _ _ _ _ _ _ Hi h c E) as [Hh Hn].
    exists (<[h := c]> Zs), (Some c), (bag_of (c_resources c)). split_and!; try done.
    + apply inv_look_up; [by apply inv_no_bag|done..].
    + intros h' [= <-]. right. apply lookup_insert_eq.
    + intros h' Hne. right. apply lookup_insert_ne. congruence.
  - exists Zs, None, no_bag. split_and!; try done. apply others_refl.
Qed.

Lemma own_deleted h z Zs : own (Some h) z (base.delete h Zs).
Proof using Type. intros h' [= <-]. left. apply lookup_delete_eq. Qed.

Lemma others_deleted me Zs h : others me Zs (base.delete h Zs).
Proof using Type.
  intros h' _. destruct (decide (h = h')) as [<-|Hne]; [left; apply lookup_delete_eq|right; by apply lookup_delete_ne].
Qed.

Lemma step_destroy_outside {A} h c (m : M Trace A) :
  step_ok (Some h) (Some c) (bag_of (c_resources c)) (b_on_trace m)
    (λ r z' B', match r with Ok _ => z' = Some c ∧ B' = bag_of (c_resources c) | _ => z' = None end).
Proof using Type.
  intros bs Zs F Hi Ho. destruct (step_trace (Some h) (Some c) _ m bs Zs F Hi Ho)
    as (Zs' & z' & B' & Hi' & Ho' & Hot & -> & ->).
  destruct (b_on_trace m bs) as [[a|e|f] bs']; cbn [fst snd] in *.
  - by exists Zs', (Some c), (bag_of (c_resources c)).
  - exists (base.delete h Zs'), None, no_bag. split_and!; [|apply own_deleted| |done].
    + apply inv_no_bag. by eapply inv_put_back; [|apply Ho'].
    + intros h' Hne. rewrite lookup_delete_ne by congruence. by apply Hot.
  - exists (base.delete h Zs'), None, no_bag. split_and!; [|apply own_deleted| |done].
    + apply inv_no_bag. by eapply inv_put_back; [|apply Ho'].
    + intros h' Hne. rewrite lookup_delete_ne by congruence. by apply Hot.
Qed.

Lemma step_delete h z B :
  step_ok (Some h) z B (modify_containers (base.delete h)) (λ r z' B', z' = None).
Proof using Type.
  intros bs Zs F Hi Ho. exists (base.delete h Zs), None, B.
  split_and!; [by apply inv_delete|apply own_deleted|apply others_deleted|done].
Qed.

Lemma step_add c :
  is_Some (res_Network (c_resources c)) →
  step_ok None None (bag_of (c_resources c)) (add_container c) (λ r z' B', z' = None).
Proof using Type.
  intros Hn bs Zs F Hi Ho. exists (base.delete (c_handle c) Zs), None, no_bag.
  split_and!; [|done|apply others_deleted|done].
  apply inv_no_bag. by apply inv_add.
Qed.

(** **** The requests *)

Lemma safe_call {A C} me z B (m : M BS A) (k : A → prog BS C) (Q : Post C) P :
  step_ok me z B m P →
  (∀ r z' B', P r z' B' → match r with
                          | Ok a => safe me z' B' (k a) Q
                          | Err e => Q (Err e) z' B'
                          | Crash c => Q (Crash c) z' B'
                          end) →
  safe me z B (atom m ≫= k) Q.
Proof using Type.
  intros H HP. apply safe_pbind. apply safe_atom. intros bs Zs F Hi Ho.
  destruct (H bs Zs F Hi Ho) as (Zs' & z' & B' & H1 & H2 & H3 & H4). exists Zs', z', B'.
  split_and!; [done..|]. by apply HP.
Qed.

Lemma safe_release_ports me z us ns l :
  safe me z (mkBag us ns l) (pfor_each (λ port, atom (on_pool (p_on_ports (rp_release port)))) l)
    (λ r z' B', r = Ok tt ∧ z' = z ∧ B' = mkBag us ns []).
Proof using All.
  induction l as [|x l IH]; [done|]. cbn [pfor_each].
  eapply safe_call; [exact (step_release_port me z (mkBag us ns l) x)|]. by intros r z' B' (-> & -> & ->).
Qed.

(** A request ends without a container among the zombies. *)
Definition ended {A} : Post A := λ _ z _, z = None.

Context (b : BackendConf).

Lemma safe_pool_Destroy h c :
  is_Some (res_Network (c_resources c)) →
  safe (Some h) (Some c) (bag_of (c_resources c)) (pool_Destroy_prog b c)
    (λ r z' B', match r with Ok _ => True | _ => z' = None end).
Proof using All.
  intros [n Hn]. unfold pool_Destroy_prog. eapply safe_call; [apply step_destroy_outside|].
  intros [[]|e|f] z' B'; [|done..]. intros [-> ->]. unfold bag_of. rewrite Hn.
  apply safe_pbind. eapply safe_weaken; [apply safe_release_ports|]. intros r z' B' (-> & -> & ->).
  eapply safe_call; [exact (step_release_uid (Some h) (Some c) (network_bag n) (UID (c_resources c)))|].
  intros r z' B' (-> & -> & ->). apply safe_atom. cbn [release_network].
  intros bs Zs F Hi Ho. destruct (step_release_network (Some h) (Some c) no_bag n bs Zs F Hi Ho)
    as (Zs' & z' & B' & H1 & H2 & H3 & _ & Hr & _).
  exists Zs', z', B'. cbn [release_network] in *. by rewrite Hr.
Qed.

Lemma safe_Destroy h : safe (Some h) None no_bag (Destroy_prog b h) ended.
Proof using All.
  unfold Destroy_prog. eapply safe_call; [apply step_lookup|]. intros [c|e|f] z' B'; [|done..].
  intros (-> & -> & Hh & Hn). apply safe_pbind. eapply safe_weaken; [by apply safe_pool_Destroy|].
  intros [[]|e|f] z' B'; [|done..]. intros _. rewrite Hh. apply safe_atom, step_delete.
Qed.

Lemma safe_create_with spec uid n id :
  safe None None (mkBag [uid] [n] []) (create_with_prog b spec uid n id)
    (λ r z' B', z' = None ∧ match r with
                            | Ok c => c_resources c = taken uid n ∧ B' = mkBag [uid] [n] []
                            | _ => True
                            end).
Proof using All.
  unfold create_with_prog. apply safe_pbind. cbn [safe].
  destruct (Parse (RootFSPath spec)) as [url|e|f]; [|done..].
  destruct (rootfsProviders (pool_conf b) !! Scheme url) as [pv|]; [|done].
  eapply safe_call; [apply step_trace|]. intros [root|e|f] z' B' [-> ->]; [|done..].
  apply safe_pbind, safe_pattempt, safe_atom. intros bs Zs F Hi Ho.
  destruct (step_trace None None _ (OS.Run (create_cmd (pool_conf b) id root uid n)) bs Zs F Hi Ho)
    as (Zs' & z' & B' & H1 & H2 & H3 & -> & ->). exists Zs', None, (mkBag [uid] [n] []). split_and!; try done.
  destruct (b_on_trace _ bs).1 as [[]|e|f]; [| |done].
  - eapply safe_call; [apply step_trace|]. intros [[]|e|f] z' B' [-> ->]; [|done..].
    eapply safe_call; [apply step_trace|]. intros [[]|e|f] z' B' [-> ->]; done.
  - eapply safe_call; [exact (step_release_uid None None (network_bag n) uid)|]. intros r z' B' (-> & -> & ->).
    eapply safe_call; [exact (step_release_network None None no_bag n)|]. by intros r z' B' (-> & -> & ->).
Qed.

Lemma safe_Create spec : safe None None no_bag (Create_prog b spec) ended.
Proof using All.
  unfold Create_prog, pool_Create_prog. apply safe_pbind. eapply safe_call; [apply step_acquire_uid|].
  intros [uid|e|f] z' B' [-> HB]; [|done..]. subst B'.
  apply safe_pbind, safe_pattempt. eapply safe_weaken; [apply safe_atom, step_acquire_network|].
  intros [n|e|f] z' B' [-> HB]; [| |done]; cbn beta iota; subst B'.
  - eapply safe_call; [apply step_next_id|]. intros r z' B' (-> & -> & id & ->).
    eapply safe_weaken; [exact (safe_create_with spec uid n id)|]. intros [c|e|f] z' B' [-> HB]; [|done..].
    destruct HB as [Hr ->]. eapply safe_call; [apply step_start|]. intros [[[] c']|e|f] z' B' (-> & -> & Hc); [|done..].
    rewrite Hr in Hc. eapply safe_call.
    + assert (E : mkBag [uid] [n] [] = bag_of (c_resources c')) by (by rewrite Hc). rewrite E.
      apply step_add. by rewrite Hc.
    + by intros [[]|e|f] z' B' ->.
  - eapply safe_call; [exact (step_release_uid None None no_bag uid)|]. by intros r z' B' (-> & -> & ->).
Qed.

Lemma safe_request r : safe (victim r) None no_bag (request_prog b r) ended.
Proof using All.
  destruct r as [spec|handle]; [|apply safe_Destroy]. cbn [request_prog victim].
  apply safe_pbind. eapply safe_weaken; [apply safe_Create|]. by intros [c|e|f] z' B' ->.
Qed.
End safety.

(** ** Any number of requests *)

Fixpoint bags (Bs : list Bag) : Bag := match Bs with [] => no_bag | B :: Bs' => B ⊎ᴮ bags Bs' end.

Lemma bags_middle Bs1 B Bs2 : bags (Bs1 ++ B :: Bs2) ≡ᴮ B ⊎ᴮ bags (Bs1 ++ Bs2).
Proof.
  induction Bs1 as [|B1 Bs1 IH]; [done|]. cbn [bags app]. rewrite IH. bag_solve.
Qed.

Section interleaving.
Context {K : Kernel} {UP NP PP : Type}.
Context `{!ResourcePool UP Z Z, !ResourcePool NP Network string, !ResourcePool PP Z Z}.
Context `{!ResourcePoolLaws UP Z Z, !ResourcePoolLaws NP Network string, !ResourcePoolLaws PP Z Z}.
Context (b : BackendConf) (iu : list Z) (nets : list string) (ip : list Z).
Local Abbreviation BS := (BState UP NP PP).
Local Abbreviation Zombies := (gmap string LinuxContainer).
Local Abbreviation inv := (inv (UP := UP) (NP := NP) (PP := PP) iu nets ip).
Local Abbreviation thread := (request * prog BS unit)%type.

(** A container that nobody destroys changes, and with it what it holds. *)
Lemma inv_update (bs : BS) Zs F h c c' s' :
  inv bs Zs F → b_containers bs !! h = Some c → Zs !! h = None →
  c_handle c' = c_handle c → res_Network (c_resources c') = res_Network (c_resources c) →
  (∀ X, holds iu nets ip (b_pool bs) (bag_of (c_resources c) ⊎ᴮ X) → holds iu nets ip s' (bag_of (c_resources c') ⊎ᴮ X)) →
  inv (mkBState s' (<[h := c']> (b_containers bs))) Zs F.
Proof using Type.
  intros [[L HL] H2 H3] E HZ Hh Hn Hs. split; cbn.
  - exists L. rewrite <-(delete_id Zs h HZ), strip_put.
    eapply holds_bag; [symmetry; etrans; [by apply bag_app_proper; [apply bag_map_put|]|]|].
    2:{ apply (Hs (bag_map (base.delete h (b_containers bs ∖ Zs)) ⊎ᴮ (F ⊎ᴮ L))).
        eapply holds_bag; [|exact HL]. rewrite (bag_map_take (b_containers bs ∖ Zs) h), strip_lookup, E by done.
        bag_solve. }
    bag_solve.
  - by apply insert_subseteq_r.
  - intros h' c1. destruct (decide (h = h')) as [<-|Hne].
    + rewrite lookup_insert_eq. intros [= <-]. rewrite Hh, Hn. by apply H3.
    + rewrite lookup_insert_ne by done. apply H3.
Qed.

Lemma inv_op (bs : BS) Zs F h o :
  inv bs Zs F → Zs !! h = None → inv (with_container h (do_op o) bs).2 Zs F.
Proof using All.
  intros Hi HZ. unfold with_container. destruct (b_containers bs !! h) as [c|] eqn:E; [|done].
  destruct bs as [[tr u n q k] m]. cbn [b_pool b_containers ps_trace ps_uids ps_networks ps_ports ps_containerNum] in *.
  pose proof (op_owns_ports o (mkCState tr q c)) as Ho. pose proof (op_evolves o (mkCState tr q c)) as He.
  destruct (do_op o (mkCState tr q c)) as [r [tr' q' c']]. unfold owns_ports, evolves_rel in *. cbn in Ho, He.
  destruct He as [Ec Eu En _ _ _ _]. cbn.
  apply (inv_update (mkBState (mkPState tr u n q k) m) Zs F h c c'); try done.
  - unfold c_handle. by rewrite Ec.
  - intros X [H1 H2 H3]. unfold bag_of in *. rewrite Eu, En. split; [done..|]. by apply Ho.
Qed.

Definition thread_ok (Zs : Zombies) (t : thread) (B : Bag) : Prop :=
  ∃ z, own (victim t.1) z Zs ∧ safe iu nets ip (victim t.1) z B t.2 ended.

Record conc_ok (cfg : list thread * BS) (Zs : Zombies) (Bs : list Bag) : Prop := {
  co_inv : inv cfg.2 Zs (bags Bs);
  co_threads : Forall2 (thread_ok Zs) cfg.1 Bs;
  co_victims : NoDup (omap victim cfg.1.*1);
  co_zombies h c : Zs !! h = Some c → h ∈ omap victim cfg.1.*1
}.

Lemma destroying_victim h (ts : list thread) : destroying h ts ↔ h ∈ omap victim ts.*1.
Proof using Type.
  unfold destroying. rewrite list_elem_of_omap. split; [by exists (ReqDestroy h)|].
  intros ([spec|h'] & Hin & [= <-]). done.
Qed.

Lemma not_destroying ts bs Zs Bs h : conc_ok (ts, bs) Zs Bs → ¬ destroying h ts → Zs !! h = None.
Proof using Type.
  intros Hok Hd. destruct (Zs !! h) as [c|] eqn:E; [|done]. destruct Hd. apply destroying_victim.
  by apply (co_zombies _ _ _ Hok h c).
Qed.

Lemma others_threads me Zs Zs' (ts : list thread) Bs :
  others me Zs Zs' → (∀ h, me = Some h → h ∉ omap victim ts.*1) →
  Forall2 (thread_ok Zs) ts Bs → Forall2 (thread_ok Zs') ts Bs.
Proof using Type.
  intros Hot Hme. induction 1 as [|[r p] B ts Bs (z & Ho & Hs) Hts IH]; [constructor|]. constructor.
  - exists z. split; [|done]. intros h Hh. cbn in Hh. assert (Hne : me ≠ Some h).
    { intros E. apply (Hme h E). cbn. rewrite Hh. left. }
    destruct (Hot h Hne) as [->| ->]; [by left|by apply Ho].
  - apply IH. intros h E. specialize (Hme h E). cbn in Hme. destruct (victim r); [|done].
    intros Hin. apply Hme. by right.
Qed.

Lemma omap_middle {A C} (f : A → option C) l1 x l2 :
  omap f (l1 ++ x :: l2) = omap f l1 ++ (match f x with Some y => [y] | None => [] end) ++ omap f l2.
Proof. rewrite omap_app. cbn. by destruct (f x). Qed.

Lemma conc_request_ok r ts bs Zs Bs :
  (if r is ReqDestroy handle then ¬ destroying handle ts else True) →
  conc_ok (ts, bs) Zs Bs → conc_ok ((r, request_prog b r) :: ts, bs) Zs (no_bag :: Bs).
Proof using All.
  intros Hr Hok. pose proof Hok as [Hi Ht Hv Hz]. split; cbn [fst snd bags].
  - eapply inv_bag; [|exact Hi]. bag_solve.
  - constructor; [|done]. exists None. split; [|apply safe_request]. intros h Hh. left.
    destruct r as [spec|h']; [done|]. injection Hh as ->. by eapply not_destroying.
  - cbn. destruct r as [spec|h]; [done|]. cbn. constructor; [|done]. by rewrite <-destroying_victim.
  - intros h c Hc. cbn. destruct (victim r); [right|]; by eapply Hz.
Qed.

Lemma conc_run_ok r f p' ts1 ts2 bs bs' Zs Bs :
  f bs = (p', bs') → conc_ok (ts1 ++ (r, Act f) :: ts2, bs) Zs Bs →
  ∃ Zs' Bs', conc_ok (ts1 ++ (r, p') :: ts2, bs') Zs' Bs'.
Proof using All.
  intros Hf [Hi Ht Hv Hz]. cbn [fst snd] in *. apply Forall2_app_inv_l in Ht as (Bs1 & Bs2' & Ht1 & Ht2 & ->).
  apply Forall2_cons_inv_l in Ht2 as (B & Bs2 & (z & Ho & Hs) & Ht2 & ->). cbn [fst snd safe] in *.
  rewrite fmap_app in Hv, Hz. cbn [fmap list_fmap fst] in Hv, Hz. rewrite omap_middle in Hv, Hz.
  specialize (Hs bs Zs (bags (Bs1 ++ Bs2))). rewrite Hf in Hs.
  destruct Hs as (Zs' & z' & B' & Hi' & Ho' & Hot & Hs'); [eapply inv_bag; [apply bags_middle|done]|done|].
  assert (Hrest : ∀ h, victim r = Some h → h ∉ omap victim ts1.*1 ∧ h ∉ omap victim ts2.*1).
  { intros h Hh. rewrite Hh in Hv. apply NoDup_app in Hv as (_ & Hv1 & Hv2). split.
    - intros Hin. apply (Hv1 _ Hin). left.
    - by apply NoDup_cons in Hv2 as [? _]. }
  exists Zs', (Bs1 ++ B' :: Bs2). split; cbn [fst snd].
  - eapply inv_bag; [symmetry; apply bags_middle|done].
  - apply Forall2_app; [|constructor; [by exists z'|]];
      (eapply others_threads; [exact Hot| |done]); intros h Hh; by apply Hrest.
  - rewrite fmap_app. cbn. by rewrite omap_middle.
  - intros h c Hc. rewrite fmap_app. cbn [fmap list_fmap fst]. rewrite omap_middle.
    destruct (decide (victim r = Some h)) as [->|Hne]; [set_solver|].
    destruct (Hot h Hne) as [E|E]; [congruence|]. apply (Hz h c). congruence.
Qed.

Lemma conc_return_ok r res ts1 ts2 bs Zs Bs :
  conc_ok (ts1 ++ (r, Done res) :: ts2, bs) Zs Bs → ∃ Bs', conc_ok (ts1 ++ ts2, bs) Zs Bs'.
Proof using All.
  intros [Hi Ht Hv Hz]. cbn [fst snd] in *. apply Forall2_app_inv_l in Ht as (Bs1 & Bs2' & Ht1 & Ht2 & ->).
  apply Forall2_cons_inv_l in Ht2 as (B & Bs2 & (z & Ho & Hs) & Ht2 & ->). cbn [fst snd safe] in *.
  rewrite fmap_app in Hv, Hz. cbn [fmap list_fmap fst] in Hv, Hz. rewrite omap_middle in Hv, Hz.
  exists (Bs1 ++ Bs2). unfold ended in Hs. subst z. split; cbn [fst snd].
  - eapply inv_lose, inv_bag; [apply bags_middle|done].
  - by apply Forall2_app.
  - rewrite fmap_app, omap_app. eapply sublist_NoDup; [exact Hv|]. apply sublist_app; [done|].
    by apply sublist_inserts_l.
  - intros h c Hc. rewrite fmap_app, omap_app. specialize (Hz h c Hc).
    destruct (decide (victim r = Some h)) as [Hh|Hne]; [destruct (Ho h Hh); congruence|].
    destruct (victim r); set_solver.
Qed.

Lemma conc_step_ok cfg cfg' Zs Bs :
  conc_step b true cfg cfg' → conc_ok cfg Zs Bs → ∃ Zs' Bs', conc_ok cfg' Zs' Bs'.
Proof using All.
  intros Hst Hok. destruct Hst as [r ts bs Hr|r f p' ts1 ts2 bs bs' Hf|r res ts1 ts2 bs|h o ts bs Hd|h c t' ts bs Hd E Htk].
  - exists Zs, (no_bag :: Bs). by apply conc_request_ok.
  - by eapply conc_run_ok.
  - exists Zs. by eapply conc_return_ok.
  - exists Zs, Bs. pose proof (not_destroying _ _ _ _ _ Hok Hd) as HZ. destruct Hok as [Hi Ht Hv Hz].
    split; try done. by apply inv_op.
  - exists Zs, Bs. pose proof (not_destroying _ _ _ _ _ Hok Hd) as HZ. destruct Hok as [Hi Ht Hv Hz].
    split; try done. by apply (inv_update bs Zs _ h c).
Qed.

Lemma conc_steps_ok cfg cfg' Zs Bs :
  rtc (conc_step b true) cfg cfg' → conc_ok cfg Zs Bs → ∃ Zs' Bs', conc_ok cfg' Zs' Bs'.
Proof using All.
  intros Hst. revert Zs Bs. induction Hst as [|c1 c2 c3 H _ IH]; intros Zs Bs Hok; [by exists Zs, Bs|].
  destruct (conc_step_ok _ _ _ _ H Hok) as (Zs' & Bs' & Hok'). by eapply IH.
Qed.

(** A balanced backend that serves nobody. *)
Lemma conc_ok_start (bs : BS) leaked : backend_ok iu nets ip bs leaked → conc_ok ([], bs) ∅ [].
Proof using All.
  intros [[H1 H2 H3] Hh Hn]. split; cbn; [|done|constructor|done]. split.
  - exists (mkBag (map UID leaked) (omap res_Network leaked) (flat_map Ports leaked)).
    rewrite (right_id_L ∅ (∖)). rewrite map_app in H1. rewrite omap_app in H2. rewrite flat_map_app in H3. by split.
  - apply map_empty_subseteq.
  - intros h c Hc. split; [by apply Hh|by eapply Hn].
Qed.

Lemma conc_ok_isolated ts (bs : BS) Zs Bs : conc_ok (ts, bs) Zs Bs → isolated (b_containers bs ∖ Zs).
Proof using All.
  intros [[[L [H1 H2 H3]] _ Hf] _ _ _]. cbn in *.
  apply ledger_held_nodup, NoDup_app in H1 as [N1 _], H2 as [N2 _], H3 as [N3 _].
  apply nodup_isolated; [done..|]. intros h c [Hc _]%lookup_difference_Some. by apply (Hf h).
Qed.

(** ** Requests one at a time *)

Lemma thread_runs excl r (p : prog BS unit) ts bs :
  rtc (conc_step b excl) ((r, p) :: ts, bs) (ts, (run p bs).2).
Proof using Type.
  revert bs. induction p as [res|f IH] using prog_ind'; intros bs.
  - apply rtc_once, (cs_return b excl r res []).
  - specialize (IH bs). cbn [run]. destruct (f bs) as [p' bs'] eqn:E.
    eapply rtc_l; [by apply (cs_run b excl r f p' [] ts bs bs')|]. apply IH.
Qed.

Lemma act_steps excl (cfg : list thread * BS) a : rtc (conc_step b excl) cfg (act b excl cfg a).
Proof using Type.
  destruct cfg as [ts bs]. destruct a as [r|i|i]; cbn [act].
  - destruct r as [spec|h]; cbn [victim].
    + rewrite andb_false_r. apply rtc_once, cs_request. by destruct excl.
    + case_bool_decide as Hin; destruct excl; cbn [andb]; try done; apply rtc_once, cs_request; [done| |done].
      by rewrite destroying_victim.
  - destruct (ts !! i) as [[r [res|f]]|] eqn:E; [done| |done].
    destruct (f bs) as [p' bs'] eqn:Ef. apply rtc_once. pose proof (lookup_lt_Some _ _ _ E) as Hlt.
    rewrite <-(take_drop_middle ts i (r, Act f) E) at 1. rewrite insert_take_drop by done. by apply cs_run.
  - destruct (ts !! i) as [[r [res|f]]|] eqn:E; [|done..].
    apply rtc_once. rewrite delete_take_drop. rewrite <-(take_drop_middle ts i (r, Done res) E) at 1. apply cs_return.
Qed.

Lemma perform_steps excl l (cfg : list thread * BS) : rtc (conc_step b excl) cfg (perform b excl l cfg).
Proof using Type.
  revert cfg. induction l as [|a l IH]; intros cfg; [done|]. etrans; [apply act_steps|apply IH].
Qed.
End interleaving.

(** * Properties *)

(** C4: requests that overlap keep containers apart. Whatever creations and destructions
    are in progress at the same time, however their calls to the pools, to the map and to
    the outside alternate, and whatever fails, no two containers in the map that nobody
    is destroying share a uid, a network or a port of the port pool, as long as no handle
    is destroyed by two requests at a time, and a container that is being destroyed gets
    no other request meanwhile. *)
Theorem overlapping_requests_isolated {K : Kernel} {UP NP PP}
    `{!ResourcePool UP Z Z, !ResourcePool NP Network string, !ResourcePool PP Z Z}
    `{!ResourcePoolLaws UP Z Z, !ResourcePoolLaws NP Network string, !ResourcePoolLaws PP Z Z}
    b iu nets ip (bs bs' : BState UP NP PP) leaked ts h1 h2 c1 c2 :
  backend_ok iu nets ip bs leaked → rtc (conc_step b true) ([], bs) (ts, bs') →
  b_containers bs' !! h1 = Some c1 → b_containers bs' !! h2 = Some c2 → h1 ≠ h2 →
  ¬ destroying h1 ts → ¬ destroying h2 ts →
  UID (c_resources c1) ≠ UID (c_resources c2) ∧
  res_Network (c_resources c1) ≠ res_Network (c_resources c2) ∧
  ∀ port, port ∈ Ports (c_resources c1) → port ∉ Ports (c_resources c2).
Proof.
  intros Hok Hst E1 E2 Hne D1 D2.
  destruct (conc_steps_ok b iu nets ip _ _ _ _ Hst (conc_ok_start b iu nets ip bs leaked Hok)) as (Zs & Bs & Hc).
  apply (conc_ok_isolated b iu nets ip ts bs' Zs Bs Hc h1 h2 c1 c2); [| |done];
    (rewrite strip_lookup; [done|]);
    by apply (not_destroying (UP := UP) (NP := NP) (PP := PP) iu nets ip ts bs' Zs Bs).
Qed.

(** A request that nothing comes between is the sequential operation: the programs whose
    steps interleave are [Create] and [Destroy], result and state, when they run alone, and
    every request can do so, to its end, at any moment. *)
Theorem uninterrupted_requests {K : Kernel} {UP NP PP}
    `{!ResourcePool UP Z Z, !ResourcePool NP Network string, !ResourcePool PP Z Z}
    b exclusive spec handle ts (bs : BState UP NP PP) :
  run (Create_prog b spec) bs = Create b spec bs ∧
  run (Destroy_prog b handle) bs = Destroy b handle bs ∧
  rtc (conc_step b exclusive) (ts, bs) (ts, (Create b spec bs).2) ∧
  (exclusive = false ∨ ¬ destroying handle ts →
   rtc (conc_step b exclusive) (ts, bs) (ts, (Destroy b handle bs).2)).
Proof.
  pose proof (Create_runs b spec bs) as HC. pose proof (Destroy_runs b handle bs) as HD.
  split_and!; [done..| |].
  - replace (Create b spec bs).2 with (run (request_prog b (ReqCreate spec)) bs).2.
    + eapply rtc_l; [by apply (cs_request b exclusive (ReqCreate spec)); destruct exclusive|apply thread_runs].
    + cbn [request_prog]. unfold mbind, prog_bind. rewrite run_pbind. unfold mbind, M_bind. rewrite HC.
      by destruct (Create b spec bs) as [[] ?].
  - intros Hex. rewrite <-HD. eapply rtc_l; [|apply (thread_runs b exclusive (ReqDestroy handle))].
    apply (cs_request b exclusive (ReqDestroy handle)). destruct exclusive; [|done]. by destruct Hex.
Qed.

#[local] Existing Instances UIDPool.uid_rp UIDPool.uid_laws NetworkPool.network_rp
  NetworkPool.network_laws PortPool.port_rp PortPool.port_laws.
#[local] Existing Instance quiet_kernel.

(** From start to end, nothing in between. *)
Definition alone (r : request) : list action := ARequest r :: repeat (ARun 0) 12 ++ [AReturn 0].

(** Two requests for the same container, each of which finds it before the other has
    taken it off the map. *)
Definition both_destroy : list action :=
  [ARequest (ReqDestroy "a"); ARequest (ReqDestroy "a"); ARun 0; ARun 1] ++
  repeat (ARun 0) 4 ++ repeat (ARun 1) 4 ++ [AReturn 0; AReturn 0].

Definition shared_uid_schedule : list action :=
  alone (ReqCreate (spec_named "a")) ++ both_destroy ++
  concat (map (λ h, alone (ReqCreate (spec_named h))) ["b"; "c"; "d"; "e"]).

Definition state_and_uid (m : gmap string LinuxContainer) (h : string) : option (string * Z) :=
  (λ c, (c_state c, UID (c_resources c))) <$> m !! h.

Lemma shared_uid_computed :
  let cfg := perform example_backend false shared_uid_schedule ([], example_start) in
  (cfg.1, state_and_uid (b_containers cfg.2) "d", state_and_uid (b_containers cfg.2) "e") =
    ([], Some (StateActive, 10000), Some (StateActive, 10000)).
Proof. vm_compute. reflexivity. Qed.

(** C39: two requests that destroy the same container at the same time break isolation: both
    find it in the map, both run the destroy script, which succeeds on a container that is
    gone, and both release its uid. The pool then has the uid twice, and two containers created
    later, both running, share it. *)
Theorem overlapping_destroys_share_uid :
  ∃ bs c1 c2,
    rtc (conc_step example_backend false) ([], example_start) ([], bs) ∧
    b_containers bs !! "d" = Some c1 ∧ b_containers bs !! "e" = Some c2 ∧
    c_state c1 = StateActive ∧ c_state c2 = StateActive ∧
    UID (c_resources c1) = UID (c_resources c2).
Proof.
  pose proof (perform_steps example_backend false shared_uid_schedule ([], example_start)) as Hst.
  pose proof shared_uid_computed as Hc. cbn zeta in Hc.
  destruct (perform _ _ _ _) as [ts bs]. cbn [fst snd] in Hc. injection Hc as -> Hd He.
  apply fmap_Some in Hd as (c1 & H1 & E1), He as (c2 & H2 & E2). injection E1 as E1 E1'. injection E2 as E2 E2'.
  exists bs, c1, c2. split_and!; [done..|]. congruence.
Qed.

(** ** Witnesses *)

(** Two creations, step by step in turn. *)
Definition both_create : list action :=
  [ARequest (ReqCreate (spec_named "a")); ARequest (ReqCreate (spec_named "b"))] ++
  concat (repeat [ARun 0; ARun 1] 12) ++ [AReturn 0; AReturn 0].

Lemma overlapping_requests_isolated_witness :
  match perform example_backend true both_create ([], example_start) with
  | ([], bs) => match b_containers bs !! "a", b_containers bs !! "b" with
                | Some c1, Some c2 => UID (c_resources c1) ≠ UID (c_resources c2)
                | _, _ => False
                end
  | _ => False
  end.
Proof.
  pose proof (perform_steps example_backend true both_create ([], example_start)) as Hst.
  destruct (perform example_backend true both_create ([], example_start)) as [ts bs] eqn:E.
  destruct ts as [|t ts]; [|exfalso; vm_compute in E; discriminate E].
  destruct (b_containers bs !! "a") as [c1|] eqn:E1;
    [|exfalso; vm_compute in E; injection E as <-; vm_compute in E1; discriminate E1].
  destruct (b_containers bs !! "b") as [c2|] eqn:E2;
    [|exfalso; vm_compute in E; injection E as <-; vm_compute in E2; discriminate E2].
  apply (overlapping_requests_isolated example_backend _ _ _ example_start bs [] [] "a" "b" c1 c2 example_start_ok Hst E1 E2);
    [discriminate|intros H; inversion H..].
Defined.

Lemma uninterrupted_requests_witness :
  rtc (conc_step example_backend true) ([], example_start) ([], (Destroy example_backend "a" example_start).2).
Proof.
  apply (uninterrupted_requests example_backend true (spec_named "a") "a" [] example_start).
  right. intros H. inversion H.
Defined.
