(* ===== verification/Restart.v ===== *)
(** Stopping and starting the daemon ([LinuxBackend.Stop], then [LinuxBackend.Start]
    of a new process): what becomes of the containers.

    [Stop] writes a snapshot of every container; [Start] finds the files, restores
    them and throws the directory away. The file system is described by
    [file_text]: what a file holds that was created and written by [os.Create] and
    [Write], as long as nothing was removed. *)
From S2P Require Import Prelude GoStd OS ResourcePool Net Network Warden Snapshot Process.
From S2P Require UIDPool PortPool NetworkPool.
From S2P Require Import ProcessTracker LinuxContainer ContainerPool LinuxBackend SnapshotJson.

Local Open Scope string_scope.
Local Open Scope list_scope.
Local Open Scope Z_scope.

(** * Files *)

(** The content of a file, if it is known. *)
Definition file_text (p : string) (h : Trace) : option string :=
  foldl (λ acc c, match c with
                  | SCreate p' => if decide (p' = p) then Some "" else acc
                  | SWrite p' d => if decide (p' = p) then (λ t, t +:+ d) <$> acc else acc
                  | SRemoveAll _ | SRemove _ => None
                  | _ => acc
                  end) None h.

(** Opening such a file succeeds and gives its content. *)
Definition FileStore {K : Kernel} (p : string) : Prop := ∀ h text,
  file_text p h = Some text → sys_output h (SOpen p) = text.

(** No call to the outside fails. *)
Definition reliable (K : Kernel) : Prop := ∀ h c, sys_error h c = None.

Definition leaves_files (c : Syscall) : Prop :=
  match c with SCreate _ | SWrite _ _ | SRemoveAll _ | SRemove _ => False | _ => True end.

(** The calls made since [h] leave the files alone. *)
Definition keeps_files : relation Trace := λ h h', ∃ l, h' = h ++ l ∧ Forall leaves_files l.

(** Every process of the container runs with its link established. *)
Definition all_linked (t : ProcessTracker) : Prop :=
  ∀ id p, processes t !! id = Some p → p_linked p = true.

(** What a tracker's snapshot is made of. *)
Definition process_names (t : ProcessTracker) : gmap Z (Z * bool) :=
  (λ p, (p_id p, p_withTty p)) <$> processes t.

(** * Lemmas *)

#[local] Instance keeps_files_preorder : PreOrder keeps_files.
Proof.
  split; [intros h; exists []; by rewrite app_nil_r|].
  intros h1 h2 h3 (l1 & -> & H1) (l2 & -> & H2). exists (l1 ++ l2). rewrite <-app_assoc.
  by rewrite Forall_app.
Qed.

Lemma keeps_call h c : leaves_files c → keeps_files h (h ++ [c]).
Proof. intros H. exists [c]. by rewrite Forall_singleton. Qed.

Lemma file_text_app p h l : Forall leaves_files l → file_text p (h ++ l) = file_text p h.
Proof.
  intros Hl. unfold file_text. rewrite foldl_app. generalize (foldl
    (λ acc c, match c with
              | SCreate p' => if decide (p' = p) then Some "" else acc
              | SWrite p' d => if decide (p' = p) then (λ t, t +:+ d) <$> acc else acc
              | SRemoveAll _ | SRemove _ => None
              | _ => acc
              end) None h).
  induction Hl as [|c l Hc _ IH]; intros acc; [done|]. cbn. rewrite IH. by destruct c.
Qed.

Lemma file_text_keeps p h h' : keeps_files h h' → file_text p h' = file_text p h.
Proof. intros (l & -> & Hl). by apply file_text_app. Qed.

Lemma file_text_saved p h q d :
  file_text p (((h ++ [SCreate q]) ++ [SWrite q d]) ++ [SClose q]) =
    if decide (q = p) then Some d else file_text p h.
Proof.
  unfold file_text. rewrite !foldl_app. cbn. by destruct (decide (q = p)).
Qed.

Section files.
Context {K : Kernel} {PP : Type} `{!ResourcePool PP Z Z}.
Local Abbreviation CS := (CState PP).

Definition c_keeps : relation CS := λ s s', keeps_files (cs_trace s) (cs_trace s').

#[local] Instance c_keeps_preorder : PreOrder c_keeps.
Proof. split; [intros s; unfold c_keeps; done|]. intros s1 s2 s3. unfold c_keeps. apply transitivity. Qed.

Lemma keeps_sys c : leaves_files c → steps keeps_files (sys c).
Proof. intros Hc h. rewrite sys_trace. by apply keeps_call. Qed.
Lemma keeps_sys_ c : leaves_files c → steps keeps_files (sys_ c).
Proof. intros Hc h. rewrite sys__trace. by apply keeps_call. Qed.

Lemma keeps_on_trace {A} (m : M Trace A) : steps keeps_files m → steps c_keeps (on_trace m).
Proof. intros Hm. by apply (steps_zoom c_trace_lens _ keeps_files). Qed.

Lemma keeps_update f : steps c_keeps (update f).
Proof. intros s. unfold c_keeps. done. Qed.

Lemma keeps_on_tracker {A} (m : M TState A) :
  steps (λ s s' : TState, keeps_files s.1 s'.1) m → steps c_keeps (on_tracker m).
Proof. intros Hm. by apply (steps_zoom c_tracker_lens _ (λ s s' : TState, keeps_files s.1 s'.1)). Qed.

Ltac keeps_leaf := first
  [ apply keeps_update
  | apply keeps_on_trace; first [by apply keeps_sys_ | apply steps_ignore_err; [apply _|by apply keeps_sys_]] ].

Lemma LinuxContainer_Restore_keeps snapshot : steps c_keeps (LinuxContainer.Restore snapshot).
Proof.
  unfold LinuxContainer.Restore, LimitMemory, startOomNotifier, NetIn, acquire_port, NetOut.
  repeat op_step; cbn zeta; repeat op_step; try keeps_leaf.
  - apply keeps_on_tracker. intros s'. destruct (Restore_processes (ps_ID x) (ps_TTY x) s'.1 s'.2) as (t & E & _).
    rewrite <-(surjective_pairing s') in E. rewrite E. cbn. reflexivity.
  - intros s. unfold c_keeps, on_ports, zoom. by destruct (rp_acquire _).
Qed.

(** ** Cleaning up *)

Lemma Unlink_linked id h t :
  all_linked t → ∃ h' t', Unlink id (h, t) = (Ok tt, (h', t')) ∧
    keeps_files h h' ∧ all_linked t' ∧ process_names t' = process_names t.
Proof.
  intros Hl. unfold Unlink, mbind at 1, M_bind at 1, gets at 1. cbn [snd].
  destruct (processes t !! id) as [p|] eqn:Hp; [|by exists h, t].
  rewrite (Hl _ _ Hp). cbn [negb]. destruct (p_unlinked p); cbn [negb]; [|by exists h, t].
  set (sc := SSignal (link_cmd (ProcessTracker.containerPath t) p) "interrupt").
  exists (h ++ [sc]), (modify_process id take_unlinked t). split_and!.
  - unfold modify_tracker, zoom, ignore_err, attempt, Signal, mbind, M_bind. cbn. rewrite sys__eq.
    fold sc. by destruct (sys_error h sc).
  - by apply keeps_call.
  - intros id' p'. rewrite modify_process_lookup. case_decide; [|apply Hl].
    intros (q & Hq & ->)%fmap_Some. exact (Hl _ _ Hq).
  - apply map_eq. intros id'. unfold process_names. rewrite !lookup_fmap, modify_process_lookup.
    case_decide; [|done]. by destruct (processes t !! id').
Qed.

Lemma UnlinkAll_linked h t :
  all_linked t → ∃ h' t', UnlinkAll (h, t) = (Ok tt, (h', t')) ∧
    keeps_files h h' ∧ process_names t' = process_names t.
Proof.
  intros Hl. unfold UnlinkAll, mbind, M_bind, gets. cbn [snd].
  assert (Hg : ∀ ids h1 t1, all_linked t1 → ∃ h' t', for_each Unlink ids (h1, t1) = (Ok tt, (h', t')) ∧
            keeps_files h1 h' ∧ process_names t' = process_names t1).
  { induction ids as [|id ids IH]; intros h1 t1 H1; [by exists h1, t1|].
    destruct (Unlink_linked id h1 t1 H1) as (h2 & t2 & E & Hk & Hl2 & Hn).
    destruct (IH h2 t2 Hl2) as (h3 & t3 & E3 & Hk3 & Hn3). exists h3, t3.
    cbn [for_each]. rewrite (bind_Ok _ _ _ _ _ E). split; [done|]. split; [by etrans|congruence]. }
  by apply Hg.
Qed.

Lemma process_names_active t t' : process_names t' = process_names t →
  map (λ p, mkProcessSnapshot (p_id p) (p_withTty p)) (ActiveProcesses t') =
  map (λ p, mkProcessSnapshot (p_id p) (p_withTty p)) (ActiveProcesses t).
Proof.
  intros H. unfold ActiveProcesses.
  rewrite <-!(map_map (λ p : Process, (p_id p, p_withTty p)) (λ q, mkProcessSnapshot q.1 q.2)). f_equal.
  assert (E : ∀ m : gmap Z Process, map (λ p, (p_id p, p_withTty p)) (map_to_list m).*2 =
            (map_to_list ((λ p, (p_id p, p_withTty p)) <$> m)).*2).
  { intros m. rewrite map_to_list_fmap. induction (map_to_list m) as [|[k q] l IH]; [done|]. cbn. by f_equal. }
  rewrite !E. by f_equal; f_equal.
Qed.

(** [Cleanup] ends, and changes nothing that a snapshot shows. *)
Lemma Cleanup_linked h p c :
  all_linked (c_processTracker c) → ∃ h' t',
    Cleanup (mkCState h p c : CS) = (Ok tt, mkCState h' p (set_processTracker t' c)) ∧
    keeps_files h h' ∧ LinuxContainer.Snapshot (set_processTracker t' c) = LinuxContainer.Snapshot c.
Proof.
  intros Hl. destruct (UnlinkAll_linked (h ++ kill_oom c) (c_processTracker c) Hl) as (h' & t' & E & Hk & Hn).
  exists h', t'. split_and!.
  - unfold Cleanup, mbind, M_bind. rewrite stopOomNotifier_eq. unfold on_tracker, zoom. cbn. by rewrite E.
  - etrans; [|exact Hk]. unfold kill_oom. destruct (c_oomNotifier c); [by apply keeps_call|].
    by rewrite app_nil_r.
  - unfold LinuxContainer.Snapshot. cbn [set_processTracker c_processTracker]. f_equal.
    by apply process_names_active.
Qed.
End files.

(** ** Restoring one container *)

(** What is left of a snapshot: of the limits only the memory limit. *)
Definition kept (s : ContainerSnapshot) : ContainerSnapshot :=
  with_limits (only_memory (snap_Limits s)) s.

Section restoring.
Context {K : Kernel} {UP NP PP : Type} {codec : SnapshotCodec}.
Context `{!ResourcePool UP Z Z, !ResourcePool NP Network string, !ResourcePool PP Z Z}.
Context `{!ResourcePoolLaws UP Z Z, !ResourcePoolLaws NP Network string, !ResourcePoolLaws PP Z Z}.
Context `{!SizedPool UP, !SizedPool NP, !NetworkedPool NP}.
Context (p : PoolConf) (iu : list Z) (nets : list string) (ip : list Z).
Context (Hrel : reliable K).
Local Abbreviation accounts := (accounts iu nets ip).

Lemma reliable_wp {S A} (m : M S A) Q s : wp m Q s → ∃ a s', m s = (Ok a, s') ∧ Q a s'.
Proof.
  unfold wp. destruct (m s) as [[a|e|f] s']; [by exists a, s'| |done].
  intros (h & c & He). by rewrite Hrel in He.
Qed.

Lemma RestoreSnapshot_saved (s : PState UP NP PP) rs c n :
  accounts s rs → container_ok c → res_Network (c_resources c) = Some n →
  rp_valid (P := UP) (UID (c_resources c)) → rp_valid (P := NP) n →
  Forall (rp_valid (P := PP)) (Ports (c_resources c)) →
  rp_key (P := UP) (UID (c_resources c)) ∈ rp_key (P := UP) <$> rp_free (ps_uids s) →
  rp_key (P := NP) n ∈ rp_key (P := NP) <$> rp_free (ps_networks s) →
  NoDup (rp_key (P := PP) <$> Ports (c_resources c)) →
  (∀ x, x ∈ Ports (c_resources c) → rp_key (P := PP) x ∈ rp_key (P := PP) <$> rp_free (ps_ports s)) →
  ∃ c' s', RestoreSnapshot p (LinuxContainer.Snapshot c) s = (Ok c', s') ∧
    accounts s' (c_resources c :: rs) ∧ c_resources c' = c_resources c ∧ c_handle c' = c_handle c ∧
    LinuxContainer.Snapshot c' = kept (LinuxContainer.Snapshot c) ∧
    keeps_files (ps_trace s) (ps_trace s').
Proof.
  intros HA Hok Hn Vu Vn Vp Fu Fn Hnd Fp. destruct s as [h u nt q k]. pose proof HA as [H1 H2 H3].
  cbn in H1, H2, H3, Fu, Fn, Fp.
  destruct (rp_remove_in u _ Vu Fu) as (u0 & u' & Eu & _).
  destruct (rp_remove_in nt _ Vn Fn) as (n0 & n' & En & _).
  pose proof (ledger_remove _ _ _ _ _ H1 Vu Eu) as L1.
  pose proof (ledger_remove _ _ _ _ _ H2 Vn En) as L2.
  destruct (claim_ports_eq ip (c_resources c) (Ports (c_resources c)) h u' n' q k _ H3 Vp Hnd Fp)
    as (q' & Eq & L3).
  set (c0 := make_container p (c_id c) (c_handle c) (c_properties c) (c_graceTime c) (c_resources c)).
  pose proof (wp_Restore c c0 h q' Hok eq_refl eq_refl eq_refl eq_refl) as Hw.
  apply reliable_wp in Hw as ([] & [h' q2 c'] & E & Hq & Hr).
  cbn in Hq, Hr. subst q2. pose proof Hr as (Hconf & _ & _ & Hres & _).
  exists c', (mkPState h' u' n' q' k). split_and!.
  - set (sn := LinuxContainer.Snapshot c) in *. unfold RestoreSnapshot. cbn zeta.
    change (snap_Resources sn) with (c_resources c).
    unfold mbind at 1, M_bind at 1. unfold on_uids at 1, zoom at 1. cbn [view p_uids_lens ps_uids]. rewrite Eu.
    cbn [over p_uids_lens]. unfold mbind at 1, M_bind at 1. unfold attempt at 1. rewrite Hn.
    unfold remove_network, on_networks at 1, zoom at 1.
    cbn [view p_networks_lens ps_networks ps_trace ps_uids ps_ports ps_containerNum over]. rewrite En.
    cbn [ps_trace ps_uids ps_ports ps_containerNum]. unfold mbind at 1, M_bind at 1. rewrite Eq.
    unfold mbind at 1, M_bind at 1. rewrite <-Hn.
    assert (Er : NewResources (UID (c_resources c)) (res_Network (c_resources c)) (Ports (c_resources c)) =
                 c_resources c) by (by destruct (c_resources c)).
    rewrite Er. unfold on_container. cbn [ps_trace ps_ports ps_uids ps_networks ps_containerNum].
    change (make_container p (snap_ID sn) (snap_Handle sn) (snap_Properties sn) (snap_GraceTime sn)
              (c_resources c)) with c0. rewrite E. done.
  - split; cbn; rewrite ?Hn; done.
  - exact Hres.
  - unfold c_handle. by rewrite Hconf.
  - by eapply restored_snapshot.
  - pose proof (LinuxContainer_Restore_keeps (LinuxContainer.Snapshot c) (mkCState h q' c0)) as Hk.
    rewrite E in Hk. exact Hk.
Qed.
End restoring.

(** ** Containers by handle *)

Lemma live_filed {V} (m : gmap string LinuxContainer) (f : LinuxContainer → V) cs :
  (∀ h c, m !! h = Some c → c_handle c = h) → cs ≡ₚ live m →
  NoDup (c_handle <$> cs) ∧ list_to_map ((λ c, (c_handle c, f c)) <$> cs) = f <$> m.
Proof.
  intros Hm Hp.
  assert (E : (λ c, (c_handle c, f c)) <$> live m = prod_map id f <$> map_to_list m).
  { unfold live. rewrite <-list_fmap_compose. apply list_fmap_ext. intros i [h c] Hi.
    apply list_elem_of_lookup_2, elem_of_map_to_list in Hi. cbn. by rewrite (Hm _ _ Hi). }
  assert (Hf : ((λ c, (c_handle c, f c)) <$> cs).*1 = c_handle <$> cs).
  { rewrite <-list_fmap_compose. by apply list_fmap_ext. }
  assert (Hn : NoDup (c_handle <$> cs)).
  { rewrite <-Hf, Hp, E. unfold prod_map. rewrite <-list_fmap_compose. apply NoDup_fst_map_to_list. }
  split; [done|]. rewrite (list_to_map_proper _ (prod_map id f <$> map_to_list m)).
  - by rewrite list_to_map_fmap, list_to_map_to_list.
  - by rewrite Hf.
  - by rewrite Hp, E.
Qed.

Lemma live_resources (m : gmap string LinuxContainer) :
  map c_resources (live m) = map snap_Resources (map_to_list (LinuxContainer.Snapshot <$> m)).*2.
Proof.
  unfold live. rewrite map_to_list_fmap. induction (map_to_list m) as [|[h c] l IH]; [done|].
  cbn. by f_equal.
Qed.

Section restart.
Context {K : Kernel} {UP NP PP : Type} {codec : SnapshotCodec}.
Context `{!ResourcePool UP Z Z, !ResourcePool NP Network string, !ResourcePool PP Z Z}.
Context `{!ResourcePoolLaws UP Z Z, !ResourcePoolLaws NP Network string, !ResourcePoolLaws PP Z Z}.
Context `{!SizedPool UP, !SizedPool NP, !NetworkedPool NP, !SnapshotCodecLaws}.
Context (b : BackendConf) (iu : list Z) (nets : list string) (ip : list Z).
Context (Hrel : reliable K).
Local Abbreviation accounts := (accounts iu nets ip).
Local Abbreviation BS := (BState UP NP PP).
Implicit Types (bs : BS) (m : gmap string LinuxContainer).

Definition b_trace (bs : BS) : Trace := ps_trace (b_pool bs).
Definition snapshot_file (c : LinuxContainer) : string := snapshot_path b (c_id c).
Definition snapshot_text (c : LinuxContainer) : string := encode (LinuxContainer.Snapshot c).

(** What it takes for a container to survive a restart. *)
Record saveable (c : LinuxContainer) : Prop := {
  sv_ok : container_ok c;
  sv_linked : all_linked (c_processTracker c);
  sv_encodable : encodable (LinuxContainer.Snapshot c);
  sv_file : FileStore (snapshot_file c)
}.

Lemma reliable_sys sc h : sys sc h = (Ok (sys_output h sc), h ++ [sc]).
Proof. unfold sys. by rewrite Hrel. Qed.
Lemma reliable_sys_ sc h : sys_ sc h = (Ok tt, h ++ [sc]).
Proof. rewrite sys__eq. by rewrite Hrel. Qed.

Lemma b_on_trace_eq {A} (mo : M Trace A) h u n q k m :
  b_on_trace mo (mkBState (mkPState h u n q k) m : BS) =
    ((mo h).1, mkBState (mkPState (mo h).2 u n q k) m).
Proof. unfold b_on_trace, on_pool, p_on_trace, zoom. cbn. by destruct (mo h). Qed.

Lemma bind_b_on_trace {A B} (mo : M Trace A) (f : A → M BS B) h u n q k m a h' :
  mo h = (Ok a, h') →
  (b_on_trace mo ≫= f) (mkBState (mkPState h u n q k) m : BS) = f a (mkBState (mkPState h' u n q k) m).
Proof. intros E. unfold mbind, M_bind. rewrite b_on_trace_eq, E. done. Qed.

(** ** Saving *)

Lemma saveSnapshot_eq c h :
  snapshotsPath b ≠ "" →
  saveSnapshot b c h =
    (Ok tt, ((h ++ [SCreate (snapshot_file c)]) ++ [SWrite (snapshot_file c) (snapshot_text c)])
              ++ [SClose (snapshot_file c)]).
Proof.
  intros Hp. unfold saveSnapshot. rewrite (proj2 (String.eqb_neq _ _) Hp).
  unfold failed_to_snapshot, attempt, mbind, M_bind.
  rewrite !reliable_sys_. cbn. rewrite !reliable_sys_. cbn. by rewrite reliable_sys_.
Qed.

Lemma stop_container_eq handle bs c :
  snapshotsPath b ≠ "" → b_containers bs !! handle = Some c → all_linked (c_processTracker c) →
  ∃ h' c', keeps_files (b_trace bs) h' ∧ LinuxContainer.Snapshot c' = LinuxContainer.Snapshot c ∧
    (stop_container b handle bs).1 = Ok tt ∧
    b_containers (stop_container b handle bs).2 = <[handle := c']> (b_containers bs) ∧
    b_trace (stop_container b handle bs).2 =
      ((h' ++ [SCreate (snapshot_file c)]) ++ [SWrite (snapshot_file c) (snapshot_text c)])
        ++ [SClose (snapshot_file c)].
Proof.
  intros Hp Hc Hl. destruct bs as [[h u n q k] m]. cbn [b_containers] in Hc.
  destruct (Cleanup_linked h q c Hl) as (h' & t' & E & Hk & Hs).
  exists h', (set_processTracker t' c). split_and!; [done..| | |].
  all: unfold stop_container, mbind at 1, M_bind at 1, with_container; cbn [b_containers b_pool ps_trace ps_ports ps_uids ps_networks ps_containerNum];
    rewrite Hc, E; cbn [cs_trace cs_ports cs_container]; unfold mbind, M_bind, Lookup, gets, mbind, M_bind;
    cbn [b_containers]; rewrite lookup_insert_eq; cbn; rewrite b_on_trace_eq;
    unfold ignore_err, attempt, mbind, M_bind; rewrite saveSnapshot_eq by done; cbn; try done.
  unfold b_trace, snapshot_text. cbn. unfold snapshot_file. cbn.
  assert (Hs' : c_id (set_processTracker t' c) = c_id c) by done. by rewrite Hs, Hs'.
Qed.

(** What [Stop] has done once the containers [dn] are saved. *)
Definition saved m (dn : list string) bs : Prop :=
  LinuxContainer.Snapshot <$> b_containers bs = LinuxContainer.Snapshot <$> m ∧
  (∀ h, h ∉ dn → b_containers bs !! h = m !! h) ∧
  ∀ h c, h ∈ dn → m !! h = Some c →
    file_text (snapshot_file c) (b_trace bs) = Some (snapshot_text c).

Lemma Stop_saves bs :
  let m := b_containers bs in
  snapshotsPath b ≠ "" →
  (∀ h c, m !! h = Some c → all_linked (c_processTracker c)) →
  (∀ h1 h2 c1 c2, m !! h1 = Some c1 → m !! h2 = Some c2 →
    snapshot_file c1 = snapshot_file c2 → h1 = h2) →
  (Stop b bs).1 = Ok tt ∧ saved m (map_to_list m).*1 (Stop b bs).2.
Proof.
  intros m Hp Hl Hd. unfold Stop, mbind, M_bind, gets. fold m.
  assert (Hg : ∀ rest dn bs1, NoDup (dn ++ rest) → (∀ h, h ∈ rest → is_Some (m !! h)) → saved m dn bs1 →
            (for_each (stop_container b) rest bs1).1 = Ok tt ∧
            saved m (dn ++ rest) (for_each (stop_container b) rest bs1).2).
  { induction rest as [|x rest IH]; intros dn bs1 Hn Hr HI; [by rewrite app_nil_r|].
    destruct (Hr x) as [c Hc]; [by left|]. destruct HI as (I1 & I2 & I3).
    assert (Hx : x ∉ dn).
    { intros Hx. apply NoDup_app in Hn as (_ & Hn & _). apply (Hn _ Hx). by left. }
    assert (Hc1 : b_containers bs1 !! x = Some c) by (by rewrite I2).
    destruct (stop_container_eq x bs1 c Hp Hc1 (Hl _ _ Hc)) as (h' & c' & Hk & Hs & H1 & H2 & H3).
    cbn [for_each]. unfold mbind, M_bind.
    destruct (stop_container b x bs1) as [r bs2]. cbn [fst snd] in H1, H2, H3. subst r.
    rewrite (cons_middle x dn rest), (assoc_L (++)) in *.
    apply IH; [done|intros h Hh; apply Hr; by right|]. split_and!.
    - rewrite H2, fmap_insert, I1, Hs, <-fmap_insert. by rewrite insert_id.
    - intros h Hh. rewrite not_elem_of_app, list_elem_of_singleton in Hh.
      rewrite H2, lookup_insert_ne by (intros ->; tauto). apply I2. tauto.
    - intros h c1 Hh Hc2. rewrite H3, file_text_saved. case_decide as He.
      + assert (x = h) as -> by (by apply (Hd x h c c1)). by simplify_eq.
      + rewrite (file_text_keeps _ _ _ Hk). apply (I3 h c1); [|done].
        apply elem_of_app in Hh as [Hh|Hh]; [done|]. apply list_elem_of_singleton in Hh as ->.
        by simplify_eq. }
  specialize (Hg (map_to_list m).*1 [] bs). rewrite app_nil_l in Hg. apply Hg.
  - apply NoDup_fst_map_to_list.
  - intros h ([h' c] & -> & Hin%elem_of_map_to_list)%list_elem_of_fmap. by exists c.
  - split_and!; [done..|]. intros h c Hin. by apply elem_of_nil in Hin.
Qed.

(** ** Restoring *)

(** What [Start] has done once the containers [dn] are restored. *)
Definition reloaded h0 (dn : list LinuxContainer) bs : Prop :=
  keeps_files h0 (b_trace bs) ∧ accounts (b_pool bs) (map c_resources dn) ∧
  LinuxContainer.Snapshot <$> b_containers bs =
    list_to_map ((λ c, (c_handle c, kept (LinuxContainer.Snapshot c))) <$> dn).

Lemma restore_eq text sn c' (s s' : PState UP NP PP) m :
  decode text = Ok sn → RestoreSnapshot (pool_conf b) sn s = (Ok c', s') →
  restore b text (mkBState s m) = (Ok c', mkBState s' (<[c_handle c' := c']> m)).
Proof.
  intros Hd E. unfold restore, of_result, mbind, M_bind, on_pool, zoom. rewrite Hd. cbn. by rewrite E.
Qed.

Lemma restore_entry_saved h0 (s0 : PState UP NP PP) dn c rest leaked bs n :
  accounts s0 (map c_resources (dn ++ c :: rest) ++ leaked) →
  NoDup (c_handle <$> dn ++ c :: rest) → saveable c → res_Network (c_resources c) = Some n →
  file_text (snapshot_file c) h0 = Some (snapshot_text c) → reloaded h0 dn bs →
  (restore_entry b (c_id c) bs).1 = Ok tt ∧
  reloaded h0 (dn ++ [c]) (restore_entry b (c_id c) bs).2.
Proof.
  intros [A1 A2 A3] Hnd [S1 S2 S3 S4] Hn Hft (Hk & HA & Hm).
  destruct bs as [[h u nt q k] mm]. unfold b_trace in Hk. cbn in Hk, HA, Hm.
  pose proof HA as [B1 B2 B3]. cbn in B1, B2, B3.
  set (sc := SOpen (snapshot_file c)).
  assert (Hk' : keeps_files h0 (h ++ [sc])) by (etrans; [exact Hk|by apply keeps_call]).
  destruct (ledger_room iu _ _ u (map UID (map c_resources dn)) [UID (c_resources c)]
              (map UID (map c_resources rest ++ leaked)) A1) as (U1 & _ & U2); [|done|].
  { rewrite !map_app. cbn [map]. solve_Permutation. }
  destruct (ledger_room nets _ _ nt (omap res_Network (map c_resources dn)) [n]
              (omap res_Network (map c_resources rest ++ leaked)) A2) as (N1 & _ & N2); [|done|].
  { rewrite !map_app, !omap_app. cbn. rewrite Hn. solve_Permutation. }
  destruct (ledger_room ip _ _ q (flat_map Ports (map c_resources dn)) (Ports (c_resources c))
              (flat_map Ports (map c_resources rest ++ leaked)) A3) as (P1 & P2 & P3); [|done|].
  { rewrite !map_app, !flat_map_app. cbn [map flat_map]. solve_Permutation. }
  apply Forall_cons in U1 as [U1 _], N1 as [N1 _].
  destruct (RestoreSnapshot_saved (pool_conf b) iu nets ip Hrel (mkPState (h ++ [sc]) u nt q k)
              (map c_resources dn) c n) as (c' & s' & E & HA' & _ & Hh & Hs & Hk2); try done.
  { cbn. apply U2. by left. }
  { cbn. apply N2. by left. }
  assert (Er : restore_entry b (c_id c) (mkBState (mkPState h u nt q k) mm) =
               (Ok tt, mkBState s' (<[c_handle c' := c']> mm))).
  { unfold restore_entry, mbind at 1, M_bind at 1, attempt at 1.
    rewrite b_on_trace_eq, reliable_sys. cbn [fst snd]. fold (snapshot_file c).
    rewrite (S4 h (snapshot_text c)) by (by rewrite (file_text_keeps _ h0 h)).
    unfold ignore_err, mbind, M_bind. erewrite attempt_Ok; [done|].
    apply (restore_eq _ (LinuxContainer.Snapshot c)); [by apply decode_encode|exact E]. }
  rewrite Er. split; [done|]. split_and!.
  - by etrans.
  - cbn. eapply accounts_perm; [|exact HA']. rewrite map_app. cbn. solve_Permutation.
  - cbn. rewrite fmap_insert, Hs, Hh, Hm, fmap_app. cbn. rewrite list_to_map_snoc; [done|].
    rewrite <-list_fmap_compose. rewrite fmap_app in Hnd. cbn in Hnd.
    apply NoDup_app in Hnd as (_ & Hnd & _). intros Hin. apply (Hnd (c_handle c)); [exact Hin|by left].
Qed.

(** Everything [Start] does besides restoring leaves containers and pools alone. *)
Lemma Start_restores h u n q k m bs' :
  snapshotsPath b ≠ "" →
  restoreSnapshots b (mkBState (mkPState (h ++ [SStat (snapshotsPath b)]) u n q k) m) = (Ok tt, bs') →
  let bs'' := (Start b (mkBState (mkPState h u n q k) m : BS)).2 in
  b_containers bs'' = b_containers bs' ∧ ∀ rs, accounts (b_pool bs') rs → accounts (b_pool bs'') rs.
Proof.
  intros Hp E. destruct bs' as [[h' u' n' q' k'] m']. cbn zeta.
  set (h2 := (h' ++ [SRemoveAll (snapshotsPath b)]) ++ [SMkdirAll (snapshotsPath b)]).
  assert (Hs : (Start b (mkBState (mkPState h u n q k) m : BS)).2 =
               (on_pool (Prune (pool_conf b) (container_ids m')) (mkBState (mkPState h2 u' n' q' k') m')).2).
  { unfold Start. rewrite (proj2 (String.eqb_neq _ _) Hp).
    unfold mbind at 1 2 3, M_bind at 1 2 3, attempt. rewrite b_on_trace_eq, reliable_sys_. cbn [fst snd].
    unfold mbind at 1 2, M_bind at 1 2. rewrite E.
    unfold ignore_err, attempt, mbind, M_bind. rewrite b_on_trace_eq, reliable_sys_. cbn [fst snd].
    rewrite b_on_trace_eq, reliable_sys_. done. }
  rewrite Hs. unfold on_pool, zoom. cbn [view over b_pool_lens b_pool b_containers].
  assert (Hf : ∀ keep, ∃ h3, (Prune (pool_conf b) keep (mkPState h2 u' n' q' k')).2 = mkPState h3 u' n' q' k').
  { intros keep. unfold Prune, mbind, M_bind. rewrite p_on_trace_eq.
    destruct (ReadDir (depotPath (pool_conf b)) h2) as [[es|e|f] h3]; cbn [fst snd]; [|by eexists..].
    rewrite p_on_trace_eq. by eexists. }
  destruct (Hf (container_ids m')) as [h3 Hf']. destruct (Prune _ _ _) as [r s3]. cbn in Hf'. subst s3.
  split; [done|]. intros rs. cbn. apply accounts_trace.
Qed.

Lemma restoreSnapshots_reloaded h0 (s0 fresh : PState UP NP PP) m cs leaked :
  accounts s0 (map c_resources (live m) ++ leaked) → accounts fresh [] →
  (∀ h c, m !! h = Some c → c_handle c = h ∧ is_Some (res_Network (c_resources c)) ∧ saveable c ∧
    file_text (snapshot_file c) h0 = Some (snapshot_text c)) →
  cs ≡ₚ live m → sys_entries h0 (snapshotsPath b) = map c_id cs → ps_trace fresh = h0 →
  ∃ bs', restoreSnapshots b (mkBState fresh ∅) = (Ok tt, bs') ∧ reloaded h0 cs bs'.
Proof.
  intros HA Hfr Hm Hcs He Ht. destruct fresh as [h u n q k]. cbn in Ht. subst h.
  unfold restoreSnapshots, mbind at 1, M_bind at 1, attempt at 1. rewrite b_on_trace_eq, ReadDir_eq, Hrel.
  cbn [fst snd]. rewrite He.
  assert (Hg : ∀ rest dn bs, cs = dn ++ rest → reloaded h0 dn bs →
            ∃ bs', for_each (restore_entry b) (map c_id rest) bs = (Ok tt, bs') ∧ reloaded h0 cs bs').
  { induction rest as [|c rest IH]; intros dn bs E HI.
    - rewrite app_nil_r in E. subst. by exists bs.
    - assert (Hin : c ∈ live m) by (rewrite <-Hcs, E; apply elem_of_app; right; by left).
      apply live_lookup in Hin as [hd Hc]. destruct (Hm _ _ Hc) as (_ & [nn Hnn] & Hsv & Hft).
      destruct (restore_entry_saved h0 s0 dn c rest leaked bs nn) as [E1 HI1]; try done.
      { rewrite <-E. by rewrite Hcs. }
      { rewrite <-E. apply (live_filed m c_handle cs); [|done]. intros h' c' Hc'. by apply (Hm h' c'). }
      destruct (restore_entry b (c_id c) bs) as [r bs1] eqn:Eb. cbn in E1, HI1. subst r.
      destruct (IH (dn ++ [c]) bs1) as (bs' & E2 & HI2); [by rewrite <-app_assoc|done|].
      exists bs'. split; [|done]. cbn. by rewrite (bind_Ok _ _ _ _ _ Eb). }
  apply (Hg cs []); [done|]. split_and!; [|by eapply accounts_trace|done].
  by apply keeps_call.
Qed.
End restart.

(** * Properties *)

(** C5: a restart keeps the containers: when the daemon stops and a new one starts with
    fresh pools of the same configuration, and no call to the outside fails, [Stop]
    ends, and the new daemon has the same containers under the same handles, with
    everything a snapshot shows of them (uid, network, ports, processes, port
    mappings, events, properties), but for the disk, bandwidth and CPU limits; their
    resources are claimed in the new pools. When the daemon stops, every process is
    linked and every container's snapshot can be written and read back ([saveable]), no
    two containers have the same snapshot file, and the new daemon finds these files
    listed in the directory of snapshots. *)
Theorem restart_keeps_containers {K : Kernel} {UP NP PP : Type} {codec : SnapshotCodec}
    `{!ResourcePool UP Z Z, !ResourcePool NP Network string, !ResourcePool PP Z Z}
    `{!ResourcePoolLaws UP Z Z, !ResourcePoolLaws NP Network string, !ResourcePoolLaws PP Z Z}
    `{!SizedPool UP, !SizedPool NP, !NetworkedPool NP, !SnapshotCodecLaws}
    b iu nets ip (bs : BState UP NP PP) leaked (u : UP) (n : NP) (q : PP) k :
  let m := b_containers bs in
  let stopped := Stop b bs in
  let h := b_trace stopped.2 in
  let started := Start b (mkBState (mkPState h u n q k) ∅) in
  reliable K → snapshotsPath b ≠ "" →
  backend_ok iu nets ip bs leaked → accounts iu nets ip (mkPState h u n q k) [] →
  (∀ handle c, m !! handle = Some c → saveable b c) →
  (∀ h1 h2 c1 c2, m !! h1 = Some c1 → m !! h2 = Some c2 → snapshot_file b c1 = snapshot_file b c2 → h1 = h2) →
  sys_entries (h ++ [SStat (snapshotsPath b)]) (snapshotsPath b) ≡ₚ map c_id (live m) →
  stopped.1 = Ok tt ∧
  LinuxContainer.Snapshot <$> b_containers started.2 = kept ∘ LinuxContainer.Snapshot <$> m ∧
  accounts iu nets ip (b_pool started.2) (map c_resources (live (b_containers started.2))).
Proof.
  intros m stopped h started Hrel Hp [HA Hh Hn] Hfr Hsv Hd He.
  destruct (Stop_saves b Hrel bs Hp) as (HS & _ & _ & Hft); [by intros; eapply sv_linked, Hsv|done|].
  split; [done|]. fold m stopped in Hft. fold h in Hft.
  apply Permutation_map_inv in He as (cs & He & Hcs). symmetry in Hcs.
  destruct (restoreSnapshots_reloaded b iu nets ip Hrel (h ++ [SStat (snapshotsPath b)]) (b_pool bs)
              (mkPState (h ++ [SStat (snapshotsPath b)]) u n q k) m cs leaked HA) as (bs' & E & Hk & HA' & Hm').
  - by eapply accounts_trace.
  - intros hd c Hc. split_and!; [by apply Hh|by eapply Hn|by eapply Hsv|].
    rewrite file_text_app by (by rewrite Forall_singleton).
    apply (Hft hd); [|done]. apply list_elem_of_fmap. exists (hd, c). split; [done|].
    by apply elem_of_map_to_list.
  - done.
  - done.
  - done.
  - destruct (Start_restores b iu nets ip Hrel h u n q k ∅ bs' Hp E) as [Hc HP].
    fold started in Hc, HP. rewrite Hc.
    destruct (live_filed m (kept ∘ LinuxContainer.Snapshot) cs Hh Hcs) as [Hnd Hlf].
    assert (Hres : map c_resources (live (b_containers bs')) ≡ₚ map c_resources cs).
    { rewrite live_resources, Hm', map_to_list_to_map by (by rewrite <-list_fmap_compose).
      match goal with |- ?a ≡ₚ ?b => enough (a = b) as -> by done end.
      clear. induction cs as [|c cs IH]; [done|]. cbn. by f_equal. }
    split; [by rewrite Hm'|]. apply HP. eapply accounts_perm; [|exact HA']. by rewrite Hres.
Qed.

(** * Witnesses *)

#[local] Existing Instances UIDPool.uid_rp UIDPool.uid_laws NetworkPool.network_rp
  NetworkPool.network_laws PortPool.port_rp PortPool.port_laws.

(** Nothing fails, files hold what was written, the snapshot directory lists one file. *)
Definition store_kernel (name : string) : Kernel := {|
  sys_error _ _ := None;
  sys_output h c := match c with SOpen p => default "" (file_text p h) | _ => "" end;
  sys_entries _ _ := [name];
  getenv _ := "/bin";
  environ := []
|}.

Definition example_id : string := containerID 1400000000000000000.

(** A backend with one container, which has one port. *)
Definition one_container : RealBackend :=
  (with_container "a" (do_op (K := store_kernel example_id) (ONetIn 0 8080))
     (Create (K := store_kernel example_id) example_backend (spec_named "a") example_start).2).2.

Definition the_container : option LinuxContainer := b_containers one_container !! "a".

Definition its_snapshot : ContainerSnapshot :=
  match the_container with Some c => LinuxContainer.Snapshot c | None => stored end.

(** The witness writes and reads real JSON. *)
Definition its_network : Network := Network.New (net4 (10 * 2 ^ 24 + 254 * 2 ^ 16) 30).

Lemma its_snapshot_is :
  its_snapshot = mkContainerSnapshot "recikeoo000" "a" 0 "active" [] (mkLimitsSnapshot None None None None)
    (mkResources 10000 (Some its_network) [61001]) [] [mkNetIn 61001 8080] [] {["owner" := "me"]}.
Proof. vm_compute. reflexivity. Qed.

Lemma its_snapshot_ok : snapshot_ok its_snapshot.
Proof.
  rewrite its_snapshot_is. split; try done.
  - split_and!; [done| |by constructor]. split; [|done]. by exists (10 * 2 ^ 24 + 254 * 2 ^ 16).
  - by constructor.
  - by apply map_Forall_singleton.
Qed.

Lemma store_kernel_files name p : FileStore (K := store_kernel name) p.
Proof. intros h text H. cbn. by rewrite H. Qed.

Lemma one_container_only c : the_container = Some c → b_containers one_container = {["a" := c]}.
Proof. intros H. vm_compute in H. injection H as <-. vm_compute. reflexivity. Qed.

Lemma one_container_ok : ∃ leaked, example_ok one_container leaked.
Proof.
  destruct (Create (K := store_kernel example_id) example_backend (spec_named "a") example_start)
    as [[c1|e|f] b1] eqn:E1; [|exfalso; vm_compute in E1; discriminate E1..].
  pose proof (Create_ok (K := store_kernel example_id) example_backend _ _ _
                (spec_named "a") example_start [] example_start_ok) as H.
  unfold one_container. rewrite E1 in *. destruct H as (leaked & H & _). exists leaked.
  apply with_container_ok; [apply op_owns_ports|apply op_evolves|exact H].
Qed.

Lemma one_container_saveable c :
  the_container = Some c →
  saveable (K := store_kernel example_id) example_backend c.
Proof.
  intros H. split.
  - vm_compute in H. injection H as <-. split; [repeat constructor; discriminate|constructor|].
    intros id pr Hp. vm_compute in Hp. discriminate.
  - vm_compute in H. injection H as <-. intros id pr Hp. vm_compute in Hp. discriminate.
  - pose proof its_snapshot_ok as Hok. unfold its_snapshot in Hok. by rewrite H in Hok.
  - apply store_kernel_files.
Qed.

Lemma restart_keeps_containers_witness :
  let h := b_trace (Stop (K := store_kernel example_id) example_backend one_container).2 in
  let fresh := mkPState h (ps_uids example_pools) (ps_networks example_pools) (ps_ports example_pools) 0 in
  let started := Start (K := store_kernel example_id) example_backend
                   (mkBState fresh ∅) in
  LinuxContainer.Snapshot <$> b_containers started.2 = {["a" := kept its_snapshot]}.
Proof.
  destruct one_container_ok as [leaked Hok].
  destruct the_container as [c|] eqn:Hc; [|exfalso; vm_compute in Hc; discriminate Hc].
  pose proof (one_container_only c Hc) as Hm.
  intros h fresh started.
  destruct (restart_keeps_containers (K := store_kernel example_id) example_backend
              example_iu (String_ <$> example_nets) example_ip one_container leaked
              (ps_uids example_pools) (ps_networks example_pools) (ps_ports example_pools) 0)
    as (_ & H1 & _).
  - intros h' sc. reflexivity.
  - discriminate.
  - exact Hok.
  - eapply accounts_trace. exact example_balanced.
  - intros hd c' Hc'. rewrite Hm in Hc'. apply lookup_singleton_Some in Hc' as [<- <-].
    by apply one_container_saveable.
  - intros h1 h2 c1 c2. rewrite Hm. by intros [<- _]%lookup_singleton_Some [<- _]%lookup_singleton_Some.
  - rewrite Hm. unfold live. rewrite map_to_list_singleton. cbn.
    vm_compute in Hc. injection Hc as <-. vm_compute. reflexivity.
  - unfold started, fresh, h. rewrite H1, Hm, map_fmap_singleton. unfold its_snapshot. by rewrite Hc.
Defined.
