(* ===== verification/Main.v ===== *)
(** main.go and system_info/provider.go: the daemon put together from its flags.

    [parse_command_line] reads the flags, [build] makes the backend, [start] sets it up and
    starts the server, [main] is all of it up to the point where the process waits for a
    signal; [on_signal] is what it does then.

    The docker provider, with the graph and the registry it is made of, is an argument, as
    are what the library [gosigar] says of memory and disks, and the number of nanoseconds
    that [time.ParseDuration] makes of a text it accepts (it computes with floating-point
    numbers, and nothing proved depends on it). *)
From S2P Require Import Prelude GoStd OS Flag ResourcePool Net NetParse Network Warden Snapshot SysConfig.
From S2P Require Import RootFSProvider.
From S2P Require QuotaManager UIDPool NetworkPool PortPool.
From S2P Require Import LinuxContainer ContainerPool LinuxBackend.
From S2P Require Import SnapshotJson Bomberman.
From S2P Require GardenServer DockerRegistry.
Import DockerRegistry (IndexServerAddress).
From Stdlib Require Import Ascii.

Local Open Scope string_scope.
Local Open Scope list_scope.
Local Open Scope Z_scope.

(** * system_info/provider.go *)

Section system_info.
(** [sigar.Mem], and [sigar.FileSystemUsage] in kilobytes *)
Context (mem_Total : M Trace Z) (disk_Total : string → M Trace Z).

Definition fromKBytesToBytes (kbytes : Z) : Z := u64 (kbytes * 1024).

Definition SystemTotalMemory : M Trace Z := mem_Total.

Definition SystemTotalDisk (depotPath : string) : M Trace Z :=
  total ← disk_Total depotPath; mret (fromKBytesToBytes total).
End system_info.

(** * main.go *)

Record Flags := mkFlags {
  f_snapshots : string;
  f_bin : string;
  f_depot : string;
  f_overlays : string;
  f_rootfs : string;
  f_disableQuotas : bool;
  f_portPoolStart : Z;
  f_portPoolSize : Z;
  f_uidPoolStart : Z;
  f_uidPoolSize : Z;
  f_denyNetworks : string;
  f_allowNetworks : string;
  f_graph : string;
  f_tag : string;
  f_networkPool : string;
  f_registry : string;
  f_listenNetwork : string;
  f_listenAddr : string;
  f_containerGraceTime : option string
}.

(** The flags' default values, for the directories given. *)
Definition default_flags (bin depot overlays rootfs : string) : Flags :=
  mkFlags "" bin depot overlays rootfs false 61001 5000 10000 256 "" ""
    "/var/lib/warden-docker-graph" "" "10.254.0.0/22" IndexServerAddress "unix" "/tmp/warden.sock" None.

Definition flag_defs (name : string) : option flag_kind :=
  if existsb (String.eqb name)
       ["listenNetwork"; "listenAddr"; "snapshots"; "bin"; "depot"; "overlays"; "rootfs"; "networkPool";
        "denyNetworks"; "allowNetworks"; "graph"; "registry"; "tag"] then Some StringFlag
  else if existsb (String.eqb name) ["disableQuotas"; "debug"] then Some BoolFlag
  else if existsb (String.eqb name) ["portPoolStart"; "portPoolSize"; "uidPoolStart"; "uidPoolSize"] then Some UintFlag
  else if String.eqb name "containerGraceTime" then Some DurationFlag
  else None.

Definition flags_of (l : list (string * flag_value)) : Flags :=
  mkFlags (string_flag "snapshots" "" l) (string_flag "bin" "" l) (string_flag "depot" "" l)
    (string_flag "overlays" "" l) (string_flag "rootfs" "" l) (bool_flag "disableQuotas" false l)
    (int_flag "portPoolStart" 61001 l) (int_flag "portPoolSize" 5000 l)
    (int_flag "uidPoolStart" 10000 l) (int_flag "uidPoolSize" 256 l)
    (string_flag "denyNetworks" "" l) (string_flag "allowNetworks" "" l)
    (string_flag "graph" "/var/lib/warden-docker-graph" l) (string_flag "tag" "" l)
    (string_flag "networkPool" "10.254.0.0/22" l) (string_flag "registry" IndexServerAddress l)
    (string_flag "listenNetwork" "unix" l) (string_flag "listenAddr" "/tmp/warden.sock" l)
    (duration_flag "containerGraceTime" l).

(** [flag.Parse] exits when the arguments do not parse. *)
Definition parse_command_line (args : list string) : Result Flags :=
  '(l, _) ← parse_flags flag_defs args; Ok (flags_of l).

Example parse_command_line_example bin depot :
  parse_command_line ["-bin"; bin; "--depot"; depot; "-overlays=/o"; "-disableQuotas"; "-rootfs"; "/r"; "-uidPoolSize=8"; "rest"] =
  Ok (mkFlags "" bin depot "/o" "/r" true 61001 5000 10000 8 "" "" "/var/lib/warden-docker-graph" ""
        "10.254.0.0/22" IndexServerAddress "unix" "/tmp/warden.sock" None).
Proof. reflexivity. Qed.

(** [log.Fatalln] ends the process. *)
Definition Fatalln {S A} (msg : string) : M S A := raise (mkError "log.Fatalln" msg).

Definition fatal_if {S A} (prefix : string) (m : M S A) : M S A :=
  r ← attempt m; match r with inl a => mret a | inr e => Fatalln (prefix +:+ " " +:+ err_msg e) end.

Definition must_specify (flag value : string) : M Trace unit :=
  if String.eqb value "" then Fatalln ("must specify -" +:+ flag +:+ " with linux backend") else mret tt.

Abbreviation Daemon :=
  (BackendConf * BState UIDPool.UnixUIDPool NetworkPool.RealNetworkPool PortPool.PortPool)%type.

#[local] Existing Instances UIDPool.uid_rp UIDPool.uid_laws NetworkPool.network_rp
  NetworkPool.network_laws PortPool.port_rp PortPool.port_laws.

Abbreviation RealServer :=
  (GardenServer.SState UIDPool.UnixUIDPool NetworkPool.RealNetworkPool PortPool.PortPool).

Section main.
Context {K : Kernel}.
Context (mem_Total : M Trace Z) (disk_Total : string → M Trace Z).

(** [graphdriver.New], [graph.NewGraph] and [registry.NewRegistry], and the provider
    [NewDocker] makes of them *)
Context (docker : string → string → M Trace RootFSProvider).

(** The clock when the id generator starts, and the iterations the network pool's
    constructor is given: a pool that needs more does not terminate. *)
Context (now : Z) (fuel : nat).

Definition networks (ipNet : IPNet) : M Trace NetworkPool.RealNetworkPool :=
  match NetworkPool.New fuel ipNet with
  | Some r => of_result r
  | None => crash Blocked
  end.

(** Up to the creation of the backend. *)
Definition build (f : Flags) : M Trace Daemon :=
  must_specify "bin" (f_bin f) ≫= λ _,
  must_specify "depot" (f_depot f) ≫= λ _,
  must_specify "overlays" (f_overlays f) ≫= λ _,
  must_specify "rootfs" (f_rootfs f) ≫= λ _,
  let uidPool := UIDPool.New (u32 (f_uidPoolStart f)) (u32 (f_uidPoolSize f)) in
  '(_, ipNet) ← fatal_if "error parsing CIDR:" (of_result (ParseCIDR (f_networkPool f)));
  networkPool ← networks ipNet;
  let portPool := PortPool.New (u32 (f_portPoolStart f)) (u32 (f_portPoolSize f)) in
  let config := NewConfig (f_tag f) in
  let runner := NewRunner config in
  quotaManager ← fatal_if "error creating quota manager:"
    (QuotaManager.New (K := runner) (f_depot f) (f_bin f));
  let quotaManager := if f_disableQuotas f then QuotaManager.Disable quotaManager else quotaManager in
  fatal_if "error creating graph directory:" (sys_ (SMkdirAll (f_graph f))) ≫= λ _,
  dockerProvider ← fatal_if "error constructing graph:" (docker (f_graph f) (f_registry f));
  h ← gets id;
  mret (mkBackendConf
          (mkPoolConf (f_bin f) (f_depot f) config (Split (f_denyNetworks f) ","%char) (Split (f_allowNetworks f) ","%char)
             (<["" := NewOverlay (K := runner) (f_bin f) (f_overlays f) (f_rootfs f)]>
                {["docker" := dockerProvider]})
             quotaManager)
          (f_snapshots f) (SystemTotalMemory mem_Total) (SystemTotalDisk disk_Total (f_depot f)),
        mkBState (mkPState h uidPool networkPool portPool now) ∅).

(** [time.ParseDuration] on a text it accepts, and [os.IsNotExist] *)
Context (ParseDuration : string → Z) (os_IsNotExist : error → bool).

Definition graceTime (f : Flags) : Z :=
  match f_containerGraceTime f with Some text => ParseDuration text | None => 0 end.

(** From the construction of the backend to the wait for a signal. *)
Definition start (f : Flags) (b : BackendConf) : M RealServer unit :=
  let runner := NewRunner (NewConfig (f_tag f)) in
  fatal_if "failed to set up backend:" (GardenServer.on_backend (LinuxBackend.Setup (K := runner) b)) ≫= λ _,
  fatal_if "failed to start:"
    (GardenServer.Start (K := runner) b os_IsNotExist (f_listenNetwork f) (f_listenAddr f)).

(** The handler of signals: [Stop], once the wait for the connections is over. *)
Definition on_signal (f : Flags) (b : BackendConf) : M RealServer unit :=
  GardenServer.StopBackend (K := NewRunner (NewConfig (f_tag f))) b.

(** What runs at time [t0] when the arguments are [args]: the flags, the backend's
    configuration, the server's grace time and its state. *)
Definition main (args : list string) (t0 : Z) (h : Trace) : Result (Flags * BackendConf * Z * RealServer) :=
  f ← parse_command_line args;
  '(b, bs) ← (build f h).1;
  let '(r, s) := start f b (GardenServer.mkSState bs (no_bombs t0) []) in
  _ ← r; Ok (f, b, graceTime f, s).
End main.

(** * Lemmas *)

(** What the pools of the daemon are made of. *)
Definition daemon_uids (f : Flags) : list Z :=
  let s := u32 (f_uidPoolStart f) in seqZ s (UIDPool.bound s (u32 (f_uidPoolSize f)) - s).
Definition daemon_ports (f : Flags) : list Z :=
  let s := u32 (f_portPoolStart f) in seqZ s (PortPool.bound s (u32 (f_portPoolSize f)) - s).
Definition base_of (a n : Z) : Z := a / 2 ^ (32 - n) * 2 ^ (32 - n).
Definition daemon_nets (a n : Z) : list string :=
  String_ <$> (NetworkPool.nth_subnet (base_of a n) <$> seqZ 0 (2 ^ (30 - n))).

(** The flag [-networkPool] names the IPv4 network of [a], [n] bits long. *)
Definition names_pool (f : Flags) (a n : Z) : Prop :=
  0 ≤ n ≤ 30 ∧ 0 ≤ a < 2 ^ 32 ∧ f_networkPool f = IP_String (ip4 a) +:+ "/" +:+ fmt_d n.

Section daemon.
Context {K : Kernel}.
Context (mem_Total : M Trace Z) (disk_Total : string → M Trace Z) (docker : string → string → M Trace RootFSProvider).

Lemma fatal_if_Ok {S A} prefix (m : M S A) h a h' :
  fatal_if prefix m h = (Ok a, h') → m h = (Ok a, h').
Proof. unfold fatal_if, attempt, mbind, M_bind. by destruct (m h) as [[] ?]. Qed.

Lemma must_specify_Ok flag value h x h' :
  must_specify flag value h = (Ok x, h') → h' = h.
Proof. unfold must_specify. destruct (String.eqb value ""); by intros [=]. Qed.

Lemma base_of_range a n :
  0 ≤ n ≤ 30 → 0 ≤ a < 2 ^ 32 → 0 ≤ base_of a n < 2 ^ 32 ∧ base_of a n mod 2 ^ (32 - n) = 0.
Proof.
  intros Hn Ha. unfold base_of. assert (0 < 2 ^ (32 - n)) by (apply Z.pow_pos_nonneg; lia).
  pose proof (Z.mul_div_le a (2 ^ (32 - n)) ltac:(lia)). pose proof (Z.div_pos a (2 ^ (32 - n)) ltac:(lia) ltac:(lia)).
  split; [nia|]. by apply Z.mod_mul; lia.
Qed.

(** A daemon that starts up has all its resources, and none in use. *)
Lemma build_ok now fuel f a n b bs h h' :
  names_pool f a n → 2 ^ (30 - n) < Z.of_nat fuel →
  build mem_Total disk_Total docker now fuel f h = (Ok (b, bs), h') →
  snapshotsPath b = f_snapshots f ∧
  backend_ok (daemon_uids f) (daemon_nets a n) (daemon_ports f) bs [] ∧
  b_containers bs = ∅.
Proof.
  intros (Hn & Ha & Hp) Hf H. unfold build in H. destruct (base_of_range a n Hn Ha) as [Hb Hal].
  do 4 (apply bind_Ok_inv in H as (? & ? & ?%must_specify_Ok & H); subst).
  rewrite Hp, ParseCIDR_print in H by (done || lia). apply bind_Ok_inv in H as ([ip ipNet] & ? & [= <- <- <-] & H).
  fold (base_of a n) in H. apply bind_Ok_inv in H as (np & h1 & Hnp & H). unfold networks in Hnp.
  rewrite NetworkPool.pool_New_v4 in Hnp by done. injection Hnp as <- <-.
  apply bind_Ok_inv in H as (qm & h2 & _ & H). apply bind_Ok_inv in H as (? & h3 & _ & H).
  apply bind_Ok_inv in H as (pv & h4 & _ & H).
  apply bind_Ok_inv in H as (? & ? & [= <- <-] & H). injection H as <- <- <-.
  split_and!; [done|split; [split|done..]|done].
  - apply UIDPool.uid_ledger_New, u32_range.
  - by apply NetworkPool.network_ledger_New.
  - apply PortPool.port_ledger_New, u32_range.
Qed.
End daemon.

Lemma main_Ok {K : Kernel} mem_Total disk_Total docker now fuel ParseDuration os_IsNotExist args t0 h f b g s :
  main mem_Total disk_Total docker now fuel ParseDuration os_IsNotExist args t0 h = Ok (f, b, g, s) →
  ∃ bs h', build mem_Total disk_Total docker now fuel f h = (Ok (b, bs), h') ∧
    start os_IsNotExist f b (GardenServer.mkSState bs (no_bombs t0) []) = (Ok tt, s).
Proof.
  unfold main. destruct (parse_command_line args) as [f'|e|c]; [|done..]. cbn [mbind Result_bind].
  destruct (build _ _ _ _ _ f' h) as [[[b' bs]|e|c] h'] eqn:Hb; [|done..]. cbn [mbind Result_bind fst].
  destruct (start _ f' b' _) as [[[]|e|c] s'] eqn:Hs; [|done..]. cbn [mbind Result_bind].
  intros [= <- <- <- <-]. by exists bs, h'.
Qed.

(** * Properties *)

Section properties.
Context {K : Kernel}.
Context (mem_Total : M Trace Z) (disk_Total : string → M Trace Z) (docker : string → string → M Trace RootFSProvider).

(** The daemon isolates its containers: started with any flags and an IPv4 network
    pool of [/30] blocks or larger, whatever requests its backend serves one at a time,
    whatever fails, panics or blocks and whatever processes do, no two containers ever
    share a uid, a network or a port of the port pool; and of the uids, networks and ports its flags name none is ever lost or
    made up: each is free, in one container, or was given up by a failed request. *)
Theorem daemon_isolates_containers `{codec : SnapshotCodec} now fuel f a n b bs bs' h h' :
  names_pool f a n → 2 ^ (30 - n) < Z.of_nat fuel →
  build mem_Total disk_Total docker now fuel f h = (Ok (b, bs), h') →
  rtc (b_step (K := NewRunner (NewConfig (f_tag f))) b) bs bs' →
  isolated (b_containers bs') ∧
  ∃ lost, accounts (daemon_uids f) (daemon_nets a n) (daemon_ports f) (b_pool bs')
            (map c_resources (live (b_containers bs')) ++ lost).
Proof.
  intros Hp Hf Hb Hst.
  destruct (build_ok mem_Total disk_Total docker now fuel f a n b bs h h' Hp Hf Hb) as (_ & Hok & _).
  destruct (b_steps_ok (K := NewRunner (NewConfig (f_tag f))) b _ _ _ bs bs' [] Hst Hok) as [lost Hok'].
  split; [by eapply backend_ok_isolated|]. exists lost. by destruct Hok'.
Qed.

End properties.

(** With the default flags the port pool reaches past the last port number: after 4535
    ports the next one it hands out is 65536. *)
Theorem default_ports_out_of_range bin depot overlays rootfs :
  let f := default_flags bin depot overlays rootfs in
  let p := PortPool.New (u32 (f_portPoolStart f)) (u32 (f_portPoolSize f)) in
  (PortPool.Acquire (Nat.iter 4535 (λ p, (PortPool.Acquire p).2) p)).1 = Ok 65536.
Proof. vm_compute. reflexivity. Qed.

(** * Witnesses *)

Definition example_docker : RootFSProvider :=
  NewDocker (λ _ _, mret "image") (λ _ _, mret tt) (λ _, mret "/graph/image") (λ _, mret tt) (λ _, mret tt).

Lemma default_pool bin depot overlays rootfs : names_pool (default_flags bin depot overlays rootfs) NetworkPool.default_base 22.
Proof. split_and!; done. Qed.

Lemma daemon_isolates_containers_witness :
  match build (K := quiet_kernel) (mret 1) (λ _, mret 1) (λ _ _, mret example_docker) 1400000000000000000 300
          (default_flags "/bin" "/depot" "/overlays" "/rootfs") [] with
  | (Ok (b, bs), _) =>
      let K := NewRunner (K := quiet_kernel) (NewConfig "") in
      let bs' := (Create (K := K) b (spec_named "b") (Create (K := K) b (spec_named "a") bs).2).2 in
      isolated (b_containers bs') ∧ size (b_containers bs') = 2%nat
  | _ => False
  end.
Proof.
  destruct (build (K := quiet_kernel) _ _ _ _ _ _ _) as [[[b bs]|e|c] h'] eqn:E;
    [|exfalso; vm_compute in E; discriminate E..].
  intros K bs'. split.
  - eapply (daemon_isolates_containers (K := quiet_kernel) (codec := one_codec) (mret 1) (λ _, mret 1)
              (λ _ _, mret example_docker) 1400000000000000000 300 _ NetworkPool.default_base 22 b bs bs').
    + apply default_pool.
    + reflexivity.
    + exact E.
    + eapply rtc_l; [apply bs_create|]. apply rtc_once. apply bs_create.
  - vm_compute in E. injection E as <- <- _. vm_compute. reflexivity.
Defined.

Definition example_args : list string :=
  ["-bin"; "/bin"; "-depot=/depot"; "-overlays"; "/overlays"; "-rootfs"; "/rootfs"; "-containerGraceTime=5m"].

Abbreviation example_main :=
  (main (K := quiet_kernel) (mret 1) (λ _, mret 1) (λ _ _, mret example_docker) 1400000000000000000 300
     (λ _, 300000000000) (λ _, true) example_args 0 []).

(** How it answers a request for a container *)
Lemma example_main_starts :
  match example_main with
  | Ok (f, b, g, s) =>
      let r := GardenServer.serve (K := NewRunner (K := quiet_kernel) (NewConfig (f_tag f))) b g GardenServer.Create
                 GardenServer.create_a s in
      parse_command_line example_args = Ok f ∧ size (b_containers (GardenServer.ss_backend r.2)) = 1%nat
  | _ => False
  end.
Proof. vm_compute. repeat split. Qed.

